(* ===== verification/_CoqProject ===== *)
-Q . S2P
Prelude.v
Js.v
JsFacts.v
Regex.v
Page.v
Dates.v
Layout.v
TagList.v
Url.v
Base.v
Controls.v
Picker.v
Widgets.v
Search.v
Select.v
Markup.v
Template.v
Tabs.v
Trigger.v
Task.v
TaskForm.v
Pool.v
Import.v
Selection.v
Columns.v
Compare.v
Account.v
Tips.v
Operator.v
Roles.v
Corp.v
Campaign.v
Forms.v
Steps.v
Lists.v
Smtp.v
SdMenu.v
Rules.v
Desk.v
Listing.v
Labels.v
Periods.v
