(* ===== verification/Prelude.v ===== *)
(** * A verification library for the edm web front end

    edm is a mailing platform: Java servers and C++ delivery services, and the
    JavaScript of two web sites.  This development models the scripts the
    platform's own authors wrote and proves what makes them correct: those of
    the site of its customers, the files under
    [src/webadmin/A001/WebRoot/static/js/] (paths below are relative to it),
    and those of the site of its operators, under
    [src/webmaster/A001/WebRoot/resources/script/] (named as such below).

    ** How the program is put together

    Every page loads [common/base.js] and the plugins [common/*.js], then the
    scripts of the page ([mailing.*.js], [datasource.*.js], [step.*.js],
    [report.*.js], [account.*.js], [login.js]).  A script is a set of handlers
    that jQuery calls; they share the elements of the page, the widgets
    [base.js] puts there (one overlay stack, one banner, one dialog, one
    drop-down list [.select_div], one layer counter [__maxIndex]) and global
    variables.  Fields that hold several items keep them in an array
    ([data('subArr')]) which the pickers of [base.js] and of the task pages
    edit and show as titles in the field and as ids in the hidden field next
    to it.  The operators' pages load [common/common.js], a smaller copy of
    [base.js], and one script each.

    ** The model

    - [Prelude]: generic lemmas, among them the loops that call [splice] while
      they scan ([splice_scan], which skips the element that slides into the
      freed slot), tactics and the hint database [edm].
    - [Js], [JsFacts]: strings as lists of UTF-16 code units; numbers as
      doubles whose integral values are kept as integers and rounded to 53
      bits; values, truth, loose equality, [split], [join], [indexOf],
      [replace], [parseInt], conversions.  Facts: split and join are inverse,
      [parseInt] reads what [String] prints, search finds the first place.
    - [Regex]: the backtracking matcher of the language for the constructs the
      scripts use, and its declarative meaning [den] with their agreement.
    - [Page]: the state a script acts on ([world]): the elements, the table
      from selectors to elements, the measures of the browser, the widgets
      ([ui]), the trace of what leaves the page ([event]: requests,
      navigation, submissions, focus), the clock, and the script's variables,
      of a type each component chooses.  A script is a value of [J G A]: a
      state transformer whose result is a value or an exception.  [frames],
      [style_only], [quiet] and [inert] say what a script leaves alone;
      [style_only] is an equivalence, with [Proper] instances for what a script
      reads, so that proofs rewrite worlds up to it.
    - [Layout] (placements of [posfix], [openSlideBox], [$.openTips],
      [UIselect]), [TagList] (the array operations of [base.js]), [Url]
      ([pageNo_fun], [getEncode]), [Base] (overlays, dialogs, banner, pickers;
      interface [SubArr]: where a page keeps the arrays of its fields, with its
      law), [Widgets] (drag, placeholder, [insertContent], [isParent], [suff],
      the marks of the menu).
    - [Picker] (sessions of a field as an abstract ordered set), [Search]
      ([jquery.edm.search.js], and where its copy on the operators' site differs
      from it: [Search.op_initInput_differs]), [Tips] (its [gtips] bubbles, as
      two step machines), [Select] ([select.js], [Mselect.js], [pagination.js]).
    - [Markup], [Template] ([mailing.template.common.js],
      [mailing.template.add.js]): the header and footer blocks put in and taken
      out by regular expressions; the two editors and their modes.  KindEditor
      is not part of the repository's own code: it is the class [KindEditor],
      with the laws the round trip needs in [KindEditorLaws], and the witnesses
      use the instance [plain_editor] that keeps its text.
    - [Trigger]: the trigger plans of a template (same files): the tables of
      links and the gate before a submission.  How a browser parses the anchors
      of an HTML text is the parameter [anchors].
    - [Task] ([mailing.task.common.js], [mailing.task.add.js]), [Pool]
      ([datasource.recipient.add.js] and the copies in the import pages),
      [Import] ([step.2.js], [step.2.import.js], [step.2.export.js],
      [datasource.selection.*.js]), [Compare] ([report.detail.compare.js]),
      [Account] ([account.user.add.js], [account.password.js], [settings.js],
      [login.js]).
    - [Controls], [TaskForm], [Selection]: sessions on forms with several
      controls.  A page is summed up by a vector of [look]s (text, items,
      disabled, ticked), one for each control; the operations of [Base] act on
      the vector alone.  [TaskForm] is the form of a task with the handlers that
      [mailing.task.add.js] binds; [Selection] are the two fields of tags of
      [datasource.selection.export.js] and [step.2.export.js], against the
      interface [Counter] of the function that counts the recipients.
      [Columns] are the sessions of an import: uploads, encodings and the naming
      of columns, which put the pool of [Pool] and the table of [Import]
      together.
    - [Tabs] ([mailing.template.add.js], [mailing.template.common.js]): the tabs
      of the template page, exactly one of which is shown and marked whatever
      is clicked ([Tabs.tabs_session]), and the further options of the sender.
    - [Campaign] ([mailing.campaign.import.js]), [Steps] ([step.1.js],
      [step.3.js], which compose [Template], [Trigger] and [Task]), [Lists]
      (the rows, sections and small forms of the pages that list things).
    - [Forms] ([datasource.form.*.js]): the form builder.  What it asks of the
      visual editor and of the document inside it is the class [EditorDom], with
      the laws the theorem uses in [EditorDomLaws]; the witness uses an instance
      that keeps the text and a count of the forms in it.
    - The operators' site: [Operator] ([common/common.js],
      [common/pagination.js], [account/accountOperateEdit.js]), [Roles]
      ([role/roleEdit.js]), [Corp] ([corp/corpList.js], with the tree of the
      zTree plugin: the nodes, and what adding, renaming and removing do to
      them, from [zTree/js/jquery.ztree.all-3.5.js]), [Rules]
      ([delivery/delivery.rule.js], [delivery/delivery.ruleCustom.js]: a [Pool]
      whose rows keep the ids and names of their elements), [Smtp]
      ([delivery/delivery.smtp.js]), [Desk] (the forms that post and wait for the
      server: audit of a task, packages, accounts, labels, passwords, logos, and
      the reports that export, print and compare what is ticked), [Dates]
      ([report/getDateRange.js], with the calendar of the language; the offset
      of the time zone is a parameter), [SdMenu] ([WEB-INF/jsp/home/menu/sdmenu.js]
      and the script of [menu.jsp]: submenus moved by intervals, which the
      relation [fires] runs in any order), [Listing] (the lists: searching,
      exporting through the form of the list, the log of deliveries, actions
      that ask first, the export of recipients), [Labels]
      ([property/labelExport.js], [property/labelImport.js]: the fields of
      labels, the box they share with its marks, and the buttons behind them;
      what a page does last is the class [Recount]), [Periods]
      ([campaign/campaign.stat.compare.js], against [Compare]).

    A definition has the name of the function it models; the handlers that
    have no name are called after their element ([go_click], [smt_click]).
    A request and the handler of its answer are two definitions: the request is
    an event of the trace, and the handler takes the answer as arguments, so
    whatever happens between the two can be put between them.

    ** What the theorems show

    - Sending: a task is sent, and a template submitted, exactly when nothing
      required is missing, and otherwise the first thing missing is named
      ([Task.getAjaxSum_gate], [Trigger.compareHref_submit],
      [Import.exports_spec]); after any session on the fields of labels the
      operators' exports and imports are posted exactly when the labels chosen
      allow it ([Labels.export_gate], [Labels.import_gate]); a draft is checked as
      what is sent ([Steps.drafts_like_sent]); a page the form builder made is
      accepted by its own check ([Forms.createForm_accepted]); a role is saved
      exactly when the functions ticked have those they need
      ([Roles.saveRole_gate]); delivery machines are added exactly when their
      addresses and limits fit ([Smtp.smtp_gate], with the regular expressions
      read as a grammar of addresses).
    - The pickers: arrays stay well formed, fields show them, exclusions hold,
      refusals change nothing ([Task.pickIncludes_ok] and its neighbours,
      [Base.pickArr_ok], [Base.reduceArr_backspace]); any session of a picker
      implements an abstract ordered set ([Picker.picker_refines]); a saved
      field is read back as it was ([Search.initInput_roundtrip]).
    - Sessions, as invariants or refinements over any sequence of what the user
      does: the form of a task implements an abstract form in which nothing
      that excludes each other stands together, and sends its ids
      ([TaskForm.task_session]; [TaskForm.load_establishes] for the page as it
      is loaded); the number of recipients shown is always that of the tags
      taken and not left out ([Selection.tags_session],
      [Labels.label_session], where the labels of a category exclude each other,
      a field holds ten, and the box marks what is chosen); the columns of a
      file implement a table of properties ([Columns.columns_session]); the tasks of a campaign implement a list without duplicates of at
      most ten ([Campaign.campaign_session]); the tree of corporations keeps
      at least one and is never more than six levels deep ([Corp.corp_session],
      with every branch of a removal in [Corp.remove_click_spec]); the boxes of a role implement a set of
      functions ([Roles.roles_session]) and can always be brought to a
      state that is saved ([Roles.roles_repairable]); senders keep numbers of
      their own ([Operator.robots_session]); exports leave a list as it was, so
      that searching and turning pages ask for the list
      ([Listing.list_session]); the table of delivery rules implements a list of
      domains with their limits ([Rules.rules_session]); an audit is locked while
      it waits and never sent twice at a time ([Desk.audit_session]).
    - Shared state: no property is ever lost or named twice
      ([Pool.pool_never_loses]); no session of the editors throws
      ([Template.editor_session]); tables are numbered apart
      ([Trigger.tables_numbered]); the shared list belongs to the last element
      clicked ([Select.UIselect_click_state]); messages lie above dialogs
      ([Base.error_message_on_top]).
    - Round trips and equivalences: headers and footers of templates, modes of
      the editors, query strings, and the lists that loops build against their
      one-line descriptions.
    - An address is one for the operators' site exactly when it has the shape a
      definition without regular expressions gives ([Operator.isEmail_reference]),
      and the log of deliveries is searched for four dotted numbers below 256
      only ([Listing.log_search_gate]).
    - The menu of the operators' site settles after an exact number of runs of
      its intervals, whatever their order, in the state asked for, and its
      cookie brings that state back ([SdMenu.menu_settles],
      [SdMenu.menu_remembered]).
    - A period of [r] days ends today and begins [r] days before, on the
      calendar ([Dates.getDateRange_days]).
    - Bounds, termination: boxes stay in the window, [isParent] and the loop of
      [textCounter] end, a page asked for is one there is
      ([Operator.paginationQuery_in_range]).
    - Some theorems record where the code does not do what it means to
      ([Trigger.bad_time_text], [Account.addSum_blank],
      [Select.UIselect_click_norows], [Tips.press_inside_keeps_open]).

    ** Bounds and fuel

    [Regex.loop] iterates an expression with the length of the input left as
    fuel and stops on an empty iteration, as the language does, so the fuel is
    never short ([Regex]).  [Widgets.isParent] has the depth of the document as
    fuel; [isParent_decides] shows that any fuel above the depth of the node
    gives the answer.  [Operator.counter_loop] has one step more than the text
    has characters as fuel and throws when it is short, so that
    [Operator.textCounter_fits], whose result is a value, shows that it never
    is.  Integers are exact up to [2^53] and rounded above;
    theorems about counts assume they are below it.

    ** Not modelled

    Which elements a selector finds does not change while a handler runs,
    except where the component keeps the rows itself ([Pool], [Trigger],
    [Task.group], [Tips], [Campaign], [Corp], [Forms], [Lists], [Rules],
    [SdMenu]); animations and colours; the configuration records given to jQuery plugins, Highcharts and the date picker; Internet Explorer
    branches other than the sizes of overlays; the vendored scripts, except
    for the operations of zTree named above; the rules given to the
    validation plugin (what it answers is an argument); the buttons of the
    operators' site that only go to an address; the report pages
    that only configure a chart; the Java and C++ parts, which the scripts see
    as requests and answers. *)

From stdpp Require Export base tactics list strings gmap.
From Stdlib Require Export ZArith NArith Lia.
From Stdlib Require Import Sorting.Permutation.

#[global] Set Default Goal Selector "!".

(** ** Splices: [arr.splice(i,1)] and the loops that splice while they scan *)

(** [for(i=0;i<arr.length;i++) if(P(arr[i])) arr.splice(i,1);] -- the element
    that slides into the freed slot is skipped, because [i] still advances. *)
Fixpoint splice_scan {A} (P : A → bool) (l : list A) : list A :=
  match l with
  | [] => []
  | x :: l' =>
      if P x
      then match l' with
           | [] => []
           | y :: l'' => y :: splice_scan P l''
           end
      else x :: splice_scan P l'
  end.

(** Remove the first element that satisfies [P]. *)
Fixpoint remove_first {A} (P : A → bool) (l : list A) : list A :=
  match l with
  | [] => []
  | x :: l' => if P x then l' else x :: remove_first P l'
  end.

(** No two neighbours satisfy [P]: the condition under which the scanning
    splice above is a plain filter. *)
Fixpoint no_adjacent {A} (P : A → bool) (l : list A) : bool :=
  match l with
  | x :: ((y :: _) as l') => negb (P x && P y) && no_adjacent P l'
  | _ => true
  end.

Definition keep {A} (P : A → bool) (l : list A) : list A :=
  List.filter (λ x, negb (P x)) l.

Section splice.
Context {A : Type} (P : A → bool).
Implicit Types l : list A.

(** Induction two elements at a time, as the scan goes. *)
Lemma list_ind2 (Q : list A → Prop) :
  Q [] → (∀ x, Q [x]) → (∀ x y l, Q l → Q (y :: l) → Q (x :: y :: l)) → ∀ l, Q l.
Proof.
  intros H0 H1 H2 l. cut (Q l ∧ ∀ x, Q (x :: l)); [by intros []|].
  induction l as [|y l [IH IH']]; split; auto.
Qed.

Lemma splice_scan_sublist l : sublist (splice_scan P l) l.
Proof.
  induction l as [| x | x y l IH IH'] using list_ind2.
  - constructor.
  - simpl. case_match; by repeat constructor.
  - change (splice_scan P (x :: y :: l)) with
      (if P x then y :: splice_scan P l else x :: splice_scan P (y :: l)).
    destruct (P x); [by apply sublist_cons, sublist_skip | by apply sublist_skip].
Qed.

Lemma splice_scan_keep l : no_adjacent P l = true → splice_scan P l = keep P l.
Proof.
  induction l as [| x | x y l IH IH'] using list_ind2; [done| |].
  - simpl. by destruct (P x).
  - intros Hadj. assert (no_adjacent P (y :: l) = true ∧ P x && P y = false) as [Ha Hxy].
    { simpl in Hadj. apply andb_true_iff in Hadj as [H1 H2].
      split; [done|]. by destruct (P x && P y). }
    assert (no_adjacent P l = true) as Hl.
    { destruct l; [done|]. simpl in Ha. by apply andb_true_iff in Ha as [_ ?]. }
    change (splice_scan P (x :: y :: l)) with
      (if P x then y :: splice_scan P l else x :: splice_scan P (y :: l)).
    unfold keep in *. cbn [List.filter]. destruct (P x); cbn [negb andb] in *.
    + rewrite IH by done. by rewrite Hxy.
    + f_equal. by rewrite IH' by done.
Qed.

Lemma splice_scan_id l : forallb (λ x, negb (P x)) l = true → splice_scan P l = l.
Proof.
  induction l as [|x l IH]; [done|]. simpl. rewrite andb_true_iff, negb_true_iff.
  intros [-> Hl]. by rewrite IH.
Qed.

Lemma remove_first_id l : forallb (λ x, negb (P x)) l = true → remove_first P l = l.
Proof.
  induction l as [|x l IH]; [done|]. simpl. rewrite andb_true_iff, negb_true_iff.
  intros [-> Hl]. by rewrite IH.
Qed.

Lemma remove_first_sublist l : sublist (remove_first P l) l.
Proof.
  induction l as [|x l IH]; [constructor|]. simpl.
  destruct (P x); by constructor.
Qed.

Lemma remove_first_length l :
  existsb P l = true → S (length (remove_first P l)) = length l.
Proof.
  induction l as [|x l IH]; [done|]. simpl. destruct (P x); [done|].
  simpl. intros H. by rewrite IH.
Qed.

Lemma keep_In l x : In x (keep P l) ↔ In x l ∧ P x = false.
Proof. unfold keep. rewrite filter_In. by rewrite negb_true_iff. Qed.

(** At most one element satisfies [P]: then every way of taking it out is the
    same filter, and a loop that acts on it acts once. *)
Definition sole l : Prop := (length (List.filter P l) ≤ 1)%nat.

Lemma sole_tail x l : sole (x :: l) → sole l.
Proof. unfold sole. simpl. destruct (P x); simpl; lia. Qed.
Lemma sole_rest x l : P x = true → sole (x :: l) → existsb P l = false.
Proof.
  unfold sole. simpl. intros ->. simpl. induction l as [|y l IH]; [done|].
  simpl. destruct (P y); simpl; [lia|exact IH].
Qed.
Lemma existsb_keep l : existsb P l = false → keep P l = l.
Proof.
  unfold keep. induction l as [|y l IH]; [done|]. simpl. intros [-> Hl]%orb_false_iff. simpl. by rewrite IH.
Qed.
Lemma sole_no_adjacent l : sole l → no_adjacent P l = true.
Proof.
  induction l as [|x [|y l] IH]; [done..|]. intros H.
  change (negb (P x && P y) && no_adjacent P (y :: l) = true).
  rewrite (IH (sole_tail _ _ H)), andb_true_r, negb_true_iff.
  destruct (P x) eqn:Ex; [|done]. pose proof (sole_rest _ _ Ex H) as Hy. by apply orb_false_iff in Hy as [-> _].
Qed.
Lemma sole_splice_scan l : sole l → splice_scan P l = keep P l.
Proof. intros H. by apply splice_scan_keep, sole_no_adjacent. Qed.
Lemma sole_remove_first l : sole l → remove_first P l = keep P l.
Proof.
  induction l as [|x l IH]; [done|]. intros H. unfold keep. simpl. destruct (P x) eqn:Ex; simpl.
  - symmetry. by apply existsb_keep, (sole_rest x).
  - by rewrite IH by (by eapply sole_tail).
Qed.
Lemma sole_keep Q l : sole l → sole (keep Q l).
Proof.
  unfold sole, keep. intros H. etrans; [|exact H]. clear H. induction l as [|x l IH]; [done|]. simpl.
  destruct (Q x); simpl; destruct (P x) eqn:Ex; simpl; lia.
Qed.
Lemma fold_sole {B} (f : B → B) l b :
  sole l → List.fold_left (λ b x, if P x then f b else b) l b = if existsb P l then f b else b.
Proof.
  revert b. induction l as [|x l IH]; intros b H; [done|]. cbn [List.fold_left existsb].
  rewrite IH by (by eapply sole_tail). destruct (P x) eqn:Ex; [|done]. by rewrite (sole_rest x l).
Qed.
End splice.

(** What a list shows of another, element by element. *)
Section related.
Context {A B : Type} (R : A → B → Prop) (P : A → bool) (Q : B → bool).
Context (agree : ∀ x y, R x y → P x = Q y).
Implicit Types (l : list A) (k : list B).

Lemma Forall2_existsb l k : Forall2 R l k → existsb P l = existsb Q k.
Proof. induction 1 as [|x y l k Hxy _ IH]; [done|]. simpl. by rewrite (agree x y), IH. Qed.
Lemma Forall2_sole l k : Forall2 R l k → sole Q k → sole P l.
Proof.
  unfold sole. intros H. cut (length (List.filter P l) = length (List.filter Q k)); [by intros ->|].
  induction H as [|x y l k Hxy _ IH]; [done|]. simpl. rewrite (agree x y) by done. destruct (Q y); simpl; by rewrite IH.
Qed.
Lemma Forall2_keep l k : Forall2 R l k → Forall2 R (keep P l) (keep Q k).
Proof.
  unfold keep. induction 1 as [|x y l k Hxy _ IH]; [done|]. simpl. rewrite (agree x y) by done.
  destruct (Q y); simpl; [done|by constructor].
Qed.
End related.

Lemma NoDup_map_sublist {A B} (f : A → B) (l k : list A) :
  sublist l k → NoDup (f <$> k) → NoDup (f <$> l).
Proof. intros Hs Hk. eapply sublist_NoDup; [exact Hk | by apply fmap_sublist]. Qed.

Lemma NoDup_filter_list {A} (P : A → bool) l : NoDup l → NoDup (List.filter P l).
Proof.
  rewrite !NoDup_ListNoDup. apply List.NoDup_filter.
Qed.

Lemma filter_keeps_sublist {A} (P : A → bool) l : sublist (List.filter P l) l.
Proof. induction l as [|x l IH]; simpl; [done|]. destruct (P x); by constructor. Qed.

Lemma Forall_sublist {A} (P : A → Prop) l k : Forall P k → sublist l k → Forall P l.
Proof. rewrite !Forall_forall. intros H Hs x Hx. by eapply H, elem_of_sublist. Qed.

(** ** Booleans *)

Ltac bool_simp :=
  repeat match goal with
  | H : _ && _ = true |- _ => apply andb_true_iff in H as [? ?]
  | H : _ || _ = false |- _ => apply orb_false_iff in H as [? ?]
  | H : negb _ = true |- _ => apply negb_true_iff in H
  | H : negb _ = false |- _ => apply negb_false_iff in H
  | H : bool_decide _ = true |- _ => apply bool_decide_eq_true in H
  | H : bool_decide _ = false |- _ => apply bool_decide_eq_false in H
  end.

(** [x ∉ l] of a closed list, by evaluation. *)
Ltac not_in := cbn [fst snd]; refine (proj1 (bool_decide_eq_true _) _); vm_compute; reflexivity.

Create HintDb edm discriminated.
#[export] Hint Resolve splice_scan_sublist remove_first_sublist : edm.
