(* ===== verification/Js.v ===== *)
(** * JavaScript strings, numbers and values

    The part of the language the edm scripts use.  A string is its list of
    UTF-16 code units (what [length], [substr], [charCodeAt] and [indexOf]
    count), a number is a double of which the integer-valued ones are kept as
    integers, and [==] is the loose equality of the language. *)

From S2P Require Import Prelude.

#[local] Open Scope Z_scope.

Declare Scope js_scope.
Delimit Scope js_scope with js.

(** A string: its UTF-16 code units. *)
Abbreviation jstr := (list N).

(** ** Literals: a Rocq string literal holds UTF-8 bytes *)

Fixpoint utf8_decode (l : list N) : jstr :=
  match l with
  | [] => []
  | a :: l1 =>
      if (a <? 128)%N then a :: utf8_decode l1 else
      match l1 with
      | [] => [a]
      | b :: l2 =>
          if (a <? 224)%N then ((a - 192) * 64 + (b - 128))%N :: utf8_decode l2 else
          match l2 with
          | [] => [a; b]
          | c :: l3 =>
              if (a <? 240)%N
              then ((a - 224) * 4096 + (b - 128) * 64 + (c - 128))%N :: utf8_decode l3
              else
              match l3 with
              | [] => [a; b; c]
              | d :: l4 =>
                  let u := ((a - 240) * 262144 + (b - 128) * 4096
                            + (c - 128) * 64 + (d - 128) - 65536)%N in
                  (55296 + u / 1024)%N :: (56320 + u mod 1024)%N :: utf8_decode l4
              end
          end
      end
  end.

Definition js (s : string) : jstr :=
  utf8_decode (List.map Ascii.N_of_ascii (String.list_ascii_of_string s)).

(** A literal whose back quotes stand for double quotes (HTML attributes). *)
Definition jsq (s : string) : jstr :=
  List.map (λ c, if (c =? 96)%N then 34%N else c) (js s).

Arguments js : simpl never.
Arguments jsq : simpl never.

(** ** Characters *)

Definition c_comma : N := 44.
Definition is_digit (c : N) : bool := (48 <=? c)%N && (c <=? 57)%N.
Definition is_alpha (c : N) : bool :=
  ((65 <=? c)%N && (c <=? 90)%N) || ((97 <=? c)%N && (c <=? 122)%N).
(** [\w] *)
Definition is_word (c : N) : bool := is_digit c || is_alpha c || (c =? 95)%N.
(** [\s], which is also what [trim] and the number parsers skip *)
Definition is_space (c : N) : bool :=
  ((9 <=? c)%N && (c <=? 13)%N) || (c =? 32)%N || (c =? 160)%N || (c =? 5760)%N
  || ((8192 <=? c)%N && (c <=? 8202)%N) || (c =? 8232)%N || (c =? 8233)%N
  || (c =? 8239)%N || (c =? 8287)%N || (c =? 12288)%N || (c =? 65279)%N.

(** ** String operations *)

Fixpoint starts_with (p s : jstr) : bool :=
  match p, s with
  | [], _ => true
  | a :: p', b :: s' => (a =? b)%N && starts_with p' s'
  | _ :: _, [] => false
  end.

(** Position of the first occurrence, if any. *)
Fixpoint find_sub (p s : jstr) : option nat :=
  if starts_with p s then Some 0%nat
  else match s with [] => None | _ :: s' => S <$> find_sub p s' end.

(** [s.indexOf(p)] *)
Definition indexOf (p s : jstr) : Z :=
  match find_sub p s with Some n => Z.of_nat n | None => -1 end.

Definition contains (p s : jstr) : bool :=
  match find_sub p s with Some _ => true | None => false end.

Fixpoint find_char_last (c : N) (s : jstr) : option nat :=
  match s with
  | [] => None
  | d :: s' =>
      match find_char_last c s' with
      | Some n => Some (S n)
      | None => if (c =? d)%N then Some 0%nat else None
      end
  end.

(** [s.lastIndexOf(c)] for a one-character string *)
Definition lastIndexOf (c : N) (s : jstr) : Z :=
  match find_char_last c s with Some n => Z.of_nat n | None => -1 end.

(** [s.substr(start)] and [s.substr(start,len)]; a negative start counts from
    the end. *)
Definition substr_from (start : Z) (s : jstr) : jstr :=
  let n := Z.of_nat (length s) in
  let k := if start <? 0 then Z.max 0 (n + start) else Z.min start n in
  drop (Z.to_nat k) s.
Definition substr (start len : Z) (s : jstr) : jstr :=
  take (Z.to_nat len) (substr_from start s).

(** [s.substring(a,b)] *)
Definition substring (a b : Z) (s : jstr) : jstr :=
  let n := Z.of_nat (length s) in
  let clip x := Z.min (Z.max x 0) n in
  let lo := Z.min (clip a) (clip b) in
  let hi := Z.max (clip a) (clip b) in
  take (Z.to_nat (hi - lo)) (drop (Z.to_nat lo) s).
Definition substring_from (a : Z) (s : jstr) : jstr :=
  substring a (Z.of_nat (length s)) s.

(** [s.split(c)] for a one-character separator *)
Fixpoint splitc (c : N) (s : jstr) : list jstr :=
  match s with
  | [] => [[]]
  | d :: s' =>
      if (c =? d)%N then [] :: splitc c s'
      else match splitc c s' with
           | [] => [[d]]
           | w :: ws => (d :: w) :: ws
           end
  end.

(** [l.join(sep)] *)
Fixpoint join (sep : jstr) (l : list jstr) : jstr :=
  match l with
  | [] => []
  | [x] => x
  | x :: l' => x ++ sep ++ join sep l'
  end.

(** [s.replace(/\s/g,"")] *)
Definition strip_spaces (s : jstr) : jstr := List.filter (λ c, negb (is_space c)) s.

Fixpoint drop_spaces (s : jstr) : jstr :=
  match s with
  | c :: s' => if is_space c then drop_spaces s' else s
  | [] => []
  end.
(** [$.trim(s)] *)
Definition trim (s : jstr) : jstr := rev (drop_spaces (rev (drop_spaces s))).

(** What a replacement string stands for: [$$], [$&], [$`], [$'] and the
    captures [$1] to [$9]; a capture that does not exist stays as written. *)
Fixpoint expand (pre m post : jstr) (caps : list jstr) (rep : jstr) : jstr :=
  match rep with
  | 36%N :: ((d :: rep') as r) =>
      if (d =? 36)%N then 36%N :: expand pre m post caps rep'
      else if (d =? 38)%N then m ++ expand pre m post caps rep'
      else if (d =? 96)%N then pre ++ expand pre m post caps rep'
      else if (d =? 39)%N then post ++ expand pre m post caps rep'
      else if (49 <=? d)%N && (d <=? 57)%N
      then match caps !! N.to_nat (d - 49) with
           | Some c => c ++ expand pre m post caps rep'
           | None => 36%N :: expand pre m post caps r
           end
      else 36%N :: expand pre m post caps r
  | c :: rep' => c :: expand pre m post caps rep'
  | [] => []
  end.

(** [s.replace(p,rep)] for a string [p]: the first occurrence only *)
Definition replace (p rep s : jstr) : jstr :=
  match find_sub p s with
  | None => s
  | Some n =>
      let pre := take n s in
      let post := drop (n + length p) s in
      pre ++ expand pre p post [] rep ++ post
  end.

(** ** Numbers *)

(** [JInt z] is the double of integer value [z]; [JFrac m e] is [m * 2^e] with
    [e < 0] and [m] odd. *)
Inductive jnum := JNaN | JInf (neg : bool) | JInt (z : Z) | JFrac (m e : Z).

#[export] Instance jnum_eq_dec : EqDecision jnum.
Proof. solve_decision. Defined.

(** Round half to even of [p/q], [q > 0]. *)
Definition div_half_even (p q : Z) : Z :=
  let d := p / q in
  let r := p mod q in
  if 2 * r <? q then d else if q <? 2 * r then d + 1
  else if Z.even d then d else d + 1.

Definition pow2_53 : Z := 2 ^ 53.

(** Nearest double of an integer. *)
Definition round53 (z : Z) : jnum :=
  if Z.abs z <=? pow2_53 then JInt z
  else let e := Z.log2 (Z.abs z) - 52 in
       let a := div_half_even (Z.abs z) (2 ^ e) * 2 ^ e in
       if 2 ^ 1024 <=? a then JInf (z <? 0) else JInt (Z.sgn z * a).

Fixpoint halve (fuel : nat) (m e : Z) : jnum :=
  match fuel with
  | O => JFrac m e
  | S fuel' => if 0 <=? e then JInt (m * 2 ^ e)
               else if Z.even m then halve fuel' (m / 2) (e + 1) else JFrac m e
  end.

(** Nearest double of the fraction [p/q], [q > 0]. *)
Definition round_frac (p q : Z) : jnum :=
  if p mod q =? 0 then round53 (p / q)
  else let e := Z.max (Z.log2 (Z.abs p) - Z.log2 q - 53) (-1074) in
       let scale e := if 0 <=? e then div_half_even (Z.abs p) (q * 2 ^ e)
                      else div_half_even (Z.abs p * 2 ^ (- e)) q in
       let e' := if (scale e <? 2 ^ 53) then e else e + 1 in
       if 0 <=? e' then round53 (Z.sgn p * scale e' * 2 ^ e')
       else if scale e' =? 0 then JInt 0 else halve 1100 (Z.sgn p * scale e') e'.

Definition num_add (a b : jnum) : jnum :=
  match a, b with
  | JNaN, _ | _, JNaN => JNaN
  | JInf x, JInf y => if Bool.eqb x y then JInf x else JNaN
  | JInf x, _ | _, JInf x => JInf x
  | JInt x, JInt y => round53 (x + y)
  | JInt x, JFrac m e | JFrac m e, JInt x => round_frac (x * 2 ^ (- e) + m) (2 ^ (- e))
  | JFrac m e, JFrac n f =>
      let k := Z.max (- e) (- f) in
      round_frac (m * 2 ^ (k + e) + n * 2 ^ (k + f)) (2 ^ k)
  end.

Definition num_neg (a : jnum) : jnum :=
  match a with
  | JNaN => JNaN | JInf b => JInf (negb b)
  | JInt z => JInt (- z) | JFrac m e => JFrac (- m) e
  end.
Definition num_sub (a b : jnum) : jnum := num_add a (num_neg b).

(** [a < b]: false as soon as one side is NaN. *)
Definition num_lt (a b : jnum) : bool :=
  match a, b with
  | JNaN, _ | _, JNaN => false
  | JInf x, JInf y => x && negb y
  | JInf x, _ => x
  | _, JInf y => negb y
  | JInt x, JInt y => x <? y
  | JInt x, JFrac m e => x * 2 ^ (- e) <? m
  | JFrac m e, JInt y => m <? y * 2 ^ (- e)
  | JFrac m e, JFrac n f => let k := Z.max (- e) (- f) in m * 2 ^ (k + e) <? n * 2 ^ (k + f)
  end.
Definition num_eq (a b : jnum) : bool :=
  match a, b with JNaN, _ => false | _, _ => bool_decide (a = b) end.
Definition num_le (a b : jnum) : bool := num_lt a b || num_eq a b.
Definition is_nan (a : jnum) : bool := match a with JNaN => true | _ => false end.

(** ** Printing and parsing numbers *)

Fixpoint dec_digits (fuel : nat) (n : N) (acc : jstr) : jstr :=
  match fuel with
  | O => acc
  | S fuel' =>
      let acc' := (48 + n mod 10)%N :: acc in
      if (n <? 10)%N then acc' else dec_digits fuel' (n / 10) acc'
  end.
Definition str_of_N (n : N) : jstr := dec_digits (S (N.to_nat (N.log2 n))) n [].
(** [String(z)] of an integer below [10^21]. *)
Definition str_of_Z (z : Z) : jstr :=
  if z <? 0 then 45%N :: str_of_N (Z.to_N (- z)) else str_of_N (Z.to_N z).

Fixpoint span_digits (s : jstr) : jstr * jstr :=
  match s with
  | c :: s' => if is_digit c then let '(d, r) := span_digits s' in (c :: d, r) else ([], s)
  | [] => ([], [])
  end.
Definition digits_value (l : jstr) : Z :=
  List.fold_left (λ a c, a * 10 + Z.of_N (c - 48)) l 0.

Definition hex_value (c : N) : option Z :=
  if is_digit c then Some (Z.of_N (c - 48))
  else if (65 <=? c)%N && (c <=? 70)%N then Some (Z.of_N (c - 55))
  else if (97 <=? c)%N && (c <=? 102)%N then Some (Z.of_N (c - 87)) else None.
Fixpoint span_hex (s : jstr) : list Z * jstr :=
  match s with
  | c :: s' => match hex_value c with
               | Some v => let '(d, r) := span_hex s' in (v :: d, r)
               | None => ([], s)
               end
  | [] => ([], [])
  end.
Definition hex_number (l : list Z) : Z := List.fold_left (λ a v, a * 16 + v) l 0.

Definition take_sign (s : jstr) : bool * jstr :=
  match s with
  | 45%N :: r => (true, r)
  | 43%N :: r => (false, r)
  | _ => (false, s)
  end.
Definition signed (neg : bool) (n : jnum) : jnum := if neg then num_neg n else n.

(** [parseInt(s)] *)
Definition parseInt (s : jstr) : jnum :=
  let '(neg, r) := take_sign (drop_spaces s) in
  match r with
  | 48%N :: x :: h =>
      if (x =? 120)%N || (x =? 88)%N
      then match span_hex h with
           | ([], _) => JNaN
           | (d, _) => signed neg (round53 (hex_number d))
           end
      else signed neg (round53 (digits_value (fst (span_digits r))))
  | _ => match span_digits r with
         | ([], _) => JNaN
         | (d, _) => signed neg (round53 (digits_value d))
         end
  end.

(** A decimal [m * 10^k] rounded to a double. *)
Definition decimal (m k : Z) : jnum :=
  if 0 <=? k then round53 (m * 10 ^ k) else round_frac m (10 ^ (- k)).

(** [[eE][+-]?digits] at the end of a literal; the exponent is capped where
    every literal is already zero or infinite. *)
Definition parse_exponent (s : jstr) : option Z :=
  match s with
  | [] => Some 0
  | c :: r =>
      if (c =? 101)%N || (c =? 69)%N
      then let '(neg, r') := take_sign r in
           match span_digits r' with
           | ([], _) => None
           | (d, []) => let v := Z.min (digits_value d) 100000 in
                        Some (if neg : bool then - v else v)
           | _ => None
           end
      else None
  end.

Definition parse_unsigned (s : jstr) : jnum :=
  let '(ip, r) := span_digits s in
  let '(fp, r') := match r with
                   | 46%N :: r1 => span_digits r1
                   | _ => ([], r)
                   end in
  match ip, fp with
  | [], [] => JNaN
  | _, _ => match parse_exponent r' with
            | None => JNaN
            | Some k => decimal (digits_value (ip ++ fp)) (k - Z.of_nat (length fp))
            end
  end.

(** [Number(s)]: what [isNaN], comparisons with a number and [==] apply. *)
Definition to_number (s : jstr) : jnum :=
  match trim s with
  | [] => JInt 0
  | 48%N :: x :: h =>
      if (x =? 120)%N || (x =? 88)%N
      then match span_hex h with
           | ((_ :: _) as d, []) => round53 (hex_number d)
           | _ => JNaN
           end
      else parse_unsigned (48%N :: x :: h)
  | t => let '(neg, r) := take_sign t in
         if bool_decide (r = js "Infinity") then JInf neg
         else signed neg (parse_unsigned r)
  end.

(** ** Values *)

Inductive jval := VUndef | VNull | VBool (b : bool) | VNum (n : jnum) | VStr (s : jstr).

#[export] Instance jval_eq_dec : EqDecision jval.
Proof. solve_decision. Defined.

Definition truthy (v : jval) : bool :=
  match v with
  | VUndef | VNull => false
  | VBool b => b
  | VNum n => negb (is_nan n) && negb (num_eq n (JInt 0))
  | VStr s => negb (bool_decide (s = []))
  end.

Definition num_of_bool (b : bool) : jnum := JInt (if b then 1 else 0).

(** [a == b] *)
Definition loose_eq (a b : jval) : bool :=
  match a, b with
  | VUndef, VUndef | VUndef, VNull | VNull, VUndef | VNull, VNull => true
  | VUndef, _ | VNull, _ | _, VUndef | _, VNull => false
  | VStr x, VStr y => bool_decide (x = y)
  | VNum x, VNum y => num_eq x y
  | VBool x, VBool y => Bool.eqb x y
  | VNum x, VStr y | VStr y, VNum x => num_eq x (to_number y)
  | VBool x, VNum y | VNum y, VBool x => num_eq (num_of_bool x) y
  | VBool x, VStr y | VStr y, VBool x => num_eq (num_of_bool x) (to_number y)
  end.

(** [String(n)]: the shortest digits that read back as [n]. *)
Definition pow10_at_least (p q : Z) : Z :=
  let n0 := (Z.log2 p - Z.log2 q) * 30103 / 100000 - 1 in
  let above n := if 0 <=? n then p <? q * 10 ^ n else p * 10 ^ (- n) <? q in
  match List.find above [n0; n0 + 1; n0 + 2; n0 + 3; n0 + 4] with
  | Some n => n
  | None => n0 + 5
  end.

(** [k] significant digits of [p/q], whose first digit stands at [10^(n-1)]. *)
Definition signif (p q n k : Z) : Z :=
  let s := k - n in
  if 0 <=? s then div_half_even (p * 10 ^ s) q else div_half_even p (q * 10 ^ (- s)).

Fixpoint shortest (fuel : nat) (p q n k : Z) : Z * Z :=
  match fuel with
  | O => (signif p q n k, k)
  | S fuel' =>
      let s := signif p q n k in
      if bool_decide (decimal s (n - k) = round_frac p q) then (s, k)
      else shortest fuel' p q n (k + 1)
  end.

Definition zeros (n : Z) : jstr := List.repeat 48%N (Z.to_nat n).

Definition format_num (s k n : Z) : jstr :=
  let d := str_of_Z s in
  if (k <=? n) && (n <=? 21) then d ++ zeros (n - k)
  else if (0 <? n) && (n <=? 21)
  then take (Z.to_nat n) d ++ js "." ++ drop (Z.to_nat n) d
  else if (-6 <? n) && (n <=? 0) then js "0." ++ zeros (- n) ++ d
  else let m := if k =? 1 then d else take 1 d ++ js "." ++ drop 1 d in
       m ++ js "e" ++ (if 0 <=? n - 1 then js "+" else js "-") ++ str_of_Z (Z.abs (n - 1)).

Definition str_of_frac (p q : Z) : jstr :=
  let n := pow10_at_least (Z.abs p) q in
  let '(s, k) := shortest 20 (Z.abs p) q n 1 in
  (if p <? 0 then js "-" else []) ++
  (if s =? 10 ^ k then format_num 1 1 (n + 1) else format_num s k n).

Definition str_of_num (n : jnum) : jstr :=
  match n with
  | JNaN => js "NaN"
  | JInf true => js "-Infinity"
  | JInf false => js "Infinity"
  | JInt z => if Z.abs z <=? pow2_53 then str_of_Z z else str_of_frac z 1
  | JFrac m e => str_of_frac m (2 ^ (- e))
  end.
Definition str_of_val (v : jval) : jstr :=
  match v with
  | VUndef => js "undefined"
  | VNull => js "null"
  | VBool true => js "true"
  | VBool false => js "false"
  | VNum n => str_of_num n
  | VStr s => s
  end.
(** An element of an array in [join]: [undefined] and [null] print as nothing. *)
Definition str_of_elem (v : jval) : jstr :=
  match v with VUndef | VNull => [] | _ => str_of_val v end.

(** [Number(v)] *)
Definition num_of_val (v : jval) : jnum :=
  match v with
  | VUndef => JNaN
  | VNull => JInt 0
  | VBool b => num_of_bool b
  | VNum n => n
  | VStr s => to_number s
  end.
(** [v > z], [v < z] for a number [z] of the script *)
Definition gt_num (v : jval) (z : Z) : bool := num_lt (JInt z) (num_of_val v).
Definition lt_num (v : jval) (z : Z) : bool := num_lt (num_of_val v) (JInt z).
Definition num (z : Z) : jval := VNum (JInt z).
(** [v == z] *)
Definition is_num (v : jval) (z : Z) : bool := loose_eq v (num z).
(** [v == 's'] *)
Definition is_str (v : jval) (s : string) : bool := loose_eq v (VStr (js s)).
