(* ===== verification/JsFacts.v ===== *)
(** * Facts about strings and numbers that every component uses:
    split/join are inverse, [indexOf] finds the first occurrence, [parseInt]
    reads back what [String] prints. *)

From S2P Require Import Prelude Js.
#[local] Open Scope Z_scope.

(** ** [split] and [join] *)

Section split_join.
Context (c : N).
Implicit Types (s w : jstr) (l : list jstr).

(** A piece that holds no separator. *)
Definition sep_free w : Prop := c ∉ w.

Lemma splitc_ne s : splitc c s ≠ [].
Proof. destruct s as [|d s]; simpl; [done|]. by repeat case_match. Qed.

Lemma splitc_eq s : splitc c (c :: s) = [] :: splitc c s.
Proof. simpl. by rewrite N.eqb_refl. Qed.

Lemma splitc_cons_ne d s :
  d ≠ c → ∃ w ws, splitc c s = w :: ws ∧ splitc c (d :: s) = (d :: w) :: ws.
Proof.
  intros Hd. destruct (splitc c s) as [|w ws] eqn:E; [by destruct (splitc_ne s)|].
  exists w, ws. split; [done|]. simpl.
  destruct (N.eqb_spec c d); [by subst|]. by rewrite E.
Qed.

Lemma splitc_word w : sep_free w → splitc c w = [w].
Proof.
  induction w as [|d w IH]; [done|]. intros Hw. apply not_elem_of_cons in Hw as [Hd Hw].
  simpl. destruct (N.eqb_spec c d); [done|]. by rewrite IH.
Qed.

Lemma splitc_app w s : sep_free w → splitc c (w ++ c :: s) = w :: splitc c s.
Proof.
  induction w as [|d w IH]; intros Hw; [apply splitc_eq|].
  apply not_elem_of_cons in Hw as [Hd Hw]. simpl.
  destruct (N.eqb_spec c d); [done|]. by rewrite IH.
Qed.

Lemma join_cons w l : l ≠ [] → join [c] (w :: l) = w ++ c :: join [c] l.
Proof. by destruct l. Qed.

Lemma splitc_join l : l ≠ [] → Forall sep_free l → splitc c (join [c] l) = l.
Proof.
  intros Hne Hl. induction Hl as [|w l Hw Hl IH]; [done|].
  destruct l as [|w' l]; [by apply splitc_word|].
  rewrite join_cons by done. rewrite splitc_app by done. by rewrite IH.
Qed.

Lemma splitc_sep_free s : Forall sep_free (splitc c s).
Proof.
  induction s as [|d s IH].
  - simpl. repeat constructor. apply not_elem_of_nil.
  - destruct (decide (d = c)) as [->|Hd].
    + rewrite splitc_eq. constructor; [apply not_elem_of_nil|done].
    + destruct (splitc_cons_ne d s Hd) as (w & ws & E & ->).
      rewrite E in IH. inversion_clear IH as [|? ? Hw Hws]. constructor; [|done].
      apply not_elem_of_cons. split; congruence || done.
Qed.

Lemma join_splitc s : join [c] (splitc c s) = s.
Proof.
  induction s as [|d s IH]; [done|]. destruct (decide (d = c)) as [->|Hd].
  - rewrite splitc_eq, join_cons by apply splitc_ne. by rewrite IH.
  - destruct (splitc_cons_ne d s Hd) as (w & ws & E & ->). rewrite E in IH.
    destruct ws; simpl in *; congruence.
Qed.

Lemma join_nil_iff l : join [c] l = [] ↔ l = [] ∨ l = [[]].
Proof.
  destruct l as [|w [|w' l]]; simpl.
  - split; auto.
  - split; [intros ->; auto | intros [?|[= ->]]; done].
  - split; [by destruct w | intros [?|?]; done].
Qed.
End split_join.

#[export] Hint Resolve splitc_ne splitc_sep_free : edm.

(** ** [indexOf] *)

Lemma starts_with_spec p s : starts_with p s = true ↔ ∃ k, s = p ++ k.
Proof.
  revert s. induction p as [|a p IH]; intros s; simpl; [split; eauto|].
  destruct s as [|b s]; [split; [done|intros [k [=]]]|]. rewrite andb_true_iff, N.eqb_eq, IH.
  split; [intros [-> [k ->]]; by exists k|].
  intros [k [=]]; subst. split; [done|by exists k].
Qed.

Lemma find_sub_Some p s n :
  find_sub p s = Some n → s = take n s ++ p ++ drop (n + length p) s ∧ (n + length p ≤ length s)%nat.
Proof.
  revert n. induction s as [|b s IH]; intros n; simpl.
  - destruct (starts_with p []) eqn:E; [|done]. intros [= <-].
    apply starts_with_spec in E as [k E].
    destruct p; [|done]. simpl. split; [done|lia].
  - destruct (starts_with p (b :: s)) eqn:E.
    + intros [= <-]. apply starts_with_spec in E as [k Ek].
      pose proof (f_equal length Ek) as Hlen. rewrite length_app in Hlen. simpl in Hlen.
      rewrite Ek. cbn [take Nat.add app]. rewrite drop_app_length. split; [done|lia].
    + destruct (find_sub p s) as [m|] eqn:F; [|done]. intros [= <-].
      destruct (IH m eq_refl) as [IH1 IH2]. simpl. split; [by rewrite <-IH1|lia].
Qed.

Lemma find_sub_first p s n m :
  find_sub p s = Some n → (m < n)%nat → starts_with p (drop m s) = false.
Proof.
  revert n m. induction s as [|b s IH]; intros n m; simpl.
  - destruct (starts_with p []); [|done]. intros [= <-]. lia.
  - destruct (starts_with p (b :: s)) eqn:E; [intros [= <-]; lia|].
    destruct (find_sub p s) as [k|] eqn:F; [|done]. intros [= <-] Hm.
    destruct m as [|m]; [done|]. simpl. apply (IH k); [done|lia].
Qed.

Lemma find_sub_app pre p post : is_Some (find_sub p (pre ++ p ++ post)).
Proof.
  induction pre as [|a pre IH]; simpl.
  - assert (starts_with p (p ++ post) = true) as E by (apply starts_with_spec; eauto).
    destruct (p ++ post) eqn:Hp; simpl; rewrite E; eauto.
  - case_match; [eauto|]. destruct IH as [n ->]. simpl. eauto.
Qed.

Lemma contains_spec p s : contains p s = true ↔ ∃ pre post, s = pre ++ p ++ post.
Proof.
  unfold contains. split.
  - destruct (find_sub p s) as [n|] eqn:E; [|done]. intros _.
    apply find_sub_Some in E as [E _]. eauto.
  - intros (pre & post & ->). by destruct (find_sub_app pre p post) as [n ->].
Qed.

Lemma indexOf_neg p s : (indexOf p s =? -1) = negb (contains p s).
Proof. unfold indexOf, contains. destruct (find_sub p s); [|done]. simpl. apply Z.eqb_neq. lia. Qed.

Lemma indexOf_nonneg p s : (0 <=? indexOf p s) = contains p s.
Proof. unfold indexOf, contains. destruct (find_sub p s); [|done]. apply Z.leb_le. lia. Qed.

Lemma indexOf_contains p s : (-1 <? indexOf p s) = contains p s.
Proof. unfold indexOf, contains. destruct (find_sub p s); [|done]. apply Z.ltb_lt. lia. Qed.

Lemma contains_char c s : contains [c] s = true ↔ c ∈ s.
Proof.
  rewrite contains_spec. split.
  - intros (pre & post & ->). set_solver.
  - intros (pre & post & ->)%list_elem_of_split. by exists pre, post.
Qed.

(** ** [lastIndexOf] *)

Lemma find_char_last_app c pre w :
  c ∉ w → find_char_last c (pre ++ c :: w) = Some (length pre).
Proof.
  intros Hw. assert (find_char_last c w = None) as Hn.
  { induction w as [|d w IH]; [done|]. apply not_elem_of_cons in Hw as [Hd Hw].
    simpl. rewrite IH by done. by destruct (N.eqb_spec c d). }
  induction pre as [|d pre IH]; simpl; [by rewrite Hn, N.eqb_refl|]. by rewrite IH.
Qed.

Lemma find_char_first_app c w post :
  c ∉ w → find_sub [c] (w ++ c :: post) = Some (length w).
Proof.
  induction w as [|d w IH]; intros Hw; simpl.
  - by rewrite N.eqb_refl.
  - apply not_elem_of_cons in Hw as [Hd Hw].
    destruct (N.eqb_spec c d); [done|]. simpl. by rewrite IH.
Qed.

(** ** Numbers *)

Lemma round53_exact z : Z.abs z ≤ pow2_53 → round53 z = JInt z.
Proof. intros Hz. unfold round53. by apply Z.leb_le in Hz as ->. Qed.

Lemma num_add_exact x y : Z.abs (x + y) ≤ pow2_53 → num_add (JInt x) (JInt y) = JInt (x + y).
Proof. apply round53_exact. Qed.

Definition all_digits (l : jstr) : Prop := Forall (λ c, is_digit c = true) l.

Lemma digits_value_app l k : digits_value (l ++ k) =
  List.fold_left (λ a c, a * 10 + Z.of_N (c - 48)) k (digits_value l).
Proof. unfold digits_value. by rewrite List.fold_left_app. Qed.

Lemma fold_digits_shift k a : List.fold_left (λ a c, a * 10 + Z.of_N (c - 48)) k a
  = a * 10 ^ Z.of_nat (length k) + digits_value k.
Proof.
  unfold digits_value. revert a. induction k as [|c k IH]; intros a; [simpl; lia|].
  cbn [List.fold_left length]. rewrite (IH (_ + _)), (IH (0 * 10 + _)).
  rewrite Nat2Z.inj_succ, Z.pow_succ_r by lia. lia.
Qed.

Lemma dec_digits_spec fuel n acc :
  (n < 10 ^ N.of_nat fuel)%N →
  ∃ l, dec_digits fuel n acc = l ++ acc ∧ all_digits l ∧ digits_value l = Z.of_N n
       ∧ ((0 < fuel)%nat → l ≠ []).
Proof.
  revert n acc. induction fuel as [|fuel IH]; intros n acc Hn.
  - exists []. simpl in *. repeat split; [constructor| |lia]. unfold digits_value. simpl. lia.
  - cbn [dec_digits]. set (d := (48 + n mod 10)%N).
    assert (is_digit d = true) as Hd.
    { unfold is_digit, d. assert (n mod 10 < 10)%N by by apply N.mod_lt.
      revert H. generalize (n mod 10)%N. intros m Hm.
      apply andb_true_iff. rewrite !N.leb_le. lia. }
    assert (Z.of_N (d - 48) = Z.of_N (n mod 10)) as Hv by (unfold d; generalize (n mod 10)%N; lia).
    destruct (N.ltb_spec n 10) as [Hlt|Hge].
    + exists [d]. repeat split; [by repeat constructor| |done].
      unfold digits_value. simpl. rewrite Hv, N.mod_small; lia.
    + destruct (IH (n / 10)%N (d :: acc)) as (l & E & Hl & Hval & Hne).
      { rewrite Nat2N.inj_succ, N.pow_succ_r' in Hn.
        apply N.Div0.div_lt_upper_bound. lia. }
      exists (l ++ [d]). rewrite E. rewrite <-app_assoc. repeat split; [| |by destruct l].
      * apply Forall_app. split; [done|by repeat constructor].
      * rewrite digits_value_app, Hval. simpl. rewrite Hv.
        rewrite N2Z.inj_div, N2Z.inj_mod.
        change (Z.of_N 10) with 10. rewrite (Z.div_mod (Z.of_N n) 10) at 3 by done. lia.
Qed.

Lemma str_of_N_spec n : all_digits (str_of_N n) ∧ digits_value (str_of_N n) = Z.of_N n
  ∧ str_of_N n ≠ [].
Proof.
  unfold str_of_N. destruct (dec_digits_spec (S (N.to_nat (N.log2 n))) n []) as (l & -> & ? & ? & ?).
  - rewrite Nat2N.inj_succ, N2Nat.id.
    destruct (decide (n = 0%N)) as [->|Hn]; [done|].
    apply N.lt_le_trans with (2 ^ N.succ (N.log2 n))%N; [apply N.log2_spec; lia|].
    apply N.pow_le_mono_l. lia.
  - rewrite app_nil_r. repeat split; [done..|]. by apply H1; lia.
Qed.

Lemma span_digits_all l r :
  all_digits l → match r with c :: _ => is_digit c = false | [] => True end →
  span_digits (l ++ r) = (l, r).
Proof.
  intros Hl Hr. induction Hl as [|c l Hc Hl IH]; simpl.
  - destruct r as [|c r]; [done|]. simpl. by rewrite Hr.
  - by rewrite Hc, IH.
Qed.

Lemma is_digit_not_space c : is_digit c = true → is_space c = false.
Proof.
  unfold is_digit. rewrite andb_true_iff, !N.leb_le. intros [H1 H2].
  assert (∃ k, (k < 10)%nat ∧ c = (48 + N.of_nat k)%N) as (k & Hk & ->)
    by (exists (N.to_nat (c - 48)); lia).
  do 10 (destruct k as [|k]; [done|]). lia.
Qed.

Lemma digit_cases c : is_digit c = true → ∃ k, (k < 10)%nat ∧ c = (48 + N.of_nat k)%N.
Proof.
  unfold is_digit. rewrite andb_true_iff, !N.leb_le. intros [H1 H2].
  exists (N.to_nat (c - 48)). lia.
Qed.

(** [parseInt] of a run of digits, the leading [0x] of a literal excluded by
    the digits themselves. *)
Lemma parseInt_digits l : all_digits l → l ≠ [] → parseInt l = round53 (digits_value l).
Proof.
  intros Hl Hne. destruct l as [|c l]; [done|]. inversion Hl as [|? ? Hc Hl']; subst.
  unfold parseInt. cbn [drop_spaces]. rewrite (is_digit_not_space c Hc).
  assert (take_sign (c :: l) = (false, c :: l)) as ->.
  { apply digit_cases in Hc as (k & Hk & ->).
    do 10 (destruct k as [|k]; [done|]). lia. }
  assert (span_digits (c :: l) = (c :: l, [])) as E.
  { rewrite <-(app_nil_r (c :: l)) at 1. by apply span_digits_all. }
  cbn [signed]. destruct (decide (c = 48%N)) as [->|Hc0].
  - destruct l as [|x l]; [done|]. inversion Hl' as [|? ? Hx _]; subst.
    assert ((x =? 120)%N || (x =? 88)%N = false) as ->.
    { apply digit_cases in Hx as (k & Hk & ->).
      do 10 (destruct k as [|k]; [done|]). lia. }
    by rewrite E.
  - rewrite E. apply digit_cases in Hc as (k & Hk & ->).
    do 10 (destruct k as [|k]; [done|]). lia.
Qed.

Lemma parseInt_str_of_Z z : 0 ≤ z → parseInt (str_of_Z z) = round53 z.
Proof.
  intros Hz. unfold str_of_Z. destruct (Z.ltb_spec z 0); [lia|].
  destruct (str_of_N_spec (Z.to_N z)) as (Hd & Hv & Hne).
  rewrite parseInt_digits by done. rewrite Hv, Z2N.id by done. done.
Qed.

Lemma str_of_N_inj n m : str_of_N n = str_of_N m → n = m.
Proof.
  intros E. destruct (str_of_N_spec n) as (_ & Hn & _), (str_of_N_spec m) as (_ & Hm & _).
  rewrite E in Hn. lia.
Qed.

Lemma sep_free_digits l : all_digits l → sep_free c_comma l.
Proof.
  unfold sep_free. intros Hl Hin. unfold all_digits in Hl.
  rewrite Forall_forall in Hl. by specialize (Hl _ Hin).
Qed.

(** ** [Number] of digits, alone and in a list *)

Lemma trim_no_space s : Forall (λ c, is_space c = false) s → trim s = s.
Proof.
  intros Hs. unfold trim.
  assert (∀ t, Forall (λ c, is_space c = false) t → drop_spaces t = t) as Hd.
  { intros [|c t] Ht; [done|]. inversion Ht as [|? ? Hc _]; subst. simpl. by rewrite Hc. }
  rewrite (Hd s) by done. rewrite Hd by (by apply Forall_rev). by rewrite rev_involutive.
Qed.

Lemma digits_no_space l : all_digits l → Forall (λ c, is_space c = false) l.
Proof. intros Hl. eapply Forall_impl; [exact Hl|]. intros c. apply is_digit_not_space. Qed.

(** A literal that starts with a digit is read by [parse_unsigned], unless it
    is a hexadecimal one. *)
Lemma to_number_unsigned c s :
  is_digit c = true → trim (c :: s) = c :: s →
  match s with x :: _ => (x =? 120)%N || (x =? 88)%N = false | [] => True end →
  to_number (c :: s) = parse_unsigned (c :: s).
Proof.
  intros Hc Ht Hx. unfold to_number. rewrite Ht.
  assert (take_sign (c :: s) = (false, c :: s) ∧ (c :: s) ≠ js "Infinity") as [Hs Hi].
  { apply digit_cases in Hc as (k & Hk & ->).
    do 10 (destruct k as [|k]; [done|]). lia. }
  destruct (decide (c = 48%N)) as [->|Hc0].
  - destruct s as [|x s]; [|by rewrite Hx]. rewrite Hs. by rewrite bool_decide_eq_false_2.
  - apply digit_cases in Hc as (k & Hk & ->).
    do 10 (destruct k as [|k]; [done || (simpl in *; by rewrite (bool_decide_eq_false_2 _ Hi))|]). lia.
Qed.

Lemma digit_not_x c : is_digit c = true → (c =? 120)%N || (c =? 88)%N = false.
Proof.
  intros Hc. apply digit_cases in Hc as (k & Hk & ->).
  do 10 (destruct k as [|k]; [done|]). lia.
Qed.

Lemma to_number_digits l : all_digits l → l ≠ [] → to_number l = round53 (digits_value l).
Proof.
  intros Hl Hne. destruct l as [|c l]; [done|]. inversion Hl as [|? ? Hc Hl']; subst.
  rewrite to_number_unsigned; [|done|by apply trim_no_space, digits_no_space|].
  - unfold parse_unsigned. rewrite <-(app_nil_r (c :: l)) at 1.
    rewrite span_digits_all by done. cbn [parse_exponent length].
    rewrite app_nil_r. unfold decimal. cbn. by rewrite Z.mul_1_r.
  - destruct l as [|x l]; [done|]. inversion Hl'; subst. by apply digit_not_x.
Qed.

Lemma to_number_comma l r :
  all_digits l → l ≠ [] → Forall (λ c, is_space c = false) r →
  to_number (l ++ 44%N :: r) = JNaN.
Proof.
  intros Hl Hne Hr. destruct l as [|c l]; [done|]. inversion Hl as [|? ? Hc Hl']; subst.
  cbn [app]. rewrite to_number_unsigned; [|done| |].
  - unfold parse_unsigned. change (c :: l ++ 44%N :: r) with ((c :: l) ++ 44%N :: r).
    by rewrite span_digits_all by done.
  - apply trim_no_space. constructor; [by apply is_digit_not_space|].
    apply Forall_app. split; [by apply digits_no_space|]. by constructor.
  - destruct l as [|x l]; [done|]. inversion Hl'; subst. by apply digit_not_x.
Qed.

(** Splitting at any separator, and a joined list with a separator in front. *)
Lemma splitc_mid c a b : splitc c (a ++ c :: b) = splitc c a ++ splitc c b.
Proof.
  induction a as [|x a IH]; [cbn [app]; by rewrite splitc_eq|].
  cbn [app]. destruct (decide (x = c)) as [->|Hx].
  - by rewrite !splitc_eq, IH.
  - destruct (splitc_cons_ne c x a Hx) as (w & ws & E1 & ->).
    destruct (splitc_cons_ne c x (a ++ c :: b) Hx) as (w' & ws' & E2 & ->).
    rewrite IH, E1 in E2. by injection E2 as <- <-.
Qed.

Lemma join_commas ws : ws ≠ [] → [c_comma] ++ join [c_comma] ws = List.flat_map (λ w, c_comma :: w) ws.
Proof.
  induction ws as [|w ws IH]; [done|]. intros _. destruct ws as [|w' ws].
  - simpl. by rewrite app_nil_r.
  - rewrite join_cons by done. cbn [List.flat_map]. cbn [List.flat_map] in IH.
    rewrite <-IH by done. done.
Qed.

(** A replacement without [$] stands for itself. *)
Lemma expand_plain pre m post caps rep : 36%N ∉ rep → expand pre m post caps rep = rep.
Proof.
  induction rep as [|c rep IH]; [done|]. intros [Hc Hr]%not_elem_of_cons.
  assert (∀ k, expand pre m post caps (c :: rep) = c :: k → k = rep →
    expand pre m post caps (c :: rep) = c :: rep) as Hx by (intros k -> ->; done).
  cbn [expand]. rewrite IH by done.
  destruct c as [|p]; [done|]. do 6 (destruct p as [p|p|]; try done).
Qed.

Lemma round53_large z : pow2_53 ≤ z →
  round53 z = JInf false ∨ ∃ a, round53 z = JInt a ∧ 2 ^ 52 ≤ a.
Proof.
  intros Hz. assert (0 < pow2_53) as Hp by (unfold pow2_53; lia).
  unfold round53. destruct (Z.leb_spec (Z.abs z) pow2_53) as [Hle|Hgt].
  - right. exists z. split; [done|]. unfold pow2_53 in *. lia.
  - rewrite Z.abs_eq in * by lia. set (e := Z.log2 z - 52).
    assert (53 ≤ Z.log2 z) as Hlog by (apply Z.log2_le_pow2; [lia|exact Hz]).
    assert (0 < 2 ^ e) as He by (apply Z.pow_pos_nonneg; lia).
    assert (2 ^ 52 ≤ z / 2 ^ e) as Hq.
    { apply Z.div_le_lower_bound; [done|]. rewrite <-Z.pow_add_r by lia.
      replace (e + 52) with (Z.log2 z) by lia. apply Z.log2_spec. lia. }
    assert (z / 2 ^ e ≤ div_half_even z (2 ^ e)) as Hr
      by (unfold div_half_even; repeat case_match; lia).
    set (a := div_half_even z (2 ^ e) * 2 ^ e).
    assert (2 ^ 52 ≤ a) as Ha by (unfold a; nia).
    destruct (Z.leb_spec (2 ^ 1024) a); [left|right].
    + by rewrite (proj2 (Z.ltb_ge _ _)) by lia.
    + exists (Z.sgn z * a). split; [done|]. rewrite Z.sgn_pos by lia. lia.
Qed.

(** ** Integers as texts *)

Lemma to_number_str_of_Z z : 0 ≤ z ≤ pow2_53 → to_number (str_of_Z z) = JInt z.
Proof.
  intros Hz. unfold str_of_Z. rewrite (proj2 (Z.ltb_ge _ _)) by lia.
  destruct (str_of_N_spec (Z.to_N z)) as (Hd & Hv & Hne).
  rewrite to_number_digits, Hv, Z2N.id by (done || lia). apply round53_exact. lia.
Qed.

Lemma str_of_Z_inj a b : 0 ≤ a → 0 ≤ b → str_of_Z a = str_of_Z b → a = b.
Proof.
  intros Ha Hb. unfold str_of_Z. rewrite !(proj2 (Z.ltb_ge _ _)) by lia.
  intros E0%str_of_N_inj. lia.
Qed.

Lemma str_not_empty z : 0 ≤ z → is_str (VStr (str_of_Z z)) "" = false.
Proof.
  intros Hz. unfold is_str. cbn [loose_eq]. apply bool_decide_eq_false.
  unfold str_of_Z. rewrite (proj2 (Z.ltb_ge _ _)) by lia.
  by destruct (str_of_N_spec (Z.to_N z)) as (_ & _ & Hne).
Qed.

Lemma str_of_int z : 0 ≤ z ≤ pow2_53 → str_of_num (JInt z) = str_of_Z z.
Proof. intros H. cbn. by rewrite (proj2 (Z.leb_le _ _)) by lia. Qed.

Lemma num_le_int x y : num_le (JInt x) (JInt y) = (x <=? y).
Proof.
  unfold num_le, num_eq. cbn [num_lt]. apply eq_true_iff_eq.
  rewrite orb_true_iff, Z.ltb_lt, bool_decide_eq_true, Z.leb_le.
  split; [intros [?|[= ?]]; lia|]. intros H. destruct (decide (x = y)) as [->|]; [by right|left; lia].
Qed.

Lemma substring_prefix (p r : jstr) : substring 0 (Z.of_nat (length p)) (p ++ r) = p.
Proof.
  unfold substring. rewrite length_app. set (n := Z.of_nat (length p + length r)).
  replace (Z.min (Z.min (Z.max 0 0) n) (Z.min (Z.max (Z.of_nat (length p)) 0) n)) with 0 by lia.
  replace (Z.max (Z.min (Z.max 0 0) n) (Z.min (Z.max (Z.of_nat (length p)) 0) n))
    with (Z.of_nat (length p)) by lia.
  rewrite Z.sub_0_r, Nat2Z.id. apply take_app_length.
Qed.
