(* ===== verification/Regex.v ===== *)
(** * JavaScript regular expressions

    The backtracking matcher of the language, over UTF-16 code units, for the
    constructs the scripts use, and its declarative meaning.  [mtch_spec] says
    that the matcher finds a match exactly when there is one. *)

From S2P Require Import Prelude Js JsFacts.

(** Where a match stands: the code units consumed so far (their number), the
    input left, and the captures closed so far. *)
Record mstate := MState { m_pos : nat; m_rest : jstr; m_caps : list jstr }.

Inductive re :=
| RSet (P : N → bool)            (* one code unit: a character, [.] or a class *)
| REps
| RSeq (r1 r2 : re)
| RAlt (r1 r2 : re)
| RStar (greedy : bool) (r : re) (* [r*] and [r*?] *)
| RNot (r : re)                  (* [(?!r)] *)
| RCap (r : re)                  (* [(r)], captured *)
| RBol | REol.                   (* [^] and [$] *)

(** ** Building blocks *)

Definition upcase (c : N) : N := if (97 <=? c)%N && (c <=? 122)%N then (c - 32)%N else c.
(** A literal string, with or without the [i] flag. *)
Fixpoint RLit (i : bool) (s : jstr) : re :=
  match s with
  | [] => REps
  | c :: s' => RSeq (RSet (λ d, if i then (upcase d =? upcase c)%N else (d =? c)%N)) (RLit i s')
  end.
Definition RStr (s : jstr) : re := RLit false s.
Definition RStrI (s : jstr) : re := RLit true s.
Definition RPlus (r : re) : re := RSeq r (RStar true r).
Definition ROpt (r : re) : re := RAlt r REps.
(** [.] *)
Definition is_line_end (c : N) : bool :=
  (c =? 10)%N || (c =? 13)%N || (c =? 8232)%N || (c =? 8233)%N.
Definition RDot : re := RSet (λ c, negb (is_line_end c)).
Definition RNotChar (c : N) : re := RSet (λ d, negb (d =? c)%N).
Definition RAny : re := RSet (λ _, true).
Definition RSeqs (l : list re) : re := List.fold_right RSeq REps l.
Definition RAlts (r : re) (l : list re) : re := List.fold_left RAlt l r.

(** ** The matcher *)

(** The iterations of a star: an iteration that consumes nothing fails. *)
Section loop.
Context (step : mstate → (mstate → option mstate) → option mstate).
Context (greedy : bool) (k : mstate → option mstate).

Fixpoint loop (fuel : nat) (st : mstate) : option mstate :=
  match fuel with
  | O => k st
  | S fuel' =>
      let more := step st (λ st', if length (m_rest st') <? length (m_rest st)
                                  then loop fuel' st' else None) in
      if greedy
      then match more with Some x => Some x | None => k st end
      else match k st with Some x => Some x | None => more end
  end.
End loop.

Fixpoint mtch (r : re) (st : mstate) (k : mstate → option mstate) : option mstate :=
  match r with
  | RSet P =>
      match m_rest st with
      | c :: s => if P c then k (MState (S (m_pos st)) s (m_caps st)) else None
      | [] => None
      end
  | REps => k st
  | RSeq r1 r2 => mtch r1 st (λ st', mtch r2 st' k)
  | RAlt r1 r2 => match mtch r1 st k with Some x => Some x | None => mtch r2 st k end
  | RStar g r' => loop (mtch r') g k (length (m_rest st)) st
  | RNot r' => match mtch r' st Some with Some _ => None | None => k st end
  | RCap r' =>
      mtch r' st (λ st', k (MState (m_pos st') (m_rest st')
        (m_caps st' ++ [take (m_pos st' - m_pos st) (m_rest st)])))
  | RBol => if m_pos st =? 0 then k st else None
  | REol => match m_rest st with [] => k st | _ => None end
  end.

(** ** [test], [search] and [replace] *)

Definition match_at (r : re) (s : jstr) (i : nat) : option mstate :=
  mtch r (MState i (drop i s) []) Some.

(** The first start position at or after [i] that matches, with the state
    after the match; [fuel] counts the positions left. *)
Fixpoint search_from (r : re) (s : jstr) (fuel i : nat) : option (nat * mstate) :=
  match match_at r s i with
  | Some st => Some (i, st)
  | None => match fuel with O => None | S fuel' => search_from r s fuel' (S i) end
  end.

Definition exec (r : re) (s : jstr) : option (nat * mstate) :=
  search_from r s (length s) 0.
(** [r.test(s)] *)
Definition test (r : re) (s : jstr) : bool :=
  match exec r s with Some _ => true | None => false end.

(** [s.replace(r,rep)] with the [g] flag: matches from left to right; an empty
    match moves the next start by one. *)
Fixpoint replace_from (fuel : nat) (r : re) (rep s : jstr) (i : nat) : jstr :=
  match fuel with
  | O => drop i s
  | S fuel' =>
      match search_from r s (length s - i) i with
      | None => drop i s
      | Some (j, st) =>
          let e := m_pos st in
          let m := take (e - j) (drop j s) in
          take (j - i) (drop i s)
          ++ expand (take j s) m (drop e s) (m_caps st) rep
          ++ (if e =? j
              then take 1 (drop e s) ++ (if e <? length s then replace_from fuel' r rep s (S e) else [])
              else replace_from fuel' r rep s e)
      end
  end.
Definition replace_all (r : re) (rep s : jstr) : jstr :=
  replace_from (S (length s)) r rep s 0.

(** Without the [g] flag: the first match only. *)
Definition replace_one (r : re) (rep s : jstr) : jstr :=
  match exec r s with
  | None => s
  | Some (j, st) =>
      let e := m_pos st in
      take j s ++ expand (take j s) (take (e - j) (drop j s)) (drop e s) (m_caps st) rep
      ++ drop e s
  end.

(** ** Declarative meaning *)

Inductive iter (R : mstate → mstate → Prop) : mstate → mstate → Prop :=
| iter_done st : iter R st st
| iter_step st st1 st2 :
    R st st1 → length (m_rest st1) < length (m_rest st) → iter R st1 st2 → iter R st st2.

Fixpoint den (r : re) (st st' : mstate) : Prop :=
  match r with
  | RSet P => ∃ c s, m_rest st = c :: s ∧ P c = true ∧
                     st' = MState (S (m_pos st)) s (m_caps st)
  | REps => st' = st
  | RSeq r1 r2 => ∃ st1, den r1 st st1 ∧ den r2 st1 st'
  | RAlt r1 r2 => den r1 st st' ∨ den r2 st st'
  | RStar _ r' => iter (den r') st st'
  | RNot r' => st' = st ∧ ∀ st1, ¬ den r' st st1
  | RCap r' => ∃ st1, den r' st st1 ∧
      st' = MState (m_pos st1) (m_rest st1)
              (m_caps st1 ++ [take (m_pos st1 - m_pos st) (m_rest st)])
  | RBol => st' = st ∧ m_pos st = 0
  | REol => st' = st ∧ m_rest st = []
  end.

(** A matcher is correct for a relation when it succeeds exactly through one
    of the related states. *)
Definition correct (m : mstate → (mstate → option mstate) → option mstate)
    (R : mstate → mstate → Prop) : Prop :=
  ∀ st k,
    (∀ x, m st k = Some x → ∃ st', R st st' ∧ k st' = Some x) ∧
    (m st k = None → ∀ st', R st st' → k st' = None).

Section loop_spec.
Context (step : mstate → (mstate → option mstate) → option mstate).
Context (R : mstate → mstate → Prop) (Hstep : correct step R).
Context (greedy : bool) (k : mstate → option mstate).
Abbreviation lp := (loop step greedy k).
Abbreviation next fuel st := (λ st', if length (m_rest st') <? length (m_rest st)
                                 then lp fuel st' else None).

Lemma loop_sound fuel st x :
  lp fuel st = Some x → ∃ st', iter R st st' ∧ k st' = Some x.
Proof.
  revert st. induction fuel as [|fuel IH]; intros st; simpl.
  - intros Hk. exists st. split; [constructor|done].
  - assert (Hmore : step st (next fuel st) = Some x → ∃ st', iter R st st' ∧ k st' = Some x).
    { intros (st1 & HR & Hn)%(proj1 (Hstep st _)). simpl in Hn.
      destruct (Nat.ltb_spec (length (m_rest st1)) (length (m_rest st))) as [Hlt|]; [|done].
      destruct (IH _ Hn) as (st' & Hi & Hk). exists st'. split; [|done].
      by econstructor. }
    assert (Hk : k st = Some x → ∃ st', iter R st st' ∧ k st' = Some x).
    { intros Hk. exists st. split; [constructor|done]. }
    destruct greedy; case_match; [intros [= <-]; auto|auto|intros [= <-]; auto|auto].
Qed.

Lemma loop_complete fuel st :
  length (m_rest st) ≤ fuel → lp fuel st = None → ∀ st', iter R st st' → k st' = None.
Proof.
  revert st. induction fuel as [|fuel IH]; intros st Hf; simpl.
  - intros Hk st' Hi. destruct Hi as [|? ? ? _ Hlt _]; [done|lia].
  - assert (Hboth : step st (next fuel st) = None → k st = None →
                    ∀ st', iter R st st' → k st' = None).
    { intros Hmore Hk st' Hi. destruct Hi as [|? st1 st2 HR Hlt Hi]; [done|].
      pose proof (proj2 (Hstep st _) Hmore st1 HR) as Hn. simpl in Hn.
      apply Nat.ltb_lt in Hlt as Hb. rewrite Hb in Hn.
      apply (IH st1); [lia|done|done]. }
    destruct greedy; case_match; try done; auto.
Qed.
End loop_spec.

(** The matcher is sound and complete for the declarative meaning. *)
Lemma mtch_correct r : correct (mtch r) (den r).
Proof.
  induction r as [P| |r1 IH1 r2 IH2|r1 IH1 r2 IH2|g r IH|r IH|r IH| |]; intros st k; simpl.
  - destruct (m_rest st) as [|c s] eqn:E; [split; [done|]; intros _ st' (?&?&?&_); congruence|].
    destruct (P c) eqn:HP.
    + split; [intros x Hk; eexists; split; [by exists c, s|done]|].
      intros Hk st' (c' & s' & [= <- <-] & _ & ->). done.
    + split; [done|]. intros _ st' (c' & s' & [= <- <-] & HP' & _). congruence.
  - split; [eauto|]. by intros Hk st' ->.
  - split.
    + intros x (st1 & H1 & (st2 & H2 & Hk)%(proj1 (IH2 _ _)))%(proj1 (IH1 _ _)). eauto.
    + intros Hn st' (st1 & H1 & H2). pose proof (proj2 (IH1 _ _) Hn _ H1) as Hn2.
      exact (proj2 (IH2 _ _) Hn2 _ H2).
  - destruct (mtch r1 st k) as [y|] eqn:E1.
    + split; [|done]. intros x [= <-]. apply IH1 in E1 as (st' & ? & ?). eauto.
    + split.
      * intros x (st' & ? & ?)%(proj1 (IH2 _ _)). eauto.
      * intros E2 st' [H1|H2]; [exact (proj2 (IH1 _ _) E1 _ H1)|exact (proj2 (IH2 _ _) E2 _ H2)].
  - split; [intros x; apply (loop_sound _ _ IH)|apply (loop_complete _ _ IH); lia].
  - destruct (mtch r st Some) as [y|] eqn:E.
    + split; [done|]. intros _ st' [-> Hno].
      apply IH in E as (st1 & Hd & _). by destruct (Hno st1).
    + split.
      * intros x Hk. exists st. split; [|done]. split; [done|]. intros st1 Hd.
        by pose proof (proj2 (IH _ _) E _ Hd).
      * by intros Hk st' [-> _].
  - split.
    + intros x (st1 & Hd & Hk)%(proj1 (IH _ _)). eauto.
    + intros Hn st' (st1 & Hd & ->). exact (proj2 (IH _ _) Hn _ Hd).
  - destruct (Nat.eqb_spec (m_pos st) 0); split; try done; eauto.
    + by intros Hk st' [-> _].
    + by intros _ st' [_ ?].
  - destruct (m_rest st) eqn:E; split; try done; eauto.
    + by intros Hk st' [-> _].
    + intros _ st' [_ ?]. congruence.
Qed.

(** A match only moves forward: it consumes a prefix of the input. *)
Lemma den_consumes r st st' :
  den r st st' → ∃ w, m_rest st = w ++ m_rest st' ∧ m_pos st' = m_pos st + length w.
Proof.
  revert st st'. induction r as [P| |r1 IH1 r2 IH2|r1 IH1 r2 IH2|g r IH|r IH|r IH| |];
    intros st st'; simpl.
  - intros (c & s & -> & _ & ->). exists [c]. simpl. split; [done|lia].
  - intros ->. exists []. simpl. split; [done|lia].
  - intros (st1 & (w1 & E1 & P1)%IH1 & (w2 & E2 & P2)%IH2). exists (w1 ++ w2).
    rewrite E1, E2, <-app_assoc, length_app. split; [done|lia].
  - intros [?%IH1|?%IH2]; done.
  - induction 1 as [st|st st1 st2 (w1 & E1 & P1)%IH _ _ (w2 & E2 & P2)].
    + exists []. simpl. split; [done|lia].
    + exists (w1 ++ w2). rewrite E1, E2, <-app_assoc, length_app. split; [done|lia].
  - intros [-> _]. exists []. simpl. split; [done|lia].
  - intros (st1 & (w & E & Pw)%IH & ->). by exists w.
  - intros [-> _]. exists []. simpl. split; [done|lia].
  - intros [-> _]. exists []. simpl. split; [done|lia].
Qed.

Definition start (s : jstr) (i : nat) : mstate := MState i (drop i s) [].

Lemma match_at_spec r s i st : match_at r s i = Some st → den r (start s i) st.
Proof. intros (st' & Hd & [= <-])%(proj1 (mtch_correct r _ _)). done. Qed.

Lemma match_at_None r s i : match_at r s i = None ↔ ∀ st, ¬ den r (start s i) st.
Proof.
  split.
  - intros Hn st Hd. by pose proof (proj2 (mtch_correct r _ _) Hn _ Hd).
  - intros Hno. destruct (match_at r s i) as [st|] eqn:E; [|done].
    apply match_at_spec in E. by destruct (Hno st).
Qed.

Lemma search_from_Some r s fuel i j st :
  search_from r s fuel i = Some (j, st) →
  i ≤ j ≤ i + fuel ∧ match_at r s j = Some st ∧ ∀ k, i ≤ k < j → match_at r s k = None.
Proof.
  revert i. induction fuel as [|fuel IH]; intros i; simpl;
    destruct (match_at r s i) eqn:E.
  - intros [= <- <-]. repeat split; [lia..|done|intros; lia].
  - done.
  - intros [= <- <-]. repeat split; [lia..|done|intros; lia].
  - intros (Hj & Hm & Hno)%IH. repeat split; [lia..|done|].
    intros k Hk. destruct (decide (k = i)) as [->|]; [done|]. apply Hno. lia.
Qed.

Lemma search_from_None r s fuel i :
  search_from r s fuel i = None ↔ ∀ k, i ≤ k ≤ i + fuel → match_at r s k = None.
Proof.
  revert i. induction fuel as [|fuel IH]; intros i; simpl; destruct (match_at r s i) eqn:E.
  - split; [done|]. intros H. rewrite H in E; [done|lia].
  - split; [|done]. intros _ k Hk. by replace k with i by lia.
  - split; [done|]. intros H. rewrite H in E; [done|lia].
  - rewrite IH. split; intros H k Hk; [|apply H; lia].
    destruct (decide (k = i)) as [->|]; [done|]. apply H. lia.
Qed.

(** [test] answers whether the expression matches somewhere in the input. *)
Lemma test_spec r s :
  test r s = true ↔ ∃ i st, i ≤ length s ∧ den r (start s i) st.
Proof.
  unfold test, exec. destruct (search_from _ _ _ _) as [[j st]|] eqn:E.
  - split; [|done]. intros _. apply search_from_Some in E as (Hj & Hm & _).
    exists j, st. split; [lia|by apply match_at_spec].
  - split; [done|]. intros (i & st & Hi & Hd).
    pose proof (proj1 (search_from_None _ _ _ _) E i ltac:(lia)) as Hn.
    by destruct (proj1 (match_at_None _ _ _) Hn st).
Qed.

Lemma replace_all_no_match r rep s : test r s = false → replace_all r rep s = s.
Proof.
  unfold test, exec, replace_all. simpl. rewrite Nat.sub_0_r.
  by destruct (search_from _ _ _ _).
Qed.

(** Anchored expressions [^...$]: the whole input is described. *)
Lemma test_anchored r s :
  test (RSeq RBol (RSeq r REol)) s = true ↔ ∃ st, den r (start s 0) st ∧ m_rest st = [].
Proof.
  rewrite test_spec. unfold start. split.
  - intros (i & st & _ & st1 & [-> Hi] & st2 & Hd & [-> He]). simpl in Hi. subst i. eauto.
  - intros (st & Hd & He). exists 0, st. split; [lia|].
    exists (start s 0). split; [done|]. exists st. done.
Qed.

(** Languages: what a capture-free expression consumes, without positions. *)
Lemma den_RSet P c s n cs : P c = true →
  den (RSet P) (MState n (c :: s) cs) (MState (S n) s cs).
Proof. intros HP. by exists c, s. Qed.

(** A star of a character class takes any run of its characters. *)
Lemma den_star_set g P st st' :
  den (RStar g (RSet P)) st st' ↔
  ∃ t, m_rest st = t ++ m_rest st' ∧ Forall (λ c, P c = true) t
       ∧ st' = MState (m_pos st + length t) (m_rest st') (m_caps st).
Proof.
  cbn [den]. split.
  - induction 1 as [st|st st1 st2 (c & s & E & HP & ->) _ _ IH].
    + exists []. split; [done|]. split; [constructor|]. destruct st; simpl. by rewrite Nat.add_0_r.
    + destruct IH as (t & Et & Ht & ->). cbn [m_rest m_pos m_caps] in *.
      exists (c :: t). rewrite E, Et. split; [done|]. split; [by constructor|].
      f_equal. simpl. lia.
  - intros (t & E & Ht & ->). destruct st as [n r cs], st' as [n' r' cs']. cbn [m_rest m_pos m_caps] in *.
    revert n r E. induction Ht as [|c t Hc Ht IH]; intros n r ->; cbn [length app].
    + rewrite Nat.add_0_r. constructor.
    + apply (iter_step _ _ (MState (S n) (t ++ r') cs)).
      * by exists c, (t ++ r').
      * simpl. lia.
      * replace (n + S (length t)) with (S n + length t) by lia. by apply IH.
Qed.

(** [^[P][Q]*$] *)
Lemma test_head_star P Q s :
  test (RSeqs [RBol; RSet P; RStar true (RSet Q); REol]) s = true ↔
  match s with c :: t => P c = true ∧ Forall (λ d, Q d = true) t | [] => False end.
Proof.
  rewrite test_spec. cbn [RSeqs List.fold_right]. split.
  - intros (i & st & _ & st0 & [-> Hi] & st1 & (c & t & E & HP & ->) & st2 & Hstar & st3 & [-> He] & ->).
    unfold start in Hi, E. cbn [m_pos m_rest] in Hi, E. subst i. rewrite drop_0 in E. subst s.
    apply den_star_set in Hstar as (u & Eu & Hu & _). cbn [m_rest] in Eu.
    rewrite He, app_nil_r in Eu. by subst u.
  - destruct s as [|c t]; [done|]. intros [HP HQ].
    exists 0, (MState (1 + length t) [] []). split; [lia|].
    exists (start (c :: t) 0). split; [done|].
    exists (MState 1 t []). split; [by exists c, t|].
    exists (MState (1 + length t) [] []). split; [|by exists (MState (1 + length t) [] [])].
    apply den_star_set. exists t. cbn [m_rest m_pos m_caps]. by rewrite app_nil_r.
Qed.

(** *** One match *)

Lemma search_from_first r s fuel i j st :
  i ≤ j ≤ i + fuel → match_at r s j = Some st → (∀ k, i ≤ k < j → match_at r s k = None) →
  search_from r s fuel i = Some (j, st).
Proof.
  intros Hj Hm Hno. destruct (search_from r s fuel i) as [[j' st']|] eqn:E.
  - apply search_from_Some in E as (Hj' & Hm' & Hno').
    assert (j = j') as <-; [|congruence].
    destruct (lt_eq_lt_dec j j') as [[Hlt| ->]|Hlt]; [|done|].
    + rewrite Hno' in Hm; [done|lia].
    + rewrite Hno in Hm'; [done|lia].
  - rewrite (proj1 (search_from_None _ _ _ _) E) in Hm; [done|lia].
Qed.

Lemma match_pos r s i st : i ≤ length s → match_at r s i = Some st →
  m_rest st = drop (m_pos st) s ∧ i ≤ m_pos st ≤ length s.
Proof.
  intros Hi Hm. apply match_at_spec, den_consumes in Hm as (w & E & P).
  unfold start in *. cbn [m_pos m_rest] in *. rewrite P, <-drop_drop, E, drop_app_length.
  split; [done|]. apply (f_equal length) in E. rewrite length_drop, length_app in E. lia.
Qed.

(** The expression matches [h], between [u] and [v], and nowhere before or
    after: with and without the [g] flag the match is replaced. *)
Lemma replace_all_one r rep u h v st :
  h ≠ [] →
  match_at r (u ++ h ++ v) (length u) = Some st → m_rest st = v →
  (∀ k, k < length u → match_at r (u ++ h ++ v) k = None) →
  (∀ k, length u + length h ≤ k ≤ length (u ++ h ++ v) → match_at r (u ++ h ++ v) k = None) →
  replace_all r rep (u ++ h ++ v) = u ++ expand u h v (m_caps st) rep ++ v.
Proof.
  set (s := u ++ h ++ v). intros Hh Hm Hr Hbefore Hafter.
  assert (length s = length u + (length h + length v)) as Hlen by (unfold s; by rewrite !length_app).
  destruct (match_pos r s (length u) st ltac:(lia) Hm) as [Hd Hp].
  assert (m_pos st = length u + length h) as Hpos.
  { rewrite Hr in Hd. apply (f_equal length) in Hd. rewrite length_drop in Hd. lia. }
  assert (1 ≤ length h) as Hh1 by (destruct h; simpl; [done|lia]).
  unfold replace_all. cbn [replace_from]. rewrite Nat.sub_0_r.
  rewrite (search_from_first r s (length s) 0 (length u) st); [|lia|done|intros; apply Hbefore; lia].
  rewrite Hpos, (proj2 (Nat.eqb_neq _ _)) by lia.
  assert (replace_from (length s) r rep s (length u + length h) = v) as ->.
  { destruct (length s) as [|n] eqn:En; [lia|]. cbn [replace_from]. rewrite En.
    assert (search_from r s (S n - (length u + length h)) (length u + length h) = None) as ->
      by (apply search_from_None; intros; apply Hafter; lia).
    unfold s. rewrite app_assoc, drop_app_length'; [done|by rewrite length_app]. }
  rewrite drop_0, Nat.sub_0_r.
  replace (length u + length h - length u) with (length h) by lia.
  unfold s. rewrite take_app_length, drop_app_length, take_app_length.
  replace (drop _ _) with v; [done|].
  by rewrite app_assoc, <-length_app, drop_app_length.
Qed.

(** *** Literals, with or without case *)

(** [s] begins with [p], the case of letters being ignored. *)
Definition beginsI (p s : jstr) : Prop :=
  ∃ q t, s = q ++ t ∧ List.map upcase q = List.map upcase p.

Lemma den_RStrI p st st' :
  den (RStrI p) st st' ↔
  ∃ q, m_rest st = q ++ m_rest st' ∧ List.map upcase q = List.map upcase p
    ∧ st' = MState (m_pos st + length p) (m_rest st') (m_caps st).
Proof.
  unfold RStrI. destruct st as [n r cs], st' as [n' r' cs']. cbn [m_rest m_pos m_caps].
  revert n r. induction p as [|c p IH]; intros n r; cbn [RLit den List.map length].
  - split.
    + intros [= -> -> ->]. exists []. split; [done|]. split; [done|]. f_equal. lia.
    + intros (q & -> & Hq & [= -> ->]). destruct q; [|done]. simpl. f_equal. lia.
  - split.
    + intros (st1 & (d & s & E & Hd & ->) & (q & -> & Hq & [= -> ->])%IH).
      cbn [m_rest] in E. subst r. exists (d :: q). split; [done|]. apply N.eqb_eq in Hd.
      split; [simpl; by rewrite Hd, Hq|]. f_equal. lia.
    + intros (q & -> & Hq & [= -> ->]). destruct q as [|d q]; [done|].
      injection Hq as Hd Hq. exists (MState (S n) (q ++ r') cs). split.
      * exists d, (q ++ r'). split; [done|]. split; [by apply N.eqb_eq|done].
      * apply IH. exists q. split; [done|]. split; [done|]. f_equal. lia.
Qed.

Lemma den_RStrI_begins p st : (∃ st', den (RStrI p) st st') ↔ beginsI p (m_rest st).
Proof.
  split.
  - intros (st' & (q & E & Hq & _)%den_RStrI). by exists q, (m_rest st').
  - intros (q & t & E & Hq). exists (MState (m_pos st + length p) t (m_caps st)).
    apply den_RStrI. by exists q.
Qed.

(** *** Languages

    An expression without [^] and [$] looks neither at the position nor at the
    captures: [lang r s t] says that it takes the input from [s] to [t]. *)

Fixpoint unanchored (r : re) : bool :=
  match r with
  | RSeq r1 r2 | RAlt r1 r2 => unanchored r1 && unanchored r2
  | RStar _ r' | RNot r' | RCap r' => unanchored r'
  | RBol | REol => false
  | RSet _ | REps => true
  end.

Inductive runs_of (R : jstr → jstr → Prop) : jstr → jstr → Prop :=
| runs_done s : runs_of R s s
| runs_more s t u : R s t → length t < length s → runs_of R t u → runs_of R s u.

Fixpoint lang (r : re) (s t : jstr) : Prop :=
  match r with
  | RSet P => ∃ c, s = c :: t ∧ P c = true
  | RSeq r1 r2 => ∃ u, lang r1 s u ∧ lang r2 u t
  | RAlt r1 r2 => lang r1 s t ∨ lang r2 s t
  | RStar _ r' => runs_of (lang r') s t
  | RNot r' => s = t ∧ ∀ u, ¬ lang r' s u
  | RCap r' => lang r' s t
  | REps | RBol | REol => s = t
  end.

Lemma den_lang r : unanchored r = true → ∀ st,
  (∀ st', den r st st' → lang r (m_rest st) (m_rest st'))
  ∧ (∀ t, lang r (m_rest st) t → ∃ st', den r st st' ∧ m_rest st' = t).
Proof.
  induction r as [P| |r1 IH1 r2 IH2|r1 IH1 r2 IH2|g r IH|r IH|r IH| |]; cbn [unanchored den lang];
    intros Hu st; bool_simp; try done.
  - split; [by intros st' (c & s & E & HP & ->); exists c|].
    intros t (c & E & HP). eexists. split; [by exists c, t|done].
  - split; [by intros st' ->|]. intros t <-. by exists st.
  - split.
    + intros st' (st1 & D1 & D2). exists (m_rest st1). split; [by apply IH1|by apply IH2].
    + intros t (u & L1 & L2). destruct (proj2 (IH1 ltac:(done) st) _ L1) as (st1 & D1 & <-).
      destruct (proj2 (IH2 ltac:(done) st1) _ L2) as (st2 & D2 & <-). exists st2. eauto.
  - split.
    + intros st' [D|D]; [left; by apply IH1|right; by apply IH2].
    + intros t [L|L]; [destruct (proj2 (IH1 ltac:(done) st) _ L) as (st' & ? & ?)
        |destruct (proj2 (IH2 ltac:(done) st) _ L) as (st' & ? & ?)]; eauto.
  - split.
    + induction 1 as [|st st1 st2 D Hlt _ IHi]; [constructor|].
      econstructor; [by apply IH|done|done].
    + intros t L. remember (m_rest st) as s eqn:Es. revert st Es.
      induction L as [s|s t u L Hlt _ IHi]; intros st ->; [exists st; by split; [constructor|]|].
      destruct (proj2 (IH Hu st) _ L) as (st1 & D & <-).
      destruct (IHi st1 eq_refl) as (st2 & Di & <-). exists st2. split; [by econstructor|done].
  - split.
    + intros st' [-> Hno]. split; [done|]. intros u L.
      destruct (proj2 (IH Hu st) _ L) as (st1 & D & _). by destruct (Hno st1).
    + intros t [<- Hno]. exists st. split; [|done]. split; [done|]. intros st1 D.
      apply (Hno (m_rest st1)). exact (proj1 (IH Hu st) _ D).
  - split.
    + intros st' (st1 & D & ->). exact (proj1 (IH Hu st) _ D).
    + intros t L. destruct (proj2 (IH Hu st) _ L) as (st1 & D & <-). eexists. split; [by exists st1|done].
Qed.

(** [^...$] of such an expression: the whole input is in its language. *)
Lemma test_lang r s : unanchored r = true →
  test (RSeq RBol (RSeq r REol)) s = true ↔ lang r s [].
Proof.
  intros Hu. rewrite test_anchored. pose proof (den_lang r Hu (start s 0)) as [H1 H2].
  change (m_rest (start s 0)) with (drop 0 s) in *. rewrite drop_0 in *. split.
  - intros (st & D & E). specialize (H1 _ D). by rewrite E in H1.
  - intros L. destruct (H2 _ L) as (st & D & E). by exists st.
Qed.

(** A star of a character class takes a run of its characters. *)
Lemma runs_of_set P s t :
  runs_of (lang (RSet P)) s t ↔ ∃ w, s = w ++ t ∧ Forall (λ c, P c = true) w.
Proof.
  split.
  - induction 1 as [s|s t u (c & -> & HP) _ _ (w & -> & Hw)]; [by exists []|].
    exists (c :: w). split; [done|by constructor].
  - intros (w & -> & Hw). induction Hw as [|c w HP Hw IH]; [constructor|].
    apply (runs_more _ _ (w ++ t)); [by exists c|simpl; lia|done].
Qed.

(** An expression without [^] and [$] matches somewhere in the input. *)
Lemma test_somewhere r s : unanchored r = true →
  test r s = true ↔ ∃ a b t, s = a ++ b ∧ lang r b t.
Proof.
  intros Hu. rewrite test_spec. split.
  - intros (i & st & Hi & D). exists (take i s), (drop i s), (m_rest st).
    split; [by rewrite take_drop|]. exact (proj1 (den_lang r Hu (start s i)) _ D).
  - intros (a & b & t & -> & L). exists (length a).
    destruct (proj2 (den_lang r Hu (start (a ++ b) (length a))) t) as (st & D & _).
    + unfold start. cbn [m_rest]. by rewrite drop_app_length.
    + exists st. rewrite length_app. split; [lia|done].
Qed.

Lemma lang_lit i p t : lang (RLit i p) (p ++ t) t.
Proof.
  induction p as [|c p IH]; [done|]. cbn [RLit lang app]. exists (p ++ t). split; [|done].
  exists c. split; [done|]. destruct i; apply N.eqb_refl.
Qed.

(** *** What a greedy star of a class takes *)

(** The longest run, when what follows never fails. *)
Lemma mtch_star_set P w t n cs k :
  Forall (λ c, P c = true) w → match t with c :: _ => P c = false | [] => True end →
  is_Some (k (MState (n + length w) t cs)) →
  mtch (RStar true (RSet P)) (MState n (w ++ t) cs) k = k (MState (n + length w) t cs).
Proof.
  intros Hw Ht Hk. cbn [mtch m_rest].
  assert (∀ fuel, length (w ++ t) ≤ fuel →
    loop (mtch (RSet P)) true k fuel (MState n (w ++ t) cs) = k (MState (n + length w) t cs)) as H;
    [|by apply H].
  revert n Hk. induction Hw as [|c w Hc _ IH]; intros n [x E] fuel Hf; cbn [app length] in *.
  - rewrite Nat.add_0_r. destruct fuel as [|fuel]; [done|]. cbn [loop mtch m_rest].
    destruct t as [|c t]; [done|]. by rewrite Ht.
  - destruct fuel as [|fuel]; [lia|]. cbn [loop mtch m_rest]. rewrite Hc. cbn [m_pos m_caps m_rest].
    rewrite (proj2 (Nat.ltb_lt _ _)) by (cbn [length]; lia).
    replace (n + S (length w)) with (S n + length w) in * by lia.
    rewrite IH; [by rewrite E|by eexists|lia].
Qed.

Lemma mtch_plus_set P w t n cs k : w ≠ [] →
  Forall (λ c, P c = true) w → match t with c :: _ => P c = false | [] => True end →
  is_Some (k (MState (n + length w) t cs)) →
  mtch (RPlus (RSet P)) (MState n (w ++ t) cs) k = k (MState (n + length w) t cs).
Proof.
  intros N Hw Ht Hk. destruct Hw as [|c w Hc Hw]; [done|].
  change (mtch (RPlus (RSet P)) (MState n ((c :: w) ++ t) cs) k)
    with (if P c then mtch (RStar true (RSet P)) (MState (S n) (w ++ t) cs) k else None).
  rewrite Hc. cbn [length] in *. replace (n + S (length w)) with (S n + length w) in * by lia.
  by apply mtch_star_set.
Qed.
(** A literal takes itself. *)
Lemma mtch_lit p k : ∀ n s cs,
  mtch (RStr p) (MState n s cs) k =
    if starts_with p s then k (MState (n + length p) (drop (length p) s) cs) else None.
Proof.
  unfold RStr. induction p as [|c p IH]; intros n s cs; cbn [RLit mtch starts_with length].
  - by rewrite Nat.add_0_r.
  - cbn [m_rest]. destruct s as [|d s]; [done|]. rewrite N.eqb_sym.
    destruct (c =? d)%N; [|done]. cbn [andb m_pos m_caps]. rewrite IH.
    replace (n + S (length p)) with (S n + length p) by lia. done.
Qed.

(** A search that skips the positions where nothing matches. *)
Lemma search_skip r s i u v st :
  drop i s = u ++ v → match_at r s (i + length u) = Some st →
  (∀ k, k < length u → match_at r s (i + k) = None) →
  search_from r s (length s - i) i = Some (i + length u, st).
Proof.
  intros E Hm Hno. apply search_from_first; [|done|].
  - apply (f_equal length) in E. rewrite length_drop, length_app in E.
    destruct u; simpl in *; lia.
  - intros k Hk. replace k with (i + (k - i)) by lia. apply Hno. lia.
Qed.
Lemma drop_sub {A} (s : list A) i u v : drop i s = u ++ v → drop (i + length u) s = v.
Proof. intros E. by rewrite <-drop_drop, E, drop_app_length. Qed.
Lemma take_sub {A} (s : list A) i u v : drop i s = u ++ v → take (i + length u - i) (drop i s) = u.
Proof. intros ->. replace (i + length u - i) with (length u) by lia. apply take_app_length. Qed.
