(* ===== verification/Page.v ===== *)
(** * The page: what the scripts read and write

    A page is the browser state the scripts act on: the elements, the selector
    table (which elements a jQuery selector finds), the layout the browser
    computed, the widgets that [base.js] creates at run time, and the trace of
    what leaves the page (requests, navigation, focus).  A script is a
    computation on the page that may throw. *)

From Stdlib Require Export QArith_base.
From S2P Require Import Prelude Js.
#[local] Open Scope Z_scope.

Abbreviation eid := nat.

(** ** Elements *)

(** A style value the scripts assign: pixels, or a keyword. *)
Inductive css := Px (q : Q) | Kw (s : jstr).

Record elt := Elt {
  e_val : jstr;                 (* the value of a form control *)
  e_html : jstr;                (* the contents *)
  e_shown : bool;
  e_checked : bool;
  e_disabled : bool;
  e_cls : list jstr;
  e_attr : gmap jstr jstr;
  e_css : gmap jstr css;
  e_sel : Z * Z                 (* the selection of a text field *)
}.

Definition blank : elt := Elt [] [] true false false [] ∅ ∅ (0, 0).
(** Assigning the value puts the caret at its end. *)
Definition with_val (v : jstr) (e : elt) : elt :=
  Elt v (e_html e) (e_shown e) (e_checked e) (e_disabled e) (e_cls e) (e_attr e) (e_css e)
    (Z.of_nat (length v), Z.of_nat (length v)).
Definition with_sel (x : Z * Z) (e : elt) : elt :=
  Elt (e_val e) (e_html e) (e_shown e) (e_checked e) (e_disabled e) (e_cls e) (e_attr e) (e_css e) x.
Definition with_html (h : jstr) (e : elt) : elt :=
  Elt (e_val e) h (e_shown e) (e_checked e) (e_disabled e) (e_cls e) (e_attr e) (e_css e) (e_sel e).
Definition with_shown (b : bool) (e : elt) : elt :=
  Elt (e_val e) (e_html e) b (e_checked e) (e_disabled e) (e_cls e) (e_attr e) (e_css e) (e_sel e).
Definition with_checked (b : bool) (e : elt) : elt :=
  Elt (e_val e) (e_html e) (e_shown e) b (e_disabled e) (e_cls e) (e_attr e) (e_css e) (e_sel e).
Definition with_disabled (b : bool) (e : elt) : elt :=
  Elt (e_val e) (e_html e) (e_shown e) (e_checked e) b (e_cls e) (e_attr e) (e_css e) (e_sel e).
Definition with_cls (c : list jstr) (e : elt) : elt :=
  Elt (e_val e) (e_html e) (e_shown e) (e_checked e) (e_disabled e) c (e_attr e) (e_css e) (e_sel e).
Definition with_attr (k v : jstr) (e : elt) : elt :=
  Elt (e_val e) (e_html e) (e_shown e) (e_checked e) (e_disabled e) (e_cls e)
    (<[k := v]> (e_attr e)) (e_css e) (e_sel e).
Definition with_css (k : jstr) (v : css) (e : elt) : elt :=
  Elt (e_val e) (e_html e) (e_shown e) (e_checked e) (e_disabled e) (e_cls e)
    (e_attr e) (<[k := v]> (e_css e)) (e_sel e).

Definition has_class (c : jstr) (e : elt) : bool := bool_decide (c ∈ e_cls e).
Definition add_class (c : jstr) (e : elt) : elt :=
  if has_class c e then e else with_cls (e_cls e ++ [c]) e.
Definition remove_class (c : jstr) (e : elt) : elt :=
  with_cls (List.filter (λ d, negb (bool_decide (d = c))) (e_cls e)) e.
Definition toggle_class (c : jstr) (e : elt) : elt :=
  if has_class c e then remove_class c e else add_class c e.

(** ** Layout *)

(** What [offset()], [outerWidth()] and [outerHeight()] measure. *)
Record box := Box { b_top : Q; b_left : Q; b_w : Q; b_h : Q }.
(** The window, and whether the browser is the one the scripts size overlays
    for by hand ([$.browser.msie && $.browser.version=="6.0" && !$.support.style]). *)
Record window := Window { win_w : Q; win_h : Q; win_top : Q; win_left : Q; win_ie6 : bool }.

(** ** What leaves the page *)

Inductive event :=
| EvAssign (url : jstr)                       (* [location.assign(url)] *)
| EvReload                                    (* [location.reload()] *)
| EvSubmit (form : jstr)                      (* [$(form).submit()] *)
| EvSubmitTo (form : jstr) (action : jval)    (* the same, with the address of the form then *)
| EvAjax (url : jstr) (args : list (jstr * jstr))
| EvLoad (target url : jstr)                  (* [$(target).load(url)] *)
| EvLoadWith (target url : jstr) (args : list (jstr * jstr))  (* [$(target).load(url,args)] *)
| EvPost (url : jstr) (args : list (jstr * jstr))
| EvOpen (url : jstr)                         (* [window.open(url)] *)
| EvFocus (target : jstr)
| EvClick (target : jstr)                     (* [trigger('click')] *)
| EvAlert (msg : jstr)
| EvBox (msg : jstr) (kind ms : Z)             (* [$('body').messagebox(msg,'',kind,ms)] *)
| EvCookie (s : jstr)
| EvTimeout (ms : Z)                          (* [setTimeout(f,ms)] *)
| EvEval (code : jstr).                       (* [eval(code)] *)

#[export] Instance event_eq_dec : EqDecision event.
Proof. solve_decision. Defined.

(** ** The widgets of [base.js] *)

(** The pending [setTimeout(code,ms)]. *)
Record timer := Timer { tm_code : jstr; tm_ms : jval }.

(** The banner [#err_mess]: its text, its class [err1], [err2] or [err10],
    where it stands and how high. *)
Record banner := Banner { bn_text : jstr; bn_kind : jstr; bn_top : Q; bn_left : Q; bn_z : Z }.

(** The size a script forces on an overlay, if it does. *)
Abbreviation size := (option (Q * Q)).

(** The dialog [#msg_bg] and the [#msg] in it. *)
Record dialog := Dialog { dg_html : jstr; dg_shown : bool; dg_top : option Q; dg_z : Z; dg_size : size }.

Record ui := UI {
  u_banner : option banner;         (* [#err_mess] *)
  u_timer : option timer;           (* the pending [t_time] *)
  u_overlays : list size;           (* the [.loading_bg] elements *)
  u_cover : option (bool * size);   (* [#msg_bg2]: shown, size *)
  u_dialog : option dialog;
  u_select_id : jstr;               (* the id of [.select_div] *)
  u_select_shown : bool;
  u_bound : list (jstr * jstr);     (* handlers of [mousedown.*] on the document, with their box *)
  u_inputObj : jstr;                (* [$inputObj] *)
  u_zmax : option Z                 (* [__maxIndex] *)
}.

Section ui_updates.
Implicit Types u : ui.
Definition with_banner b u :=
  UI b (u_timer u) (u_overlays u) (u_cover u) (u_dialog u) (u_select_id u)
    (u_select_shown u) (u_bound u) (u_inputObj u) (u_zmax u).
Definition with_timer t u :=
  UI (u_banner u) t (u_overlays u) (u_cover u) (u_dialog u) (u_select_id u)
    (u_select_shown u) (u_bound u) (u_inputObj u) (u_zmax u).
Definition with_overlays o u :=
  UI (u_banner u) (u_timer u) o (u_cover u) (u_dialog u) (u_select_id u)
    (u_select_shown u) (u_bound u) (u_inputObj u) (u_zmax u).
Definition with_cover c u :=
  UI (u_banner u) (u_timer u) (u_overlays u) c (u_dialog u) (u_select_id u)
    (u_select_shown u) (u_bound u) (u_inputObj u) (u_zmax u).
Definition with_dialog d u :=
  UI (u_banner u) (u_timer u) (u_overlays u) (u_cover u) d (u_select_id u)
    (u_select_shown u) (u_bound u) (u_inputObj u) (u_zmax u).
Definition with_select i b u :=
  UI (u_banner u) (u_timer u) (u_overlays u) (u_cover u) (u_dialog u) i
    b (u_bound u) (u_inputObj u) (u_zmax u).
Definition with_bound b u :=
  UI (u_banner u) (u_timer u) (u_overlays u) (u_cover u) (u_dialog u) (u_select_id u)
    (u_select_shown u) b (u_inputObj u) (u_zmax u).
Definition with_inputObj o u :=
  UI (u_banner u) (u_timer u) (u_overlays u) (u_cover u) (u_dialog u) (u_select_id u)
    (u_select_shown u) (u_bound u) o (u_zmax u).
Definition with_zmax z u :=
  UI (u_banner u) (u_timer u) (u_overlays u) (u_cover u) (u_dialog u) (u_select_id u)
    (u_select_shown u) (u_bound u) (u_inputObj u) z.
End ui_updates.

Record world (G : Type) := World {
  w_sel : gmap jstr (list eid);
  w_elt : gmap eid elt;
  w_box : gmap jstr box;
  w_win : window;
  w_ui : ui;
  w_ev : list event;
  w_now : Z;                   (* [new Date().getTime()] *)
  w_glob : G                   (* the script's own variables *)
}.
Arguments World {G}.
Arguments w_sel {G}.
Arguments w_elt {G}.
Arguments w_box {G}.
Arguments w_win {G}.
Arguments w_ui {G}.
Arguments w_ev {G}.
Arguments w_now {G}.
Arguments w_glob {G}.

Section updates.
Context {G : Type}.
Implicit Types w : world G.

Definition set_elt (m : gmap eid elt) w : world G :=
  World (w_sel w) m (w_box w) (w_win w) (w_ui w) (w_ev w) (w_now w) (w_glob w).
Definition set_ui (u : ui) w : world G :=
  World (w_sel w) (w_elt w) (w_box w) (w_win w) u (w_ev w) (w_now w) (w_glob w).
Definition set_ev (l : list event) w : world G :=
  World (w_sel w) (w_elt w) (w_box w) (w_win w) (w_ui w) l (w_now w) (w_glob w).
Definition set_glob (g : G) w : world G :=
  World (w_sel w) (w_elt w) (w_box w) (w_win w) (w_ui w) (w_ev w) (w_now w) g.
End updates.

(** ** Scripts *)

Inductive res (A : Type) := Ok (a : A) | Exn (e : jstr).
Arguments Ok {A}.
Arguments Exn {A}.

Definition J (G A : Type) : Type := world G → res A * world G.

#[export] Instance J_ret {G} : MRet (J G) := λ A a w, (Ok a, w).
#[export] Instance J_bind {G} : MBind (J G) := λ A B f m w,
  match m w with
  | (Ok a, w') => f a w'
  | (Exn e, w') => (Exn e, w')
  end.

Section primitives.
Context {G : Type}.

Definition throw {A} (e : jstr) : J G A := λ w, (Exn e, w).
Definition gets {A} (f : world G → A) : J G A := λ w, (Ok (f w), w).
Definition modify (f : world G → world G) : J G unit := λ w, (Ok tt, f w).
Definition skip : J G unit := mret tt.
Definition when (b : bool) (m : J G unit) : J G unit := if b then m else skip.

Fixpoint for_each {A} (l : list A) (f : A → J G unit) : J G unit :=
  match l with
  | [] => skip
  | x :: l' => f x ;; for_each l' f
  end.

(** [$(l).each(f)]: stops as soon as [f] returns [false]. *)
Fixpoint each {A} (l : list A) (f : A → J G bool) : J G unit :=
  match l with
  | [] => skip
  | x :: l' => b ← f x; if b : bool then each l' f else skip
  end.

(** A loop that carries a local variable. *)
Fixpoint fold_each {A B} (l : list A) (b : B) (f : B → A → J G B) : J G B :=
  match l with
  | [] => mret b
  | x :: l' => b' ← f b x; fold_each l' b' f
  end.

Definition emit (e : event) : J G unit := modify (λ w, set_ev (w_ev w ++ [e]) w).
Definition get_glob : J G G := gets w_glob.
Definition put_glob (g : G) : J G unit := modify (set_glob g).
Definition mod_glob (f : G → G) : J G unit := modify (λ w, set_glob (f (w_glob w)) w).
Definition mod_ui (f : ui → ui) : J G unit := modify (λ w, set_ui (f (w_ui w)) w).

(** [$(document).bind(name,..)] for the box [box], [$(document).unbind(name)] *)
Definition bind_doc (name box : jstr) : J G unit :=
  mod_ui (λ u, with_bound (u_bound u ++ [(name, box)]) u).
Definition unbind_doc (name : jstr) : J G unit :=
  mod_ui (λ u, with_bound (List.filter (λ p, negb (bool_decide (p.1 = name))) (u_bound u)) u).

(** *** jQuery: a selector and the elements it finds *)

Definition found (sel : jstr) (w : world G) : list eid := default [] (w_sel w !! sel).
Definition nth_elt (w : world G) (i : eid) : elt := default blank (w_elt w !! i).
Definition first (sel : jstr) (w : world G) : option elt :=
  match found sel w with i :: _ => Some (nth_elt w i) | [] => None end.

(** [$(sel).f(...)] for a setter [f]: every element found is updated. *)
Definition upd (f : elt → elt) (l : list eid) (w : world G) : world G :=
  set_elt (List.fold_left (λ m i, alter f i m) l (w_elt w)) w.
Definition on (sel : jstr) (f : elt → elt) : J G unit :=
  modify (λ w, upd f (found sel w) w).

(** [$(sel).size()] *)
Definition size_of (sel : jstr) : J G Z := gets (λ w, Z.of_nat (length (found sel w))).
(** [$(sel).val()]: [undefined] when nothing is found *)
Definition val (sel : jstr) : J G jval :=
  gets (λ w, match first sel w with Some e => VStr (e_val e) | None => VUndef end).
Definition set_val (sel v : jstr) : J G unit := on sel (with_val v).
(** [$(sel).html()]; jQuery answers [null] when nothing is found *)
Definition html (sel : jstr) : J G jval :=
  gets (λ w, match first sel w with Some e => VStr (e_html e) | None => VNull end).
Definition set_html (sel h : jstr) : J G unit := on sel (with_html h).
Definition show (sel : jstr) : J G unit := on sel (with_shown true).
Definition hide (sel : jstr) : J G unit := on sel (with_shown false).
Definition toggle (sel : jstr) : J G unit := on sel (λ e, with_shown (negb (e_shown e)) e).
(** [$(sel)[0].checked]: throws when nothing is found *)
Definition checked0 (sel : jstr) : J G bool :=
  o ← gets (first sel);
  match o with Some e => mret (e_checked e) | None => throw (js "TypeError") end.
(** [ele.value] of the control [sel]: throws when there is none *)
Definition value0 (sel : jstr) : J G jstr :=
  o ← gets (first sel);
  match o with Some e => mret (e_val e) | None => throw (js "TypeError") end.
Definition set_checked0 (sel : jstr) (b : bool) : J G unit :=
  l ← gets (found sel);
  match l with
  | i :: _ => modify (upd (with_checked b) [i])
  | [] => throw (js "TypeError")
  end.
(** [$(sel).prop('checked',b)], [$(sel).prop('disabled',b)] *)
Definition set_checked (sel : jstr) (b : bool) : J G unit := on sel (with_checked b).
Definition set_disabled (sel : jstr) (b : bool) : J G unit := on sel (with_disabled b).
(** The elements of [$(sel).each(...)] *)
Definition elts_of (sel : jstr) : J G (list elt) :=
  gets (λ w, List.map (nth_elt w) (found sel w)).
(** [$(sel).attr(k)] *)
Definition attr_of (sel k : jstr) (w : world G) : jval :=
  match first sel w ≫= λ e, e_attr e !! k with Some v => VStr v | None => VUndef end.
Definition attr (sel k : jstr) : J G jval := gets (attr_of sel k).
Definition set_attr (sel k v : jstr) : J G unit := on sel (with_attr k v).
(** [$(form).submit()], where the address matters that the form has then. *)
Definition submit (form : jstr) : J G unit := a ← attr form (js "action"); emit (EvSubmitTo form a).
Definition addClass (sel c : jstr) : J G unit := on sel (add_class c).
Definition removeClass (sel c : jstr) : J G unit := on sel (remove_class c).
(** [$(sel).hasClass(c)] *)
Definition hasClass (sel c : jstr) : J G bool :=
  gets (λ w, match first sel w with Some e => has_class c e | None => false end).
(** [$(sel).css(k,v)] *)
Definition set_css (sel k : jstr) (v : css) : J G unit := on sel (with_css k v).
Definition measure (sel : jstr) : J G box :=
  gets (λ w, default (Box 0 0 0 0) (w_box w !! sel)).
Definition win : J G window := gets w_win.
End primitives.

(** A pure computation that may throw. *)
Definition lift {G A} (r : res A) : J G A := λ w, (r, w).

(** The page with other variables; a script that uses a part of them. *)
Definition retype {G H} (h : H) (w : world G) : world H :=
  World (w_sel w) (w_elt w) (w_box w) (w_win w) (w_ui w) (w_ev w) (w_now w) h.
Definition zoom {G H A} (get : G → H) (put : H → G → G) (m : J H A) : J G A :=
  λ w, let '(r, w') := m (retype (get (w_glob w)) w) in (r, retype (put (w_glob w') (w_glob w)) w').

(** [a || ''] for the value of a field *)
Definition or_empty (v : jval) : jstr := match v with VStr s => s | _ => [] end.
(** The value of a form control as a string ([form.x.value] of a present field). *)
Definition field (v : jval) : jstr := or_empty v.

(** ** Reasoning *)

(** The script runs to the end, returns [a] and leaves [w']. *)
Definition runs {G A} (m : J G A) (w : world G) (a : A) (w' : world G) : Prop :=
  m w = (Ok a, w').

Section facts.
Context {G : Type}.
Implicit Types w : world G.

Lemma bind_ok {A B} (m : J G A) (f : A → J G B) w a w' :
  m w = (Ok a, w') → (m ≫= f) w = f a w'.
Proof. intros E. unfold mbind, J_bind. by rewrite E. Qed.

Lemma bind_assoc {A B C} (m : J G A) (f : A → J G B) (g : B → J G C) w :
  ((m ≫= f) ≫= g) w = (m ≫= (λ a, f a ≫= g)) w.
Proof. unfold mbind, J_bind. by destruct (m w) as [[a|e] w']. Qed.

Lemma bind_cong {A B} (m m' : J G A) (f : A → J G B) w w' :
  m w = m' w' → (m ≫= f) w = (m' ≫= f) w'.
Proof. unfold mbind, J_bind. by intros ->. Qed.

Lemma for_each_app {A} (l k : list A) (f : A → J G unit) w :
  for_each (l ++ k) f w = (for_each l f ;; for_each k f) w.
Proof.
  revert w. induction l as [|x l IH]; intros w; [done|].
  simpl. unfold mbind, J_bind. destruct (f x w) as [[[]|e] w']; [|done]. apply IH.
Qed.

(** An update leaves every element it does not name as it was. *)
Lemma fold_alter_ne (f : elt → elt) l (m : gmap eid elt) j :
  j ∉ l → List.fold_left (λ m i, alter f i m) l m !! j = m !! j.
Proof.
  revert m. induction l as [|i l IH]; intros m; [done|].
  intros [Hi Hl]%not_elem_of_cons. simpl. rewrite IH by done.
  by rewrite lookup_alter_ne.
Qed.

Lemma fold_alter_in (f : elt → elt) l (m : gmap eid elt) j :
  NoDup l → j ∈ l → List.fold_left (λ m i, alter f i m) l m !! j = f <$> m !! j.
Proof.
  revert m. induction l as [|i l IH]; intros m; [by intros _ ?%elem_of_nil|].
  intros [Hi Hl]%NoDup_cons [->|Hj]%elem_of_cons; simpl.
  - rewrite fold_alter_ne by done. by rewrite lookup_alter_eq.
  - rewrite IH by done. rewrite lookup_alter_ne; [done|]. by intros ->.
Qed.

Lemma first_upd_ne sel (f : elt → elt) l w :
  (∀ i, i ∈ found sel w → i ∉ l) → first sel (upd f l w) = first sel w.
Proof.
  intros Hd. unfold first. change (found sel (upd f l w)) with (found sel w).
  destruct (found sel w) as [|i r]; [done|]. unfold nth_elt. simpl.
  rewrite fold_alter_ne; [done|]. apply Hd, elem_of_cons. by left.
Qed.

(** What an update keeps of an element, it keeps of every element. *)
Lemma upd_proj {B} (pi : elt → B) (f : elt → elt) l w i :
  (∀ e, pi (f e) = pi e) → pi (nth_elt (upd f l w) i) = pi (nth_elt w i).
Proof.
  intros Hf. unfold nth_elt, upd. simpl. generalize (w_elt w) as m.
  induction l as [|j l IH]; intros m; [done|]. simpl. rewrite IH.
  destruct (decide (j = i)) as [->|Hij]; [|by rewrite lookup_alter_ne].
  rewrite lookup_alter_eq. by destruct (m !! i); simpl.
Qed.

(** An update adds and removes no element. *)
Lemma upd_is_some (f : elt → elt) l w i :
  is_Some (w_elt w !! i) → is_Some (w_elt (upd f l w) !! i).
Proof.
  unfold upd. simpl. generalize (w_elt w) as m. induction l as [|j l IH]; intros m H; [done|].
  simpl. apply IH. destruct (decide (j = i)) as [->|Hij].
  - rewrite lookup_alter_eq. destruct H as [e ->]. by eexists.
  - by rewrite lookup_alter_ne.
Qed.

(** *** Fields *)

(** The selector finds one element of the page. *)
Definition single (sel : jstr) (w : world G) : Prop :=
  ∃ i e, found sel w = [i] ∧ w_elt w !! i = Some e.
Definition apart (s t : jstr) (w : world G) : Prop :=
  ∀ i, i ∈ found s w → i ∉ found t w.
(** [$(sel).val()] *)
Definition val_of (sel : jstr) (w : world G) : jval :=
  match first sel w with Some e => VStr (e_val e) | None => VUndef end.

(** The page after some styling: the same elements are found and hold the same
    values, and the script's variables are untouched. *)
Record style_only (w w' : world G) : Prop := {
  so_sel : w_sel w' = w_sel w;
  so_glob : w_glob w' = w_glob w;
  so_elt : ∀ i, e_val <$> w_elt w' !! i = e_val <$> w_elt w !! i
}.

Definition quiet {A} (m : J G A) : Prop := ∀ w, ∃ a w', m w = (Ok a, w') ∧ style_only w w'.

Lemma style_refl w : style_only w w.
Proof. by constructor. Qed.

Lemma style_trans w1 w2 w3 : style_only w1 w2 → style_only w2 w3 → style_only w1 w3.
Proof. intros [] []. constructor; intros; etrans; eauto. Qed.

Lemma style_found sel w w' : style_only w w' → found sel w' = found sel w.
Proof. intros [E _ _]. unfold found. by rewrite E. Qed.

Lemma style_single sel w w' : style_only w w' → single sel w → single sel w'.
Proof.
  intros Hs (i & e & Hf & He). pose proof (so_elt _ _ Hs i) as Hv. rewrite He in Hv.
  destruct (w_elt w' !! i) as [e'|] eqn:E; [|done].
  exists i, e'. by rewrite (style_found _ _ _ Hs).
Qed.

Lemma style_apart s t w w' : style_only w w' → apart s t w → apart s t w'.
Proof. intros Hs Ha i. rewrite !(style_found _ _ _ Hs). apply Ha. Qed.

Lemma style_val sel w w' : style_only w w' → val_of sel w' = val_of sel w.
Proof.
  intros Hs. unfold val_of, first. rewrite (style_found _ _ _ Hs).
  destruct (found sel w) as [|i l]; [done|]. unfold nth_elt.
  pose proof (so_elt _ _ Hs i) as Hv.
  destruct (w_elt w' !! i), (w_elt w !! i); simplify_eq/=; congruence.
Qed.

(** Styling is an equivalence, and what a script reads of the fields respects
    it: a page may be replaced by its styled version under these readings. *)
#[export] Instance style_only_equiv : Equivalence style_only.
Proof.
  split; [exact style_refl| |exact style_trans].
  intros w w' [Hs Hg He]. constructor; [by symmetry..|]. intros i. by rewrite He.
Qed.
#[export] Instance found_proper sel : Proper (style_only ==> eq) (found sel).
Proof. intros w w' H. symmetry. by apply style_found. Qed.
#[export] Instance val_of_proper sel : Proper (style_only ==> eq) (val_of sel).
Proof. intros w w' H. symmetry. by apply style_val. Qed.
#[export] Instance w_glob_proper : Proper (style_only ==> eq) (@w_glob G).
Proof. intros w w' H. symmetry. by apply so_glob. Qed.
#[export] Instance single_proper sel : Proper (style_only ==> iff) (single sel).
Proof. intros w w' H. split; apply style_single; [done|by symmetry]. Qed.
#[export] Instance apart_proper s t : Proper (style_only ==> iff) (apart s t).
Proof. intros w w' H. split; apply style_apart; [done|by symmetry]. Qed.

Lemma upd_style (f : elt → elt) l w : (∀ e, e_val (f e) = e_val e) → style_only w (upd f l w).
Proof.
  intros Hf. constructor; [done|done|]. intros j. unfold upd. simpl.
  generalize (w_elt w) as m. induction l as [|i l IH]; intros m; simpl; [done|].
  rewrite IH. destruct (decide (i = j)) as [->|Hij].
  - rewrite lookup_alter_eq. destruct (m !! j); simpl; [by rewrite Hf|done].
  - by rewrite lookup_alter_ne.
Qed.

Lemma quiet_ret {A} (a : A) : quiet (mret a).
Proof. intros w. exists a, w. split; [done|apply style_refl]. Qed.

Lemma quiet_bind {A B} (m : J G A) (f : A → J G B) :
  quiet m → (∀ a, quiet (f a)) → quiet (m ≫= f).
Proof.
  intros Hm Hf w. destruct (Hm w) as (a & w1 & E1 & S1).
  destruct (Hf a w1) as (b & w2 & E2 & S2). exists b, w2.
  rewrite (bind_ok _ _ _ _ _ E1). split; [done|]. by eapply style_trans.
Qed.

Lemma quiet_gets {A} (f : world G → A) : quiet (gets f).
Proof. intros w. eexists _, w. split; [done|apply style_refl]. Qed.

Lemma quiet_on sel (f : elt → elt) : (∀ e, e_val (f e) = e_val e) → quiet (on sel f).
Proof. intros Hf w. eexists tt, _. split; [done|]. by apply upd_style. Qed.

Lemma quiet_when b (m : J G unit) : quiet m → quiet (when b m).
Proof. intros Hm. destruct b; [done|apply quiet_ret]. Qed.

Lemma quiet_mod_ui (f : ui → ui) : quiet (mod_ui (G := G) f).
Proof. intros w. eexists tt, _. split; [done|]. by constructor. Qed.

Lemma quiet_emit e : quiet (emit (G := G) e).
Proof. intros w. eexists tt, _. split; [done|]. by constructor. Qed.

Lemma quiet_match {A B} (o : option A) (m : A → J G B) (k : J G B) :
  (∀ a, quiet (m a)) → quiet k → quiet (match o with Some a => m a | None => k end).
Proof. by destruct o. Qed.

(** *** Scripts that leave the selectors and the script's variables alone *)

Definition inert {A} (m : J G A) : Prop :=
  ∀ w, ∃ a w', m w = (Ok a, w') ∧ w_sel w' = w_sel w ∧ w_glob w' = w_glob w.

Lemma inert_ret {A} (a : A) : inert (mret a).
Proof. intros w. by exists a, w. Qed.
Lemma inert_gets {A} (f : world G → A) : inert (gets f).
Proof. intros w. by eexists _, w. Qed.
Lemma inert_on sel (f : elt → elt) : inert (on sel f).
Proof. intros w. by eexists tt, _. Qed.
Lemma inert_upd (f : elt → elt) l : inert (modify (upd f l)).
Proof. intros w. by eexists tt, _. Qed.
Lemma inert_mod_ui (f : ui → ui) : inert (mod_ui (G := G) f).
Proof. intros w. by eexists tt, _. Qed.
Lemma inert_emit e : inert (emit (G := G) e).
Proof. intros w. by eexists tt, _. Qed.
Lemma inert_bind {A B} (m : J G A) (f : A → J G B) :
  inert m → (∀ a, inert (f a)) → inert (m ≫= f).
Proof.
  intros Hm Hf w. destruct (Hm w) as (a & w1 & E1 & S1 & G1).
  destruct (Hf a w1) as (b & w2 & E2 & S2 & G2). exists b, w2.
  rewrite (bind_ok _ _ _ _ _ E1). split; [done|]. split; congruence.
Qed.
Lemma inert_when b (m : J G unit) : inert m → inert (when b m).
Proof. intros Hm. destruct b; [done|apply inert_ret]. Qed.
Lemma inert_for_each {A} (l : list A) (f : A → J G unit) :
  (∀ x, inert (f x)) → inert (for_each l f).
Proof.
  intros Hf. induction l as [|x l IH]; [apply inert_ret|]. simpl. by apply inert_bind.
Qed.

(** Assigning a field changes that field only. *)
Lemma set_val_field sel v w :
  single sel w →
  ∃ w', set_val sel v w = (Ok tt, w') ∧ w_sel w' = w_sel w ∧ w_glob w' = w_glob w
    ∧ (∀ s, single s w → single s w')
    ∧ val_of sel w' = VStr v
    ∧ ∀ s, apart s sel w → val_of s w' = val_of s w.
Proof.
  intros (i & e & Hf & He). exists (upd (with_val v) (found sel w) w).
  split; [done|]. split; [done|]. split; [done|]. rewrite Hf. repeat split.
  - intros s (j & e' & Hj & Hej). destruct (decide (i = j)) as [->|Hij].
    + exists j, (with_val v e'). split; [done|]. unfold upd. simpl. by rewrite lookup_alter_eq, Hej.
    + exists j, e'. split; [done|]. unfold upd. simpl. by rewrite lookup_alter_ne.
  - unfold val_of, first. change (found sel (upd (with_val v) [i] w)) with (found sel w).
    rewrite Hf. unfold nth_elt, upd. simpl. by rewrite lookup_alter_eq, He.
  - intros s Hs. unfold val_of. rewrite first_upd_ne; [done|].
    intros j Hj. rewrite <-Hf. by apply Hs.
Qed.

(** An update seen through the selector it goes by. *)
Lemma on_first sel (f : elt → elt) w :
  single sel w → first sel (upd f (found sel w) w) = f <$> first sel w.
Proof.
  intros (i & e & Hf & He). unfold first. change (found sel (upd f (found sel w) w)) with (found sel w).
  rewrite Hf. unfold nth_elt, upd. simpl. by rewrite lookup_alter_eq, He.
Qed.

Lemma upd_single (f : elt → elt) l sel w : single sel w → single sel (upd f l w).
Proof.
  intros (i & e & Hf & He). destruct (upd_is_some f l w i) as [e' He']; [by eexists|].
  by exists i, e'.
Qed.

(** Whether the element a selector finds is disabled. *)
Definition dis_of (sel : jstr) (w : world G) : option bool := e_disabled <$> first sel w.

(** Whether the element a selector finds is ticked. *)
Definition checked_of (sel : jstr) w : option bool := e_checked <$> first sel w.
Lemma value0_ok sel v w : val_of sel w = VStr v → value0 sel w = (Ok v, w).
Proof.
  unfold val_of, value0. rewrite (bind_ok (gets (first sel)) _ w _ w eq_refl).
  destruct (first sel w); [by intros [= <-]|done].
Qed.
Lemma checked0_of sel b w : checked_of sel w = Some b → checked0 sel w = (Ok b, w).
Proof.
  unfold checked_of, checked0. rewrite (bind_ok (gets (first sel)) _ w _ w eq_refl).
  destruct (first sel w); [|done]. by intros [= ->].
Qed.

Lemma single_first sel w : single sel w → ∃ e, first sel w = Some e.
Proof. intros (i & e & Hf & He). unfold first, nth_elt. rewrite Hf, He. by eexists. Qed.

(** *** Scripts that leave a part of every element alone *)

Record frame_step {B} (pi : elt → B) (w w' : world G) : Prop := {
  fs_sel : w_sel w' = w_sel w;
  fs_elt : ∀ i, is_Some (w_elt w !! i) → is_Some (w_elt w' !! i);
  fs_pi : ∀ i, pi (nth_elt w' i) = pi (nth_elt w i)
}.
Definition frames {A B} (pi : elt → B) (m : J G A) : Prop := ∀ w, frame_step pi w (m w).2.

Section frames.
Context {B : Type} (pi : elt → B).
Lemma frames_same {A} (m : J G A) :
  (∀ w, w_sel (m w).2 = w_sel w ∧ w_elt (m w).2 = w_elt w) → frames pi m.
Proof. intros H w. destruct (H w) as [S E]. constructor; [done|..]; intros i; unfold nth_elt; by rewrite E. Qed.
Lemma frames_ret {A} (a : A) : frames pi (mret a).
Proof. by apply frames_same. Qed.
Lemma frames_gets {A} (f : world G → A) : frames pi (gets f).
Proof. by apply frames_same. Qed.
Lemma frames_throw {A} e : frames pi (throw (A := A) e).
Proof. by apply frames_same. Qed.
Lemma frames_mod_ui f : frames pi (mod_ui (G := G) f).
Proof. by apply frames_same. Qed.
Lemma frames_mod_glob f : frames pi (mod_glob (G := G) f).
Proof. by apply frames_same. Qed.
Lemma frames_emit e : frames pi (emit (G := G) e).
Proof. by apply frames_same. Qed.
Lemma frames_on sel f : (∀ e, pi (f e) = pi e) → frames pi (on (G := G) sel f).
Proof.
  intros Hf w. constructor; [done| |]; intros i; [by apply upd_is_some|by apply (upd_proj pi)].
Qed.
Lemma frames_bind {A C} (m : J G A) (f : A → J G C) :
  frames pi m → (∀ a, frames pi (f a)) → frames pi (m ≫= f).
Proof.
  intros Hm Hf w. unfold mbind, J_bind. destruct (Hm w) as [S D E].
  destruct (m w) as [[a|e] w']; [|by constructor]. destruct (Hf a w') as [S' D' E'].
  cbn [snd] in *. constructor; [by rewrite S'|by auto|]. intros i. by rewrite E', E.
Qed.
Lemma frames_when b (m : J G unit) : frames pi m → frames pi (when b m).
Proof. intros H. destruct b; [done|apply frames_ret]. Qed.
Lemma frames_for_each {A} (l : list A) (f : A → J G unit) :
  (∀ x, frames pi (f x)) → frames pi (for_each l f).
Proof.
  intros Hf. induction l as [|x l IH]; [apply frames_ret|]. simpl. by apply frames_bind.
Qed.
Lemma frame_of {A} (m : J G A) w r w' : frames pi m → m w = (r, w') → frame_step pi w w'.
Proof. intros Hm E. specialize (Hm w). by rewrite E in Hm. Qed.
Lemma frame_trans w1 w2 w3 : frame_step pi w1 w2 → frame_step pi w2 w3 → frame_step pi w1 w3.
Proof. intros [S1 D1 P1] [S2 D2 P2]. constructor; [congruence|auto|]. intros i. by rewrite P2, P1. Qed.
(** The first element a selector finds keeps its part. *)
Lemma frame_first sel w w' : frame_step pi w w' → (pi <$> first sel w') = (pi <$> first sel w).
Proof.
  intros [S _ P]. unfold first, found. rewrite S. destruct (default [] (w_sel w !! sel)) as [|i l]; [done|].
  simpl. by rewrite P.
Qed.
Lemma frame_single sel w w' : frame_step pi w w' → single sel w → single sel w'.
Proof.
  intros [S D _] (i & e & Hf & He). destruct (D i) as [e' He']; [by eexists|].
  exists i, e'. unfold found. by rewrite S.
Qed.
Lemma frame_apart s t w w' : frame_step pi w w' → apart s t w → apart s t w'.
Proof. intros [S _ _] H i. unfold found. rewrite S. apply H. Qed.
End frames.
End facts.

(** *** Classes *)

Lemma has_class_add c d e : has_class c (add_class d e) = bool_decide (d = c) || has_class c e.
Proof.
  unfold add_class, has_class. destruct (decide (d ∈ e_cls e)) as [Hd|Hd];
    [rewrite (bool_decide_eq_true_2 _ Hd)|rewrite (bool_decide_eq_false_2 _ Hd)].
  - destruct (decide (d = c)) as [-> | Hne]; [by rewrite !bool_decide_eq_true_2|].
    by rewrite (bool_decide_eq_false_2 (d = c)).
  - cbn [e_cls with_cls]. rewrite <-bool_decide_or. apply bool_decide_ext.
    rewrite elem_of_app, list_elem_of_singleton.
    split; [intros [H| ->]; [by right|by left]|intros [-> |H]; [by right|by left]].
Qed.
Lemma has_class_removed c e : has_class c (remove_class c e) = false.
Proof.
  apply bool_decide_eq_false. cbn. rewrite list_elem_of_In, filter_In. intros [_ H].
  by rewrite bool_decide_eq_true_2 in H.
Qed.
Lemma has_class_remove_ne c d e : c ≠ d → has_class c (remove_class d e) = has_class c e.
Proof.
  intros H. apply bool_decide_ext. cbn. rewrite !list_elem_of_In, filter_In. split; [by intros []|].
  intros Hc. split; [done|]. by rewrite bool_decide_eq_false_2.
Qed.

(** *** A page given by its selectors and elements *)

Definition page {G} (sels : list (jstr * list eid)) (els : list (eid * elt)) (g : G) : world G :=
  World (list_to_map sels) (list_to_map els) ∅ (Window 1000 600 0 0 false)
    (UI None None [] None None [] false [] [] None) [] 0 g.
(** A page on which each selector finds one element of its own. *)
Definition page_with {G} (l : list (jstr * elt)) (g : G) : world G :=
  page (List.map (λ p, (fst (snd p), [fst p])) (combine (seq 0 (length l)) l))
       (List.map (λ p, (fst p, snd (snd p))) (combine (seq 0 (length l)) l)) g.

Lemma apart_dec {G} s t (w : world G) :
  forallb (λ i, negb (bool_decide (i ∈ found t w))) (found s w) = true → apart s t w.
Proof.
  rewrite forallb_forall. intros H i Hi. apply list_elem_of_In, H in Hi. by bool_simp.
Qed.

(** Facts of a concrete page, by evaluation. *)
Ltac on_page :=
  match goal with
  | |- single _ _ => eexists _, _; split; vm_compute; reflexivity
  | |- apart _ _ _ => apply apart_dec; vm_compute; reflexivity
  | |- is_Some _ => eexists; vm_compute; reflexivity
  | |- Forall _ _ => repeat (constructor; [on_page|]); constructor
  | |- _ = _ => vm_compute; reflexivity
  end.

(** Run a straight-line script: unfold the monad and the primitives. *)
Ltac jrun :=
  cbv beta iota delta [mbind J_bind mret J_ret gets modify skip when emit get_glob put_glob
    mod_glob mod_ui throw runs].

(** A script that only styles the page. *)
Ltac quiet :=
  repeat first
    [ apply quiet_ret | apply quiet_gets | apply quiet_mod_ui | apply quiet_emit
    | (apply quiet_on; done) | apply quiet_when | apply quiet_match
    | (apply quiet_bind; [|intros]) | intros ].

(** A script that leaves the selectors and the variables alone. *)
Ltac inert :=
  repeat first
    [ progress (unfold set_val, set_html, show, hide, toggle, set_checked, set_disabled, set_attr,
        addClass, removeClass, set_css, val, html, attr, hasClass, size_of, elts_of, measure, win, skip,
        bind_doc, unbind_doc, get_glob)
    | apply inert_ret | apply inert_gets | apply inert_mod_ui | apply inert_emit
    | apply inert_on | apply inert_upd | apply inert_when | apply inert_for_each
    | (apply inert_bind; [|intros]) | case_match | intros ].

(** A script that leaves a part of the elements alone. *)
Ltac frames :=
  repeat first
    [ progress (unfold set_val, set_html, show, hide, toggle, set_checked, set_disabled, set_attr,
        addClass, removeClass, set_css, val, html, attr, hasClass, size_of, elts_of, measure, win, skip,
        bind_doc, unbind_doc, get_glob)
    | apply frames_ret | apply frames_gets | apply frames_throw | apply frames_mod_ui
    | apply frames_mod_glob | apply frames_emit
    | (apply frames_on; intros; done) | apply frames_when | apply frames_for_each
    | (apply frames_bind; [|intros]) | case_match | intros ].
