(* ===== verification/Dates.v ===== *)
(** * Dates, and the range of a report -- [report/getDateRange.js] of the
    operators' site

    The first part is what the language says of [Date]: a time value is a
    number of milliseconds, a day is [msPerDay] of them, and the year, month and
    date of a day are those of the Gregorian calendar, run backwards without
    end.  The time zone of the browser is the parameter [offset]: what is added
    to a time value to read the clock on the wall.  The second part is the
    script that fills the two ends of a range of days. *)

From S2P Require Import Prelude Js JsFacts Page.
#[local] Open Scope Z_scope.

(** ** The calendar of the language *)

Definition msPerDay : Z := 86400000.
(** [Day(t)] *)
Definition day_of (t : Z) : Z := t / msPerDay.

Definition leap (y : Z) : bool :=
  (y mod 4 =? 0) && negb (y mod 100 =? 0) || (y mod 400 =? 0).
Definition days_in_year (y : Z) : Z := if leap y then 366 else 365.
(** [DayFromYear(y)] *)
Definition day_from_year (y : Z) : Z :=
  365 * (y - 1970) + (y - 1969) / 4 - (y - 1901) / 100 + (y - 1601) / 400.
(** [YearFromTime(t)], the largest year that has begun on the day [d]: a first
    guess is wrong by one at most. *)
Definition year_from_day (d : Z) : Z :=
  let y := 1970 + (400 * d) / 146097 in
  if d <? day_from_year y then y - 1
  else if day_from_year (y + 1) <=? d then y + 1 else y.

(** The days of the year before the month [m], from 0. *)
Definition month_start (leap : bool) (m : Z) : Z :=
  nth (Z.to_nat m) [0; 31; 59; 90; 120; 151; 181; 212; 243; 273; 304; 334; 365] 0
  + (if leap && (2 <=? m) then 1 else 0).
(** [MonthFromTime(t)], on the day within the year. *)
Fixpoint month_from (leap : bool) (n : nat) (k : Z) : Z :=
  match n with
  | O => 0
  | S n' => if month_start leap (Z.of_nat n) <=? k then Z.of_nat n else month_from leap n' k
  end.

(** A date: the year, the month from 0 as [getMonth] has it, the day of the month. *)
Record date := Date { d_year : Z; d_month : Z; d_day : Z }.
Definition date_of_day (d : Z) : date :=
  let y := year_from_day d in
  let k := d - day_from_year y in
  let m := month_from (leap y) 11 k in
  Date y m (k - month_start (leap y) m + 1).
Definition day_of_date (x : date) : Z :=
  day_from_year (d_year x) + month_start (leap (d_year x)) (d_month x) + d_day x - 1.
(** The days a month has. *)
Definition month_length (y m : Z) : Z := month_start (leap y) (m + 1) - month_start (leap y) m.
Definition valid_date (x : date) : Prop :=
  0 ≤ d_month x < 12 ∧ 1 ≤ d_day x ≤ month_length (d_year x) (d_month x).

(** *** Facts of the calendar *)

Lemma leap_years y : day_from_year (y + 1) = day_from_year y + days_in_year y.
Proof.
  unfold day_from_year, days_in_year, leap.
  destruct (Z.eqb_spec (y mod 4) 0), (Z.eqb_spec (y mod 100) 0), (Z.eqb_spec (y mod 400) 0);
    cbn [andb orb negb]; Z.div_mod_to_equations; lia.
Qed.

Lemma days_in_year_bounds y : 365 ≤ days_in_year y ≤ 366.
Proof. unfold days_in_year. destruct (leap y); lia. Qed.

Lemma year_guess d :
  let y := 1970 + (400 * d) / 146097 in day_from_year (y - 1) ≤ d < day_from_year (y + 2).
Proof. cbv zeta. unfold day_from_year. Z.div_mod_to_equations. lia. Qed.

(** The year is the one whose days hold the day. *)
Lemma year_from_day_spec d :
  day_from_year (year_from_day d) ≤ d < day_from_year (year_from_day d + 1).
Proof.
  pose proof (year_guess d) as H. cbv zeta in H. unfold year_from_day.
  set (y := 1970 + (400 * d) / 146097) in *. clearbody y.
  destruct (Z.ltb_spec d (day_from_year y)); [replace (y - 1 + 1) with y by lia; lia|].
  destruct (Z.leb_spec (day_from_year (y + 1)) d); [replace (y + 1 + 1) with (y + 2) by lia; lia|lia].
Qed.

Lemma day_from_year_mono y z : y ≤ z → day_from_year y ≤ day_from_year z.
Proof. intros H. unfold day_from_year. Z.div_mod_to_equations. lia. Qed.

Lemma year_unique y d : day_from_year y ≤ d < day_from_year (y + 1) → year_from_day d = y.
Proof.
  intros H. pose proof (year_from_day_spec d) as Hs. set (z := year_from_day d) in *. clearbody z.
  destruct (Z.lt_trichotomy y z) as [Hlt|[->|Hlt]]; [|done|].
  - pose proof (day_from_year_mono (y + 1) z). lia.
  - pose proof (day_from_year_mono (z + 1) y). lia.
Qed.

(** Checked for every day of a year, leap or not. *)
Definition month_ok (b : bool) (k : Z) : bool :=
  let m := month_from b 11 k in
  (0 <=? m) && (m <? 12) && (month_start b m <=? k) && (k <? month_start b (m + 1)).
Lemma month_ok_all (b : bool) k : 0 ≤ k < (if b then 366 else 365) → month_ok b k = true.
Proof.
  intros H. assert (∀ n : nat, (n < (if b then 366 else 365))%nat → month_ok b (Z.of_nat n) = true) as Hn.
  { assert (forallb (λ n, month_ok b (Z.of_nat n)) (seq 0 (if b then 366 else 365)) = true) as Ha
      by (destruct b; vm_compute; reflexivity).
    intros n Hn. rewrite forallb_forall in Ha. apply Ha, in_seq. lia. }
  specialize (Hn (Z.to_nat k)). rewrite Z2Nat.id in Hn by lia. apply Hn. destruct b; lia.
Qed.
Lemma month_start_0 (b : bool) : month_start b 0 = 0.
Proof. by destruct b. Qed.
Lemma month_start_12 (b : bool) : month_start b 12 = if b then 366 else 365.
Proof. by destruct b. Qed.
Lemma month_start_mono (b : bool) m n : 0 ≤ m ≤ n → n ≤ 12 → month_start b m ≤ month_start b n.
Proof.
  intros H Hn. assert (∀ i j, (i ≤ j < 13)%nat → (month_start b (Z.of_nat i) <=? month_start b (Z.of_nat j)) = true) as Ha.
  { assert (forallb (λ j, forallb (λ i, month_start b (Z.of_nat i) <=? month_start b (Z.of_nat j)) (seq 0 (S j)))
              (seq 0 13) = true) as Ha by (destruct b; vm_compute; reflexivity).
    intros i j Hij. rewrite forallb_forall in Ha.
    assert (In j (seq 0 13)) as Hj by (apply in_seq; lia). apply Ha in Hj.
    rewrite forallb_forall in Hj. apply Hj, in_seq. lia. }
  specialize (Ha (Z.to_nat m) (Z.to_nat n)). rewrite !Z2Nat.id in Ha by lia. apply Z.leb_le, Ha. lia.
Qed.
Lemma month_unique (b : bool) m k :
  0 ≤ m < 12 → month_start b m ≤ k < month_start b (m + 1) → month_from b 11 k = m.
Proof.
  intros Hm H. pose proof (month_start_mono b 0 m) as H0. pose proof (month_start_mono b (m + 1) 12) as H12.
  rewrite month_start_12 in H12. rewrite month_start_0 in H0.
  assert (month_ok b k = true) as Hk by (apply month_ok_all; destruct b; lia).
  unfold month_ok in Hk. set (n := month_from b 11 k) in *. clearbody n. bool_simp.
  destruct (Z.lt_trichotomy m n) as [Hlt|[->|Hlt]]; [|done|].
  - pose proof (month_start_mono b (m + 1) n). lia.
  - pose proof (month_start_mono b (n + 1) m). lia.
Qed.

(** *** A day and its date *)

Lemma date_of_day_valid d : valid_date (date_of_day d).
Proof.
  unfold date_of_day, valid_date, month_length. cbv zeta. cbn [d_year d_month d_day].
  pose proof (year_from_day_spec d) as H. set (y := year_from_day d) in *. clearbody y.
  rewrite leap_years in H. unfold days_in_year in H.
  pose proof (month_ok_all (leap y) (d - day_from_year y)) as Hm. unfold month_ok in Hm.
  specialize (Hm ltac:(lia)). set (m := month_from (leap y) 11 (d - day_from_year y)) in *. clearbody m.
  bool_simp. lia.
Qed.

Lemma day_of_date_of d : day_of_date (date_of_day d) = d.
Proof. unfold day_of_date, date_of_day. cbn [d_year d_month d_day]. lia. Qed.

Lemma date_of_day_of x : valid_date x → date_of_day (day_of_date x) = x.
Proof.
  intros [Hm Hd]. destruct x as [y m k]. unfold month_length in Hd. cbn [d_year d_month d_day] in *.
  set (n := day_of_date (Date y m k)).
  assert (n - day_from_year y = month_start (leap y) m + k - 1) as En
    by (unfold n, day_of_date; cbn [d_year d_month d_day]; lia).
  pose proof (month_start_mono (leap y) 0 m ltac:(lia) ltac:(lia)) as H0. rewrite month_start_0 in H0.
  pose proof (month_start_mono (leap y) (m + 1) 12 ltac:(lia) ltac:(lia)) as H12. rewrite month_start_12 in H12.
  assert (year_from_day n = y) as Ey.
  { apply year_unique. rewrite leap_years. unfold days_in_year. destruct (leap y); lia. }
  unfold date_of_day. rewrite Ey. cbv zeta. rewrite En.
  rewrite (month_unique _ m) by lia. f_equal. lia.
Qed.

(** ** The script *)

(** [a*b] *)
Definition num_mul (a b : jnum) : jnum :=
  match a, b with
  | JNaN, _ | _, JNaN => JNaN
  | JInf x, JInf y => JInf (xorb x y)
  | JInf x, c | c, JInf x =>
      if num_eq c (JInt 0) then JNaN else JInf (xorb x (num_lt c (JInt 0)))
  | JInt x, JInt y => round53 (x * y)
  | JInt x, JFrac m e | JFrac m e, JInt x => round_frac (x * m) (2 ^ (- e))
  | JFrac m e, JFrac n f => round_frac (m * n) (2 ^ (- e + - f))
  end.

(** [TimeClip]: the time value [setTime] keeps; [None] is NaN. *)
Definition time_clip (n : jnum) : option Z :=
  let clip z := if Z.abs z <=? 8640000000000000 then Some z else None in
  match n with
  | JInt z => clip z
  | JFrac m e => clip (Z.quot m (2 ^ (- e)))
  | JNaN | JInf _ => None
  end.

Section script.
Context (offset : Z → Z).

(** The day on the calendar of the wall. *)
Definition local_day (t : Z) : Z := day_of (t + offset t).
Definition local_part (f : date → Z) (t : option Z) : jnum :=
  match t with Some t => JInt (f (date_of_day (local_day t))) | None => JNaN end.
Definition getFullYear : option Z → jnum := local_part d_year.
Definition getMonth : option Z → jnum := local_part d_month.
Definition getDate : option Z → jnum := local_part d_day.

(** [if(n<10) n="0"+n;] *)
Definition two (n : jnum) : jstr := (if num_lt n (JInt 10) then js "0" else []) ++ str_of_num n.
(** [year+"-"+month+"-"+day] of a [Date] *)
Definition date_str (t : option Z) : jstr :=
  str_of_num (getFullYear t) ++ js "-" ++ two (num_add (getMonth t) (JInt 1)) ++ js "-" ++ two (getDate t).

(** [getDateRange(range,startId,endId)] *)
Definition getDateRange {G} (range : jval) (startId endId : jstr) : J G unit :=
  if is_str range "" then set_val (js "#" ++ startId) [] ;; set_val (js "#" ++ endId) []
  else
    let ms := num_mul (JInt (24 * 60 * 60 * 1000)) (num_of_val range) in
    now ← gets w_now;
    let start := num_sub (JInt now) ms in
    set_val (js "#" ++ startId) (date_str (time_clip start)) ;;
    end_ ← gets w_now;
    set_val (js "#" ++ endId) (date_str (Some end_)).

(** ** Facts *)

Definition show_two (z : Z) : jstr := if z <? 10 then js "0" ++ str_of_Z z else str_of_Z z.
Definition show_date (x : date) : jstr :=
  str_of_Z (d_year x) ++ js "-" ++ show_two (d_month x + 1) ++ js "-" ++ show_two (d_day x).
(** The day a text of this form names. *)
Definition read_day (s : jstr) : option Z :=
  match splitc 45 s with
  | [y; m; d] => Some (day_of_date (Date (digits_value y) (digits_value m - 1) (digits_value d)))
  | _ => None
  end.

Lemma digits_of_Z z : 0 ≤ z → all_digits (str_of_Z z) ∧ digits_value (str_of_Z z) = z.
Proof.
  intros H. unfold str_of_Z. destruct (Z.ltb_spec z 0); [lia|].
  destruct (str_of_N_spec (Z.to_N z)) as (? & -> & _). split; [done|]. lia.
Qed.
Lemma digits_two z : 0 ≤ z → all_digits (show_two z) ∧ digits_value (show_two z) = z.
Proof.
  intros H. destruct (digits_of_Z z H) as [Hd Hv]. unfold show_two. destruct (z <? 10); [|done].
  split; [by constructor|]. exact Hv.
Qed.
Lemma no_dash l : all_digits l → sep_free 45 l.
Proof. intros H Hin. unfold all_digits in H. rewrite Forall_forall in H. by specialize (H _ Hin). Qed.

Lemma month_length_31 y m : 0 ≤ m < 12 → month_length y m ≤ 31.
Proof.
  intros H. unfold month_length.
  assert (∀ b i, (i < 12)%nat → month_start b (Z.of_nat i + 1) - month_start b (Z.of_nat i) <= 31) as Ha.
  { intros b i Hi. do 12 (destruct i as [|i]; [by destruct b|]). lia. }
  specialize (Ha (leap y) (Z.to_nat m)). rewrite Z2Nat.id in Ha by lia. apply Ha. lia.
Qed.

(** What is shown is read back, from the year 0 on. *)
Lemma read_show d : 0 ≤ d_year (date_of_day d) → read_day (show_date (date_of_day d)) = Some d.
Proof.
  intros Hy. pose proof (date_of_day_valid d) as [Hm Hd]. pose proof (day_of_date_of d) as Hday.
  destruct (date_of_day d) as [y m k]. cbn [d_year d_month d_day] in *.
  destruct (digits_of_Z y Hy) as [Dy Vy], (digits_two (m + 1) ltac:(lia)) as [Dm Vm], (digits_two k ltac:(lia)) as [Dk Vk].
  unfold read_day, show_date. cbn [d_year d_month d_day]. change (js "-") with [45%N]. cbn [app].
  rewrite splitc_app by by apply no_dash. rewrite splitc_app by by apply no_dash.
  rewrite splitc_word by by apply no_dash. rewrite Vy, Vm, Vk.
  replace (m + 1 - 1) with m by lia. by rewrite Hday.
Qed.

Lemma str_of_small z : Z.abs z ≤ pow2_53 → str_of_num (JInt z) = str_of_Z z.
Proof. intros H. cbn. by rewrite (proj2 (Z.leb_le _ _)). Qed.

Lemma two_show z : 0 ≤ z < 100 → two (JInt z) = show_two z.
Proof.
  intros H. unfold two, show_two. rewrite str_of_small by (unfold pow2_53; lia). cbn [num_lt].
  by destruct (z <? 10).
Qed.

Lemma clip_year t : Z.abs t ≤ 8640000000000000 → Z.abs (offset t) ≤ msPerDay →
  -300000 ≤ d_year (date_of_day (local_day t)) ≤ 300000.
Proof.
  intros Ht Ho. unfold date_of_day. cbv zeta. cbn [d_year].
  assert (- 100000002 ≤ local_day t ≤ 100000002) as Hd.
  { unfold local_day, day_of, msPerDay in *. Z.div_mod_to_equations. lia. }
  generalize dependent (local_day t). intros d Hd. unfold year_from_day.
  assert (-280000 ≤ 1970 + 400 * d / 146097 ≤ 280000) as Hy by (Z.div_mod_to_equations; lia).
  repeat case_match; lia.
Qed.

Lemma date_str_shown t :
  Z.abs t ≤ 8640000000000000 → Z.abs (offset t) ≤ msPerDay →
  date_str (Some t) = show_date (date_of_day (local_day t)).
Proof.
  intros Ht Ho. pose proof (clip_year t Ht Ho) as Hy. pose proof (date_of_day_valid (local_day t)) as [Hm Hd].
  pose proof (month_length_31 (d_year (date_of_day (local_day t))) _ Hm) as H31.
  unfold date_str, getFullYear, getMonth, getDate, local_part, show_date.
  rewrite str_of_small by (unfold pow2_53; lia).
  rewrite num_add_exact by (unfold pow2_53; lia).
  by rewrite !two_show by lia.
Qed.
End script.

(** A time zone is less than a day away. *)
Class Zone (offset : Z → Z) : Prop := zone_bound t : Z.abs (offset t) ≤ msPerDay.

Lemma year_nonneg d : -719528 ≤ d → 0 ≤ d_year (date_of_day d).
Proof.
  intros H. unfold date_of_day. cbv zeta. cbn [d_year]. pose proof (year_from_day_spec d) as Hs.
  destruct (Z.leb_spec 0 (year_from_day d)) as [|Hlt]; [done|].
  pose proof (day_from_year_mono (year_from_day d + 1) 0 ltac:(lia)) as Hm.
  change (day_from_year 0) with (-719528) in Hm. lia.
Qed.

Lemma days_apart a b r : a - b = r * msPerDay → day_of b = day_of a - r.
Proof. intros H. unfold day_of, msPerDay in *. Z.div_mod_to_equations. lia. Qed.

(** The text of a time since 1970 names its day. *)
Lemma date_str_read offset `{!Zone offset} t :
  0 ≤ t ≤ 8640000000000000 → read_day (date_str offset (Some t)) = Some (local_day offset t).
Proof.
  intros H. pose proof (zone_bound t) as Hz. rewrite date_str_shown by (lia || done).
  apply read_show, year_nonneg. unfold local_day, day_of, msPerDay in *. Z.div_mod_to_equations. lia.
Qed.

(** C31 -- Choosing a range of [r] days fills the two ends of the period: the end
    reads as today and the start as the day [r] days before it, on the calendar
    of the wall, as long as the clock was not moved in between. *)
Theorem getDateRange_days {G} offset `{!Zone offset} range r startId endId (w : world G) :
  let first := js "#" ++ startId in let last := js "#" ++ endId in
  let start := w_now w - r * msPerDay in
  is_str range "" = false → num_of_val range = JInt r → 0 ≤ r →
  single first w → single last w → apart first last w →
  0 ≤ start → w_now w ≤ 8640000000000000 → offset start = offset (w_now w) →
  ∃ w' s e, getDateRange offset range startId endId w = (Ok tt, w')
    ∧ val_of first w' = VStr s ∧ val_of last w' = VStr e
    ∧ read_day e = Some (local_day offset (w_now w))
    ∧ read_day s = Some (local_day offset (w_now w) - r)
    ∧ w_glob w' = w_glob w.
Proof.
  intros first last start Hr Hn Hr0 Hf Hl Ha Hs Hnow Ho.
  assert (0 ≤ r * msPerDay ≤ w_now w) as Hms by (unfold start, msPerDay in *; lia).
  unfold getDateRange. rewrite Hr, Hn. cbv zeta. rewrite (bind_ok (gets w_now) _ w (w_now w) w eq_refl).
  assert (num_sub (JInt (w_now w)) (num_mul (JInt (24 * 60 * 60 * 1000)) (JInt r)) = JInt start) as ->.
  { unfold num_mul, num_sub. rewrite round53_exact by (unfold pow2_53, msPerDay in *; lia). cbn [num_neg].
    rewrite num_add_exact by (unfold pow2_53, msPerDay, start in *; lia). f_equal. unfold start, msPerDay. lia. }
  cbn [time_clip]. rewrite (proj2 (Z.leb_le _ _)) by (unfold start in *; lia).
  destruct (set_val_field first (date_str offset (Some start)) w Hf) as (w1 & E1 & S1 & G1 & D1 & V1 & _).
  fold first last. rewrite (bind_ok _ _ _ _ _ E1).
  rewrite (bind_ok (gets w_now) _ w1 (w_now w1) w1 eq_refl).
  assert (w_now w1 = w_now w) as -> by (injection E1 as <-; done).
  destruct (set_val_field last (date_str offset (Some (w_now w))) w1 (D1 _ Hl)) as (w2 & E2 & S2 & G2 & D2 & V2 & V2').
  exists w2, (date_str offset (Some start)), (date_str offset (Some (w_now w))).
  split; [done|]. split; [rewrite V2', V1; [done|]|].
  { intros i. unfold found. rewrite S1. apply Ha. }
  split; [done|]. rewrite !date_str_read by (try apply _; unfold start in *; lia).
  split; [done|]. split; [|congruence]. f_equal. unfold local_day. apply days_apart. rewrite Ho. unfold start. lia.
Qed.

(** *** A page to try it on *)

(** 2014-05-13, 16:53 of Greenwich. *)
Definition demo_dates : world unit :=
  let w := page_with [(js "#a", with_val (js "x") blank); (js "#b", with_val (js "y") blank)] tt in
  World (w_sel w) (w_elt w) (w_box w) (w_win w) (w_ui w) (w_ev w) 1400000000000 tt.
(** The time of China, and a zone whose clocks went forward on 2014-03-30. *)
Definition china (t : Z) : Z := 8 * 3600000.
Definition summer (t : Z) : Z := if t <? 1396141200000 then 0 else 3600000.
#[export] Instance china_zone : Zone china.
Proof. intros t. unfold china, msPerDay. lia. Qed.

Lemma getDateRange_days_witness :
  ∃ w' s e, getDateRange china (VStr (js "30")) (js "a") (js "b") demo_dates = (Ok tt, w')
    ∧ val_of (js "#a") w' = VStr s ∧ val_of (js "#b") w' = VStr e
    ∧ read_day e = Some 16204 ∧ read_day s = Some 16174.
Proof.
  destruct (getDateRange_days china (VStr (js "30")) 30 (js "a") (js "b") demo_dates)
    as (w' & s & e & E & Vs & Ve & Re & Rs & _).
  - vm_compute; reflexivity.
  - vm_compute; reflexivity.
  - lia.
  - on_page.
  - on_page.
  - on_page.
  - vm_compute; discriminate.
  - vm_compute; discriminate.
  - reflexivity.
  - exists w', s, e. split; [exact E|]. split; [exact Vs|]. split; [exact Ve|]. split; [exact Re|exact Rs].
Defined.

(** The fields after a choice. *)
Definition fields_after (offset : Z → Z) (range : jval) (now : Z) : jval * jval :=
  let w := World (w_sel demo_dates) (w_elt demo_dates) ∅ (w_win demo_dates) (w_ui demo_dates) [] now tt in
  let w' := snd (getDateRange offset range (js "a") (js "b") w) in (val_of (js "#a") w', val_of (js "#b") w').

(** The texts; the empty choice; a range that is not a number. *)
Lemma getDateRange_texts :
  fields_after china (VStr (js "6")) 1400000000000 = (VStr (js "2014-05-08"), VStr (js "2014-05-14"))
  ∧ fields_after china (VStr []) 1400000000000 = (VStr [], VStr [])
  ∧ fields_after china (VStr (js "x")) 1400000000000 = (VStr (js "NaN-NaN-NaN"), VStr (js "2014-05-14")).
Proof. split; [|split]; vm_compute; reflexivity. Qed.

(** The hypothesis on the clock is needed: half an hour after midnight of
    summer time, 91 days before is half past eleven of the day before that. *)
Lemma getDateRange_summer :
  fields_after summer (VStr (js "91")) 1400023800000 = (VStr (js "2014-02-11"), VStr (js "2014-05-14")).
Proof. vm_compute. reflexivity. Qed.
