(* ===== verification/Layout.v ===== *)
(** * Placing the drop-down boxes

    [posfix] of the search and Mselect plugins, [openSlideBox], the
    [openTips] bubbles and the placement of [UIselect]: pure functions from
    what the browser measures to the styles the script assigns, and the
    scripts that apply them. *)

From Stdlib Require Import QArith Lqa.
From S2P Require Import Prelude Js Page.
#[local] Open Scope Q_scope.

Definition qlt (a b : Q) : bool := negb (Qle_bool b a).

Lemma qlt_true a b : qlt a b = true → a < b.
Proof.
  unfold qlt. rewrite negb_true_iff. intros H.
  apply Qnot_le_lt. intros Hle. apply Qle_bool_iff in Hle. congruence.
Qed.
Lemma qlt_false a b : qlt a b = false → b <= a.
Proof. unfold qlt. rewrite negb_false_iff. apply Qle_bool_iff. Qed.

Definition auto : css := Kw (js "auto").

(** Where a box goes: the three styles assigned, and the height given to the
    result list inside it when it has to scroll. *)
Record placement := Place {
  pl_left : css; pl_right : css; pl_top : css; pl_bottom : css; pl_list : option Q }.

(** [$.fn.search.posfix]: [t] is the text field, [boxH] the height of the box
    with its list at its natural height. *)
Definition search_place (t : box) (boxH winH : Q) : placement :=
  let otherHeight := 85 in
  let below := Px (b_top t + b_h t) in
  if qlt boxH (winH - b_top t - b_h t)
  then Place (Px (b_left t)) auto below auto None
  else if qlt 70 (winH - b_top t - b_h t - otherHeight)
  then Place (Px (b_left t)) auto below auto (Some (winH - b_top t - b_h t - otherHeight))
  else if qlt boxH (b_top t)
  then Place (Px (b_left t)) auto auto (Px (winH - b_top t)) None
  else Place (Px (b_left t)) auto (Px 0) auto None.

(** [$.fn.Mselect.posfix]: the same without the scrolling list. *)
Definition mselect_place (t : box) (boxH winH : Q) : placement :=
  if qlt boxH (winH - b_top t - b_h t)
  then Place (Px (b_left t)) auto (Px (b_top t + b_h t)) auto None
  else if qlt boxH (b_top t)
  then Place (Px (b_left t)) auto auto (Px (winH - b_top t)) None
  else Place (Px (b_left t)) auto (Px 0) auto None.

(** [openSlideBox]: [i] is the input ([top] is below it), [b] the box. *)
Definition slide_place (i b : box) (winH spac : Q) (right : bool) : placement :=
  let top := b_top i + b_h i in
  let left := if right then Px (b_left i - (b_w b - b_w i)) else Px (b_left i) in
  if qlt (b_h b) (winH - top)
  then Place left auto (Px (top + spac)) auto None
  else Place left auto auto (Px (winH - top + spac + b_h i)) None.

(** The vertical extent [[lo,hi]] a placement gives to a box of height [h] in a
    window of height [winH]. *)
Definition extent (p : placement) (h winH : Q) : option (Q * Q) :=
  match pl_top p, pl_bottom p with
  | Px a, _ => Some (a, a + h)
  | Kw _, Px b => Some (winH - b - h, winH - b)
  | Kw _, Kw _ => None
  end.

(** The height of the box once its list has the height of the placement: the
    list gets [l] and the rest of the box, [otherHeight], is 85 pixels. *)
Definition placed_height (p : placement) (boxH : Q) : Q :=
  match pl_list p with Some l => l + 85 | None => boxH end.

Definition fits (p : placement) (boxH winH : Q) : Prop :=
  ∃ lo hi, extent p (placed_height p boxH) winH = Some (lo, hi) ∧ 0 <= lo ∧ hi <= winH.

(** The box does not cover the field it belongs to. *)
Definition clear_of (p : placement) (boxH winH : Q) (t : box) : Prop :=
  ∃ lo hi, extent p (placed_height p boxH) winH = Some (lo, hi) ∧
    (hi <= b_top t ∨ b_top t + b_h t <= lo).

(** There is room below for the box or for a scrolling list of more than 70
    pixels, or room above. *)
Definition search_room (t : box) (boxH winH : Q) : bool :=
  qlt boxH (winH - b_top t - b_h t) || qlt 70 (winH - b_top t - b_h t - 85) || qlt boxH (b_top t).

(** whenever there is room below the field for the box, or for a
    scrolling list of more than 70 pixels, or room above it, [posfix] puts the
    box of results inside the window and clear of the field. *)
Lemma search_place_fits t boxH winH :
  0 <= b_top t → 0 <= b_h t → b_top t <= winH → search_room t boxH winH = true →
  fits (search_place t boxH winH) boxH winH ∧ clear_of (search_place t boxH winH) boxH winH t.
Proof.
  intros Ht Hh Hw Hroom. unfold search_room in Hroom. unfold search_place.
  destruct (qlt boxH (winH - b_top t - b_h t)) eqn:E1;
    [|destruct (qlt 70 (winH - b_top t - b_h t - 85)) eqn:E2;
      [|destruct (qlt boxH (b_top t)) eqn:E3; [|done]]];
    split; eexists _, _; (split; [reflexivity|]); unfold placed_height; cbn [pl_list];
    repeat match goal with H : qlt _ _ = true |- _ => apply qlt_true in H end;
    try (split; lra); try (right; lra); try (left; lra).
Qed.

Lemma search_place_fits_witness :
  fits (search_place (Box 400 10 120 20) 300 500) 300 500
  ∧ clear_of (search_place (Box 400 10 120 20) 300 500) 300 500 (Box 400 10 120 20).
Proof.
  exact (search_place_fits (Box 400 10 120 20) 300 500
           ltac:(by vm_compute) ltac:(by vm_compute) ltac:(by vm_compute) ltac:(reflexivity)).
Defined.

Section scripts.
Context {G : Type}.

Definition apply_place (sel : jstr) (p : placement) : J G unit :=
  on sel (λ e, with_css (js "left") (pl_left p)
                 (with_css (js "bottom") (pl_bottom p)
                    (with_css (js "top") (pl_top p) e))).

(** [$.fn.search.posfix($textId,$boxId)]: the list is first given back its
    natural height, so the height measured is the natural one. *)
Definition posfix (textId boxId : jstr) : J G unit :=
  let results := boxId ++ js " .search_result" in
  on results (with_css (js "height") auto) ;;
  t ← measure textId;
  b ← measure boxId;
  w ← win;
  let p := search_place t (b_h b) (win_h w) in
  match pl_list p with
  | Some h => on results (with_css (js "height") (Px h))
  | None => skip
  end ;;
  apply_place boxId p.

(** [$.fn.Mselect.posfix($textId,$boxId)] *)
Definition Mselect_posfix (textId boxId : jstr) : J G unit :=
  on (boxId ++ js " .search_result") (with_css (js "height") auto) ;;
  t ← measure textId;
  b ← measure boxId;
  w ← win;
  apply_place boxId (mselect_place t (b_h b) (win_h w)).

(** [openSlideBox(obj,boxId,spac,xdirct)] *)
Definition openSlideBox (obj boxId : jstr) (spac : Q) (xdirct : jstr) : J G unit :=
  i ← measure obj;
  b ← measure boxId;
  w ← win;
  apply_place boxId
    (slide_place i b (win_h w) spac (bool_decide (xdirct = js "right"))) ;;
  show boxId.
End scripts.

(** ** The bubbles of [$.openTips] *)

(** The class of the arrow, for the two kinds of bubble. *)
Inductive bubble := BTips | BInfo | BOther.

Record tip := Tip { tp_place : placement; tp_border : jstr; tp_arrow : jstr }.

Definition no_arrow : tip := Tip (Place auto auto auto auto None) [] [].

(** The directions of [openTips]: "auto" or none, "left", "top"; any other
    direction places nothing. *)
Definition tips_place (kind : bubble) (dirct : jstr) (s : box) (boxH winH spac : Q) : option tip :=
  let below := Place (Px (b_left s)) auto (Px (b_top s + b_h s + spac)) auto None in
  let above := Place (Px (b_left s)) auto auto (Px (winH - b_top s + spac)) None in
  let middle := Place (Px (b_left s + b_w s + spac)) auto
                  (Px (b_top s + b_h s / 2 - boxH / 2)) auto None in
  let mark tips info := match kind with
                        | BTips => (js "triangle-border " ++ tips ++ js "-triangle-border",
                                    js "triangle " ++ tips ++ js "-triangle")
                        | BInfo => ([], info)
                        | BOther => ([], [])
                        end in
  let tip_of p m := Tip p (fst m) (snd m) in
  let left_only tips := match kind with BTips => mark tips [] | _ => ([], []) end in
  if bool_decide (dirct = []) || bool_decide (dirct = js "auto")
  then if qlt (boxH + spac) (winH - b_top s - b_h s)
       then Some (tip_of below (mark (js "top") (js "arrow aTopLeft")))
       else if qlt (boxH + spac) (b_top s)
       then Some (tip_of above (mark (js "bottom") (js "arrow aBottomLeft")))
       else Some (tip_of middle (mark (js "rightcenter") (js "arrow aMiddleLeft")))
  else if bool_decide (dirct = js "left")
  then if qlt (boxH + spac) (winH - b_top s - b_h s)
       then Some (tip_of middle (left_only (js "rightm")))
       else if qlt (b_top s) (boxH / 2)
       then Some (tip_of (Place (Px (b_left s + b_w s + spac)) auto (Px (b_top s)) auto None)
                    (left_only (js "right")))
       else Some (tip_of (Place (Px (b_left s + b_w s + spac)) auto auto
                            (Px (winH - b_top s - b_h s + spac)) None)
                    (left_only (js "rightb")))
  else if bool_decide (dirct = js "top")
  then Some (tip_of below (mark (js "top") (js "arrow aTopLeft")))
  else None.

(** ** The drop-down of [UIselect] *)

Record select_style := SelectStyle { ss_place : placement; ss_height : option Q }.

(** [i] is the element the list hangs from ([height()] of it is [b_h i]),
    [posTop] its [position().top], [d] the list's own width and height. *)
Definition select_place (i : box) (posTop : Q) (d : box) (w : window)
    (align_left : bool) (edit_top height : Q) : select_style :=
  let top0 := b_top i + b_h i + 2 in
  let hor := if qlt (b_w d) (win_w w - b_left i) && align_left
             then (Px (b_left i), auto)
             else (auto, Px (win_w w - b_left i - b_w i - 2)) in
  let top := if qlt 0 edit_top then top0 + edit_top else top0 in
  let capped := qlt 0 height && qlt height (b_h d) in
  let h := if capped then height else b_h d in
  let fixed := if capped then Some height else None in
  let place t b := Place (fst hor) (snd hor) t b None in
  if qlt h (win_h w - top)
  then SelectStyle (place (Px top) auto) fixed
  else if qlt h posTop
  then SelectStyle (place auto (Px (win_h w - top + b_h i + 2))) fixed
  else if qlt (win_h w - top) posTop
  then SelectStyle (place auto (Px (win_h w - top + b_h i + 2))) (Some (posTop - 50))
  else SelectStyle (place (Px top) auto) (Some (win_h w - top - 50)).

(** The list always has the height the script gives it, or its own. *)
Definition select_height (s : select_style) (d : box) : Q :=
  match ss_height s with Some h => h | None => b_h d end.

(** When the list hangs from an element whose [position()] is its offset, it
    ends inside the window. *)
Lemma select_place_fits i d w al et hh lo hi :
  let s := select_place i (b_top i) d w al et hh in
  0 <= b_top i → 0 <= b_h i → 0 <= et → b_top i + b_h i + 2 + et <= win_h w →
  extent (ss_place s) (select_height s d) (win_h w) = Some (lo, hi) →
  hi <= win_h w ∧ (et == 0 → 0 <= lo).
Proof.
  intros s Hi Hh Het Hw Hext. unfold s, select_place in *.
  set (h := if qlt 0 hh && qlt hh (b_h d) then hh else b_h d) in *.
  set (fx := if qlt 0 hh && qlt hh (b_h d) then Some hh else None) in *.
  assert (Hfx : match fx with Some x => x | None => b_h d end = h)
    by (unfold fx, h; by destruct (_ && _)).
  assert (Ht : (if qlt 0 et then b_top i + b_h i + 2 + et else b_top i + b_h i + 2)
               == b_top i + b_h i + 2 + et).
  { destruct (qlt 0 et) eqn:E; [lra|]. apply qlt_false in E. lra. }
  set (t := if qlt 0 et then b_top i + b_h i + 2 + et else b_top i + b_h i + 2) in *.
  clearbody t h fx. cbv zeta in Hext.
  destruct (qlt h (win_h w - t)) eqn:E1; [|destruct (qlt h (b_top i)) eqn:E2;
    [|destruct (qlt (win_h w - t) (b_top i)) eqn:E3]];
    unfold select_height, extent in Hext; cbn in Hext; try rewrite Hfx in Hext;
    injection Hext as <- <-;
    repeat match goal with
    | H : qlt _ _ = true |- _ => apply qlt_true in H
    | H : qlt _ _ = false |- _ => apply qlt_false in H
    end; split; intros; lra.
Qed.
