(* ===== verification/TagList.v ===== *)
(** * Lists of picked items ([subArr]) -- [common/base.js]

    The multi-select fields (tags, senders, properties, trigger links) keep the
    picked items in an array of arrays [[id, title, ...]], and show the titles
    joined by [", "] in a text field and the ids joined by [","] in the hidden
    field next to it.  This file models the array operations of [base.js]. *)

From S2P Require Import Prelude Js JsFacts.
#[local] Open Scope Z_scope.

(** An item is a JavaScript array; reading past its end gives [undefined]. *)
Abbreviation item := (list jval).
Definition at_ (i : nat) (it : item) : jval := nth i it VUndef.
Definition item_id (it : item) : jval := at_ 0 it.
Definition item_title (it : item) : jval := at_ 1 it.

(** [filterArr(parentArr,new_arr)]: an item of the same id is taken out, the
    new one is pushed at the end. *)
Fixpoint filterArr (parentArr : list item) (new_arr : item) : list item :=
  match parentArr with
  | [] => [new_arr]
  | it :: rest =>
      if loose_eq (item_id it) (item_id new_arr) then rest ++ [new_arr]
      else it :: filterArr rest new_arr
  end.

(** [removeArrItem(arr,title)]: splices while it scans. *)
Definition removeArrItem (arr : list item) (title : jval) : list item :=
  splice_scan (λ it, loose_eq (item_title it) title) arr.

(** [findArrItem(arr,subindex,txt)] *)
Fixpoint findArrItem (arr : list item) (subindex : nat) (txt : jval) : Z :=
  match arr with
  | [] => -1
  | it :: rest =>
      if loose_eq (at_ subindex it) txt then 0
      else let r := findArrItem rest subindex txt in if r =? -1 then -1 else r + 1
  end.

(** The texts [addItemInput] gives to the two fields. *)
Definition title_text (parentArr : list item) : jstr :=
  join (js ", ") (List.map (λ it, str_of_elem (item_title it)) parentArr).
Definition id_text (parentArr : list item) : jstr :=
  join [c_comma] (List.map (λ it, str_of_elem (item_id it)) parentArr).

(** [getDeleteItem(textarea)], the caret being at [position] of [value]. *)
Definition getDeleteItem (value : jstr) (position : Z) : jstr :=
  let leftStr := substr 0 position value in
  let rightStr := substr_from position value in
  let comma := [c_comma] in
  if negb (contains comma leftStr)
  then if negb (contains comma rightStr)
       then leftStr ++ rightStr
       else leftStr ++ substr 0 (indexOf comma rightStr) rightStr
  else if negb (contains comma rightStr)
  then replace (js ", ") [] (substr_from (lastIndexOf c_comma leftStr) leftStr ++ rightStr)
  else replace (js ", ") []
         (substr_from (lastIndexOf c_comma leftStr) leftStr
          ++ substr 0 (indexOf comma rightStr) rightStr).

(** The array after a key of a deletion: what [getDeleteItem] finds in the text of
    the field is taken out. *)
Definition erase (l : list item) (text : jstr) (caret : Z) : list item :=
  removeArrItem l (VStr (getDeleteItem text caret)).

(** [getCursorPosition(textarea).start], for a browser with
    [setSelectionRange]: the selection's start. *)
Record textarea := TextArea { ta_value : jstr; ta_start : Z; ta_end : Z }.
Record rangeData := RangeData { rd_text : jstr; rd_start : Z; rd_end : Z }.
Definition getCursorPosition (t : textarea) : rangeData :=
  RangeData (if negb (ta_start t =? ta_end t)
             then substring (ta_start t) (ta_end t) (ta_value t) else [])
            (ta_start t) (ta_end t).

(** [isEmptyArr(arr)]: every element is loosely equal to 0. *)
Definition isEmptyArr (arr : list jval) : bool :=
  forallb (λ v, loose_eq v (VNum (JInt 0))) arr.

(** [isRepeat(array)]: the hash is a plain object, so the names its prototype
    answers to are found in it from the start. *)
Definition proto_names : list jstr :=
  List.map js ["constructor"; "toString"; "valueOf"; "hasOwnProperty"; "isPrototypeOf";
    "propertyIsEnumerable"; "toLocaleString"; "__defineGetter__"; "__defineSetter__";
    "__lookupGetter__"; "__lookupSetter__"; "__proto__"]%string.
Fixpoint repeat_from (hash array : list jstr) : bool :=
  match array with
  | [] => false
  | x :: rest =>
      if bool_decide (x ∈ hash) || bool_decide (x ∈ proto_names) then true
      else repeat_from (x :: hash) rest
  end.
Definition isRepeat (array : list jstr) : bool := repeat_from [] array.

(** ** The recipient count of a choice of tags *)

Record tag := Tag { t_id : jval; t_title : jstr; t_count : jval }.

(** [reloadPersonSum(json,enArr,outArr,_)]: [json] maps a category to its tags. *)
Definition tag_count (t : tag) : jnum := parseInt (str_of_val (t_count t)).
Definition sum_tag (enArr outArr : list item) (acc : jnum) (t : tag) : jnum :=
  let acc1 := List.fold_left
    (λ a en, if loose_eq (item_id en) (t_id t) then num_add a (tag_count t) else a) enArr acc in
  List.fold_left (λ a out, List.fold_left
    (λ a en, if loose_eq (item_id out) (item_id en) && loose_eq (item_id out) (t_id t)
             then num_sub a (tag_count t) else a) enArr a) outArr acc1.
Definition reloadPersonSum (json : list (jstr * list tag)) (enArr outArr : list item) : jnum :=
  List.fold_left (λ a cat, List.fold_left (sum_tag enArr outArr) (snd cat) a) json (JInt 0).

(** [insertJsonItem(json,item,keyString)]: for a key of [json] it is the global
    [catedata] that gets the item. *)
Definition insertJsonItem {A} (catedata json : gmap jstr (list A)) (x : A) (key : jstr) :
  gmap jstr (list A) :=
  match json !! key with Some _ => alter (λ l, x :: l) key catedata | None => catedata end.

(** ** Facts *)

(** [findArrItem(arr,i,txt)>-1]: some item has the text at that place. *)
Lemma findArrItem_found arr i txt :
  (-1 <? findArrItem arr i txt) = existsb (λ it, loose_eq (at_ i it) txt) arr.
Proof.
  induction arr as [|it arr IH]; [done|]. cbn [findArrItem existsb]. destruct (loose_eq _ _); [done|].
  cbn [orb]. rewrite <-IH. destruct (findArrItem arr i txt =? -1) eqn:E; lia.
Qed.

(** Values on which [==] is equality: the ids of one field are all strings
    ([attr]), or all as jQuery's [data] reads them. *)
Definition str_id (v : jval) : Prop := ∃ s, v = VStr s.
Definition data_id (v : jval) : Prop :=
  match v with VNum (JInt _) => True | VStr s => to_number s = JNaN | _ => False end.

Class Keyed (K : jval → Prop) : Prop :=
  keyed : ∀ a b, K a → K b → loose_eq a b = bool_decide (a = b).

#[export] Instance str_id_keyed : Keyed str_id.
Proof. intros ? ? [s ->] [t ->]. apply bool_decide_ext. split; congruence. Qed.

#[export] Instance data_id_keyed : Keyed data_id.
Proof.
  assert (Hnn : ∀ s, to_number s = JNaN → ∀ z, num_eq (JInt z) (to_number s) = false).
  { intros s -> z. done. }
  intros [| | |[| |z|]|s] [| | |[| |z'|]|s']; cbn [data_id loose_eq]; try done; intros H1 H2.
  - apply bool_decide_ext. split; congruence.
  - rewrite Hnn by done. symmetry. by apply bool_decide_eq_false.
  - rewrite Hnn by done. symmetry. by apply bool_decide_eq_false.
  - apply bool_decide_ext. split; congruence.
Qed.

Section keyed.
Context (K : jval → Prop) `{!Keyed K}.
Implicit Types (l : list item) (it : item).

Lemma filter_ne_id (v : jval) us :
  v ∉ us → List.filter (λ u, negb (bool_decide (u = v))) us = us.
Proof.
  induction us as [|u us IH]; [done|]. intros [Hu Hus]%not_elem_of_cons. simpl.
  rewrite bool_decide_eq_false_2 by done. simpl. by rewrite IH.
Qed.

Definition ids (l : list item) : list jval := item_id <$> l.
Definition keyed_list l : Prop := Forall K (ids l).
(** Well-formed: keyed, and no id twice. *)
Definition wf l : Prop := keyed_list l ∧ NoDup (ids l).

Lemma loose_eq_id a b : K a → K b → loose_eq a b = true ↔ a = b.
Proof. intros Ha Hb. rewrite keyed by done. apply bool_decide_eq_true. Qed.

Lemma filterArr_spec l it :
  filterArr l it = remove_first (λ x, loose_eq (item_id x) (item_id it)) l ++ [it].
Proof.
  induction l as [|x l IH]; simpl; [done|]. destruct (loose_eq _ _); [done|]. by rewrite IH.
Qed.

Lemma filterArr_fresh l it :
  forallb (λ x, negb (loose_eq (item_id x) (item_id it))) l = true →
  filterArr l it = l ++ [it].
Proof. intros H. rewrite filterArr_spec. by rewrite remove_first_id. Qed.

(** On a well-formed list the id of the item is out of the rest. *)
Lemma remove_first_ids l v :
  wf l → K v →
  ids (remove_first (λ x, loose_eq (item_id x) v) l) =
  List.filter (λ u, negb (bool_decide (u = v))) (ids l).
Proof.
  intros [Hk Hn] Hv. unfold keyed_list, ids in *.
  induction l as [|x l IH]; [done|].
  rewrite fmap_cons in Hk, Hn |- *. cbn [remove_first List.filter].
  inversion Hk as [|? ? Hx Hk']; subst. apply NoDup_cons in Hn as [Hnx Hn].
  rewrite keyed by done. case_bool_decide as Hxv; cbn [negb].
  - symmetry. subst v. apply filter_ne_id. done.
  - rewrite fmap_cons. f_equal. auto.
Qed.

Lemma filterArr_ids l it :
  wf l → K (item_id it) →
  ids (filterArr l it) =
  List.filter (λ u, negb (bool_decide (u = item_id it))) (ids l) ++ [item_id it].
Proof.
  intros Hl Hit. rewrite filterArr_spec. unfold ids at 1.
  rewrite fmap_app. by rewrite <-remove_first_ids.
Qed.

Lemma elem_of_filter_ne (u v : jval) us :
  u ∈ List.filter (λ u, negb (bool_decide (u = v))) us ↔ u ∈ us ∧ u ≠ v.
Proof.
  rewrite list_elem_of_In, filter_In, <-list_elem_of_In.
  by rewrite negb_true_iff, bool_decide_eq_false.
Qed.

Lemma filterArr_wf l it : wf l → K (item_id it) → wf (filterArr l it).
Proof.
  intros Hl Hit. pose proof (filterArr_ids l it Hl Hit) as E.
  destruct Hl as [Hk Hn]. unfold wf, keyed_list. rewrite E. split.
  - apply Forall_app. split; [|by repeat constructor].
    apply Forall_forall. intros u [Hu _]%elem_of_filter_ne.
    by eapply Forall_forall in Hk.
  - apply NoDup_app. split; [|split].
    + apply NoDup_ListNoDup, List.NoDup_filter, NoDup_ListNoDup. done.
    + intros u [_ Hu]%elem_of_filter_ne ->%list_elem_of_singleton. done.
    + apply NoDup_singleton.
Qed.

Lemma filterArr_length l it :
  (length (filterArr l it) ≤ S (length l))%nat.
Proof.
  induction l as [|x l IH]; simpl; [lia|]. case_match; [rewrite length_app; simpl; lia|simpl; lia].
Qed.

Lemma sublist_wf l k : sublist l k → wf k → wf l.
Proof.
  intros Hs [Hk Hn]. assert (sublist (ids l) (ids k)) as Hs' by (by apply fmap_sublist).
  split; [|by eapply sublist_NoDup].
  unfold keyed_list in *. rewrite Forall_forall in Hk |- *.
  intros u Hu. apply Hk. by eapply elem_of_sublist.
Qed.

Lemma splice_scan_wf (P : item → bool) l : wf l → wf (splice_scan P l).
Proof. apply sublist_wf, splice_scan_sublist. Qed.
End keyed.

Arguments wf K l : clear implicits.

(** ** The caret and the item it stands in *)

(** The text in front of the item: the titles before it, each with [", "]. *)
Definition before_text (ts : list jstr) : jstr := concat (List.map (λ t, t ++ js ", ") ts).

Lemma join_middle ts t us :
  join (js ", ") (ts ++ t :: us) =
  before_text ts ++ t ++ match us with [] => [] | _ => js ", " ++ join (js ", ") us end.
Proof.
  induction ts as [|u ts IH].
  - destruct us; [by rewrite app_nil_r|done].
  - change (before_text (u :: ts)) with ((u ++ js ", ") ++ before_text ts).
    rewrite <-!app_assoc, <-IH. by destruct ts.
Qed.

Lemma before_text_last ts : before_text ts = [] ∨ ∃ pre, before_text ts = pre ++ js ", ".
Proof.
  destruct ts as [|t ts _] using rev_ind; [by left|]. right.
  unfold before_text. rewrite List.map_app, List.concat_app. simpl. rewrite app_nil_r.
  eexists. by rewrite app_assoc.
Qed.

Lemma substr_prefix a b : substr 0 (Z.of_nat (length a)) (a ++ b) = a.
Proof.
  unfold substr, substr_from. change (0 <? 0) with false. cbv iota.
  rewrite Z.min_l by lia. change (Z.to_nat 0) with 0%nat. rewrite drop_0, Nat2Z.id.
  apply take_app_length.
Qed.

Lemma substr_from_suffix a b : substr_from (Z.of_nat (length a)) (a ++ b) = b.
Proof.
  unfold substr_from. destruct (Z.ltb_spec (Z.of_nat (length a)) 0); [lia|].
  rewrite Z.min_l; [|rewrite length_app; lia]. rewrite Nat2Z.id. apply drop_app_length.
Qed.

Lemma contains_comma_false w : sep_free c_comma w → contains [c_comma] w = false.
Proof.
  intros Hw. destruct (contains [c_comma] w) eqn:E; [|done]. by apply contains_char in E.
Qed.

Lemma sep_free_app a b : sep_free c_comma (a ++ b) ↔ sep_free c_comma a ∧ sep_free c_comma b.
Proof. unfold sep_free. rewrite not_elem_of_app. done. Qed.

(** The part to the right of the caret, up to the next comma. *)
Lemma right_of_caret b rest :
  sep_free c_comma b → rest = [] ∨ (∃ r, rest = c_comma :: r) →
  (if negb (contains [c_comma] (b ++ rest)) then b ++ rest
   else substr 0 (indexOf [c_comma] (b ++ rest)) (b ++ rest)) = b.
Proof.
  intros Hb [->|[r ->]].
  - rewrite app_nil_r, contains_comma_false by done. done.
  - assert (contains [c_comma] (b ++ c_comma :: r) = true) as ->
      by (apply contains_char, elem_of_app; right; constructor).
    simpl. unfold indexOf. rewrite find_char_first_app by done. apply substr_prefix.
Qed.

Lemma replace_separator w : replace (js ", ") [] (js ", " ++ w) = w.
Proof. unfold replace. by destruct w. Qed.

Lemma getDeleteItem_at ts a b us :
  Forall (sep_free c_comma) ts → sep_free c_comma (a ++ b) →
  getDeleteItem (join (js ", ") (ts ++ (a ++ b) :: us))
                (Z.of_nat (length (before_text ts ++ a))) = a ++ b.
Proof.
  intros Hts [Ha Hb]%sep_free_app. rewrite join_middle.
  set (rest := match us with [] => [] | _ => _ end).
  assert (rest = [] ∨ ∃ r, rest = c_comma :: r) as Hrest by (destruct us; [by left|right; by eexists]).
  clearbody rest.
  replace (before_text ts ++ (a ++ b) ++ rest) with ((before_text ts ++ a) ++ (b ++ rest))
    by (by rewrite <-!app_assoc).
  unfold getDeleteItem. rewrite substr_prefix, substr_from_suffix.
  pose proof (right_of_caret b rest Hb Hrest) as Hright.
  destruct (before_text_last ts) as [->|[pre ->]].
  - rewrite app_nil_l, contains_comma_false by done. cbn [negb].
    destruct (negb (contains [c_comma] (b ++ rest))); by rewrite Hright.
  - assert (contains [c_comma] ((pre ++ js ", ") ++ a) = true) as ->
      by (apply contains_char; rewrite !elem_of_app; left; right; constructor).
    cbn [negb]. unfold lastIndexOf.
    replace ((pre ++ js ", ") ++ a) with (pre ++ c_comma :: 32%N :: a)
      by (by rewrite <-app_assoc).
    rewrite find_char_last_app by (apply not_elem_of_cons; done).
    rewrite substr_from_suffix.
    change (c_comma :: 32%N :: a) with (js ", " ++ a). rewrite <-!app_assoc.
    destruct (negb (contains [c_comma] (b ++ rest)));
      rewrite Hright; apply replace_separator.
Qed.

(** ** Removing by title *)

Definition titles (l : list item) : list jval := item_title <$> l.

(** When the titles are different strings, exactly the item of that title goes. *)
Lemma removeArrItem_spec l v :
  Forall str_id (titles l) → str_id v → NoDup (titles l) →
  removeArrItem l v = List.filter (λ it, negb (bool_decide (item_title it = v))) l.
Proof.
  intros Hs Hv Hn. unfold removeArrItem. rewrite splice_scan_keep.
  - unfold keep. apply filter_ext_in. intros it Hit%list_elem_of_In.
    rewrite (keyed (K := str_id)); [done| |done]. unfold titles in Hs. rewrite Forall_fmap, Forall_forall in Hs.
    by apply Hs.
  - unfold titles in *. induction l as [|x [|y l] IH]; [done..|].
    rewrite !fmap_cons in Hs, Hn. inversion Hs as [|? ? Hx Hs']; subst.
    inversion Hs' as [|? ? Hy Hs'']; subst. apply NoDup_cons in Hn as [Hx' Hn].
    apply not_elem_of_cons in Hx' as [Hxy _].
    change (negb (loose_eq (item_title x) v && loose_eq (item_title y) v)
            && no_adjacent (λ it, loose_eq (item_title it) v) (y :: l) = true).
    rewrite andb_true_iff. split; [|by apply IH].
    rewrite !(keyed (K := str_id)) by done. apply negb_true_iff, andb_false_iff.
    destruct (decide (item_title x = v)) as [Hxv|]; [|left; by apply bool_decide_eq_false].
    right. apply bool_decide_eq_false. congruence.
Qed.

Lemma removeArrItem_sublist l v : sublist (removeArrItem l v) l.
Proof. apply splice_scan_sublist. Qed.

Lemma erase_sublist l text caret : sublist (erase l text caret) l.
Proof. apply removeArrItem_sublist. Qed.

Lemma map_filter_ne {A} (f : A → jval) v (l : list A) :
  List.map f (List.filter (λ x, negb (bool_decide (f x = v))) l)
  = List.filter (λ u, negb (bool_decide (u = v))) (List.map f l).
Proof. induction l as [|x l IH]; simpl; [done|]. case_bool_decide; simpl; by rewrite IH. Qed.

(** Taking out a title that stands once. *)
Lemma filter_title (ts us : list jstr) (t : jstr) :
  NoDup (ts ++ t :: us) →
  List.filter (λ u, negb (bool_decide (u = VStr t))) (List.map VStr (ts ++ t :: us))
  = List.map VStr (ts ++ us).
Proof.
  assert (∀ vs : list jstr, t ∉ vs → VStr t ∉ List.map VStr vs) as Hm.
  { intros vs Hvs H. apply Hvs. apply list_elem_of_In, in_map_iff in H as (x & [= ->] & Hx).
    by apply list_elem_of_In. }
  intros Hn. apply NoDup_app in Hn as (_ & H1 & H2). apply NoDup_cons in H2 as [H2 _].
  rewrite !List.map_app, List.filter_app. cbn [List.map List.filter].
  rewrite bool_decide_eq_true_2 by done. cbn [negb].
  rewrite !filter_ne_id; [done|by apply Hm|]. apply Hm. intros Hin. apply (H1 _ Hin). constructor.
Qed.

Lemma title_text_str l ts : titles l = List.map VStr ts → title_text l = join (js ", ") ts.
Proof.
  intros H. unfold title_text. f_equal. revert ts H.
  induction l as [|x l IH]; intros [|t ts] H; try done.
  unfold titles in H. rewrite fmap_cons in H. injection H as H1 H2. cbn [List.map].
  by rewrite H1, (IH ts).
Qed.

(** ** [isRepeat] *)

Lemma repeat_from_spec hash l :
  (∀ x, x ∈ l → x ∉ proto_names) →
  repeat_from hash l = false ↔ NoDup l ∧ ∀ x, x ∈ l → x ∉ hash.
Proof.
  revert hash. induction l as [|x l IH]; intros hash Hp; simpl.
  - split; [|done]. intros _. split; [constructor|]. by intros x ?%elem_of_nil.
  - assert (x ∉ proto_names) as Hx by (apply Hp; constructor).
    rewrite (bool_decide_eq_false_2 (x ∈ proto_names)) by done. rewrite orb_false_r.
    rewrite NoDup_cons. case_bool_decide as Hh.
    + split; [done|]. intros [_ H]. by destruct (H x); [constructor|].
    + rewrite IH by (intros; apply Hp; by constructor). split.
      * intros [Hn Hd]. repeat split; [|done|].
        -- intros Hin. destruct (Hd _ Hin). constructor.
        -- intros y [->|Hy]%elem_of_cons; [done|]. specialize (Hd _ Hy).
           by apply not_elem_of_cons in Hd as [_ ?].
      * intros [[Hxl Hn] Hd]. split; [done|]. intros y Hy. apply not_elem_of_cons.
        split; [by intros ->|]. apply Hd. by constructor.
Qed.

(** ** [reloadPersonSum] *)

Definition tag_int (t : tag) : Z := match tag_count t with JInt z => z | _ => 0 end.
Definition all_tags (json : list (jstr * list tag)) : list tag := List.flat_map snd json.
Definition sum_by (f : tag → Z) (l : list tag) : Z := List.fold_right (λ t a, f t + a) 0 l.
(** A tag counts when it is included and not excluded. *)
Definition counted (enArr outArr : list item) (t : tag) : bool :=
  bool_decide (t_id t ∈ ids enArr) && negb (bool_decide (t_id t ∈ ids outArr)).

Section person_sum.
Context (K : jval → Prop) `{!Keyed K}.

Lemma fold_hit {A} (g : A → item → A) l v a :
  wf K l → K v → (∀ x, x ∈ l → item_id x ≠ v → ∀ b, g b x = b) →
  List.fold_left g l a =
  match List.find (λ x, bool_decide (item_id x = v)) l with Some x => g a x | None => a end.
Proof.
  intros Hl Hv. revert a. induction l as [|x l IH]; intros a Hg; [done|].
  cbn [List.fold_left List.find].
  assert (wf K l) as Hl' by (eapply sublist_wf, Hl; by apply sublist_cons).
  destruct Hl as [_ Hn]. unfold ids in Hn. rewrite fmap_cons in Hn.
  apply NoDup_cons in Hn as [Hx _]. case_bool_decide as Hxv.
  - generalize (g a x) as b. clear IH. induction l as [|y l IHl]; intros b; [done|].
    cbn [List.fold_left]. rewrite fmap_cons in Hx.
    apply not_elem_of_cons in Hx as [Hxy Hx]. rewrite Hg.
    + apply IHl; [done| |by eapply sublist_wf, Hl'; apply sublist_cons].
      intros z Hz. apply Hg. apply elem_of_cons in Hz as [->|Hz];
        [constructor|by do 2 constructor].
    + by do 2 constructor.
    + congruence.
  - rewrite (Hg x) by (constructor || done). apply IH; [done|].
    intros y Hy. apply Hg. by constructor.
Qed.

Lemma find_id l v : match List.find (λ x, bool_decide (item_id x = v)) l with
  | Some x => x ∈ l ∧ item_id x = v | None => v ∉ ids l end.
Proof.
  unfold ids. induction l as [|x l IH]; [apply not_elem_of_nil|].
  cbn [List.find]. case_bool_decide as Hx; [split; [constructor|done]|].
  destruct (List.find _ l) as [y|].
  - destruct IH. split; [by constructor|done].
  - rewrite fmap_cons. apply not_elem_of_cons. done.
Qed.

Lemma keyed_mem l x : wf K l → x ∈ l → K (item_id x).
Proof.
  intros [Hk _] Hx. unfold keyed_list in Hk. rewrite Forall_forall in Hk.
  apply Hk. unfold ids. apply list_elem_of_fmap. eauto.
Qed.

Lemma loose_hit l x v :
  wf K l → x ∈ l → K v → loose_eq (item_id x) v = bool_decide (item_id x = v).
Proof. intros Hl Hx Hv. apply keyed; [by eapply keyed_mem|done]. Qed.

Lemma sum_tag_spec en out t a c :
  wf K en → wf K out → K (t_id t) → tag_count t = JInt c →
  0 ≤ a → 0 ≤ c → a + c ≤ pow2_53 →
  sum_tag en out (JInt a) t = JInt (a + if counted en out t then c else 0).
Proof.
  intros Hen Hout Ht Hc Ha Hc0 Hb. unfold sum_tag.
  assert (E1 : List.fold_left (λ b e, if loose_eq (item_id e) (t_id t)
      then num_add b (tag_count t) else b) en (JInt a)
    = JInt (a + if bool_decide (t_id t ∈ ids en) then c else 0)).
  { rewrite (fold_hit _ en (t_id t)); [|done..|].
    - pose proof (find_id en (t_id t)) as Hf. destruct (List.find _ en) as [x|].
      + destruct Hf as [Hx E]. rewrite (loose_hit en) by done. rewrite (bool_decide_eq_true_2 _ E).
        rewrite Hc, num_add_exact by lia. rewrite bool_decide_eq_true_2; [done|].
        rewrite <-E. by apply list_elem_of_fmap_2.
      + rewrite bool_decide_eq_false_2 by done. f_equal. lia.
    - intros x Hx Hne b. rewrite (loose_hit en) by done.
      by rewrite bool_decide_eq_false_2. }
  rewrite E1. clear E1. rewrite (fold_hit _ out (t_id t)); [|done..|].
  - pose proof (find_id out (t_id t)) as Hf. unfold counted.
    destruct (List.find _ out) as [o|].
    + destruct Hf as [Ho Eo]. assert (t_id t ∈ ids out) as Hin
        by (rewrite <-Eo; by apply list_elem_of_fmap_2).
      rewrite (bool_decide_eq_true_2 (t_id t ∈ ids out)) by done. rewrite andb_false_r.
      rewrite (fold_hit _ en (t_id t)); [|done..|].
      * pose proof (find_id en (t_id t)) as Hf. destruct (List.find _ en) as [x|].
        -- destruct Hf as [Hx E]. rewrite Eo.
           rewrite E. rewrite (proj2 (loose_eq_id K _ _ Ht Ht) eq_refl). cbn [andb].
           rewrite bool_decide_eq_true_2 by (rewrite <-E; by apply list_elem_of_fmap_2).
           rewrite Hc. unfold num_sub, num_neg. rewrite num_add_exact by lia. f_equal. lia.
        -- by rewrite bool_decide_eq_false_2.
      * intros x Hx Hne b. rewrite Eo. rewrite keyed by (done || by eapply (keyed_mem en)).
        by rewrite bool_decide_eq_false_2 by done.
    + rewrite (bool_decide_eq_false_2 (t_id t ∈ ids out)) by done. by rewrite andb_true_r.
  - intros o Ho Hne b.
    assert (loose_eq (item_id o) (t_id t) = false) as ->.
    { rewrite (loose_hit out) by done. by rewrite bool_decide_eq_false_2. }
    clear. revert b. induction en as [|e en IH]; intros b; [done|].
    cbn [List.fold_left]. rewrite andb_false_r. apply IH.
Qed.

Lemma sum_by_nonneg f l : (∀ t, t ∈ l → 0 ≤ f t) → 0 ≤ sum_by f l.
Proof.
  induction l as [|t l IH]; intros H; simpl; [lia|].
  assert (0 ≤ f t) by (apply H; constructor).
  assert (0 ≤ sum_by f l) by (apply IH; intros; apply H; by constructor). lia.
Qed.

Lemma sum_by_app f l k : sum_by f (l ++ k) = sum_by f l + sum_by f k.
Proof. induction l as [|t l IH]; simpl; [done|]. rewrite IH. lia. Qed.

(** A category list as the server sends it: ids of the field's kind, counts
    that read as natural numbers. *)
Definition tag_ok (t : tag) : Prop := K (t_id t) ∧ ∃ c, tag_count t = JInt c ∧ 0 ≤ c.

Definition counted_int (en out : list item) (t : tag) : Z :=
  if counted en out t then tag_int t else 0.

Lemma counted_int_le en out l : Forall tag_ok l →
  0 ≤ sum_by (counted_int en out) l ≤ sum_by tag_int l.
Proof.
  induction 1 as [|t l (_ & c & Hc & Hc0) _ IH]; [simpl; lia|].
  simpl. assert (tag_int t = c) as Ht by (unfold tag_int; by rewrite Hc).
  assert (0 ≤ counted_int en out t ≤ tag_int t); [|lia].
  unfold counted_int. rewrite Ht. destruct (counted en out t); lia.
Qed.

Lemma sum_tags_spec en out l a :
  wf K en → wf K out → Forall tag_ok l → 0 ≤ a → a + sum_by tag_int l ≤ pow2_53 →
  List.fold_left (sum_tag en out) l (JInt a) = JInt (a + sum_by (counted_int en out) l).
Proof.
  intros Hen Hout Hl. revert a. induction Hl as [|t l Ht Hl IH]; intros a Ha Hb.
  - simpl. f_equal. lia.
  - destruct Ht as (Ht & c & Hc & Hc0). cbn [List.fold_left sum_by List.fold_right] in *.
    pose proof (counted_int_le en out l Hl) as Hle. fold (sum_by tag_int l) in Hb.
    assert (tag_int t = c) as Hi by (unfold tag_int; by rewrite Hc).
    assert (counted_int en out t = if counted en out t then c else 0) as Hci
      by (unfold counted_int; by rewrite Hi).
    rewrite (sum_tag_spec en out t a c) by (done || lia).
    rewrite IH by (destruct (counted en out t); lia). f_equal.
    change (List.fold_right (λ t a, counted_int en out t + a) 0 l)
      with (sum_by (counted_int en out) l). rewrite Hci. lia.
Qed.

Lemma sum_categories json en out a :
  wf K en → wf K out → 0 ≤ a →
  Forall tag_ok (all_tags json) → a + sum_by tag_int (all_tags json) ≤ pow2_53 →
  List.fold_left (λ a cat, List.fold_left (sum_tag en out) (snd cat) a) json (JInt a)
  = JInt (a + sum_by (counted_int en out) (all_tags json)).
Proof.
  intros Hen Hout. revert a.
  induction json as [|[k ts] json IH]; intros a Ha Hok Hb.
  - simpl. f_equal. lia.
  - unfold all_tags in *. cbn [List.flat_map snd List.fold_left] in *.
    apply Forall_app in Hok as [Hts Hok]. rewrite !sum_by_app in Hb.
    assert (0 ≤ sum_by tag_int (List.flat_map snd json)) as Hn.
    { apply sum_by_nonneg. intros t Ht. rewrite Forall_forall in Hok.
      destruct (Hok t Ht) as (_ & c & Hc & ?). unfold tag_int. by rewrite Hc. }
    pose proof (counted_int_le en out ts Hts).
    rewrite sum_tags_spec by (done || lia). rewrite sum_by_app.
    rewrite IH by (done || lia). f_equal. lia.
Qed.

Lemma reloadPersonSum_spec json en out :
  wf K en → wf K out → Forall tag_ok (all_tags json) → sum_by tag_int (all_tags json) ≤ pow2_53 →
  reloadPersonSum json en out = JInt (sum_by (counted_int en out) (all_tags json)).
Proof. intros. unfold reloadPersonSum. rewrite sum_categories by (done || lia). done. Qed.
End person_sum.
