(* ===== verification/Url.v ===== *)
(** * Addresses and query strings -- [common/base.js], [common/pagination.js]

    [encodeURIComponent], [decodeURIComponent] and [unescape] of the language,
    [getEncode] and the cache-busting suffix of [base.js], and the page links
    of [pagination.js]. *)

From Stdlib Require Import ZifyN.
From S2P Require Import Prelude Js JsFacts Page.
#[local] Open Scope Z_scope.

#[export] Instance res_ret : MRet res := λ A a, Ok a.
#[export] Instance res_bind : MBind res := λ A B f m,
  match m with Ok a => f a | Exn e => Exn e end.

(** ** [encodeURIComponent] and [decodeURIComponent] *)

Definition hex_digit (n : N) : N := if (n <? 10)%N then (48 + n)%N else (55 + n)%N.
(** [%XX] *)
Definition pct (b : N) : jstr := [37%N; hex_digit (b / 16); hex_digit (b mod 16)].

(** Letters, digits and [- _ . ! ~ * ' ( )] stand for themselves. *)
Definition uri_unescaped (c : N) : bool :=
  is_digit c || is_alpha c || bool_decide (c ∈ js "-_.!~*'()").

Definition utf8_encode (cp : N) : list N :=
  if (cp <? 128)%N then [cp]
  else if (cp <? 2048)%N then [192 + cp / 64; 128 + cp mod 64]%N
  else if (cp <? 65536)%N
  then [224 + cp / 4096; 128 + cp / 64 mod 64; 128 + cp mod 64]%N
  else [240 + cp / 262144; 128 + cp / 4096 mod 64; 128 + cp / 64 mod 64; 128 + cp mod 64]%N.

Definition is_lead (c : N) : bool := (55296 <=? c)%N && (c <? 56320)%N.
Definition is_trail (c : N) : bool := (56320 <=? c)%N && (c <? 57344)%N.
Definition pair_cp (a b : N) : N := ((a - 55296) * 1024 + (b - 56320) + 65536)%N.
Definition utf16 (cp : N) : jstr :=
  if (cp <? 65536)%N then [cp]
  else [(55296 + (cp - 65536) / 1024)%N; (56320 + (cp - 65536) mod 1024)%N].

Definition pct_cp (cp : N) : jstr := List.flat_map pct (utf8_encode cp).

Fixpoint encodeURIComponent (s : jstr) : res jstr :=
  match s with
  | [] => Ok []
  | c :: s1 =>
      if uri_unescaped c then r ← encodeURIComponent s1; Ok (c :: r)
      else if is_trail c then Exn (js "URIError")
      else if is_lead c
      then match s1 with
           | d :: s2 => if is_trail d
                        then r ← encodeURIComponent s2; Ok (pct_cp (pair_cp c d) ++ r)
                        else Exn (js "URIError")
           | [] => Exn (js "URIError")
           end
      else r ← encodeURIComponent s1; Ok (pct_cp c ++ r)
  end.

(** A code unit as it stands, or a byte written [%XX]. *)
Fixpoint uri_tokens (s : jstr) : res (list (N + N)) :=
  match s with
  | [] => Ok []
  | c :: s1 =>
      if (c =? 37)%N
      then match s1 with
           | a :: b :: s2 =>
               match hex_value a, hex_value b with
               | Some x, Some y => r ← uri_tokens s2; Ok (inr (Z.to_N (x * 16 + y)) :: r)
               | _, _ => Exn (js "URIError")
               end
           | _ => Exn (js "URIError")
           end
      else r ← uri_tokens s1; Ok (inl c :: r)
  end.

Definition cont (b : N) : bool := (128 <=? b)%N && (b <? 192)%N.

Fixpoint decode_tokens (l : list (N + N)) : res jstr :=
  match l with
  | [] => Ok []
  | inl c :: l1 => r ← decode_tokens l1; Ok (c :: r)
  | inr b :: l1 =>
      if (b <? 128)%N then r ← decode_tokens l1; Ok (b :: r)
      else if (192 <=? b)%N && (b <? 224)%N
      then match l1 with
           | inr b1 :: l2 =>
               let cp := ((b - 192) * 64 + (b1 - 128))%N in
               if cont b1 && (128 <=? cp)%N
               then r ← decode_tokens l2; Ok (utf16 cp ++ r) else Exn (js "URIError")
           | _ => Exn (js "URIError")
           end
      else if (224 <=? b)%N && (b <? 240)%N
      then match l1 with
           | inr b1 :: inr b2 :: l2 =>
               let cp := ((b - 224) * 4096 + (b1 - 128) * 64 + (b2 - 128))%N in
               if cont b1 && cont b2 && (2048 <=? cp)%N && negb (is_lead cp || is_trail cp)
               then r ← decode_tokens l2; Ok (utf16 cp ++ r) else Exn (js "URIError")
           | _ => Exn (js "URIError")
           end
      else if (240 <=? b)%N && (b <? 248)%N
      then match l1 with
           | inr b1 :: inr b2 :: inr b3 :: l2 =>
               let cp := ((b - 240) * 262144 + (b1 - 128) * 4096 + (b2 - 128) * 64 + (b3 - 128))%N in
               if cont b1 && cont b2 && cont b3 && (65536 <=? cp)%N && (cp <=? 1114111)%N
               then r ← decode_tokens l2; Ok (utf16 cp ++ r) else Exn (js "URIError")
           | _ => Exn (js "URIError")
           end
      else Exn (js "URIError")
  end.
Definition decodeURIComponent (s : jstr) : res jstr := uri_tokens s ≫= decode_tokens.

(** Well-formed UTF-16: code units below 2^16 and no lone surrogate. *)
Fixpoint utf16_ok (s : jstr) : bool :=
  match s with
  | [] => true
  | c :: s1 =>
      if is_lead c then match s1 with d :: s2 => is_trail d && utf16_ok s2 | [] => false end
      else negb (is_trail c) && (c <? 65536)%N && utf16_ok s1
  end.

(** ** [unescape] *)

Definition hex4 (a b c d : N) : option N :=
  match hex_value a, hex_value b, hex_value c, hex_value d with
  | Some x, Some y, Some z, Some t => Some (Z.to_N (((x * 16 + y) * 16 + z) * 16 + t))
  | _, _, _, _ => None
  end.
Fixpoint unescape_fuel (fuel : nat) (s : jstr) : jstr :=
  match fuel, s with
  | O, _ | _, [] => []
  | S f, c :: s1 =>
      if (c =? 37)%N
      then match s1 with
           | 117%N :: a :: b :: e :: d :: s2 =>
               match hex4 a b e d with
               | Some v => v :: unescape_fuel f s2
               | None => c :: unescape_fuel f s1
               end
           | a :: b :: s2 =>
               match hex_value a, hex_value b with
               | Some x, Some y => Z.to_N (x * 16 + y) :: unescape_fuel f s2
               | _, _ => c :: unescape_fuel f s1
               end
           | _ => c :: unescape_fuel f s1
           end
      else c :: unescape_fuel f s1
  end.
(** [unescape(s)]: each step consumes at least one code unit. *)
Definition unescape (s : jstr) : jstr := unescape_fuel (length s) s.

(** ** [base.js] *)

(** [url+"&rnd="+...] or [url+"?rnd="+...], as [open_msg] and [openPop] do. *)
Definition add_rnd (url : jstr) (now : Z) : jstr :=
  if 0 <? indexOf (js "?") url then url ++ js "&rnd=" ++ str_of_Z now
  else url ++ js "?rnd=" ++ str_of_Z now.

(** One [key=value] of [getEncode]: the first occurrence of the value in the
    whole parameter is replaced by its encoding. *)
Definition encode_param (p : jstr) : res jstr :=
  let v := substr_from (indexOf (js "=") p + 1) p in
  e ← encodeURIComponent v; Ok (replace v e p).

Fixpoint map_res {A B} (f : A → res B) (l : list A) : res (list B) :=
  match l with
  | [] => Ok []
  | x :: l' => y ← f x; ys ← map_res f l'; Ok (y :: ys)
  end.

(** [getEncode(url)]: only the piece after the first [?] is encoded; an address
    without one throws. *)
Definition getEncode (url : jstr) : res jstr :=
  match splitc 63 url with
  | a0 :: a1 :: rest =>
      innerArr ← map_res encode_param (splitc 38 a1);
      Ok (join (js "?") (a0 :: join (js "&") innerArr :: rest))
  | _ => Exn (js "TypeError")
  end.

(** ** [pagination.js] *)

(** The loop of [pageNo_fun] over the parameters; the boolean is [hasPageNo]. *)
Fixpoint page_params (page : jstr) (params : list jstr) (url : jstr) (has : bool) : jstr * bool :=
  match params with
  | [] => (url, has)
  | param :: rest =>
      let pos := indexOf (js "=") param in
      if pos =? -1 then page_params page rest url has
      else
        let key := substring 0 pos param in
        let value := substring_from (pos + 1) param in
        if bool_decide (key = js "pageNo")
        then page_params page rest (url ++ key ++ js "=" ++ page ++ js "&") true
        else if negb (bool_decide (unescape value = []))
        then page_params page rest (url ++ key ++ js "=" ++ value ++ js "&") has
        else page_params page rest url has
  end.

(** [pageNo_fun()]: [search] is [location.search], [page] the page asked for. *)
Definition pageNo_fun (host pathname search page : jstr) : jstr :=
  let url0 := js "http://" ++ host ++ pathname ++ js "?" in
  let query := substring_from 1 search in
  let '(url, hasPageNo) := page_params page (splitc 38 query) url0 false in
  let url := if hasPageNo : bool then url else url ++ js "pageNo=" ++ page in
  if bool_decide (substring_from (Z.of_nat (length url)) url = js "&")
  then substring 0 (Z.of_nat (length url) - 1) url else url.

(** ** Facts about the encodings *)

Lemma hex_value_digit n : (n < 16)%N → hex_value (hex_digit n) = Some (Z.of_N n).
Proof.
  intros Hn. assert (∃ k, (k < 16)%nat ∧ n = N.of_nat k) as (k & Hk & ->)
    by (exists (N.to_nat n); lia).
  do 16 (destruct k as [|k]; [reflexivity|]). lia.
Qed.

Lemma uri_tokens_pct b s : (b < 256)%N →
  uri_tokens (pct b ++ s) = r ← uri_tokens s; Ok (inr b :: r).
Proof.
  intros Hb. unfold pct. cbn [app uri_tokens]. rewrite N.eqb_refl.
  rewrite (hex_value_digit (b / 16)) by (apply N.Div0.div_lt_upper_bound; lia).
  rewrite (hex_value_digit (b mod 16)) by (by apply N.mod_lt). cbv beta iota. assert (Z.to_N (Z.of_N (b / 16) * 16 + Z.of_N (b mod 16)) = b) as ->; [|done].
  pose proof (N.div_mod b 16). lia.
Qed.

Lemma uri_tokens_pcts l s : Forall (λ b, (b < 256)%N) l →
  uri_tokens (List.flat_map pct l ++ s) = r ← uri_tokens s; Ok (List.map inr l ++ r).
Proof.
  induction 1 as [|b l Hb Hl IH]; [simpl; by destruct (uri_tokens s)|].
  change (List.flat_map pct (b :: l)) with (pct b ++ List.flat_map pct l).
  rewrite <-app_assoc. rewrite uri_tokens_pct by done. rewrite IH.
  by destruct (uri_tokens s).
Qed.

Lemma utf8_encode_bytes cp : (cp <= 1114111)%N → Forall (λ b, (b < 256)%N) (utf8_encode cp).
Proof.
  intros Hcp. pose proof (N.mod_lt cp 64 ltac:(done)) as M1.
  pose proof (N.mod_lt (cp / 64) 64 ltac:(done)) as M2.
  pose proof (N.mod_lt (cp / 4096) 64 ltac:(done)) as M3.
  unfold utf8_encode.
  destruct (N.ltb_spec cp 128); [|destruct (N.ltb_spec cp 2048);
    [|destruct (N.ltb_spec cp 65536)]]; repeat (apply Forall_cons; split);
    try apply Forall_nil_2; try lia.
Qed.

Lemma decode_utf8 cp l :
  (cp <= 1114111)%N → is_lead cp = false → is_trail cp = false →
  decode_tokens (List.map inr (utf8_encode cp) ++ l) = r ← decode_tokens l; Ok (utf16 cp ++ r).
Proof.
  intros Hcp Hl Ht.
  pose proof (N.mod_lt cp 64 ltac:(done)) as M1.
  pose proof (N.mod_lt (cp / 64) 64 ltac:(done)) as M2.
  pose proof (N.mod_lt (cp / 4096) 64 ltac:(done)) as M3.
  pose proof (N.div_mod cp 64 ltac:(done)) as D1.
  pose proof (N.div_mod (cp / 64) 64 ltac:(done)) as D2.
  pose proof (N.div_mod (cp / 4096) 64 ltac:(done)) as D3.
  assert (cp / 64 / 64 = cp / 4096)%N as E2 by (by rewrite N.Div0.div_div).
  assert (cp / 4096 / 64 = cp / 262144)%N as E3 by (by rewrite N.Div0.div_div).
  rewrite E2 in D2. rewrite E3 in D3.
  set (a0 := (cp mod 64)%N) in *. set (a1 := (cp / 64 mod 64)%N) in *.
  set (a2 := (cp / 4096 mod 64)%N) in *. set (q1 := (cp / 64)%N) in *.
  set (q2 := (cp / 4096)%N) in *. set (q3 := (cp / 262144)%N) in *.
  unfold utf8_encode. fold q1 q2 q3. fold a0 a1 a2. clearbody a0 a1 a2 q1 q2 q3.
  assert (Hcont : ∀ a, (a < 64)%N → cont (128 + a) = true).
  { intros a Ha. unfold cont. apply andb_true_iff.
    rewrite N.leb_le, N.ltb_lt. lia. }
  destruct (N.ltb_spec cp 128); [|destruct (N.ltb_spec cp 2048);
    [|destruct (N.ltb_spec cp 65536)]]; cbn [List.map app decode_tokens].
  - rewrite (proj2 (N.ltb_lt cp 128)) by done. unfold utf16.
    by rewrite (proj2 (N.ltb_lt cp 65536)) by lia.
  - rewrite (proj2 (N.ltb_ge (192 + q1) 128)) by lia.
    rewrite (proj2 (N.leb_le 192 (192 + q1))), (proj2 (N.ltb_lt (192 + q1) 224)) by lia.
    cbn [andb]. rewrite Hcont by done.
    replace ((192 + q1 - 192) * 64 + (128 + a0 - 128))%N with cp by lia.
    by rewrite (proj2 (N.leb_le 128 cp)) by lia.
  - rewrite (proj2 (N.ltb_ge (224 + q2) 128)) by lia.
    rewrite (proj2 (N.ltb_ge (224 + q2) 224)) by lia. rewrite andb_false_r.
    rewrite (proj2 (N.leb_le 224 (224 + q2))), (proj2 (N.ltb_lt (224 + q2) 240)) by lia.
    cbn [andb]. rewrite !Hcont by done.
    replace ((224 + q2 - 224) * 4096 + (128 + a1 - 128) * 64 + (128 + a0 - 128))%N with cp by lia.
    by rewrite (proj2 (N.leb_le 2048 cp)), Hl, Ht by lia.
  - rewrite (proj2 (N.ltb_ge (240 + q3) 128)) by lia.
    rewrite (proj2 (N.ltb_ge (240 + q3) 224)) by lia. rewrite andb_false_r.
    rewrite (proj2 (N.ltb_ge (240 + q3) 240)) by lia. rewrite andb_false_r.
    rewrite (proj2 (N.leb_le 240 (240 + q3))), (proj2 (N.ltb_lt (240 + q3) 248)) by lia.
    cbn [andb]. rewrite !Hcont by done.
    replace ((240 + q3 - 240) * 262144 + (128 + a2 - 128) * 4096 + (128 + a1 - 128) * 64
             + (128 + a0 - 128))%N with cp by lia.
    by rewrite (proj2 (N.leb_le 65536 cp)), (proj2 (N.leb_le cp 1114111)) by lia.
Qed.

Lemma is_lead_spec c : is_lead c = true ↔ (55296 <= c < 56320)%N.
Proof. unfold is_lead. by rewrite andb_true_iff, N.leb_le, N.ltb_lt. Qed.
Lemma is_trail_spec c : is_trail c = true ↔ (56320 <= c < 57344)%N.
Proof. unfold is_trail. by rewrite andb_true_iff, N.leb_le, N.ltb_lt. Qed.

Lemma utf16_pair a b : is_lead a = true → is_trail b = true → utf16 (pair_cp a b) = [a; b].
Proof.
  rewrite is_lead_spec, is_trail_spec. intros Ha Hb. unfold utf16, pair_cp.
  rewrite (proj2 (N.ltb_ge _ 65536)) by lia.
  replace ((a - 55296) * 1024 + (b - 56320) + 65536 - 65536)%N
    with (b - 56320 + (a - 55296) * 1024)%N by lia.
  rewrite N.div_add, N.Div0.mod_add, N.div_small, N.mod_small by lia.
  f_equal; [lia|]. f_equal. lia.
Qed.

Lemma uri_unescaped_plain c : uri_unescaped c = true → c ≠ 37%N.
Proof. intros Hc ->. by vm_compute in Hc. Qed.

Lemma uri_unescaped_ascii c : uri_unescaped c = true → (c < 128)%N.
Proof.
  unfold uri_unescaped, is_digit, is_alpha.
  rewrite !orb_true_iff, !andb_true_iff, !N.leb_le. intros [[?|?]|Hu]; [lia..|].
  apply bool_decide_eq_true, list_elem_of_In in Hu. vm_compute in Hu.
  repeat (destruct Hu as [<-|Hu]; [lia|]). done.
Qed.

(** Decoding what was encoded gives the string back. *)
Lemma decode_encode s e : utf16_ok s = true → encodeURIComponent s = Ok e → decodeURIComponent e = Ok s.
Proof.
  unfold decodeURIComponent. remember (length s) as n eqn:Hn. revert s e Hn.
  induction n as [n IH] using lt_wf_ind. intros [|c s] e -> Hok; [by intros [= <-]|].
  cbn [encodeURIComponent]. simpl in Hok. destruct (uri_unescaped c) eqn:Hu.
  - destruct (encodeURIComponent s) as [r|] eqn:E; [|done]. intros [= <-].
    cbn [uri_tokens]. rewrite (proj2 (N.eqb_neq c 37)) by (by apply uri_unescaped_plain).
    assert (utf16_ok s = true ∧ is_lead c = false) as [Hs Hc].
    { destruct (is_lead c) eqn:Hl; [|by bool_simp].
      apply is_lead_spec in Hl. apply uri_unescaped_ascii in Hu. lia. }
    specialize (IH (length s) ltac:(simpl; lia) s r eq_refl Hs E).
    destruct (uri_tokens r) as [t|]; [|done]. simpl in *. by rewrite IH.
  - destruct (is_trail c) eqn:Ht; [done|]. destruct (is_lead c) eqn:Hl.
    + destruct s as [|d s]; [done|]. destruct (is_trail d) eqn:Hd; [|done].
      destruct (encodeURIComponent s) as [r|] eqn:E; [|done]. intros [= <-].
      simpl in Hok.
      specialize (IH (length s) ltac:(simpl; lia) s r eq_refl Hok E).
      pose proof (proj1 (is_lead_spec c) Hl) as B1.
      pose proof (proj1 (is_trail_spec d) Hd) as B2.
      assert (65536 <= pair_cp c d <= 1114111)%N as B by (unfold pair_cp; lia).
      unfold pct_cp. rewrite uri_tokens_pcts by (apply utf8_encode_bytes; lia).
      destruct (uri_tokens r) as [t|]; [|done]. simpl in *.
      rewrite decode_utf8; [|lia|apply not_true_is_false; rewrite is_lead_spec; lia
                           |apply not_true_is_false; rewrite is_trail_spec; lia].
      rewrite IH. simpl. by rewrite utf16_pair.
    + bool_simp. destruct (encodeURIComponent s) as [r|] eqn:E; [|done]. intros [= <-].
      specialize (IH (length s) ltac:(simpl; lia) s r eq_refl ltac:(done) E).
      match goal with H : (c <? 65536)%N = true |- _ => apply N.ltb_lt in H as Hc end.
      unfold pct_cp. rewrite uri_tokens_pcts by (apply utf8_encode_bytes; lia).
      destruct (uri_tokens r) as [t|]; [|done]. simpl in *.
      rewrite decode_utf8 by (done || lia). rewrite IH. simpl. unfold utf16.
      by rewrite (proj2 (N.ltb_lt c 65536)).
Qed.

Lemma encode_total s : utf16_ok s = true → ∃ e, encodeURIComponent s = Ok e.
Proof.
  remember (length s) as n eqn:Hn. revert s Hn.
  induction n as [n IH] using lt_wf_ind. intros [|c s] ->; [by exists []|].
  cbn [encodeURIComponent]. intros Hok. simpl in Hok.
  assert (Hrec : utf16_ok s = true → ∃ e, encodeURIComponent s = Ok e)
    by (intros; by apply (IH (length s) ltac:(simpl; lia) s)).
  destruct (is_lead c) eqn:Hl.
  - destruct s as [|d s]; [done|]. bool_simp.
    assert (is_trail c = false) as ->.
    { apply not_true_is_false. rewrite is_trail_spec. apply is_lead_spec in Hl. lia. }
    destruct (IH (length s) ltac:(simpl; lia) s eq_refl ltac:(done)) as [r Hr].
    destruct (uri_unescaped c) eqn:Hu.
    + apply is_lead_spec in Hl. apply uri_unescaped_ascii in Hu. lia.
    + match goal with H : is_trail d = true |- _ => rewrite H end. rewrite Hr. simpl. eauto.
  - bool_simp. destruct Hrec as [r Hr]; [done|]. rewrite Hr.
    match goal with H : is_trail c = false |- _ => rewrite H end.
    destruct (uri_unescaped c); simpl; eauto.
Qed.

(** ** The page links *)

(** The [key=value] pieces of a query string, in order. *)
Definition split_param (p : jstr) : option (jstr * jstr) :=
  let pos := indexOf (js "=") p in
  if pos =? -1 then None else Some (substring 0 pos p, substring_from (pos + 1) p).
Definition query_params (q : jstr) : list (jstr * jstr) := omap split_param (splitc 38 q).

(** What a page link asks for: the page is replaced where it stands, or added
    at the end; the parameters without a value are dropped. *)
Definition set_page (page : jstr) (ps : list (jstr * jstr)) : list (jstr * jstr) :=
  let kept := List.flat_map (λ kv,
    if bool_decide (kv.1 = js "pageNo") then [(kv.1, page)]
    else if negb (bool_decide (unescape kv.2 = [])) then [kv] else []) ps in
  if existsb (λ kv, bool_decide (kv.1 = js "pageNo")) ps then kept
  else kept ++ [(js "pageNo", page)].

Definition print_param (kv : jstr * jstr) : jstr := kv.1 ++ js "=" ++ kv.2.
Definition clean (kv : jstr * jstr) : Prop :=
  (61%N ∉ kv.1) ∧ (38%N ∉ kv.1) ∧ (38%N ∉ kv.2).

Lemma js_eq_sign : js "=" = [61%N]. Proof. done. Qed.

Lemma substring_from_suffix a b : substring_from (Z.of_nat (length a)) (a ++ b) = b.
Proof.
  unfold substring_from, substring. rewrite length_app.
  replace (Z.min (Z.max (Z.of_nat (length a)) 0) _) with (Z.of_nat (length a)) by lia.
  replace (Z.min (Z.max (Z.of_nat (length a + length b)) 0) _)
    with (Z.of_nat (length a) + Z.of_nat (length b)) by lia.
  rewrite Z.min_l, Z.max_r by lia. rewrite Nat2Z.id, drop_app_length.
  apply take_ge. lia.
Qed.

Lemma split_param_print kv : 61%N ∉ kv.1 → split_param (print_param kv) = Some kv.
Proof.
  destruct kv as [k v]. unfold split_param, print_param. cbn [fst snd]. intros Hk.
  rewrite js_eq_sign. change (k ++ [61%N] ++ v) with (k ++ 61%N :: v).
  unfold indexOf. rewrite find_char_first_app by done.
  change (k ++ 61%N :: v) with (k ++ [61%N] ++ v). destruct (Z.eqb_spec (Z.of_nat (length k)) (-1)); [lia|].
  rewrite substring_prefix.
  replace (k ++ [61%N] ++ v) with ((k ++ [61%N]) ++ v) by (by rewrite <-app_assoc).
  replace (Z.of_nat (length k) + 1) with (Z.of_nat (length (k ++ [61%N])))
    by (rewrite length_app; simpl; lia).
  by rewrite substring_from_suffix.
Qed.

Lemma split_param_some p kv :
  split_param p = Some kv → p = print_param kv ∧ (61%N ∉ kv.1).
Proof.
  unfold split_param. rewrite js_eq_sign. unfold indexOf.
  destruct (find_sub [61%N] p) as [n|] eqn:E; [|done].
  destruct (Z.eqb_spec (Z.of_nat n) (-1)); [lia|]. intros [= <-].
  pose proof (find_sub_Some _ _ _ E) as [Ep Hn]. simpl in Hn.
  assert (length (take n p) = n) as Hl by (rewrite length_take; lia).
  set (k := take n p) in *. set (v := drop (n + length [61%N]) p) in *.
  assert (E1 : substring 0 (Z.of_nat n) p = k) by (rewrite Ep, <-Hl; apply substring_prefix).
  assert (E2 : substring_from (Z.of_nat n + 1) p = v).
  { rewrite Ep. replace (k ++ [61%N] ++ v) with ((k ++ [61%N]) ++ v) by (by rewrite <-app_assoc).
    replace (Z.of_nat n + 1) with (Z.of_nat (length (k ++ [61%N])))
      by (rewrite length_app, Hl; simpl; lia).
    apply substring_from_suffix. }
  rewrite E1, E2. split; [done|].
  intros (i & Hi)%list_elem_of_lookup. cbn [fst] in Hi.
  assert (i < n)%nat as Hin by (rewrite <-Hl; by eapply lookup_lt_Some).
  pose proof (find_sub_first _ _ _ _ E Hin) as Hf.
  unfold k in Hi. rewrite lookup_take_lt in Hi by done.
  rewrite (drop_S p 61%N i) in Hf by done. simpl in Hf. done.
Qed.

Lemma query_params_print l tail :
  Forall clean l → 
  query_params (List.concat (List.map (λ kv, print_param kv ++ js "&") l) ++ tail) =
  l ++ query_params tail.
Proof.
  induction 1 as [|kv l (Hk & Hk' & Hv) Hl IH]; [done|]. cbn [List.map List.concat].
  rewrite <-!app_assoc. change (js "&" ++ ?x) with (38%N :: x).
  unfold query_params in *. rewrite splitc_app.
  - cbn [omap list_omap]. rewrite split_param_print by done. simpl. by f_equal.
  - unfold sep_free, print_param. rewrite !not_elem_of_app. repeat split; [done| |done].
    rewrite js_eq_sign. by apply not_elem_of_cons; split; [|apply not_elem_of_nil].
Qed.

Lemma page_params_spec page params url has :
  page_params page params url has =
  (url ++ List.concat (List.map (λ kv, print_param kv ++ js "&")
     (List.flat_map (λ kv,
        if bool_decide (kv.1 = js "pageNo") then [(kv.1, page)]
        else if negb (bool_decide (unescape kv.2 = [])) then [kv] else [])
        (omap split_param params))),
   has || existsb (λ kv, bool_decide (kv.1 = js "pageNo")) (omap split_param params)).
Proof.
  revert url has. induction params as [|p ps IH]; intros url has.
  - simpl. by rewrite app_nil_r, orb_false_r.
  - change (omap split_param (p :: ps)) with
      (match split_param p with Some y => y :: omap split_param ps
                              | None => omap split_param ps end).
    cbn [page_params]. destruct (split_param p) as [kv|] eqn:E; unfold split_param in E;
      destruct (indexOf (js "=") p =? -1); try done; try (by apply IH).
    injection E as <-. cbn [List.flat_map existsb fst snd].
    repeat case_bool_decide; cbn [negb orb]; rewrite IH;
      rewrite ?List.map_app, ?List.concat_app; cbn [List.map List.concat];
      unfold print_param; cbn [fst snd orb];
      rewrite ?app_nil_r, <-?app_assoc, ?app_nil_l, ?orb_true_r; done.
Qed.

Lemma query_params_clean q : Forall clean (query_params q).
Proof.
  unfold query_params. pose proof (splitc_sep_free 38%N q) as Hs.
  induction Hs as [|p ps Hp _ IH]; [constructor|]. simpl.
  destruct (split_param p) as [kv|] eqn:E; [|done]. constructor; [|done].
  apply split_param_some in E as [-> He]. unfold sep_free, print_param in Hp.
  rewrite !not_elem_of_app in Hp. destruct Hp as (? & _ & ?). by repeat split.
Qed.

Lemma set_page_clean page ps : 38%N ∉ page → Forall clean ps →
  Forall clean (List.flat_map (λ kv,
    if bool_decide (kv.1 = js "pageNo") then [(kv.1, page)]
    else if negb (bool_decide (unescape kv.2 = [])) then [kv] else []) ps).
Proof.
  intros Hp. induction 1 as [|kv ps Hkv _ IH]; [constructor|]. simpl.
  repeat case_bool_decide; simpl; try done; constructor; try done.
  destruct Hkv as (? & ? & ?). done.
Qed.

(** ** [getEncode] *)

Lemma hex_digit_ne n : (n < 16)%N → hex_digit n ≠ 36%N.
Proof. unfold hex_digit. destruct (N.ltb_spec n 10); lia. Qed.

Lemma pct_cp_no_dollar cp : (cp <= 1114111)%N → 36%N ∉ pct_cp cp.
Proof.
  intros Hcp. unfold pct_cp. pose proof (utf8_encode_bytes cp Hcp) as Hb.
  induction Hb as [|b l Hb _ IH]; [apply not_elem_of_nil|].
  change (List.flat_map pct (b :: l)) with (pct b ++ List.flat_map pct l).
  apply not_elem_of_app. split; [|done]. unfold pct. rewrite !not_elem_of_cons.
  repeat split; [done| | |apply not_elem_of_nil]; apply not_eq_sym, hex_digit_ne;
    [apply N.Div0.div_lt_upper_bound; lia|by apply N.mod_lt].
Qed.

(** The encoding of a well-formed string has no [$], so [replace] inserts it
    as it is. *)
Lemma encode_no_dollar s e : utf16_ok s = true → encodeURIComponent s = Ok e → 36%N ∉ e.
Proof.
  remember (length s) as n eqn:Hn. revert s e Hn.
  induction n as [n IH] using lt_wf_ind. intros [|c s] e ->; [intros _ [= <-]; apply not_elem_of_nil|].
  cbn [encodeURIComponent]. intros Hok. simpl in Hok. destruct (uri_unescaped c) eqn:Hu.
  - destruct (encodeURIComponent s) as [r|] eqn:E; [|done]. intros [= <-].
    apply not_elem_of_cons. split; [by intros <-; vm_compute in Hu|].
    destruct (is_lead c) eqn:Hl.
    + apply is_lead_spec in Hl. apply uri_unescaped_ascii in Hu. lia.
    + bool_simp. by eapply (IH (length s)); [simpl; lia|done..].
  - destruct (is_trail c) eqn:Ht; [done|]. destruct (is_lead c) eqn:Hl.
    + destruct s as [|d s]; [done|]. destruct (is_trail d) eqn:Hd; [|done].
      destruct (encodeURIComponent s) as [r|] eqn:E; [|done]. intros [= <-].
      simpl in Hok. apply is_lead_spec in Hl. apply is_trail_spec in Hd.
      apply not_elem_of_app. split; [apply pct_cp_no_dollar; unfold pair_cp; lia|].
      by eapply (IH (length s)); [simpl; lia|done..].
    + bool_simp. destruct (encodeURIComponent s) as [r|] eqn:E; [|done]. intros [= <-].
      match goal with H : (c <? 65536)%N = true |- _ => apply N.ltb_lt in H end.
      apply not_elem_of_app. split; [apply pct_cp_no_dollar; lia|].
      by eapply (IH (length s)); [simpl; lia|done..].
Qed.

(** The value of the parameter does not occur in front of itself. *)
Definition value_first (kv : jstr * jstr) : Prop :=
  kv.2 = [] ∨ find_sub kv.2 (print_param kv) = Some (S (length kv.1)).

Definition enc_ok (kv : jstr * jstr) : Prop :=
  (61%N ∉ kv.1) ∧ value_first kv ∧ utf16_ok kv.2 = true.

Lemma encode_param_spec kv : enc_ok kv →
  ∃ e, encode_param (print_param kv) = Ok (print_param (kv.1, e))
       ∧ encodeURIComponent kv.2 = Ok e ∧ decodeURIComponent e = Ok kv.2.
Proof.
  destruct kv as [k v]. unfold enc_ok, value_first. cbn [fst snd]. intros (Hk & Hv & Hu).
  destruct (encode_total v Hu) as [e He]. exists e. split; [|by split; [|eapply decode_encode]].
  unfold encode_param.
  assert (Hpos : substr_from (indexOf (js "=") (print_param (k, v)) + 1) (print_param (k, v)) = v).
  { unfold print_param. cbn [fst snd]. rewrite js_eq_sign.
    change (k ++ [61%N] ++ v) with (k ++ 61%N :: v).
    unfold indexOf. rewrite find_char_first_app by done.
    replace (k ++ 61%N :: v) with ((k ++ [61%N]) ++ v) by (by rewrite <-app_assoc).
    unfold substr_from. destruct (Z.ltb_spec (Z.of_nat (length k) + 1) 0); [lia|].
    rewrite !length_app. cbn [length]. rewrite Z.min_l by lia.
    replace (Z.to_nat (Z.of_nat (length k) + 1)) with (length (k ++ [61%N]))
      by (rewrite length_app; simpl; lia).
    apply drop_app_length. }
  rewrite Hpos, He. cbn [mbind res_bind]. f_equal. unfold replace.
  destruct Hv as [->|Hf].
  - injection He as <-. unfold print_param. cbn [fst snd]. by destruct (k ++ js "=" ++ []).
  - rewrite Hf. rewrite expand_plain by (by eapply encode_no_dollar).
    unfold print_param. cbn [fst snd]. rewrite js_eq_sign.
    replace (k ++ [61%N] ++ v) with ((k ++ [61%N]) ++ v) by (by rewrite <-app_assoc).
    assert (S (length k) = length (k ++ [61%N])) as -> by (rewrite length_app; simpl; lia).
    rewrite take_app_length. rewrite drop_ge by (rewrite length_app; lia).
    by rewrite app_nil_r, <-app_assoc.
Qed.

Lemma map_res_encode kvs : Forall enc_ok kvs →
  ∃ es, map_res encode_param (List.map print_param kvs) = Ok (List.map print_param es)
        ∧ Forall2 (λ kv kv', kv'.1 = kv.1 ∧ decodeURIComponent kv'.2 = Ok kv.2) kvs es.
Proof.
  induction 1 as [|kv kvs Hkv _ (es & IH & IH2)]; [by exists []; split; [|constructor]|].
  destruct (encode_param_spec kv Hkv) as (e & E & _ & D).
  exists ((kv.1, e) :: es). simpl. rewrite E. simpl. rewrite IH. simpl.
  split; [done|]. by constructor.
Qed.

(** ** Properties *)

(** the address a page link goes to has the query of
    the current one with the page number put in: every [pageNo] gets the new
    value, or one is added at the end, the other parameters keep their order
    and value, and the ones without a value are dropped. *)
Theorem pageNo_fun_params host pathname q page :
  38%N ∉ page →
  ∃ r, pageNo_fun host pathname (63%N :: q) page
       = js "http://" ++ host ++ pathname ++ js "?" ++ r
     ∧ query_params r = set_page page (query_params q).
Proof.
  intros Hp. unfold pageNo_fun.
  replace (substring_from 1 (63%N :: q)) with q
    by (symmetry; apply (substring_from_suffix [63%N] q)).
  rewrite page_params_spec. set (url0 := js "http://" ++ _).
  pose proof (query_params_clean q) as Hc.
  pose proof (set_page_clean page _ Hp Hc) as Hk.
  unfold set_page. change (omap split_param (splitc 38 q)) with (query_params q).
  set (kept := List.flat_map _ (query_params q)) in *.
  assert (Hnot : ∀ u : jstr, bool_decide (substring_from (Z.of_nat (length u)) u = js "&") = false).
  { intros u. apply bool_decide_eq_false. pose proof (substring_from_suffix u []) as E.
    rewrite app_nil_r in E. by rewrite E. }
  destruct (existsb _ (query_params q)); cbn [orb]; rewrite Hnot.
  - eexists. split; [unfold url0; by rewrite <-!app_assoc|].
    rewrite <-(app_nil_r (List.concat _)), query_params_print by done. by rewrite app_nil_r.
  - eexists. split; [unfold url0; by rewrite <-!app_assoc|].
    rewrite query_params_print by done. f_equal.
    unfold query_params. rewrite splitc_word; [|].
    + cbn. change (js "pageNo=" ++ page) with (print_param (js "pageNo", page)).
      rewrite split_param_print; [done|not_in].
    + unfold sep_free. apply not_elem_of_app. split; [|done]. not_in.
Qed.

Lemma pageNo_fun_params_witness :
  (38%N ∉ js "3") ∧
  ∃ r, pageNo_fun (js "139edm.com") (js "/report") (63%N :: js "m=all&pageNo=2&k=") (js "3")
       = js "http://" ++ js "139edm.com" ++ js "/report" ++ js "?" ++ r
     ∧ query_params r = set_page (js "3") (query_params (js "m=all&pageNo=2&k=")).
Proof. split; [not_in|]. apply pageNo_fun_params. not_in. Defined.

(** A value that may stand in a query: neither [?] nor [&]. *)
Definition query_ok (kv : jstr * jstr) : Prop :=
  sep_free 63 (print_param kv) ∧ sep_free 38 (print_param kv).

Lemma join_sep_free c d l : Forall (sep_free d) l → d ≠ c → sep_free d (join [c] l).
Proof.
  intros Hl Hd. induction Hl as [|x l Hx Hl IH]; [apply not_elem_of_nil|].
  destruct l as [|y l]; [done|]. rewrite join_cons by done. unfold sep_free in *.
  apply not_elem_of_app. split; [done|]. by apply not_elem_of_cons.
Qed.


