(* ===== verification/Base.v ===== *)
(** * The shared widgets -- [common/base.js]

    Overlays, the banner, the dialog and the pop-up box, the pickers that fill
    a field from an array, and the small plugins of [base.js]. *)

From Stdlib Require Import QArith Qround.
From S2P Require Import Prelude Js JsFacts Regex Page Layout TagList Url.
#[local] Open Scope Z_scope.

(** ** The array a field keeps ([data('subArr')]) *)

(** The page script gives every multi-select field an array through
    [$(input).data('subArr', arr)]; the scripts below reach it by the field's
    selector.  A page says where the array of a field lives by an instance. *)
Class SubArr (G : Type) := {
  sub_get : jstr → G → option (list item);
  sub_set : jstr → list item → G → G;
  sub_get_set : ∀ k l g, is_Some (sub_get k g) → sub_get k (sub_set k l g) = Some l
}.

Section scripts.
Context {G : Type}.

(** ** Layers and overlays *)

(** [$(sel).setMaxIndex()] on one element: the next layer number. *)
Definition setMaxIndex : J G Z :=
  w ← gets w_ui;
  let z := match u_zmax w with Some z => z | None => 10000000 end in
  mod_ui (with_zmax (Some (z + 1))) ;;
  mret z.

(** The size forced on an overlay in the old browser. *)
Definition cover_size (w : window) : size := if win_ie6 w then Some (win_w w, win_h w) else None.
Definition zero_size (w : window) (s : size) : size := if win_ie6 w then Some (0, 0)%Q else s.

(** [loading(append_id,show_id)]; no [append_id] stands for the body. *)
Definition loading (append_id show_id : option jstr) : J G unit :=
  n ← match append_id with
      | Some s => gets (λ w, length (found s w))
      | None => mret 1%nat
      end;
  mod_ui (λ u, with_overlays (u_overlays u ++ repeat None n) u) ;;
  w ← win;
  when (win_ie6 w)
    (mod_ui (λ u, with_overlays (List.map (λ _, cover_size w) (u_overlays u)) u)) ;;
  show (default (js ".load_img") show_id).

(** [del_loading(hide_id)] *)
Definition del_loading (hide_id : option jstr) : J G unit :=
  w ← win;
  when (win_ie6 w)
    (mod_ui (λ u, with_overlays (List.map (zero_size w) (u_overlays u)) u)) ;;
  mod_ui (with_overlays []) ;;
  hide (default (js ".load_img") hide_id).

Definition chkfrm_find : J G unit := loading None None.

(** ** The drop-down list [.select_div] *)

(** [categoryId_fun(id1,tit1,id2,tit2,ho_fun)] *)
Definition categoryId_fun (id1 tit1 id2 tit2 ho_fun : jstr) : J G unit :=
  set_val id1 tit1 ;;
  set_html id2 tit2 ;;
  mod_ui (with_select [] false) ;;
  emit (EvEval ho_fun).

Definition closeSelectDiv : J G unit :=
  mod_ui (with_select [] false) ;;
  unbind_doc (js "mousedown.select").

(** ** The dialog [#msg_bg] *)

Definition centre (room own : Q) : Q := ((room - own) / 2)%Q.

(** [$("#msg_bg").setMaxIndex().show(); $("#msg").css("top",...)] *)
Definition raise_dialog : J G unit :=
  z ← setMaxIndex;
  w ← win;
  b ← measure (js "#msg");
  mod_ui (λ u, with_dialog
    ((λ d, Dialog (dg_html d) true (Some (centre (win_h w) (b_h b))) z (dg_size d))
       <$> u_dialog u) u).

Definition set_dialog_html (h : jstr) : J G unit :=
  mod_ui (λ u, with_dialog
    ((λ d, Dialog h (dg_shown d) (dg_top d) (dg_z d) (dg_size d)) <$> u_dialog u) u).

(** The address with the cache-busting suffix, as [open_msg] and [openPop]
    write it. *)
Definition with_rnd (url : jstr) : J G jstr :=
  now ← gets w_now;
  mret (add_rnd url now).

(** [open_msg(cut,type)]: a [type] loosely equal to 1 shows [cut] itself, any
    other loads it; the dialog is then raised when the answer arrives, by
    [open_msg_loaded]. *)
Definition open_msg (cut : jstr) (type : jval) : J G unit :=
  w ← win;
  mod_ui (λ u, with_dialog (match u_dialog u with
                            | Some d => Some d
                            | None => Some (Dialog [] false None 0 None)
                            end) u) ;;
  when (win_ie6 w) (mod_ui (λ u, with_dialog
    ((λ d, Dialog (dg_html d) (dg_shown d) (dg_top d) (dg_z d) (cover_size w)) <$> u_dialog u) u)) ;;
  if is_num type 1
  then set_dialog_html cut ;; raise_dialog
  else url ← with_rnd cut; emit (EvLoad (js "#msg") url).

Definition open_msg_loaded (answer : jstr) : J G unit :=
  set_dialog_html answer ;; raise_dialog.

Definition close_msg : J G unit := mod_ui (with_dialog None).

Definition reset_msg : J G unit :=
  w ← win;
  b ← measure (js "#msg");
  mod_ui (λ u, with_dialog
    ((λ d, Dialog (dg_html d) (dg_shown d) (Some (centre (win_h w) (b_h b))) (dg_z d) (dg_size d))
       <$> u_dialog u) u).

(** ** The banner [#err_mess] *)

Definition num_Q (n : jnum) : option Q :=
  match n with
  | JInt z => Some (inject_Z z)
  | JFrac m e => Some (m # Z.to_pos (2 ^ (- e)))%Q
  | _ => None
  end.

(** [error_message(mess,bg,top_num,time,url)] *)
Definition error_message (mess bg top_num time url : jval) : J G unit :=
  mod_ui (with_timer None) ;;
  mod_ui (with_banner None) ;;
  let kind := if is_num bg 1 then js "err2" else if is_num bg 10 then js "err10" else js "err1" in
  w ← win;
  b ← measure (js "#err_mess");
  let middle := (centre (win_h w) (b_h b) + win_top w)%Q in
  let top := if gt_num top_num 0 then default middle (num_Q (num_of_val top_num)) else middle in
  let left := (centre (win_w w) (b_w b) + win_left w)%Q in
  z ← setMaxIndex;
  mod_ui (with_banner (Some (Banner (str_of_val mess) kind top left z))) ;;
  if gt_num time 0
  then mod_ui (with_timer (Some (Timer (js "location.assign('" ++ str_of_val url ++ js "')") time)))
  else if is_num bg 10
  then skip
  else mod_ui (with_timer (Some (Timer (js "err_mess_div('#err_mess',800)") (num 2500)))).

(** The calls with fewer arguments. *)
Definition error_text (mess : jstr) (bg : Z) : J G unit :=
  error_message (VStr mess) (num bg) VUndef VUndef VUndef.

(** [del_tab(title,url,type)] *)
Definition checked_ids (l : list elt) : jstr :=
  List.fold_left (λ s e, if e_checked e then s ++ e_val e ++ js "," else s) l [].
Definition del_tab (title url : jstr) (type : jval) : J G bool :=
  l ← elts_of (js "input[name=checkedIds]");
  let checkedIds := checked_ids l in
  (if bool_decide (checkedIds = [])
   then error_text title 1
   else open_msg (if negb (indexOf (js "?") url =? -1)
                  then url ++ js "&checkedIds=" ++ checkedIds
                  else url ++ js "?checkedIds=" ++ checkedIds) type) ;;
  mret false.

(** The handler of [#all_checkbox]. *)
Definition all_checkbox_click : J G unit :=
  c ← checked0 (js "#all_checkbox");
  set_checked (js "input[name='checkedIds']") c ;;
  let rows := js "input[name='checkedIds'].parent().parent('tr')" in
  if c : bool then addClass rows (js "tr_hover") else removeClass rows (js "tr_hover").

(** ** The pop-up box *)

Definition openCover : J G unit :=
  w ← win;
  mod_ui (λ u, with_cover (Some (true, if win_ie6 w then cover_size w
                                       else match u_cover u with Some c => snd c | None => None end)) u).

(** The box is centred in the part of the page in view. *)
Definition centre_pop (boxId : jstr) (w : window) : J G unit :=
  b ← measure boxId;
  set_css boxId (js "left") (Px (centre (win_w w) (b_w b))) ;;
  set_css boxId (js "top") (Px (win_top w + centre (win_h w) (b_h b))%Q) ;;
  show boxId.

(** [openPop(url,obj,boxEle)]; with an address, the box is placed by
    [openPop_loaded], in the window measured before. *)
Definition openPop (url : jval) (obj boxEle : option jstr) : J G unit :=
  let boxId := default (js ".popBox") boxEle in
  openCover ;;
  match obj with
  | Some o => mod_ui (with_inputObj (o ++ js ".parents('tr').find('.add_text')"))
  | None => skip
  end ;;
  w ← win;
  if truthy url
  then u ← with_rnd (str_of_val url);
       enc ← lift (getEncode u);
       emit (EvLoad boxId enc)
  else centre_pop boxId w.

Definition openPop_loaded (boxEle : option jstr) (w : window) (answer : jstr) : J G unit :=
  let boxId := default (js ".popBox") boxEle in
  set_html boxId answer ;;
  centre_pop boxId w.

Definition closeDialog : J G unit :=
  hide (js ".popBox") ;;
  mod_ui (with_cover None).

(** [popTips(boxId,message)] *)
Definition popTips (boxId : jstr) (message : jval) : J G unit :=
  when (truthy message) (set_html (boxId ++ js " .al_center") (str_of_val message)) ;;
  openPop (num 0) None (Some boxId).

(** ** Picking into a field *)

(** The node of a list the user clicks: [data-id] as [attr] and as [data]
    read it, and its text. *)
Record node := Node { n_attr : jstr; n_data : jval; n_text : jstr }.

(** [pickData(obj,inputId)] *)
Definition pickData (obj : node) (inputId : jstr) : J G unit :=
  set_val inputId (n_text obj) ;;
  set_val (inputId ++ js ".next()") (n_attr obj).

Definition reloadSelect (input : jstr) : J G unit :=
  emit (EvClick input) ;; emit (EvClick input).
Definition reloadSearch (input : jstr) : J G unit := emit (EvClick input).

(** [$input[0].style.height] as [parseInt] reads it. *)
Definition style_height (e : elt) : option Q :=
  match e_css e !! js "height" with
  | Some (Px q) => Some (inject_Z (Qfloor q))
  | _ => None
  end.

(** [addItemInput(parentArr,$input)] *)
Definition addItemInput (parentArr : list item) (input : jstr) : J G unit :=
  set_val input (title_text parentArr) ;;
  o ← gets (first input);
  match o with
  | None => throw (js "TypeError")
  | Some e =>
      boxId ← attr input (js "boxId");
      s ← measure (input ++ js "[0].scrollHeight");
      match style_height e with
      | Some h => when (qlt h (b_h s))
                    (set_css input (js "height") (Px (b_h s)) ;; posfix input (field boxId))
      | None => skip
      end ;;
      when (bool_decide (e_val e = []))
        (set_css input (js "height") (Px 28) ;; posfix input (field boxId)) ;;
      set_val (input ++ js ".next()") (id_text parentArr)
  end.

Section subarr.
Context `{!SubArr G}.

(** [$(input).data('subArr')]; using it as an array throws when it is not set. *)
Definition subArr (input : jstr) : J G (list item) :=
  o ← gets (λ w, sub_get input (w_glob w));
  match o with Some l => mret l | None => throw (js "TypeError") end.
Definition set_subArr (input : jstr) (l : list item) : J G unit :=
  mod_glob (sub_set input l).

(** [pickArr(obj,inputId,callFn)] *)
Definition pickArr (obj : node) (inputId : jstr) (callFn : J G unit) : J G unit :=
  parentArr ← subArr inputId;
  let l := filterArr parentArr [n_data obj; VStr (n_text obj)] in
  set_subArr inputId l ;;
  addItemInput l inputId ;;
  callFn.

(** [reduceArr.call(this,e,fn)], the caret being at [caret]; answers whether
    the key was kept from the browser. *)
Definition reduceArr (this : jstr) (keyCode caret : Z) (fn : J G unit) : J G bool :=
  if (keyCode =? 37) || (keyCode =? 38) || (keyCode =? 39) || (keyCode =? 40)
  then mret false
  else
    (if keyCode =? 8
     then l ← subArr this;
          v ← val this;
          let it := getDeleteItem (field v) caret in
          let l' := removeArrItem l (VStr it) in
          set_subArr this l' ;;
          addItemInput l' this ;;
          fn
     else skip) ;;
    mret true.
End subarr.

(** [reloadPersonSum(json,enArr,outArr,targetObj)] *)
Definition show_person_sum (json : list (jstr * list tag)) (enArr outArr : list item)
    (targetObj : jstr) : J G unit :=
  set_html targetObj (str_of_num (reloadPersonSum json enArr outArr)).

(** [getFilePath(obj)]: the path up to the last backslash is taken off. *)
Definition path_re : re := RSeq (RStar true RDot) (RStr [92%N]).
Definition getFilePath (value : jstr) : J G unit :=
  l ← gets (found (js "#file_txt"));
  match l with
  | i :: _ => modify (upd (with_val (replace_one path_re [] value)) [i])
  | [] => throw (js "TypeError")
  end.
End scripts.

(** ** Facts *)

Section facts.
Context {G : Type}.
Implicit Types w : world G.

Lemma posfix_quiet (t b : jstr) : quiet (posfix (G := G) t b).
Proof. unfold posfix, apply_place, measure, win, skip. quiet. Qed.

(** A field and the hidden field next to it. *)
Definition hidden (input : jstr) : jstr := input ++ js ".next()".
Record field_ready (input : jstr) w : Prop := {
  fr_field : single input w;
  fr_hidden : single (hidden input) w;
  fr_apart : apart input (hidden input) w
}.

Lemma field_ready_sel input w w' :
  w_sel w' = w_sel w → (∀ s, single s w → single s w') → field_ready input w → field_ready input w'.
Proof.
  intros Hs Hd [H1 H2 H3]. constructor; [by apply Hd..|].
  intros i. unfold found. rewrite Hs. apply H3.
Qed.

(** The two fields show the array. *)
Definition shows (input : jstr) (l : list item) w : Prop :=
  val_of input w = VStr (title_text l) ∧ val_of (hidden input) w = VStr (id_text l).

Lemma addItemInput_shows l input w :
  field_ready input w →
  ∃ w', addItemInput l input w = (Ok tt, w') ∧ shows input l w' ∧ field_ready input w'
    ∧ w_glob w' = w_glob w.
Proof.
  intros Hr. destruct (set_val_field input (title_text l) w (fr_field _ _ Hr))
    as (w1 & E1 & S1 & G1 & D1 & V1 & _).
  pose proof (field_ready_sel _ _ _ S1 D1 Hr) as Hr1.
  unfold addItemInput. rewrite (bind_ok _ _ _ _ _ E1).
  destruct (fr_field _ _ Hr1) as (i & e & Hf & He).
  set (o := first input w1). assert (o = Some e) as Ho.
  { unfold o, first. rewrite Hf. unfold nth_elt. by rewrite He. }
  rewrite (bind_ok (gets (first input)) _ w1 o w1 eq_refl), Ho.
  match goal with |- context [(attr input ?k ≫= ?f) w1] =>
    assert (∃ w2, (attr input k ≫= f) w1 = set_val (hidden input) (id_text l) w2
              ∧ style_only w1 w2) as (w2 & -> & S2) end.
  { set (boxId := match first input w1 ≫= λ e0, e_attr e0 !! js "boxId" with
                  | Some v => VStr v | None => VUndef end).
    rewrite (bind_ok (attr input (js "boxId")) _ w1 boxId w1 eq_refl).
    set (b := default (Box 0 0 0 0) (w_box w1 !! (input ++ js "[0].scrollHeight"))).
    rewrite (bind_ok (measure _) _ w1 b w1 eq_refl).
    match goal with |- context [(?m ≫= ?f) w1] => assert (quiet m) as Hq1 end.
    { unfold skip, set_css. pose proof (posfix_quiet input). quiet; done. }
    destruct (Hq1 w1) as ([] & w2 & E2 & S2). rewrite (bind_ok _ _ _ _ _ E2).
    match goal with |- context [(?m ≫= ?f) w2] => assert (quiet m) as Hq2 end.
    { unfold set_css. pose proof (posfix_quiet input). quiet; done. }
    destruct (Hq2 w2) as ([] & w3 & E3 & S3). rewrite (bind_ok _ _ _ _ _ E3).
    exists w3. split; [done|]. by eapply style_trans. }
  assert (field_ready input w2) as Hr2.
  { destruct Hr1 as [? ? ?]. constructor.
    - by eapply style_single.
    - by eapply style_single.
    - by eapply style_apart. }
  destruct (set_val_field (hidden input) (id_text l) w2 (fr_hidden _ _ Hr2))
    as (w3 & E3 & S3 & G3 & D3 & V3 & V3').
  exists w3. split; [done|]. repeat split.
  - rewrite V3' by apply (fr_apart _ _ Hr2). by rewrite (style_val _ _ _ S2).
  - done.
  - apply D3, (fr_field _ _ Hr2).
  - apply D3, (fr_hidden _ _ Hr2).
  - intros j. unfold found. rewrite S3. apply (fr_apart _ _ Hr2).
  - rewrite G3, (so_glob _ _ S2). done.
Qed.

Section subarr_facts.
Context `{!SubArr G}.

(** The field shows the array it keeps. *)
Definition synced (input : jstr) (l : list item) w : Prop :=
  field_ready input w ∧ sub_get input (w_glob w) = Some l ∧ shows input l w.

(** Styling keeps the fields, and what they show. *)
#[export] Instance field_ready_proper input : Proper (style_only ==> iff) (field_ready input).
Proof.
  intros w w' St. split; intros [H1 H2 H3]; constructor; first [by rewrite <-St|by rewrite St].
Qed.
#[export] Instance synced_proper input l : Proper (style_only ==> iff) (synced input l).
Proof. intros w w' St. unfold synced, shows. by rewrite St. Qed.

Lemma set_subArr_ok input l0 l w :
  field_ready input w → sub_get input (w_glob w) = Some l0 →
  ∃ w', set_subArr input l w = (Ok tt, w') ∧ field_ready input w'
    ∧ sub_get input (w_glob w') = Some l ∧ w_elt w' = w_elt w ∧ w_sel w' = w_sel w
    ∧ w_glob w' = sub_set input l (w_glob w).
Proof.
  intros [H1 H2 H3] Hs. eexists. split; [reflexivity|]. split; [by constructor|].
  split; [|done]. simpl. apply sub_get_set. by eexists.
Qed.

Lemma refill_synced input l0 l w :
  field_ready input w → sub_get input (w_glob w) = Some l0 →
  ∃ w', (set_subArr input l ;; addItemInput l input) w = (Ok tt, w') ∧ synced input l w'
    ∧ w_glob w' = sub_set input l (w_glob w).
Proof.
  intros Hr Hs. destruct (set_subArr_ok input l0 l w Hr Hs) as (w1 & E1 & R1 & S1 & _ & _ & G1).
  rewrite (bind_ok _ _ _ _ _ E1).
  destruct (addItemInput_shows l input w1 R1) as (w2 & E2 & V2 & R2 & G2).
  exists w2. split; [done|]. split; [|congruence]. split; [done|]. split; [congruence|done].
Qed.

Lemma subArr_ok input l w : sub_get input (w_glob w) = Some l → subArr input w = (Ok l, w).
Proof. intros H. unfold subArr, mbind, J_bind, gets. by rewrite H. Qed.

(** [pickArr] keeps the fields in step with the array. *)
Lemma pickArr_synced obj inputId l w :
  field_ready inputId w → sub_get inputId (w_glob w) = Some l →
  ∃ w', pickArr obj inputId skip w = (Ok tt, w')
    ∧ synced inputId (filterArr l [n_data obj; VStr (n_text obj)]) w'.
Proof.
  intros Hr Hs. unfold pickArr. rewrite (bind_ok _ _ _ _ _ (subArr_ok _ _ _ Hs)).
  destruct (refill_synced inputId l (filterArr l [n_data obj; VStr (n_text obj)]) w Hr Hs)
    as (w' & E & Hsy & _).
  exists w'. split; [|done]. cbv zeta. rewrite <-bind_assoc. by rewrite (bind_ok _ _ _ _ _ E).
Qed.

(** Keys other than backspace leave the array alone. *)
Lemma reduceArr_other_key this code caret (fn : J G unit) w :
  code ≠ 8 → ∃ b, reduceArr this code caret fn w = (Ok b, w).
Proof.
  intros H8. unfold reduceArr. destruct (_ || _); [by exists false|].
  rewrite (proj2 (Z.eqb_neq _ _) H8). by exists true.
Qed.

(** Backspace takes out the item of the title the caret stands in. *)
Lemma reduceArr_takes this l w (ts1 ts2 : list jstr) (t : jstr) caret (fn : J G unit) :
  synced this l w →
  titles l = List.map VStr (ts1 ++ t :: ts2) → NoDup (ts1 ++ t :: ts2) →
  getDeleteItem (title_text l) caret = t →
  let l' := List.filter (λ x, negb (bool_decide (item_title x = VStr t))) l in
  ∃ w1, (set_subArr this l' ;; addItemInput l' this) w = (Ok tt, w1) ∧ synced this l' w1
    ∧ titles l' = List.map VStr (ts1 ++ ts2)
    ∧ reduceArr this 8 caret fn w = (fn ;; mret true) w1.
Proof.
  intros (Hr & Hs & Hv & _) Ht Hn Hg l'.
  destruct (refill_synced this l l' w Hr Hs) as (w1 & E1 & S1 & _).
  exists w1. split; [done|]. split; [done|].
  assert (removeArrItem l (VStr t) = l') as Hl'.
  { apply removeArrItem_spec.
    - rewrite Ht. apply Forall_forall. intros v Hv'. apply list_elem_of_In, in_map_iff in Hv'.
      destruct Hv' as (s & <- & _). by eexists.
    - by eexists.
    - rewrite Ht. change (List.map VStr) with (fmap (M := list) VStr).
      apply NoDup_fmap; [|done]. by intros ? ? [=]. }
  split.
  - unfold l', titles in *. change (fmap (M := list) item_title) with (List.map item_title) in *.
    rewrite map_filter_ne, Ht. by apply filter_title.
  - unfold reduceArr. change (8 =? 37) with false. change (8 =? 38) with false.
    change (8 =? 39) with false. change (8 =? 40) with false. change (8 =? 8) with true.
    cbn [orb]. apply bind_cong. rewrite (bind_ok _ _ _ _ _ (subArr_ok _ _ _ Hs)).
    rewrite (bind_ok (val this) _ w (VStr (title_text l)) w) by (rewrite <-Hv; done).
    cbn [field or_empty]. rewrite Hg. cbv zeta. rewrite Hl'.
    rewrite <-bind_assoc. by rewrite (bind_ok _ _ _ _ _ E1).
Qed.

(** Backspace takes out the item the caret stands in. *)
Lemma reduceArr_backspace this l w (titles1 titles2 : list jstr) (a b : jstr) (fn : J G unit) :
  synced this l w →
  titles l = List.map VStr (titles1 ++ (a ++ b) :: titles2) →
  Forall (sep_free c_comma) titles1 → sep_free c_comma (a ++ b) →
  NoDup (titles1 ++ (a ++ b) :: titles2) →
  ∃ w1 l', (set_subArr this l' ;; addItemInput l' this) w = (Ok tt, w1) ∧ synced this l' w1
    ∧ titles l' = List.map VStr (titles1 ++ titles2) ∧ sublist l' l
    ∧ reduceArr this 8 (Z.of_nat (length (before_text titles1 ++ a))) fn w
      = (fn ;; mret true) w1.
Proof.
  intros Hs Ht Hf Hab Hn.
  destruct (reduceArr_takes this l w titles1 titles2 (a ++ b)
              (Z.of_nat (length (before_text titles1 ++ a))) fn Hs Ht Hn) as (w1 & E & S & T & R).
  { rewrite (title_text_str _ _ Ht). by apply getDeleteItem_at. }
  exists w1. eexists. split; [exact E|]. split; [exact S|]. split; [exact T|].
  split; [apply filter_keeps_sublist|exact R].
Qed.
End subarr_facts.
End facts.

Lemma error_message_ok {G} mess bg top_num time url (w : world G) :
  ∃ w', error_message mess bg top_num time url w = (Ok tt, w') ∧ w_sel w' = w_sel w ∧ w_glob w' = w_glob w.
Proof.
  unfold error_message, setMaxIndex, measure, win. jrun.
  destruct (gt_num time 0); [|destruct (is_num bg 10)]; by eexists.
Qed.

(** *** Widgets leave the fields and the variables of the page alone *)

Section widgets.
Context {G : Type}.

Lemma setMaxIndex_inert : inert (setMaxIndex (G := G)).
Proof. unfold setMaxIndex. inert. Qed.
Lemma loading_inert a b : inert (loading (G := G) a b).
Proof. unfold loading. inert. Qed.
Lemma del_loading_inert a : inert (del_loading (G := G) a).
Proof. unfold del_loading. inert. Qed.
Lemma closeDialog_inert : inert (closeDialog (G := G)).
Proof. unfold closeDialog. inert. Qed.
Lemma error_message_inert a b c d e : inert (error_message (G := G) a b c d e).
Proof.
  intros w. destruct (error_message_ok a b c d e w) as (w' & E & S & Gl). by exists tt, w'.
Qed.
Lemma openPop_local_inert obj box : inert (openPop (G := G) (num 0) obj box).
Proof.
  unfold openPop, openCover, centre_pop. change (truthy (num 0)) with false. inert.
Qed.
Lemma popTips_inert box m : inert (popTips (G := G) box m).
Proof.
  unfold popTips. apply inert_bind; [|intros; apply openPop_local_inert]. inert.
Qed.
End widgets.

(** *** Layers *)

Section layers.
Context {G : Type}.
Implicit Types w : world G.

(** The next layer number is above every layer on the page. *)
Definition z_next (u : ui) : Z := match u_zmax u with Some z => z | None => 10000000 end.
Definition layers (u : ui) : list Z :=
  (match u_banner u with Some b => [bn_z b] | None => [] end)
  ++ (match u_dialog u with Some d => [dg_z d] | None => [] end).
Definition z_ok (u : ui) : Prop := Forall (λ z, z < z_next u) (layers u).

Lemma error_message_runs mess bg top_num time url w :
  ∃ w', error_message mess bg top_num time url w = (Ok tt, w')
    ∧ w_elt w' = w_elt w ∧ w_ev w' = w_ev w ∧ w_glob w' = w_glob w
    ∧ u_dialog (w_ui w') = u_dialog (w_ui w)
    ∧ u_select_id (w_ui w') = u_select_id (w_ui w)
    ∧ u_select_shown (w_ui w') = u_select_shown (w_ui w)
    ∧ z_next (w_ui w') = z_next (w_ui w) + 1
    ∧ (∃ b, u_banner (w_ui w') = Some b ∧ bn_z b = z_next (w_ui w) ∧ bn_text b = str_of_val mess
         ∧ bn_kind b = if is_num bg 1 then js "err2" else if is_num bg 10 then js "err10" else js "err1")
    ∧ u_timer (w_ui w') =
        (if gt_num time 0
         then Some (Timer (js "location.assign('" ++ str_of_val url ++ js "')") time)
         else if is_num bg 10 then None
         else Some (Timer (js "err_mess_div('#err_mess',800)") (num 2500))).
Proof.
  unfold error_message, setMaxIndex, measure, win. jrun.
  destruct (gt_num time 0); [|destruct (is_num bg 10)]; eexists; (split; [reflexivity|]);
    unfold z_next; simpl; destruct (u_zmax (w_ui w)); repeat split; eexists; by repeat split.
Qed.

(** Whatever message is shown, over whatever dialog, the script runs to the
    end, the banner lies above the dialog, and the next layer is above both. *)
Lemma error_message_on_top mess bg top_num time url w :
  z_ok (w_ui w) →
  ∃ w' b, error_message mess bg top_num time url w = (Ok tt, w') ∧
    u_banner (w_ui w') = Some b ∧
    (∀ d, u_dialog (w_ui w') = Some d → dg_z d < bn_z b) ∧ z_ok (w_ui w').
Proof.
  intros Hz. destruct (error_message_runs mess bg top_num time url w)
    as (w1 & E1 & _ & _ & _ & Hd & _ & _ & Hn & (b & Hb & Hbz & _) & _).
  assert (∀ d, u_dialog (w_ui w1) = Some d → dg_z d < bn_z b) as Hlt.
  { intros d Hd'. rewrite Hbz. unfold z_ok, layers in Hz. rewrite <-Hd, Hd' in Hz.
    apply Forall_app in Hz as [_ Hz]. by inversion Hz. }
  exists w1, b. do 3 (split; [done|]).
  unfold z_ok, layers. rewrite Hb, Hn, Hbz. cbn [app]. constructor; [lia|].
  destruct (u_dialog (w_ui w1)) as [d|]; constructor; [|done].
  specialize (Hlt d eq_refl). lia.
Qed.

(** *** Selecting and deleting rows *)

Lemma checked_ids_all l :
  Forall (λ e, e_checked e = true) l →
  checked_ids l = List.flat_map (λ e, e_val e ++ js ",") l.
Proof.
  unfold checked_ids. change (List.flat_map ?f l) with ([] ++ List.flat_map f l).
  generalize (@nil N) as s. intros s H. revert s.
  induction H as [|e l He _ IH]; intros s; [by rewrite app_nil_r|].
  cbn [List.fold_left List.flat_map]. rewrite He, IH. by rewrite <-!app_assoc.
Qed.

Lemma checked_ids_none l :
  Forall (λ e, e_checked e = false) l → checked_ids l = [].
Proof.
  unfold checked_ids. induction 1 as [|e l He _ IH]; [done|].
  cbn [List.fold_left]. by rewrite He.
Qed.
End layers.

(** ** Properties *)

(** Picking an item keeps the array well formed, puts the item at its end, and
    the two fields show the array. *)
Theorem pickArr_ok {G} `{!SubArr G} (K : jval → Prop) `{!Keyed K} obj inputId l (w : world G) :
  field_ready inputId w → sub_get inputId (w_glob w) = Some l → wf K l → K (n_data obj) →
  let l' := filterArr l [n_data obj; VStr (n_text obj)] in
  ∃ w', pickArr obj inputId skip w = (Ok tt, w') ∧ synced inputId l' w' ∧ wf K l'
    ∧ ids l' = List.filter (λ u, negb (bool_decide (u = n_data obj))) (ids l) ++ [n_data obj].
Proof.
  intros Hr Hs Hl Hk l'. destruct (pickArr_synced obj inputId l w Hr Hs) as (w' & E & S).
  exists w'. split; [done|]. split; [done|]. split; [by apply filterArr_wf|]. by apply (filterArr_ids K).
Qed.

(** A page with one field that keeps an array. *)
Definition demo_get (k : jstr) (g : list item) : option (list item) := Some g.
Definition demo_set (k : jstr) (l g : list item) : list item := l.
Lemma demo_get_set k l g : is_Some (demo_get k g) → demo_get k (demo_set k l g) = Some l.
Proof. done. Qed.
#[local] Instance demo_sub : SubArr (list item) := {
  sub_get := demo_get; sub_set := demo_set; sub_get_set := demo_get_set
}.
Definition demo_base : world (list item) :=
  page_with [(js "#tag", with_val (js "A, B") blank); (hidden (js "#tag"), with_val (js "a,b") blank)]
    [[VStr (js "a"); VStr (js "A")]; [VStr (js "b"); VStr (js "B")]].

Lemma pickArr_ok_witness :
  ∃ w', pickArr (Node (js "a") (VStr (js "a")) (js "A2")) (js "#tag") skip demo_base = (Ok tt, w')
    ∧ shows (js "#tag") [[VStr (js "b"); VStr (js "B")]; [VStr (js "a"); VStr (js "A2")]] w'.
Proof.
  destruct (pickArr_ok data_id (Node (js "a") (VStr (js "a")) (js "A2")) (js "#tag") (w_glob demo_base) demo_base) as (w' & E & S & _).
  - constructor; on_page.
  - reflexivity.
  - split; repeat constructor; not_in.
  - reflexivity.
  - exists w'. split; [exact E|]. apply S.
Defined.

Lemma reduceArr_backspace_witness :
  ∃ l', reduceArr (js "#tag") 8 4 skip demo_base = (Ok true, l')
    ∧ shows (js "#tag") [[VStr (js "a"); VStr (js "A")]] l'.
Proof.
  destruct (reduceArr_backspace (js "#tag") (w_glob demo_base) demo_base [js "A"] [] (js "B") [] skip)
    as (w1 & l' & E & (_ & S & _) & T & _ & R).
  - split; [constructor; on_page|]. split; [reflexivity|]. split; on_page.
  - reflexivity.
  - constructor; [unfold sep_free; not_in|constructor].
  - unfold sep_free; not_in.
  - repeat constructor; not_in.
  - exists w1. split; [exact R|]. vm_compute in R. injection R as <-. split; vm_compute; reflexivity.
Defined.

Lemma error_message_on_top_witness :
  let w := set_ui (with_dialog (Some (Dialog [] true None 10000000 None)) (with_zmax (Some 10000001) (w_ui demo_base))) demo_base in
  z_ok (w_ui w) ∧ ∃ w' b, error_text (js "x") 1 w = (Ok tt, w') ∧ u_banner (w_ui w') = Some b ∧ 10000000 < bn_z b.
Proof.
  intros w. assert (z_ok (w_ui w)) as H by (repeat constructor; lia). split; [exact H|].
  destruct (error_message_on_top (VStr (js "x")) (num 1) VUndef VUndef VUndef w H)
    as (w' & b & E & B & L & _).
  exists w', b. split; [exact E|]. split; [exact B|].
  apply (L (Dialog [] true None 10000000 None)).
  destruct (error_message_runs (VStr (js "x")) (num 1) VUndef VUndef VUndef w) as (w1 & E1 & _ & _ & _ & D & _).
  unfold error_text in E. assert (w' = w1) as -> by congruence. rewrite D. reflexivity.
Defined.
