(* ===== verification/Controls.v ===== *)
(** * The controls of a form, read as one function

    A form is a finite set of controls, each found by a selector of its own.
    What a script may read of a control is its value and whether it is disabled
    or ticked ([look]); [reads v w] says that the page [w] shows the vector [v].
    A script that sets controls is then the update of a function, and a script
    that only styles the page leaves the vector as it is: the lemmas below give
    the primitives of [Page] and the field operations of [base.js] that meaning,
    so that a session on a form is followed by rewriting vectors. *)

From stdpp Require Import functions.
From S2P Require Import Prelude Js JsFacts Page Layout TagList Url Base.
#[local] Open Scope Z_scope.

(** What a script reads of a control. *)
Record look := Look { l_val : jstr; l_dis : bool; l_chk : bool }.
Definition look_of (e : elt) : look := Look (e_val e) (e_disabled e) (e_checked e).

Definition put_val (x : jstr) (k : look) : look := Look x (l_dis k) (l_chk k).
Definition put_dis (b : bool) (k : look) : look := Look (l_val k) b (l_chk k).
Definition put_chk (b : bool) (k : look) : look := Look (l_val k) (l_dis k) b.

Section controls.
Context {ctl : Type} `{EqDecision ctl} (sel_of : ctl → jstr) {G : Type}.
Implicit Types (w : world G) (v : ctl → look) (c d : ctl).

(** One control of the vector changed. *)
Definition at_ctl c (g : look → look) v : ctl → look := <[c := g (v c)]> v.

Lemma at_ctl_eq c g v : at_ctl c g v c = g (v c).
Proof. apply fn_lookup_insert. Qed.
Lemma at_ctl_ne c d g v : c ≠ d → at_ctl c g v d = v d.
Proof. apply fn_lookup_insert_ne. Qed.

(** Each control is one element of the page, and no other control's. *)
Record page_ok w : Prop := {
  po_single : ∀ c, single (sel_of c) w;
  po_apart : ∀ c d, c ≠ d → apart (sel_of c) (sel_of d) w
}.
Record reads v w : Prop := {
  rd_page : page_ok w;
  rd_look : ∀ c, look_of <$> first (sel_of c) w = Some (v c)
}.

Lemma reads_val v w c : reads v w → val_of (sel_of c) w = VStr (l_val (v c)).
Proof.
  intros [_ H]. specialize (H c). unfold val_of. destruct (first (sel_of c) w); [|done].
  by injection H as <-.
Qed.
Lemma reads_dis v w c : reads v w → dis_of (sel_of c) w = Some (l_dis (v c)).
Proof.
  intros [_ H]. specialize (H c). unfold dis_of. destruct (first (sel_of c) w); [|done].
  by injection H as <-.
Qed.
Lemma reads_checked v w c : reads v w → checked_of (sel_of c) w = Some (l_chk (v c)).
Proof.
  intros [_ H]. specialize (H c). unfold checked_of. destruct (first (sel_of c) w); [|done].
  by injection H as <-.
Qed.

Lemma val_reads v w c : reads v w → val (sel_of c) w = (Ok (VStr (l_val (v c))), w).
Proof. intros H. rewrite <-(reads_val v w c H). done. Qed.
Lemma checked0_reads v w c : reads v w → checked0 (sel_of c) w = (Ok (l_chk (v c)), w).
Proof. intros H. apply checked0_of. by apply reads_checked. Qed.

(** *** Scripts *)

Lemma page_ok_frame {B} (pi : elt → B) w w' : frame_step pi w w' → page_ok w → page_ok w'.
Proof.
  intros F [S A]. constructor.
  - intros c. eapply frame_single; [exact F|apply S].
  - intros c d H. eapply frame_apart; [exact F|by apply A].
Qed.

(** A script that leaves the looks alone. *)
Lemma frame_reads v w w' : frame_step look_of w w' → reads v w → reads v w'.
Proof.
  intros F [P L]. constructor; [by eapply page_ok_frame|].
  intros c. rewrite (frame_first look_of (sel_of c) _ _ F). apply L.
Qed.

(** A setter of one control. *)
Lemma on_reads c (f : elt → elt) (g : look → look) v w :
  (∀ e, look_of (f e) = g (look_of e)) → reads v w →
  reads (at_ctl c g v) (upd f (found (sel_of c) w) w).
Proof.
  intros Hf [[S A] L]. constructor.
  - constructor; [intros d; by apply upd_single|exact A].
  - intros d. destruct (decide (c = d)) as [<-|H].
    + rewrite at_ctl_eq, on_first by apply S. specialize (L c).
      destruct (first (sel_of c) w) as [e|]; [|done]. injection L as L. cbn. by rewrite Hf, L.
    + rewrite at_ctl_ne by done. rewrite first_upd_ne; [apply L|]. apply A. congruence.
Qed.

Lemma set_val_reads c x v w :
  reads v w → ∃ w', set_val (sel_of c) x w = (Ok tt, w')
    ∧ reads (at_ctl c (put_val x) v) w' ∧ w_glob w' = w_glob w ∧ w_sel w' = w_sel w.
Proof. intros H. eexists. split; [reflexivity|]. split; [by apply on_reads|done]. Qed.
Lemma set_disabled_reads c b v w :
  reads v w → ∃ w', set_disabled (sel_of c) b w = (Ok tt, w')
    ∧ reads (at_ctl c (put_dis b) v) w' ∧ w_glob w' = w_glob w ∧ w_sel w' = w_sel w.
Proof. intros H. eexists. split; [reflexivity|]. split; [by apply on_reads|done]. Qed.

(** A script that runs to the end and only styles. *)
Definition calm {A} (m : J G A) : Prop :=
  ∀ w, ∃ a w', m w = (Ok a, w') ∧ frame_step look_of w w' ∧ w_glob w' = w_glob w.

Lemma calm_of {A} (m : J G A) : quiet m → frames look_of m → calm m.
Proof.
  intros Hq Hf w. destruct (Hq w) as (a & w' & E & S). exists a, w'. split; [done|].
  split; [by eapply frame_of|]. apply (so_glob _ _ S).
Qed.
Lemma calm_reads {A} (m : J G A) v w :
  calm m → reads v w → ∃ a w', m w = (Ok a, w') ∧ reads v w' ∧ w_glob w' = w_glob w ∧ w_sel w' = w_sel w.
Proof.
  intros Hm H. destruct (Hm w) as (a & w' & E & F & Hg). exists a, w'. split; [done|].
  split; [by eapply frame_reads|]. split; [done|]. apply (fs_sel _ _ _ F).
Qed.
Lemma calm_ret {A} (a : A) : calm (mret a).
Proof. intros w. exists a, w. split; [done|]. by split. Qed.
Lemma calm_bind {A B} (m : J G A) (f : A → J G B) : calm m → (∀ a, calm (f a)) → calm (m ≫= f).
Proof.
  intros Hm Hf w. destruct (Hm w) as (a & w1 & E1 & F1 & G1).
  destruct (Hf a w1) as (b & w2 & E2 & F2 & G2). exists b, w2.
  rewrite (bind_ok _ _ _ _ _ E1). split; [done|]. split; [by eapply frame_trans|congruence].
Qed.
Lemma calm_on sel (f : elt → elt) : (∀ e, look_of (f e) = look_of e) → calm (on sel f).
Proof.
  intros Hf w. eexists tt, _. split; [reflexivity|]. split; [|done].
  by apply (frames_on look_of sel f Hf w).
Qed.
Lemma calm_when b (m : J G unit) : calm m → calm (when b m).
Proof. intros H. destruct b; [done|apply calm_ret]. Qed.

Lemma posfix_calm (t b : jstr) : calm (posfix t b).
Proof.
  apply calm_of; [apply posfix_quiet|]. unfold posfix, apply_place. frames.
Qed.

Lemma error_text_calm m bg : calm (error_text m bg).
Proof.
  intros w. destruct (error_message_runs (VStr m) (num bg) VUndef VUndef VUndef w)
    as (w' & E & He & _ & Hg & _). exists tt, w'. split; [exact E|]. split; [|done].
  assert (w_sel w' = w_sel w) as Hs.
  { assert (frames look_of (error_message (G := G) (VStr m) (num bg) VUndef VUndef VUndef)) as Hf.
    { unfold error_message, setMaxIndex. frames. }
    apply (fs_sel _ _ _ (frame_of look_of _ _ _ _ Hf E)). }
  constructor; [done|..]; intros i; unfold nth_elt; by rewrite He.
Qed.

(** The two fields of an array. *)
Lemma addItemInput_reads c d l v w :
  sel_of d = hidden (sel_of c) → c ≠ d → reads v w →
  ∃ w', addItemInput l (sel_of c) w = (Ok tt, w')
    ∧ reads (at_ctl d (put_val (id_text l)) (at_ctl c (put_val (title_text l)) v)) w'
    ∧ w_glob w' = w_glob w ∧ w_sel w' = w_sel w.
Proof.
  intros Hd Hcd H. unfold addItemInput.
  destruct (set_val_reads c (title_text l) v w H) as (w1 & E1 & R1 & G1 & S1).
  rewrite (bind_ok _ _ _ _ _ E1).
  destruct (single_first _ _ (po_single _ (rd_page _ _ R1) c)) as [e He].
  rewrite (bind_ok (gets (first (sel_of c))) _ w1 (Some e) w1) by (unfold gets; by rewrite He).
  cbv iota.
  match goal with |- context [(attr (sel_of c) ?k ≫= ?f) w1] =>
    destruct (calm_reads (attr (sel_of c) k) _ w1 (calm_of _ (quiet_gets _) (frames_gets _ _)) R1)
      as (b & w2 & E2 & R2 & G2 & S2); rewrite (bind_ok _ _ _ _ _ E2) end.
  match goal with |- context [(measure ?k ≫= ?f) w2] =>
    destruct (calm_reads (measure k) _ w2 (calm_of _ (quiet_gets _) (frames_gets _ _)) R2)
      as (s & w3 & E3 & R3 & G3 & S3); rewrite (bind_ok _ _ _ _ _ E3) end.
  pose proof (λ k, calm_on (sel_of c) (with_css (js "height") k) (λ e, eq_refl)) as Hcss.
  match goal with |- context [(?m ≫= ?f) w3] =>
    assert (calm m) as Hm4 end.
  { case_match; [|apply calm_ret]. apply calm_when, calm_bind; [apply Hcss|]. intros. apply posfix_calm. }
  destruct (calm_reads _ _ _ Hm4 R3) as ([] & w4 & E4 & R4 & G4 & S4). rewrite (bind_ok _ _ _ _ _ E4).
  match goal with |- context [(?m ≫= ?f) w4] => assert (calm m) as Hm5 end.
  { apply calm_when, calm_bind; [apply Hcss|]. intros. apply posfix_calm. }
  destruct (calm_reads _ _ _ Hm5 R4) as ([] & w5 & E5 & R5 & G5 & S5). rewrite (bind_ok _ _ _ _ _ E5).
  fold (hidden (sel_of c)). rewrite <-Hd.
  destruct (set_val_reads d (id_text l) _ w5 R5) as (w6 & E6 & R6 & G6 & S6).
  exists w6. split; [done|]. split; [done|]. split; congruence.
Qed.

Context `{!SubArr G}.

(** The array and its two fields. *)
Lemma refill_reads c d l0 l v w :
  sel_of d = hidden (sel_of c) → c ≠ d → reads v w → sub_get (sel_of c) (w_glob w) = Some l0 →
  ∃ w', (set_subArr (sel_of c) l ;; addItemInput l (sel_of c)) w = (Ok tt, w')
    ∧ reads (at_ctl d (put_val (id_text l)) (at_ctl c (put_val (title_text l)) v)) w'
    ∧ w_glob w' = sub_set (sel_of c) l (w_glob w) ∧ w_sel w' = w_sel w.
Proof.
  intros Hd Hcd H Hs. set (w1 := set_glob (sub_set (sel_of c) l (w_glob w)) w).
  rewrite (bind_ok (set_subArr (sel_of c) l) _ w tt w1 eq_refl).
  destruct (addItemInput_reads c d l v w1) as (w' & E & R & Hg & S); [done|done| |].
  { eapply (frame_reads v w w1); [by constructor|done]. }
  exists w'. split; [done|]. split; [done|]. by rewrite Hg, S.
Qed.

(** Backspace in the field of an array, whatever the field shows. *)
Lemma reduceArr_reads c d l v w caret (fn : J G unit) :
  sel_of d = hidden (sel_of c) → c ≠ d → reads v w → sub_get (sel_of c) (w_glob w) = Some l →
  let l' := erase l (l_val (v c)) caret in
  ∃ w', reduceArr (sel_of c) 8 caret fn w = (fn ;; mret true) w'
    ∧ reads (at_ctl d (put_val (id_text l')) (at_ctl c (put_val (title_text l')) v)) w'
    ∧ w_glob w' = sub_set (sel_of c) l' (w_glob w) ∧ w_sel w' = w_sel w.
Proof.
  intros Hd Hcd H Hs l'.
  destruct (refill_reads c d l l' v w Hd Hcd H Hs) as (w1 & E1 & R1 & G1 & S1).
  exists w1. split; [|done]. unfold reduceArr. cbn [Z.eqb Pos.eqb orb]. apply bind_cong.
  rewrite (bind_ok _ _ _ _ _ (subArr_ok _ _ _ Hs)).
  rewrite (bind_ok _ _ _ _ _ (val_reads v w c H)). cbn [field or_empty]. cbv zeta. fold (erase l (l_val (v c)) caret) l'.
  rewrite <-bind_assoc. by rewrite (bind_ok _ _ _ _ _ E1).
Qed.
End controls.
