(* ===== verification/Picker.v ===== *)
(** * A field of picked items as an abstract ordered set

    The array behind a field, its two texts and the caret implement one
    abstract object: an ordered set of positions of the catalogue the page
    offers.  Picking an item moves it to the end of the set; backspace deletes
    the item whose slot of the text holds the caret.  [picker_refines] is the
    simulation, for any session of picks and keys. *)

From S2P Require Import Prelude Js JsFacts Page Layout TagList Url Base.
#[local] Open Scope Z_scope.

(** ** The abstract object *)

(** What the user does: picks the item at a position of the catalogue, or
    presses a key; the browser keeps the caret inside the text. *)
Inductive pick_event := Pick (i : nat) | Key (code : Z) (caret : nat).

(** The title whose slot holds the caret: a slot is a title with the space in
    front of it, the comma belonging to the slot it ends. *)
Fixpoint slot (ts : list jstr) (c : nat) : option nat :=
  match ts with
  | [] => None
  | t :: ts' => if (c <=? length t)%nat then Some 0%nat else S <$> slot ts' (c - length t - 2)
  end.

(** The ordered set: positions of the catalogue, the last picked at the end. *)
Definition abs_pick (i : nat) (s : list nat) : list nat :=
  List.filter (λ j, negb (bool_decide (j = i))) s ++ [i].
Definition abs_erase (ts : list jstr) (c : nat) (s : list nat) : list nat :=
  match slot ts c with Some k => delete k s | None => s end.
Definition is_arrow (code : Z) : bool := (37 <=? code) && (code <=? 40).

Section session.
Context {G : Type} `{!SubArr G} (K : jval → Prop) `{!Keyed K} (cat : list node) (input : jstr).

Definition title_at (i : nat) : jstr := match cat !! i with Some o => n_text o | None => [] end.
Definition entry_at (i : nat) : item :=
  match cat !! i with Some o => [n_data o; VStr (n_text o)] | None => [] end.

Definition abs_step (s : list nat) (e : pick_event) : list nat :=
  match e with
  | Pick i => if (i <? length cat)%nat then abs_pick i s else s
  | Key code caret =>
      let ts := List.map title_at s in
      if code =? 8 then abs_erase ts (caret `min` length (join (js ", ") ts)) s else s
  end.
Definition abs_run (s : list nat) (l : list pick_event) : list nat := List.fold_left abs_step l s.

(** ** The scripts *)

Definition pick_step (e : pick_event) : J G unit :=
  match e with
  | Pick i => match cat !! i with Some o => pickArr o input skip | None => skip end
  | Key code caret =>
      v ← val input;
      _ ← reduceArr input code (Z.of_nat (caret `min` length (field v))) skip;
      skip
  end.

(** ** Slots *)

Lemma slot_split ts c k :
  slot ts c = Some k →
  ∃ ts1 t ts2, ts = ts1 ++ t :: ts2 ∧ length ts1 = k ∧
    ((∃ a b, t = a ++ b ∧ c = length (before_text ts1 ++ a))
     ∨ (ts1 ≠ [] ∧ S c = length (before_text ts1))).
Proof.
  revert c k. induction ts as [|t ts IH]; intros c k; [done|]. cbn [slot].
  destruct (Nat.leb_spec c (length t)) as [Hc|Hc].
  - intros [= <-]. exists [], t, ts. split; [done|]. split; [done|]. left.
    exists (take c t), (drop c t). rewrite take_drop. split; [done|].
    cbn [before_text]. rewrite length_app, length_take. simpl. lia.
  - destruct (slot ts _) as [k'|] eqn:E; [|done]. intros [= <-].
    assert (Hlen : ∀ ts1, length (before_text (t :: ts1)) = (length t + 2 + length (before_text ts1))%nat).
    { intros ts1. unfold before_text. cbn [List.map concat]. rewrite !length_app. done. }
    destruct (decide (c = S (length t))) as [->|Hne].
    + destruct ts as [|u ts]; [done|].
      replace (S (length t) - length t - 2)%nat with 0%nat in E by lia. cbn in E.
      injection E as <-. exists [t], u, ts. split; [done|]. split; [done|]. right.
      split; [done|]. rewrite Hlen. cbn. lia.
    + destruct (IH _ _ E) as (ts1 & u & ts2 & -> & <- & H). exists (t :: ts1), u, ts2.
      split; [done|]. split; [done|]. destruct H as [(a & b & -> & Hab)|[Hn H]].
      * left. exists a, b. split; [done|]. rewrite length_app, Hlen. rewrite length_app in Hab. lia.
      * right. split; [done|]. rewrite Hlen. lia.
Qed.

Lemma slot_total ts c :
  ts ≠ [] → (c ≤ length (join (js ", ") ts))%nat → is_Some (slot ts c).
Proof.
  revert c. induction ts as [|t ts IH]; intros c Hn Hc; [done|]. cbn [slot].
  destruct (Nat.leb_spec c (length t)); [by eexists|].
  destruct ts as [|u ts]; [cbn in Hc; lia|].
  assert (length (join (js ", ") (t :: u :: ts)) = (length t + 2 + length (join (js ", ") (u :: ts)))%nat) as E.
  { change (join (js ", ") (t :: u :: ts)) with (t ++ js ", " ++ join (js ", ") (u :: ts)).
    rewrite !length_app. change (length (js ", ")) with 2%nat. lia. }
  destruct (IH (c - length t - 2)%nat) as [k ->]; [done|lia|by eexists].
Qed.

(** Backspace right after a comma deletes the item behind it. *)
Lemma getDeleteItem_after_comma ts t us :
  ts ≠ [] → sep_free c_comma t →
  getDeleteItem (join (js ", ") (ts ++ t :: us)) (Z.of_nat (length (before_text ts)) - 1) = t.
Proof.
  intros Hn Ht. rewrite join_middle.
  destruct (before_text_last ts) as [Hb|[pre ->]].
  { destruct ts as [|u ts]; [done|]. unfold before_text in Hb. cbn [List.map concat] in Hb.
    destruct u; discriminate Hb. }
  set (rest := match us with [] => [] | _ => _ end).
  assert (rest = [] ∨ ∃ r, rest = c_comma :: r) as Hrest by (destruct us; [by left|right; by eexists]).
  clearbody rest.
  replace ((pre ++ js ", ") ++ t ++ rest) with ((pre ++ [c_comma]) ++ (32%N :: t) ++ rest)
    by (rewrite <-!app_assoc; done).
  replace (Z.of_nat (length (pre ++ js ", ")) - 1) with (Z.of_nat (length (pre ++ [c_comma])))
    by (rewrite !length_app; change (length (js ", ")) with 2%nat; cbn [length]; lia).
  unfold getDeleteItem. rewrite substr_prefix, substr_from_suffix.
  assert (sep_free c_comma (32%N :: t)) as Hs by (apply not_elem_of_cons; done).
  pose proof (right_of_caret (32%N :: t) rest Hs Hrest) as Hright.
  assert (contains [c_comma] (pre ++ [c_comma]) = true) as ->
    by (apply contains_char, elem_of_app; right; constructor).
  cbn [negb]. unfold lastIndexOf. rewrite find_char_last_app by apply not_elem_of_nil.
  rewrite substr_from_suffix.
  assert (replace (js ", ") [] ([c_comma] ++ 32%N :: t) = t) as Hr by apply (replace_separator t).
  destruct (negb (contains [c_comma] ((32%N :: t) ++ rest))); by rewrite Hright.
Qed.

Lemma getDeleteItem_slot ts c k :
  Forall (sep_free c_comma) ts → slot ts c = Some k →
  ∃ ts1 t ts2, ts = ts1 ++ t :: ts2 ∧ length ts1 = k
    ∧ getDeleteItem (join (js ", ") ts) (Z.of_nat c) = t.
Proof.
  intros Hf Hk. destruct (slot_split _ _ _ Hk) as (ts1 & t & ts2 & -> & Hl & H).
  exists ts1, t, ts2. split; [done|]. split; [done|].
  apply Forall_app in Hf as [Hf1 Hf2]. inversion Hf2; subst.
  destruct H as [(a & b & -> & ->)|[Hn Hc]].
  - by apply getDeleteItem_at.
  - replace (Z.of_nat c) with (Z.of_nat (length (before_text ts1)) - 1) by lia.
    by apply getDeleteItem_after_comma.
Qed.

(** ** The catalogue *)

(** The items of a page: different ids of one kind, different titles without a
    comma. *)
Record catalogue_ok : Prop := {
  co_keys : Forall K (List.map n_data cat);
  co_ids : NoDup (List.map n_data cat);
  co_titles : NoDup (List.map n_text cat);
  co_commas : Forall (sep_free c_comma) (List.map n_text cat)
}.

(** The array, its fields and the abstract set say the same. *)
Record picks (s : list nat) (w : world G) : Prop := {
  pk_synced : synced input (List.map entry_at s) w;
  pk_nodup : NoDup s;
  pk_known : Forall (λ i, i < length cat)%nat s
}.

Lemma known_node i : (i < length cat)%nat → ∃ o, cat !! i = Some o ∧ entry_at i = [n_data o; VStr (n_text o)] ∧ title_at i = n_text o.
Proof.
  intros Hi. destruct (lookup_lt_is_Some_2 cat i Hi) as [o Ho]. exists o.
  unfold entry_at, title_at. by rewrite Ho.
Qed.

Lemma same_id i j oi oj :
  catalogue_ok → cat !! i = Some oi → cat !! j = Some oj →
  loose_eq (n_data oi) (n_data oj) = bool_decide (i = j).
Proof.
  intros Hc Hi Hj. pose proof (co_keys Hc) as Hk. rewrite Forall_map, Forall_lookup in Hk.
  rewrite keyed by eauto. apply bool_decide_ext. split; [|naive_solver]. intros E.
  eapply (NoDup_lookup (List.map n_data cat)); [apply (co_ids Hc)|..];
    change (List.map n_data cat) with (n_data <$> cat); rewrite list_lookup_fmap.
  - by rewrite Hi.
  - by rewrite Hj, E.
Qed.

Lemma filterArr_entries s i :
  catalogue_ok → Forall (λ i, i < length cat)%nat s → NoDup s → (i < length cat)%nat →
  filterArr (List.map entry_at s) (entry_at i) = List.map entry_at (abs_pick i s).
Proof.
  intros Hc Hs Hn Hi. destruct (known_node i Hi) as (oi & Ei & Ee & _).
  rewrite filterArr_spec. unfold abs_pick. rewrite List.map_app. f_equal.
  rewrite Ee. cbn [item_id at_ nth].
  induction s as [|j s IH]; [done|]. inversion Hs as [|? ? Hj Hs']; subst.
  apply NoDup_cons in Hn as [Hjs Hn]. destruct (known_node j Hj) as (oj & Ej & Eej & _).
  cbn [List.map remove_first List.filter]. rewrite Eej. cbn [item_id at_ nth].
  rewrite (same_id j i oj oi Hc Ej Ei). case_bool_decide as Hji; cbn [negb].
  - subst j. f_equal. clear -Hjs. induction s as [|k s IH]; [done|].
    apply not_elem_of_cons in Hjs as [Hk Hjs]. simpl. rewrite bool_decide_eq_false_2 by done.
    simpl. f_equal. by apply IH.
  - cbn [List.map]. rewrite Eej. f_equal. by apply IH.
Qed.

Lemma titles_entries s :
  Forall (λ i, i < length cat)%nat s →
  titles (List.map entry_at s) = List.map VStr (List.map title_at s).
Proof.
  induction 1 as [|i s Hi _ IH]; [done|]. destruct (known_node i Hi) as (o & _ & E & T).
  unfold titles in *. cbn [List.map]. rewrite fmap_cons, IH, E, T. done.
Qed.

Lemma titles_known s :
  catalogue_ok → Forall (λ i, i < length cat)%nat s → NoDup s →
  NoDup (List.map title_at s) ∧ Forall (sep_free c_comma) (List.map title_at s).
Proof.
  intros Hc Hs Hn.
  assert (∀ i j, (i < length cat)%nat → (j < length cat)%nat → title_at i = title_at j → i = j) as Hinj.
  { intros i j Hi Hj E. destruct (known_node i Hi) as (oi & Ei & _ & Ti).
    destruct (known_node j Hj) as (oj & Ej & _ & Tj).
    eapply (NoDup_lookup (List.map n_text cat)); [apply (co_titles Hc)|..];
      change (List.map n_text cat) with (n_text <$> cat); rewrite list_lookup_fmap.
    - by rewrite Ei.
    - rewrite Ej. cbn. congruence. }
  split.
  - induction Hs as [|i s Hi Hs IH]; [constructor|]. apply NoDup_cons in Hn as [Hi' Hn].
    cbn [List.map]. apply NoDup_cons. split; [|by apply IH].
    intros (j & E & Hj)%list_elem_of_In%in_map_iff. apply list_elem_of_In in Hj.
    rewrite Forall_forall in Hs. rewrite (Hinj i j) in Hi'; auto.
  - apply Forall_map. eapply Forall_impl; [exact Hs|]. intros i Hi.
    destruct (known_node i Hi) as (o & E & _ & T). rewrite T.
    pose proof (co_commas Hc) as Hf. rewrite Forall_map, Forall_lookup in Hf. eauto.
Qed.

(** Taking out a title that stands once takes out its position. *)
Lemma filter_entries s1 i s2 :
  catalogue_ok → Forall (λ i, i < length cat)%nat (s1 ++ i :: s2) → NoDup (s1 ++ i :: s2) →
  List.filter (λ x, negb (bool_decide (item_title x = VStr (title_at i)))) (List.map entry_at (s1 ++ i :: s2))
  = List.map entry_at (s1 ++ s2).
Proof.
  intros Hc Hs Hn. destruct (titles_known _ Hc Hs Hn) as [Ht _].
  rewrite List.map_app in Ht. apply NoDup_app in Ht as (_ & H1 & H2). apply NoDup_cons in H2 as [H2 _].
  apply Forall_app in Hs as [Hs1 Hs2]. inversion Hs2 as [|? ? Hi Hs3]; subst.
  assert (Hno : ∀ s, Forall (λ i, i < length cat)%nat s → title_at i ∉ List.map title_at s →
    List.filter (λ x, negb (bool_decide (item_title x = VStr (title_at i)))) (List.map entry_at s)
    = List.map entry_at s).
  { clear. induction 1 as [|j s Hj _ IH]; [done|]. intros [Hij Hs]%not_elem_of_cons.
    destruct (known_node j Hj) as (o & _ & E & T). cbn [List.map List.filter]. rewrite E.
    cbn [item_title at_ nth]. rewrite bool_decide_eq_false_2 by congruence. cbn [negb].
    f_equal. by apply IH. }
  rewrite !List.map_app, List.filter_app, Hno; [|done|].
  - f_equal. cbn [List.map List.filter]. destruct (known_node i Hi) as (o & _ & E & T).
    assert (item_title (entry_at i) = VStr (title_at i)) as Hti by (by rewrite E, T).
    rewrite Hti, bool_decide_eq_true_2 by done. by apply Hno.
  - intros Hin. apply (H1 _ Hin). constructor.
Qed.

(** ** The simulation *)

Lemma abs_pick_picks i s :
  NoDup s → Forall (λ i, i < length cat)%nat s → (i < length cat)%nat →
  NoDup (abs_pick i s) ∧ Forall (λ i, i < length cat)%nat (abs_pick i s).
Proof.
  intros Hn Hs Hi. unfold abs_pick. split.
  - apply NoDup_app. split; [by apply NoDup_filter_list|]. split; [|apply NoDup_singleton].
    intros j [_ Hj]%list_elem_of_In%filter_In ->%list_elem_of_singleton.
    by rewrite bool_decide_eq_true_2 in Hj.
  - apply Forall_app. split; [|by constructor].
    rewrite Forall_forall in Hs |- *. intros j [Hj _]%list_elem_of_In%filter_In.
    by apply Hs, list_elem_of_In.
Qed.

Lemma pick_simulates i s w :
  catalogue_ok → picks s w →
  ∃ w', pick_step (Pick i) w = (Ok tt, w') ∧ picks (abs_step s (Pick i)) w'.
Proof.
  intros Hc [Hsy Hn Hs]. cbn [pick_step abs_step]. destruct (Nat.ltb_spec i (length cat)) as [Hi|Hi].
  - destruct (known_node i Hi) as (o & -> & E & _). destruct Hsy as (Hr & Hg & _).
    destruct (pickArr_synced o input _ w Hr Hg) as (w' & Er & S). exists w'. split; [done|].
    rewrite <-E, filterArr_entries in S by done.
    destruct (abs_pick_picks i s Hn Hs Hi). by constructor.
  - rewrite lookup_ge_None_2 by done. exists w. split; [done|]. by constructor.
Qed.

Lemma key_simulates code caret s w :
  catalogue_ok → picks s w →
  ∃ w', pick_step (Key code caret) w = (Ok tt, w') ∧ picks (abs_step s (Key code caret)) w'.
Proof.
  intros Hc [Hsy Hn Hs]. cbn [pick_step abs_step].
  pose proof Hsy as (Hr & Hg & Hv & _).
  rewrite (title_text_str _ _ (titles_entries s Hs)) in Hv.
  rewrite (bind_ok (val input) _ w (VStr (join (js ", ") (List.map title_at s))) w) by (by rewrite <-Hv).
  cbn [field or_empty]. set (ts := List.map title_at s) in *. set (c := (caret `min` _)%nat).
  destruct (Z.eqb_spec code 8) as [->|H8].
  2: { destruct (reduceArr_other_key input code (Z.of_nat c) skip w H8) as [b E]. rewrite (bind_ok _ _ _ _ _ E).
       exists w. by split. }
  destruct (decide (s = [])) as [->|Hne].
  { cbn. destruct (refill_synced input _ (List.map entry_at []) w Hr Hg) as (w1 & E1 & S1 & _).
    assert (reduceArr input 8 (Z.of_nat c) skip w = (skip ;; mret true) w1) as E2.
    { unfold reduceArr. change (8 =? 8) with true. cbn [Z.eqb Pos.eqb orb].
      apply bind_cong. rewrite (bind_ok _ _ _ _ _ (subArr_ok _ _ _ Hg)).
      rewrite (bind_ok (val input) _ w (val_of input w) w) by done.
      cbv zeta. cbn [List.map removeArrItem splice_scan].
      rewrite <-bind_assoc. by rewrite (bind_ok _ _ _ _ _ E1). }
    exists w1. split; [|by constructor]. erewrite bind_ok; [|exact E2]. done. }
  destruct (titles_known s Hc Hs Hn) as [Hnt Hft].
  destruct (slot_total ts c) as [k Hk]; [unfold ts; by destruct s|unfold c; lia|].
  unfold abs_erase. rewrite Hk.
  destruct (getDeleteItem_slot ts c k Hft Hk) as (ts1 & t & ts2 & Ets & Hl & Hd).
  unfold ts in Ets. apply map_eq_app in Ets as (s1 & s2' & -> & <- & Ets).
  apply map_eq_cons in Ets as (i & s2 & -> & <- & <-).
  rewrite length_map in Hl. subst k. rewrite delete_middle.
  destruct (reduceArr_takes input (List.map entry_at (s1 ++ i :: s2)) w
              (List.map title_at s1) (List.map title_at s2) (title_at i) (Z.of_nat c) skip Hsy)
    as (w1 & _ & S1 & _ & E1).
  - rewrite titles_entries by done. by rewrite List.map_app.
  - unfold ts in Hnt. by rewrite List.map_app in Hnt.
  - rewrite (title_text_str _ _ (titles_entries _ Hs)). exact Hd.
  - rewrite filter_entries in S1 by done. exists w1. split; [erewrite bind_ok; [|exact E1]; done|].
    constructor; [done| |].
    + apply NoDup_app in Hn as (H1 & H2 & H3). apply NoDup_cons in H3 as [H3 H4].
      apply NoDup_app. split; [done|]. split; [|done]. intros x Hx Hx'. apply (H2 x Hx). by constructor.
    + apply Forall_app in Hs as [Ha Hb]. inversion Hb; subst. by apply Forall_app.
Qed.
End session.

(** ** Properties *)

(** C34 -- Any session of picks and keys on a field implements the abstract ordered
    set: no script throws, and after each of them the array, the titles in the
    field and the ids in the hidden field are those of the set, which has every
    picked item once, in the order of the last picks. *)
Theorem picker_refines {G} `{!SubArr G} (K : jval → Prop) `{!Keyed K} cat input es s (w : world G) :
  catalogue_ok K cat → picks cat input s w →
  ∃ w', for_each es (pick_step cat input) w = (Ok tt, w') ∧ picks cat input (abs_run cat s es) w'.
Proof.
  intros Hc. revert s w. induction es as [|e es IH]; intros s w Hp; [by exists w|].
  assert (∃ w1, pick_step cat input e w = (Ok tt, w1) ∧ picks cat input (abs_step cat s e) w1)
    as (w1 & E1 & P1).
  { destruct e; [by apply (pick_simulates K)|by apply (key_simulates K)]. }
  destruct (IH _ w1 P1) as (w' & E & P). exists w'. split; [|done].
  cbn [for_each]. by rewrite (bind_ok _ _ _ _ _ E1).
Qed.

#[local] Existing Instance demo_sub.
Definition demo_catalogue : list node :=
  List.map (λ p, Node (js p.1) (VStr (js p.1)) (js p.2)) [("a", "A"); ("b", "B"); ("c", "C")]%string.

Lemma picker_refines_witness :
  ∃ w', for_each [Pick 2; Key 8 2; Pick 0] (pick_step demo_catalogue (js "#tag")) demo_base = (Ok tt, w')
    ∧ shows (js "#tag") [[VStr (js "c"); VStr (js "C")]; [VStr (js "a"); VStr (js "A")]] w'.
Proof.
  destruct (picker_refines data_id demo_catalogue (js "#tag") [Pick 2; Key 8 2; Pick 0] [0; 1]%nat demo_base)
    as (w' & E & [S _ _]).
  - split; [repeat constructor|..].
    + repeat constructor; not_in.
    + repeat constructor; not_in.
    + repeat constructor; unfold sep_free; not_in.
  - split; [|repeat constructor; not_in|repeat constructor].
    split; [constructor; on_page|]. split; [reflexivity|]. split; on_page.
  - exists w'. split; [exact E|]. apply S.
Defined.
