(* ===== verification/Widgets.v ===== *)
(** * The small plugins -- [common/base.js]

    Dragging a pop-up box, the placeholder of old browsers, inserting text at
    the caret, the test that a node lies inside another, the extension of an
    uploaded file, and the marks of the side menu. *)

From Stdlib Require Import QArith Lqa.
From S2P Require Import Prelude Js JsFacts Regex Page TagList.
#[local] Open Scope Z_scope.

(** ** [$.fn.drag] *)

(** The variables of the plugin and the box's [offset()]; [_x] and [_y] are
    undefined until the first press. *)
Record drag_state := Drag {
  dr_move : bool;
  dr_at : option (Q * Q);
  dr_left : Q;
  dr_top : Q
}.
Inductive mouse := MDown (x y : Q) | MMove (x y : Q) | MUp.

(** The handlers: [mousedown] on the title, [mousemove] and [mouseup] on the
    document. *)
Definition drag (s : drag_state) (e : mouse) : drag_state :=
  match e with
  | MDown x y => Drag true (Some (x, y)) (dr_left s) (dr_top s)
  | MMove x y =>
      match dr_move s, dr_at s with
      | true, Some (x0, y0) =>
          Drag true (Some (x, y)) (dr_left s - (x0 - x))%Q (dr_top s - (y0 - y))%Q
      | true, None => s
      | false, _ => s
      end
  | MUp => Drag false (dr_at s) (dr_left s) (dr_top s)
  end.
Definition drag_run (s : drag_state) (l : list mouse) : drag_state := List.fold_left drag l s.

(** ** [$.fn.placeholder], where the browser has none of its own *)

Record ph := Ph { ph_val : jstr; ph_color : jstr }.
Definition grey : jstr := js "#999".
Definition placeholder_init (p : jstr) (s : ph) : ph :=
  if bool_decide (ph_val s = []) then Ph p grey else s.
Definition placeholder_focus (p orig : jstr) (s : ph) : ph :=
  if bool_decide (ph_val s = p) then Ph [] orig else s.
Definition placeholder_blur (p : jstr) (s : ph) : ph :=
  if Z.of_nat (length (ph_val s)) =? 0 then Ph p grey else s.

(** ** [$.fn.insertContent], for a browser with [selectionStart] *)

(** [t] is the second argument, when there is one: the selection then takes
    [t] units on either side. [setSelectionRange] and [selectionStart] keep the
    caret inside the value, and read their arguments as 32-bit unsigned
    integers: a negative one is a large one. *)
Definition clamp (len p : Z) : Z := Z.min len (p mod 2 ^ 32).
Definition insertContent (myValue : jstr) (t : option Z) (a : textarea) : textarea :=
  let startPos := ta_start a in
  let endPos := ta_end a in
  let v := substring 0 startPos (ta_value a) ++ myValue
           ++ substring endPos (Z.of_nat (length (ta_value a))) (ta_value a) in
  let len := Z.of_nat (length v) in
  let caret := clamp len (startPos + Z.of_nat (length myValue)) in
  match t with
  | None => TextArea v caret caret
  | Some t => let e := clamp len (caret + t) in
              TextArea v (Z.min (clamp len (startPos - t)) e) e
  end.

(** [$(sel).insertContent(myValue)] *)
Definition insert_at_caret {G} (sel myValue : jstr) : J G unit :=
  l ← gets (found sel);
  match l with
  | i :: _ =>
      e ← gets (λ w, nth_elt w i);
      let a := insertContent myValue None (TextArea (e_val e) (fst (e_sel e)) (snd (e_sel e))) in
      modify (upd (λ e, with_sel (ta_start a, ta_end a) (with_val (ta_value a) e)) [i]) ;;
      emit (EvFocus sel)
  | [] => throw (js "TypeError")
  end.

(** ** [isParent(obj,parentObj)] *)

(** A document: the tag and the parent of every node. *)
Record dom := Dom { d_tag : gmap eid jstr; d_parent : gmap eid eid }.

Definition is_body (d : dom) (n : eid) : bool := bool_decide (d_tag d !! n = Some (js "BODY")).

(** The [while] loop, [fuel] bounding the depth of the document. *)
Fixpoint isParent (fuel : nat) (d : dom) (obj : option eid) (parentObj : eid) : option bool :=
  match fuel, obj with
  | _, None => Some false
  | O, Some _ => None
  | S fuel', Some n =>
      if is_body d n then Some false
      else if bool_decide (n = parentObj) then Some true
      else isParent fuel' d (d_parent d !! n) parentObj
  end.

(** [p] is [n] or an ancestor of it, below the body. *)
Inductive inside (d : dom) : eid → eid → Prop :=
| inside_here n : is_body d n = false → inside d n n
| inside_up n m p : is_body d n = false → d_parent d !! n = Some m → inside d m p → inside d n p.

(** The parents of a real document go up: a node is deeper than its parent. *)
Definition acyclic (d : dom) (depth : eid → nat) : Prop :=
  ∀ n m, d_parent d !! n = Some m → (depth m < depth n)%nat.

(** ** [suff(path,suffs)] *)

Definition backslashes : re := RPlus (RStr [92%N]).
Definition last_part (l : list jstr) : jstr := List.last l [].
Definition suff (path suffs : jstr) : bool :=
  let name := replace_all backslashes (js "#") path in
  let two := last_part (splitc 35 name) in
  let lastp := last_part (splitc 46 two) in
  0 <=? indexOf lastp suffs.

(** ** The side menu *)

(** A menu entry: its text, and the [data-cate] of the group it is in. *)
Record entry := Entry { en_html : jstr; en_cate : option jstr }.
Inductive mark := MarkNone | MarkLink | MarkGroup.
(** [title] is the page's, [href] its address. *)
Definition nav_mark (title href : jstr) (e : entry) : mark :=
  let here := match splitc 45 title with _ :: t :: _ => trim t | _ => [] end in
  if bool_decide (en_html e = here)
  then match en_cate e with
       | Some cate => if 0 <? indexOf cate href then MarkGroup else MarkNone
       | None => MarkLink
       end
  else MarkNone.

(** ** Facts *)

(** While the button is down, the box keeps its place under the mouse. *)
Definition held (dx dy : Q) (s : drag_state) : Prop :=
  match dr_move s, dr_at s with
  | true, Some (x, y) => (dr_left s - x == dx)%Q ∧ (dr_top s - y == dy)%Q
  | _, _ => False
  end.

Lemma drag_move_held dx dy s x y : held dx dy s → held dx dy (drag s (MMove x y)).
Proof.
  destruct s as [[|] [[x0 y0]|] l t]; unfold held; cbn; try done.
  intros [H1 H2]. split; lra.
Qed.

Lemma drag_moves_held dx dy s l :
  Forall (λ e, ∃ x y, e = MMove x y) l → held dx dy s → held dx dy (drag_run s l).
Proof.
  intros Hl. revert s. induction Hl as [|e l (x & y & ->) _ IH]; intros s Hs; [done|].
  apply IH. by apply drag_move_held.
Qed.

Lemma isParent_sound d fuel n p b :
  isParent fuel d (Some n) p = Some b → if b then inside d n p else ¬ inside d n p.
Proof.
  revert n. induction fuel as [|fuel IH]; intros n; cbn [isParent]; [done|].
  destruct (is_body d n) eqn:Hb.
  { intros [= <-] Hin. inversion Hin; congruence. }
  case_bool_decide as Hn; [intros [= <-]; subst; by constructor|].
  destruct (d_parent d !! n) as [m|] eqn:Hm.
  - intros H. specialize (IH m H). destruct b; [by eapply inside_up|].
    intros Hin. apply IH. inversion Hin; subst; [done|]. by simplify_eq.
  - assert (isParent fuel d None p = Some false) as -> by (by destruct fuel).
    intros [= <-] Hin. inversion Hin; subst; congruence.
Qed.

Lemma isParent_fuel d depth fuel n p :
  acyclic d depth → (depth n < fuel)%nat → is_Some (isParent fuel d (Some n) p).
Proof.
  intros Hd. revert n. induction fuel as [|fuel IH]; intros n Hf; [lia|]. cbn [isParent].
  destruct (is_body d n); [by eexists|]. case_bool_decide; [by eexists|].
  destruct (d_parent d !! n) as [m|] eqn:Hm; [|by destruct fuel; eexists].
  apply IH. specialize (Hd n m Hm). lia.
Qed.

(** [substring] at a caret inside the value. *)
Lemma substring_to (p : Z) v : 0 <= p <= Z.of_nat (length v) →
  substring 0 p v = take (Z.to_nat p) v.
Proof.
  intros Hp. unfold substring.
  replace (Z.min (Z.max p 0) _) with p by lia.
  replace (Z.min (Z.max 0 0) _) with 0 by lia.
  rewrite Z.min_l, Z.max_r, Z.sub_0_r by lia. by rewrite drop_0.
Qed.

Lemma substring_rest (p : Z) v : 0 <= p <= Z.of_nat (length v) →
  substring p (Z.of_nat (length v)) v = drop (Z.to_nat p) v.
Proof.
  intros Hp. unfold substring.
  replace (Z.min (Z.max p 0) _) with p by lia.
  replace (Z.min (Z.max (Z.of_nat (length v)) 0) _) with (Z.of_nat (length v)) by lia.
  rewrite Z.min_l, Z.max_r by lia. rewrite take_ge; [done|]. rewrite length_drop. lia.
Qed.

(** [insertContent] replaces the selection by the text and leaves the
    caret right after it, for any value below the 32-bit limit of the
    selection. *)
Lemma insertContent_value ins v s e :
  0 <= s <= e → e <= Z.of_nat (length v) →
  Z.of_nat (length v + length ins) < 2 ^ 32 →
  insertContent ins None (TextArea v s e)
  = TextArea (take (Z.to_nat s) v ++ ins ++ drop (Z.to_nat e) v)
      (s + Z.of_nat (length ins)) (s + Z.of_nat (length ins)).
Proof.
  intros Hs He Hlen. unfold insertContent. cbn [ta_start ta_end ta_value].
  rewrite substring_to, substring_rest by lia.
  assert (clamp (Z.of_nat (length (take (Z.to_nat s) v ++ ins ++ drop (Z.to_nat e) v)))
            (s + Z.of_nat (length ins)) = s + Z.of_nat (length ins)) as ->; [|done].
  unfold clamp. rewrite !length_app, length_take, length_drop.
  rewrite Z.mod_small by lia. lia.
Qed.

(** Before the first blur the field shows the placeholder exactly when it is
    empty; leaving the field restores it. *)
Lemma placeholder_cycle p orig s :
  p ≠ [] → ph_val s ≠ p →
  placeholder_blur p (placeholder_focus p orig (placeholder_init p s))
  = if bool_decide (ph_val s = []) then Ph p grey else s.
Proof.
  intros Hp Hs. unfold placeholder_init. destruct s as [v c]. cbn [ph_val] in *.
  case_bool_decide as Hv; unfold placeholder_focus; cbn [ph_val].
  - by rewrite bool_decide_eq_true_2.
  - rewrite bool_decide_eq_false_2 by done. unfold placeholder_blur. cbn [ph_val].
    by destruct v.
Qed.

Definition is_move (e : mouse) : bool := match e with MMove _ _ => true | _ => false end.

Lemma moves_only l : Forall is_move l → Forall (λ e, ∃ x y, e = MMove x y) l.
Proof. intros H. eapply Forall_impl; [exact H|]. intros [] He; by eauto. Qed.

(** With the button up, moving the mouse changes nothing. *)
Lemma drag_loose l s : Forall is_move l → dr_move s = false → drag_run s l = s.
Proof.
  intros Hl Hs. induction Hl as [|e l He _ IH]; [done|].
  destruct e as [|x y|]; try done. unfold drag_run in *. cbn [List.fold_left drag]. by rewrite Hs.
Qed.

(** a pressed box follows the mouse: however the mouse moves after the
    press, the box is displaced by exactly what the mouse is, and once the
    button is released no movement changes its place. *)
Theorem drag_follows s x0 y0 moves x y later :
  Forall is_move moves → Forall is_move later →
  let s' := drag_run s (MDown x0 y0 :: moves ++ [MMove x y]) in
  (dr_left s' - dr_left s == x - x0)%Q ∧ (dr_top s' - dr_top s == y - y0)%Q
  ∧ drag_run s' (MUp :: later) = drag s' MUp
  ∧ dr_left (drag s' MUp) = dr_left s' ∧ dr_top (drag s' MUp) = dr_top s'.
Proof.
  intros Hm Hl s'.
  assert (Hh : held (dr_left s - x0) (dr_top s - y0)
                 (drag_run (drag s (MDown x0 y0)) moves)).
  { apply drag_moves_held; [by apply moves_only|]. cbn. split; lra. }
  unfold s', drag_run in *. cbn [List.fold_left]. rewrite List.fold_left_app.
  cbn [List.fold_left]. set (m := List.fold_left drag moves (drag s (MDown x0 y0))) in *.
  pose proof (drag_move_held _ _ _ x y Hh) as Hh'. revert Hh'. clearbody m.
  destruct m as [[|] [[a b]|] l t]; unfold held in Hh; try done.
  unfold held. cbn. intros [H1 H2]. repeat split; try lra.
  by apply (drag_loose later (Drag false _ _ _)).
Qed.

Lemma drag_follows_witness :
  dr_left (drag_run (Drag false None 100 50) [MDown 10 10; MMove 13 9; MMove 20 30])
  = (100 - (10 - 13) - (13 - 20))%Q
  ∧ (100 - (10 - 13) - (13 - 20) - 100 == 20 - 10)%Q.
Proof.
  split; [reflexivity|].
  exact (proj1 (drag_follows (Drag false None 100 50) 10 10 [MMove 13 9] 20 30 [MMove 0 0]
                  ltac:(by repeat constructor) ltac:(by repeat constructor))).
Defined.

(** [isParent] ends in every document whose parents go up, whatever the
    fuel above the depth of the node, and answers whether the second node is
    the first or an ancestor of it below the body. *)
Theorem isParent_decides d depth n p fuel :
  acyclic d depth → (depth n < fuel)%nat →
  ∃ b, isParent fuel d (Some n) p = Some b ∧ (b = true ↔ inside d n p).
Proof.
  intros Hd Hf. destruct (isParent_fuel d depth fuel n p Hd Hf) as [b Hb].
  exists b. split; [done|]. pose proof (isParent_sound d fuel n p b Hb) as Hs.
  destruct b; naive_solver.
Qed.

(** body 0 > div 1 > p 2, and div 3 beside 1 *)
Definition demo_dom : dom :=
  Dom {[ 0%nat := js "BODY"; 1%nat := js "DIV"; 2%nat := js "P"; 3%nat := js "DIV" ]}
      {[ 1%nat := 0%nat; 2%nat := 1%nat; 3%nat := 0%nat ]}.

Lemma isParent_decides_witness :
  ∃ b, isParent 3 demo_dom (Some 2%nat) 1%nat = Some b ∧ (b = true ↔ inside demo_dom 2%nat 1%nat).
Proof.
  apply (isParent_decides demo_dom (λ n, if bool_decide (n = 0%nat) then 0%nat
           else if bool_decide (n = 2%nat) then 2%nat else 1%nat)).
  - intros n m. unfold demo_dom. cbn [d_parent]. intros H.
    apply lookup_insert_Some in H as [[<- <-]|[_ H]]; [vm_compute; lia|].
    apply lookup_insert_Some in H as [[<- <-]|[_ H]]; [vm_compute; lia|].
    apply lookup_singleton_Some in H as [<- <-]. vm_compute; lia.
  - vm_compute. lia.
Defined.

Lemma insertContent_value_witness :
  insertContent (js "XY") None (TextArea (js "abcd") 1 3) = TextArea (js "aXYd") 3 3.
Proof. exact (insertContent_value (js "XY") (js "abcd") 1 3 ltac:(lia) ltac:(by vm_compute) ltac:(by vm_compute)). Defined.
