(* ===== verification/Search.v ===== *)
(** * The search box -- [common/jquery.edm.search.js]

    A field opens a box with a search line and a list of choices; the list is
    HTML the plugin builds from the page's data, an array of objects or an
    object of arrays by category. *)

From S2P Require Import Prelude Js JsFacts Page Layout TagList Base.
#[local] Open Scope Z_scope.

(** ** The data *)

(** An object, as [for(key in obj)] enumerates it. *)
Abbreviation obj := (list (jstr * jval)).
Fixpoint prop (k : jstr) (o : obj) : jval :=
  match o with
  | [] => VUndef
  | (k', v) :: o' => if bool_decide (k' = k) then v else prop k o'
  end.
Definition o_id (o : obj) : jval := prop (js "id") o.
Definition o_title (o : obj) : jval := prop (js "title") o.
Definition title_str (o : obj) : jstr := str_of_val (o_title o).

(** [json]: an array ([typeof json.length=='number']) or an object of arrays. *)
Inductive source := Flat (l : list obj) | Grouped (l : list (jstr * list obj)).

(** The choices offered: those of the category [outCate] are left out. *)
Definition offered (json : source) (outCate : jstr) : list obj :=
  match json with
  | Flat l => l
  | Grouped l => List.flat_map (λ c, if bool_decide (fst c = outCate) then [] else snd c) l
  end.

(** ** Building the list *)

(** [for(var key in obj[i]){ if(key!="title"){ ... } }] *)
Definition data_attrs (o : obj) : jstr :=
  List.fold_left (λ h kv, if bool_decide (fst kv = js "title") then h
     else h ++ js " data-" ++ fst kv ++ jsq "=`" ++ str_of_val (snd kv) ++ jsq "`") o [].
(** One choice, its text being [text]. *)
Definition choice (fn : jstr) (o : obj) (text : jstr) : jstr :=
  js "<li>" ++
  jsq "<a href=`javascript:void(0);` onclick=`" ++ fn ++ jsq ";` title=`" ++ title_str o ++ jsq "`" ++
  data_attrs o ++ js ">" ++ text ++ js "</a>" ++ js "</li>".

(** [$.fn.search.createSearch(json,fn,boxId,outCate)]: the HTML. *)
Definition createSearch_html (json : source) (fn outCate : jstr) : jstr :=
  match json with
  | Flat l =>
      List.fold_left (λ h o, h ++ choice fn o (title_str o)) l (js "<ul class='ul_result'>")
      ++ js "</ul>"
  | Grouped l =>
      List.fold_left (λ h c,
        if bool_decide (fst c = outCate) then h
        else
          let h1 := if (0 <? length (snd c))%nat
                    then h ++ jsq "<h4 class=`search_sort_title` data-cate=`" ++ fst c ++ jsq "`>"
                           ++ jsq "<span class=`icon_expand`>" ++ fst c ++ js "</span></h4>"
                    else h in
          List.fold_left (λ h o, h ++ choice fn o (title_str o)) (snd c)
            (h1 ++ jsq "<ul data-cate=`" ++ fst c ++ jsq "`>") ++ js "</ul>") l []
  end.

(** [title.replace(val_txt,'<b class="red_cate">'+val_txt+'</b>')] *)
Definition highlight (val_txt title : jstr) : jstr :=
  replace val_txt (jsq "<b class=`red_cate`>" ++ val_txt ++ js "</b>") title.

(** [$.fn.search.keySearch]: the HTML so far and the [counter]. *)
Definition key_row (fn val_txt : jstr) (s : jstr * Z) (o : obj) : jstr * Z :=
  if negb (indexOf val_txt (title_str o) =? -1)
  then (fst s ++ choice fn o (highlight val_txt (title_str o)), snd s + 1)
  else s.
Definition keySearch_rows (json : source) (fn val_txt outCate : jstr) : jstr * Z :=
  let start := (js "<ul class='ul_result'>", 0) in
  match json with
  | Flat l => List.fold_left (key_row fn val_txt) l start
  | Grouped l =>
      List.fold_left (λ s c, if bool_decide (fst c = outCate) then s
                             else List.fold_left (key_row fn val_txt) (snd c) s) l start
  end.
Definition keySearch_html (json : source) (fn val_txt outCate : jstr) : jstr :=
  let '(h, counter) := keySearch_rows json fn val_txt outCate in
  if negb (counter =? 0)
  then js "<p class='flg' style='padding-left:10px'>搜索到以下结果：</p>" ++ h ++ js "</ul>"
  else js "<p class='flg' style='padding-left:10px'>没有匹配的结果！</p>".

(** ** The order of the choices *)

(** [cookieDisplay]: the choice the cookie remembers goes to the top, and the
    loop goes on over the list as it was. *)
Record choice_node := ChoiceNode { cn_id : jstr; cn_cookie : bool }.
Definition cookieDisplay (remembered : jval) (lis : list choice_node) : list choice_node :=
  List.fold_left (λ l i, match lis !! i with
      | Some n => if loose_eq (VStr (cn_id n)) remembered
                  then ChoiceNode (cn_id n) true
                       :: remove_first (λ m, bool_decide (cn_id m = cn_id n)) l
                  else l
      | None => l
      end) (seq 0 (length lis)) lis.

(** ** The initial value of a field *)

(** [item.id==id || jQuery.inArray(item.id.toString(),id.split(','))!=-1] *)
Definition id_matches (id : jstr) (o : obj) : res bool :=
  if loose_eq (o_id o) (VStr id) then Ok true
  else match o_id o with
       | VUndef | VNull => Exn (js "TypeError")
       | v => Ok (bool_decide (str_of_val v ∈ splitc c_comma id))
       end.

Definition newarr (o : obj) : item :=
  if truthy (prop (js "info") o) then [o_id o; o_title o; prop (js "info") o]
  else if truthy (prop (js "type") o) then [o_id o; o_title o; prop (js "type") o]
  else [o_id o; o_title o].

(** The objects in the order the loops visit them: every category. *)
Definition all_objs (json : source) : list obj :=
  match json with Flat l => l | Grouped l => List.flat_map snd l end.

Section scripts.
Context {G : Type}.

(** The body of the loop; the local variables are [textArr] and [subArr]. *)
Definition init_step (ele id : jstr) (s : list jval * list item) (o : obj) :
  J G (list jval * list item) :=
  m ← lift (id_matches id o);
  if m : bool
  then let textArr := fst s ++ [o_title o] in
       set_val ele (join (js ", ") (List.map str_of_elem textArr)) ;;
       mret (textArr, snd s ++ [newarr o])
  else mret s.

(** [initInput(ele,valueEle,json,subArr)]; answers the array as it is left. *)
Definition initInput (ele valueEle : jstr) (json : source) (subArr : list item) : J G (list item) :=
  id ← val valueEle;
  match id with
  | VStr ((_ :: _) as s) =>
      r ← fold_each (all_objs json) ([], subArr) (init_step ele s);
      when (bool_decide (fst r = [])) (set_val valueEle []) ;;
      mret (snd r)
  | _ => mret subArr
  end.

Definition result_list (boxId : jstr) : jstr := boxId ++ js " .search_result".

Definition createSearch (json : source) (fn boxId outCate : jstr) : J G unit :=
  set_html (result_list boxId) (createSearch_html json fn outCate).
Definition keySearch (json : source) (fn boxId val_txt outCate : jstr) : J G unit :=
  set_html (result_list boxId) (keySearch_html json fn val_txt outCate).

(** [$.fn.search.deleteOne]: answers whether the key was kept from the
    browser. *)
Definition deleteOne (this : jstr) (keyCode : Z) : J G bool :=
  when (keyCode =? 8) (set_val this [] ;; set_val (this ++ js ".next()") []) ;;
  mret true.

(** ** The plugin *)

(** The options of a field.  [sortFn] and [showSelectFn] are the page's own
    functions; the [createFn] and [keyFn] are the two above, which no page
    replaces. *)
Record options := Options {
  op_text : jstr;
  op_value : jstr;
  op_box : jstr;
  op_itemFn : jstr;
  op_horiz : bool;
  op_show : jstr → J G unit;
  op_sort : option (J G unit);
  op_cookie : option (J G unit);
  op_out : jstr;
  op_native_placeholder : bool
}.

(** [$this.bind('click', ...)] with the data the field has at that time; the
    layer number is the one the box gets. *)
Definition search_fill (p : options) (json : source) : J G unit :=
  createSearch json (op_itemFn p) (op_box p) (op_out p) ;;
  default skip (op_sort p) ;;
  default skip (op_cookie p).

Definition search_click (p : options) (json : source) : J G bool :=
  let input := op_box p ++ js " .search_input" in
  set_html (result_list (op_box p)) [] ;;
  (if op_native_placeholder p then set_val input []
   else a ← attr input (js "placeholder"); set_val input (or_empty a)) ;;
  search_fill p json ;;
  posfix (op_text p) (op_box p) ;;
  z ← setMaxIndex;
  set_css (op_box p) (js "zIndex") (Px (QArith_base.inject_Z z)) ;;
  show (op_box p) ;;
  (if op_horiz p
   then addClass (op_box p) (js "searchHoriz") ;; op_show p (op_text p)
   else skip) ;;
  bind_doc (js "mousedown.search") (op_box p) ;;
  mret false.

(** The [keyup] handler of the search line. *)
Definition search_keyup (p : options) (json : source) : J G unit :=
  v ← val (op_box p ++ js " .search_input");
  let keyword := strip_spaces (field v) in
  if bool_decide (keyword = [])
  then search_fill p json
  else keySearch json (op_itemFn p) (op_box p) keyword (op_out p) ;;
       default skip (op_sort p).

(** The [mousedown.search] handler: [outside] when the target is neither in
    the box nor the field. *)
Definition search_mousedown (p : options) (outside : bool) : J G unit :=
  when outside (hide (op_box p) ;; unbind_doc (js "mousedown.search")).
End scripts.
Arguments options : clear implicits.

(** ** Facts *)

(** *** The lists built *)

Lemma fold_rows {A} (row : A → jstr) l h :
  List.fold_left (λ h o, h ++ row o) l h = h ++ List.flat_map row l.
Proof.
  revert h. induction l as [|o l IH]; intros h; simpl; [by rewrite app_nil_r|].
  by rewrite IH, <-app_assoc.
Qed.

Definition hit (val_txt : jstr) (o : obj) : bool := contains val_txt (title_str o).
Definition hit_row (fn val_txt : jstr) (o : obj) : jstr :=
  choice fn o (highlight val_txt (title_str o)).

Lemma hit_index v o : negb (indexOf v (title_str o) =? -1) = hit v o.
Proof.
  unfold hit, contains, indexOf. destruct (find_sub v (title_str o)); [|done].
  apply negb_true_iff, Z.eqb_neq. lia.
Qed.

Lemma key_rows fn v l s :
  List.fold_left (key_row fn v) l s
  = (fst s ++ List.flat_map (hit_row fn v) (List.filter (hit v) l),
     snd s + Z.of_nat (length (List.filter (hit v) l))).
Proof.
  revert s. induction l as [|o l IH]; intros [h n]; simpl.
  - by rewrite app_nil_r, Z.add_0_r.
  - rewrite IH. unfold key_row. rewrite hit_index. cbn [fst snd].
    destruct (hit v o); simpl; [|done]. rewrite <-app_assoc. f_equal. lia.
Qed.


(** *** Reading the ids back *)

(** The ids a list of choices can have: [id_matches] then tells exactly the
    ids of the hidden field. *)
Class Listed (K : jval → Prop) : Prop := {
  listed_match ks v : ks ≠ [] → Forall K ks → K v → ∀ o, o_id o = v →
    id_matches (join [c_comma] (List.map str_of_elem ks)) o = Ok (bool_decide (v ∈ ks))
}.

(** A natural number, as a database key is. *)
Definition nat_id (v : jval) : Prop := ∃ z, v = VNum (JInt z) ∧ 0 ≤ z ≤ pow2_53.
(** A string that can stand in a comma-separated list. *)
Definition word_id (v : jval) : Prop := ∃ s, v = VStr s ∧ sep_free c_comma s ∧ s ≠ [].

Lemma str_of_nat_id z : 0 ≤ z ≤ pow2_53 → str_of_elem (VNum (JInt z)) = str_of_N (Z.to_N z).
Proof.
  intros Hz. cbn [str_of_elem str_of_val str_of_num]. rewrite (proj2 (Z.leb_le _ _)) by lia.
  unfold str_of_Z. by rewrite (proj2 (Z.ltb_ge _ _)) by lia.
Qed.

Lemma to_number_nat z : 0 ≤ z ≤ pow2_53 → Js.to_number (str_of_N (Z.to_N z)) = JInt z.
Proof.
  intros Hz. destruct (str_of_N_spec (Z.to_N z)) as (Hd & Hv & Hne).
  rewrite to_number_digits by done. rewrite Hv, Z2N.id by lia. apply round53_exact. lia.
Qed.

(** What makes a kind of id readable back from a list. *)
Lemma listed_intro (K : jval → Prop) :
  (∀ v, K v → sep_free c_comma (str_of_elem v)) →
  (∀ v w, K v → K w → str_of_elem v = str_of_elem w → v = w) →
  (∀ v, K v → str_of_elem v = str_of_val v ∧ v ≠ VUndef ∧ v ≠ VNull) →
  (∀ v ks, K v → Forall K ks → ks ≠ [] →
     loose_eq v (VStr (join [c_comma] (List.map str_of_elem ks))) = true → v ∈ ks) →
  Listed K.
Proof.
  intros Hfree Hinj Hstr Hloose. constructor. intros ks v Hne Hks Hv o Ho.
  unfold id_matches. rewrite Ho.
  destruct (loose_eq v _) eqn:E.
  { rewrite bool_decide_eq_true_2; [done|]. by eapply Hloose. }
  rewrite splitc_join.
  - destruct (Hstr v Hv) as (Hs & Hu & Hn).
    assert (bool_decide (str_of_val v ∈ List.map str_of_elem ks) = bool_decide (v ∈ ks)) as <-;
      [|by destruct v].
    apply bool_decide_ext. rewrite <-Hs. split.
    + intros Hin. apply list_elem_of_In, in_map_iff in Hin as (w & Hw & Hin).
      apply list_elem_of_In in Hin. rewrite Forall_forall in Hks.
      by rewrite (Hinj v w) by (auto || by apply Hks).
    + intros Hin. apply list_elem_of_In, in_map_iff. exists v. split; [done|].
      by apply list_elem_of_In.
  - by destruct ks.
  - apply Forall_forall. intros s Hs. apply list_elem_of_In, in_map_iff in Hs as (w & <- & Hin).
    apply list_elem_of_In in Hin. rewrite Forall_forall in Hks. by apply Hfree, Hks.
Qed.

#[export] Instance word_id_listed : Listed word_id.
Proof.
  apply listed_intro.
  - by intros ? (s & -> & ? & _).
  - intros ? ? (s & -> & _) (t & -> & _) E. cbn in E. by subst.
  - by intros ? (s & -> & _).
  - intros v ks (s & -> & Hs & Hn) Hks Hne E. cbn [loose_eq] in E.
    apply bool_decide_eq_true in E.
    assert (List.map str_of_elem ks = [s]) as Hm.
    { rewrite <-(splitc_word c_comma s Hs), E. symmetry. apply splitc_join; [by destruct ks|].
      apply Forall_forall. intros t Ht. apply list_elem_of_In, in_map_iff in Ht as (w & <- & Hin).
      apply list_elem_of_In in Hin. rewrite Forall_forall in Hks.
      by destruct (Hks w Hin) as (u & -> & ? & _). }
    destruct ks as [|w [|? ?]]; try done. injection Hm as Hw.
    inversion Hks as [|? ? (u & -> & _) _]; subst. constructor.
Qed.

Lemma join_nat_no_space ks : Forall nat_id ks →
  Forall (λ c, is_space c = false) (join [c_comma] (List.map str_of_elem ks)).
Proof.
  assert (∀ v, nat_id v → Forall (λ c, is_space c = false) (str_of_elem v)) as Hv.
  { intros v (z & -> & Hz). rewrite str_of_nat_id by done.
    apply digits_no_space, str_of_N_spec. }
  induction 1 as [|v ks Hk Hks IH]; [constructor|].
  destruct Hks as [|k ks ? ?]; [by apply Hv|].
  cbn [List.map]. rewrite join_cons by done. apply Forall_app. split; [by apply Hv|].
  by constructor.
Qed.

#[export] Instance nat_id_listed : Listed nat_id.
Proof.
  apply listed_intro.
  - intros v (z & -> & Hz). rewrite str_of_nat_id by done.
    apply sep_free_digits, str_of_N_spec.
  - intros v w (z & -> & Hz) (z' & -> & Hz'). rewrite !str_of_nat_id by done.
    intros E%str_of_N_inj. do 2 f_equal. lia.
  - by intros v (z & -> & Hz).
  - intros v ks (z & -> & Hz) Hks Hne E. cbn [loose_eq] in E.
    destruct ks as [|k ks]; [done|].
    inversion Hks as [|? ? (z' & -> & Hz') Hks']; subst.
    destruct ks as [|k2 ks].
    + cbn [List.map join] in E. rewrite str_of_nat_id, to_number_nat in E by done.
      cbn [num_eq] in E. case_bool_decide; simplify_eq. constructor.
    + exfalso. cbn [List.map] in E. rewrite join_cons in E by done.
      rewrite str_of_nat_id in E by done.
      rewrite to_number_comma in E; [done|apply str_of_N_spec|apply str_of_N_spec|].
      by apply (join_nat_no_space (k2 :: ks)).
Qed.

Section restore.
Context {G : Type} (K : jval → Prop) `{!Listed K}.
Implicit Types w : world G.

Definition chosen (ks : list jval) (os : list obj) : list obj :=
  List.filter (λ o, bool_decide (o_id o ∈ ks)) os.

Lemma init_step_eq ele ks ts sub o w :
  ks ≠ [] → Forall K ks → K (o_id o) →
  init_step ele (join [c_comma] (List.map str_of_elem ks)) (ts, sub) o w
  = if bool_decide (o_id o ∈ ks)
    then (set_val ele (join (js ", ") (List.map str_of_elem (ts ++ [o_title o]))) ;;
          mret (ts ++ [o_title o], sub ++ [newarr o])) w
    else (Ok (ts, sub), w).
Proof.
  intros Hne Hks Ho. unfold init_step.
  rewrite (bind_ok (lift _) _ w (bool_decide (o_id o ∈ ks)) w)
    by (unfold lift; by rewrite (listed_match ks (o_id o) Hne Hks Ho o eq_refl)).
  by destruct (bool_decide (o_id o ∈ ks)).
Qed.

Lemma init_loop ele ks os ts sub w :
  ks ≠ [] → Forall K ks → Forall (λ o, K (o_id o)) os → single ele w →
  ∃ w', fold_each os (ts, sub) (init_step ele (join [c_comma] (List.map str_of_elem ks))) w
        = (Ok (ts ++ List.map o_title (chosen ks os), sub ++ List.map newarr (chosen ks os)), w')
    ∧ w_sel w' = w_sel w ∧ w_glob w' = w_glob w ∧ (∀ s, single s w → single s w')
    ∧ (∀ s, apart s ele w → val_of s w' = val_of s w)
    ∧ val_of ele w' = if bool_decide (chosen ks os = []) then val_of ele w
        else VStr (join (js ", ") (List.map str_of_elem (ts ++ List.map o_title (chosen ks os)))).
Proof.
  intros Hne Hks Hos. revert ts sub w. induction Hos as [|o os Ho Hos IH]; intros ts sub w Hs.
  - exists w. cbn [fold_each chosen List.filter List.map]. by rewrite !app_nil_r.
  - cbn [fold_each chosen List.filter].
    pose proof (init_step_eq ele ks ts sub o w Hne Hks Ho) as Hstep.
    case_bool_decide as Hin.
    + destruct (set_val_field ele (join (js ", ") (List.map str_of_elem (ts ++ [o_title o]))) w Hs)
        as (w1 & E1 & S1 & G1 & D1 & V1 & A1).
      rewrite (bind_ok _ _ _ _ _ E1) in Hstep. rewrite (bind_ok _ _ _ _ _ Hstep).
      destruct (IH (ts ++ [o_title o]) (sub ++ [newarr o]) w1 (D1 _ Hs))
        as (w2 & E2 & S2 & G2 & D2 & A2 & V2).
      exists w2. rewrite E2. cbn [List.map]. rewrite <-!app_assoc. cbn [app].
      split; [done|]. split; [congruence|]. split; [congruence|]. split; [auto|]. split.
      * intros s Hsep. rewrite A2; [by apply A1|]. intros i. unfold found. rewrite S1. apply Hsep.
      * rewrite V2. fold (chosen ks os). rewrite (bool_decide_eq_false_2 (_ :: _ = [])) by done.
        case_bool_decide as Hc; [rewrite Hc, V1; done|]. by rewrite <-app_assoc.
    + rewrite (bind_ok _ _ _ _ _ Hstep). by apply IH.
Qed.

(** The field shows the titles of the chosen objects, and the array is theirs. *)
Lemma initInput_chosen ele valueEle json ks sub w :
  single ele w → single valueEle w → apart valueEle ele w →
  Forall K ks → Forall (λ o, K (o_id o)) (all_objs json) →
  join [c_comma] (List.map str_of_elem ks) ≠ [] →
  val_of valueEle w = VStr (join [c_comma] (List.map str_of_elem ks)) →
  chosen ks (all_objs json) ≠ [] →
  ∃ w', initInput ele valueEle json sub w
        = (Ok (sub ++ List.map newarr (chosen ks (all_objs json))), w')
    ∧ w_glob w' = w_glob w
    ∧ val_of valueEle w' = val_of valueEle w
    ∧ val_of ele w' = VStr (join (js ", ")
        (List.map str_of_elem (List.map o_title (chosen ks (all_objs json))))).
Proof.
  intros Hs Hsv Hap Hks Hos Hne Hv Hc.
  assert (ks ≠ []) as Hks0 by (by intros ->).
  destruct (init_loop ele ks (all_objs json) [] sub w Hks0 Hks Hos Hs)
    as (w1 & E1 & _ & G1 & _ & A1 & V1).
  unfold initInput. rewrite (bind_ok (val valueEle) _ w (val_of valueEle w) w eq_refl), Hv.
  set (txt := join [c_comma] (List.map str_of_elem ks)) in *.
  destruct txt as [|c txt]; [done|]. rewrite (bind_ok _ _ _ _ _ E1). cbn [fst snd app].
  rewrite bool_decide_eq_false_2.
  - exists w1. split; [done|]. split; [done|]. split; [rewrite <-Hv; by apply A1|].
    rewrite V1. by rewrite bool_decide_eq_false_2.
  - by destruct (chosen ks (all_objs json)).
Qed.
End restore.

Section roundtrip.
Context (K : jval → Prop).

Lemma newarr_id o : item_id (newarr o) = o_id o.
Proof. unfold newarr. by repeat case_match. Qed.
Lemma newarr_title o : item_title (newarr o) = o_title o.
Proof. unfold newarr. by repeat case_match. Qed.

(** Every item of the array comes from an object of the data. *)
Definition drawn_from (os : list obj) (l : list item) : Prop :=
  Forall (λ it, ∃ o, o ∈ os ∧ it = newarr o) l.

Lemma NoDup_map_inj {A B} (f : A → B) l x y :
  NoDup (List.map f l) → x ∈ l → y ∈ l → f x = f y → x = y.
Proof.
  intros Hn Hx Hy E. apply list_elem_of_lookup in Hx as [i Hi], Hy as [j Hj].
  assert (List.map f l !! i = Some (f x)) as H1 by (rewrite list_lookup_fmap; by rewrite Hi).
  assert (List.map f l !! j = Some (f y)) as H2 by (rewrite list_lookup_fmap; by rewrite Hj).
  rewrite E in H1. assert (i = j) as -> by (by eapply NoDup_lookup). congruence.
Qed.

Lemma chosen_permutation os l :
  NoDup (List.map o_id os) → NoDup (ids l) → drawn_from os l →
  List.map newarr (chosen (ids l) os) ≡ₚ l.
Proof.
  intros Ho Hl Hd. unfold drawn_from in Hd. rewrite Forall_forall in Hd. apply NoDup_Permutation.
  - apply (NoDup_fmap_1 item_id). unfold chosen.
    change (fmap (M := list) ?f ?x) with (List.map f x). rewrite List.map_map.
    erewrite List.map_ext by (intros; apply newarr_id).
    eapply sublist_NoDup; [exact Ho|]. apply (fmap_sublist o_id).
    clear. induction os as [|o os IH]; [constructor|]. simpl.
    case_bool_decide; by constructor.
  - by apply (NoDup_fmap_1 item_id).
  - intros it. rewrite list_elem_of_In, in_map_iff. unfold chosen. split.
    + intros (o & <- & [Hin Hb]%filter_In). apply bool_decide_eq_true in Hb.
      apply list_elem_of_fmap in Hb as (it & Hid & Hit).
      destruct (Hd it Hit) as (o' & Ho' & ->). rewrite newarr_id in Hid.
      apply list_elem_of_In in Hin. by rewrite (NoDup_map_inj o_id os o o').
    + intros Hit. destruct (Hd it Hit) as (o & Hin & ->). exists o. split; [done|].
      apply filter_In. split; [by apply list_elem_of_In|].
      apply bool_decide_eq_true. rewrite <-newarr_id. by apply list_elem_of_fmap_2.
Qed.
End roundtrip.

(** ** Properties *)

(** C35 -- A field filled from its hidden ids holds again what was picked: the array
    is, up to the order, the one whose ids were saved, and the field shows its
    titles. *)
Theorem initInput_roundtrip {G} (K : jval → Prop) `{!Listed K} ele valueEle json l (w : world G) :
  single ele w → single valueEle w → apart valueEle ele w →
  Forall K (ids l) → Forall (λ o, K (o_id o)) (all_objs json) →
  NoDup (List.map o_id (all_objs json)) → NoDup (ids l) → drawn_from (all_objs json) l →
  id_text l ≠ [] → val_of valueEle w = VStr (id_text l) →
  ∃ l' w', initInput ele valueEle json [] w = (Ok l', w')
    ∧ l' ≡ₚ l ∧ val_of ele w' = VStr (title_text l') ∧ val_of valueEle w' = VStr (id_text l).
Proof.
  intros Hs Hv Ha Hk Hos Hno Hnl Hd Hne Hval.
  assert (id_text l = join [c_comma] (List.map str_of_elem (ids l))) as E.
  { unfold id_text, ids. f_equal. change (fmap (M := list) ?f ?x) with (List.map f x). by rewrite List.map_map. }
  pose proof (chosen_permutation (all_objs json) l Hno Hnl Hd) as P. rewrite E in Hne, Hval |- *.
  assert (chosen (ids l) (all_objs json) ≠ []) as Hc.
  { intros C. rewrite C in P. apply Permutation_nil in P. subst l. by apply Hne. }
  destruct (initInput_chosen K ele valueEle json (ids l) [] w Hs Hv Ha Hk Hos Hne Hval Hc)
    as (w' & Ei & _ & V1 & V2).
  exists (List.map newarr (chosen (ids l) (all_objs json))), w'. split; [exact Ei|]. split; [done|].
  split; [|by rewrite V1]. rewrite V2. unfold title_text. f_equal. f_equal. rewrite !List.map_map.
  apply List.map_ext. intros o. by rewrite newarr_title.
Qed.

Definition demo_obj (i t : string) : obj := [(js "id", VStr (js i)); (js "title", VStr (js t))].
Definition demo_search : world unit :=
  page_with [(js "#tag", blank); (js "#tagId", with_val (js "b,a") blank)] tt.
Lemma initInput_roundtrip_witness :
  ∃ l' w', initInput (js "#tag") (js "#tagId") (Flat [demo_obj "a" "A"; demo_obj "b" "B"; demo_obj "c" "C"]) [] demo_search
      = (Ok l', w')
    ∧ l' ≡ₚ [newarr (demo_obj "b" "B"); newarr (demo_obj "a" "A")]
    ∧ val_of (js "#tagId") w' = VStr (js "b,a").
Proof.
  destruct (initInput_roundtrip word_id (js "#tag") (js "#tagId")
    (Flat [demo_obj "a" "A"; demo_obj "b" "B"; demo_obj "c" "C"])
    [newarr (demo_obj "b" "B"); newarr (demo_obj "a" "A")] demo_search) as (l' & w' & E & P & _ & V).
  - on_page.
  - on_page.
  - on_page.
  - repeat constructor; eexists; (split; [vm_compute; reflexivity|]); (split; [unfold sep_free; not_in|discriminate]).
  - repeat constructor; eexists; (split; [vm_compute; reflexivity|]); (split; [unfold sep_free; not_in|discriminate]).
  - vm_compute. repeat constructor; not_in.
  - vm_compute. repeat constructor; not_in.
  - constructor; [|constructor; [|constructor]]; eexists; (split; [|reflexivity]); repeat constructor.
  - discriminate.
  - on_page.
  - exists l', w'. split; [exact E|]. split; [exact P|exact V].
Defined.

(** ** The plugin on the operators' site

    [common/jquery.edm.search.js] of [src/webmaster/] is an older copy.  Its
    [initInput] keeps the array only when there is one ([None]: the default, a
    text) and does not look whether an id was found. *)

Section operators.
Context {G : Type}.

Definition op_init_step (ele id : jstr) (s : list jval * option (list item)) (o : obj) :
  J G (list jval * option (list item)) :=
  m ← lift (id_matches id o);
  if m : bool
  then let textArr := fst s ++ [o_title o] in
       set_val ele (join (js ", ") (List.map str_of_elem textArr)) ;;
       mret (textArr, (λ subArr, subArr ++ [newarr o]) <$> snd s)
  else mret s.
Definition op_initInput (ele valueEle : jstr) (json : source) (subArr : option (list item)) :
  J G (option (list item)) :=
  id ← val valueEle;
  match id with
  | VStr ((_ :: _) as s) => r ← fold_each (all_objs json) ([], subArr) (op_init_step ele s); mret (snd r)
  | _ => mret subArr
  end.

Lemma op_step_some ele id ts l o (w : world G) :
  op_init_step ele id (ts, Some l) o w =
    let '(r, w') := init_step ele id (ts, l) o w in
    (match r with Ok (ts', l') => Ok (ts', Some l') | Exn e => Exn e end, w').
Proof.
  unfold op_init_step, init_step, lift, mbind, J_bind. destruct (id_matches id o) as [[]|e]; done.
Qed.
Lemma op_fold_some ele id os : ∀ ts l (w : world G),
  fold_each os (ts, Some l) (op_init_step ele id) w =
    let '(r, w') := fold_each os (ts, l) (init_step ele id) w in
    (match r with Ok (ts', l') => Ok (ts', Some l') | Exn e => Exn e end, w').
Proof.
  induction os as [|o os IH]; intros ts l w; [done|]. cbn [fold_each]. unfold mbind, J_bind.
  rewrite op_step_some. destruct (init_step ele id (ts, l) o w) as [[[ts' l']|e] w']; [apply IH|done].
Qed.
(** The two accumulators grow together. *)
Lemma fold_grows ele id os : ∀ ts l (w : world G) ts' l' w',
  fold_each os (ts, l) (init_step ele id) w = (Ok (ts', l'), w') →
  ∃ k, l' = l ++ k ∧ length ts' = (length ts + length k)%nat.
Proof.
  induction os as [|o os IH]; intros ts l w ts' l' w'; [intros [= <- <- _]; exists []; by rewrite app_nil_r|].
  cbn [fold_each]. unfold mbind, J_bind. destruct (init_step ele id (ts, l) o w) as [[[ts1 l1]|e] w1] eqn:E; [|done].
  intros (k & -> & Hk)%IH. unfold init_step, lift, mbind, J_bind in E.
  destruct (id_matches id o) as [[]|e]; [| |done]; injection E as <- <- _; [|by exists k].
  cbn [fst snd] in *. exists (newarr o :: k). rewrite <-app_assoc. split; [done|].
  rewrite Hk, length_app. cbn. lia.
Qed.

(** The two copies differ in one thing only: where no id of the field is known,
    the copy of the operators' site leaves the ids in the field, and they are
    sent; the other one empties it. *)
Lemma op_initInput_differs ele valueEle json l (w : world G) :
  initInput ele valueEle json l w =
    (a ← op_initInput ele valueEle json (Some l);
     when (match val_of valueEle w with VStr (_ :: _) => bool_decide (a = Some l) | _ => false end)
       (set_val valueEle []) ;;
     mret (default l a)) w.
Proof.
  unfold initInput, op_initInput. rewrite bind_assoc, !(bind_ok (val valueEle) _ w (val_of valueEle w) w eq_refl).
  destruct (val_of valueEle w) as [| | | |[|c s]]; try done.
  rewrite bind_assoc. unfold mbind at 1 3, J_bind. rewrite op_fold_some.
  destruct (fold_each (all_objs json) ([], l) (init_step ele (c :: s)) w) as [[[ts l']|e] w'] eqn:E; [|done].
  apply fold_grows in E as (k & -> & Hk). cbn [fst snd length] in *.
  assert (ts = [] ↔ Some (l ++ k) = Some l) as K.
  2: { rewrite (bind_ok (mret (Some (l ++ k))) _ w' _ w' eq_refl). destruct (decide (ts = [])) as [N|N]; [rewrite !bool_decide_true by tauto|rewrite !bool_decide_false by tauto]; done. }
  destruct ts, k; cbn in Hk; try lia; [by rewrite app_nil_r|].
  split; [done|]. intros [= E]. apply (f_equal length) in E. rewrite length_app in E. cbn in E. lia.
Qed.
End operators.
