(* ===== verification/Select.v ===== *)
(** * The drop-down lists -- [common/select.js], [common/Mselect.js],
    [common/pagination.js]

    [UIselect] fills the one list [.select_div] of the page and shows it under
    the element clicked; [Mselect] is the check-box list of trigger links. *)

From Stdlib Require Import QArith.
From S2P Require Import Prelude Js JsFacts Regex Page Layout TagList Url Base Search.
#[local] Open Scope Z_scope.

(** ** [UIselect] *)

(** The options of an element.  [us_arr] is [arrdata] when it is given: pairs
    of a value and a title. *)
Record ui_opts := UiOpts {
  us_width : option Q;
  us_radio : bool;
  us_arr : option (list (jval * jval));
  us_tit_id : jstr;
  us_id_id : jstr;
  us_ho_fun : jstr;
  us_html : jstr;
  us_foot : jstr;
  us_id : jstr;
  us_url : jstr;
  us_edit_top : Q;
  us_left : bool;
  us_url_id : jstr;
  us_url_error : jstr;
  us_div : jstr;
  us_height : Q;
  us_border : jstr
}.

(** The title element: the one named, or the element itself. *)
Definition title_target (p : ui_opts) (this_id : jstr) : jstr :=
  if bool_decide (us_tit_id p = []) then js "#" ++ this_id else us_tit_id p.

(** The titles of the values the field holds when the page opens. *)
Definition add_title (h : jstr) (t : jval) : jstr :=
  if bool_decide (h = []) then h ++ str_of_val t else h ++ js "," ++ str_of_val t.
Definition initial_titles (arr : list (jval * jval)) (id_id_list : list jstr) : jstr :=
  List.fold_left (λ h j,
    List.fold_left (λ h id, if loose_eq (VStr id) (fst j) then add_title h (snd j) else h)
      id_id_list h) arr [].

(** One line of a single-choice list, and one of a check-box list. *)
Definition radio_line (p : ui_opts) (id2 : jstr) (j : jval * jval) : jstr :=
  jsq "<li><a hidefocus=`true` onclick=`categoryId_fun('" ++ us_id_id p ++ js "','" ++ str_of_val (fst j)
  ++ js "','" ++ id2 ++ js "','" ++ str_of_val (snd j) ++ js "','" ++ us_ho_fun p
  ++ jsq "')` href=`javascript:void(0)` title=`" ++ str_of_val (snd j) ++ jsq "`>"
  ++ str_of_val (snd j) ++ js "</a></li>".
Definition check_line (p : ui_opts) (this_id id2 class_tit : jstr) (j : jval * jval) : jstr :=
  jsq "<li  class=`checkbox` id=`" ++ this_id ++ js "_li_" ++ str_of_val (fst j)
  ++ jsq "` ><a hidefocus=`true` onclick=`checkbox_fun('" ++ us_id_id p ++ js "','"
  ++ str_of_val (fst j) ++ js "','" ++ id2 ++ js "','" ++ this_id ++ js "','" ++ us_ho_fun p
  ++ jsq "')`  href=`javascript:void(0)` class=`" ++ class_tit ++ jsq "` >"
  ++ str_of_val (snd j) ++ js "</a></li>".
(** [checkbox_2] for a value the field holds. *)
Definition check_class (id_id_list : list jstr) (j : jval * jval) : jstr :=
  List.fold_left (λ c id, if bool_decide (id = str_of_val (fst j)) then js "checkbox_2" else c)
    id_id_list (js "checkbox_0").

(** The list built from [arrdata]; [held] is the value of the field. *)
Definition arr_html (p : ui_opts) (this_id held : jstr) (arr : list (jval * jval)) : jstr :=
  let id2 := title_target p this_id in
  let lines :=
    match arr with
    | [] => js "<li><p style='text-align:center'>没有数据！</p></li>"
    | _ =>
        if us_radio p then List.flat_map (radio_line p id2) arr
        else if bool_decide (held = [])
        then List.flat_map (check_line p this_id id2 (js "checkbox_0")) arr
        else List.flat_map (λ j, check_line p this_id id2
                                   (check_class (splitc c_comma held) j) j) arr
    end in
  js "<ul>" ++ lines ++ us_foot p ++ js "</ul>".

Section scripts.
Context {G : Type}.

(** The plugin's start: the titles of the values held. *)
Definition UIselect_init (p : ui_opts) (this_id : jstr) : J G unit :=
  if bool_decide (us_id_id p = []) then skip
  else v ← val (us_id_id p);
       if bool_decide (v = VStr []) then skip
       else match v, us_arr p with
            | VStr s, Some arr =>
                set_html (title_target p this_id) (initial_titles arr (splitc c_comma s))
            | VStr _, None => set_html (title_target p this_id) []
            | _, _ => throw (js "TypeError")
            end.

(** The address asked for, with the checked rows; [None] when the list needs
    checked rows and there are none. *)
Definition rows_url (p : ui_opts) (rows : list elt) : option jstr :=
  if bool_decide (us_url_id p = []) then Some (us_url p)
  else
    let checkedIds := checked_ids rows in
    if bool_decide (checkedIds = []) then None
    else if 0 <? indexOf (js "?") (us_url p)
    then Some (us_url p ++ js "&" ++ us_url_id p ++ js "=" ++ checkedIds)
    else Some (us_url p ++ js "?" ++ us_url_id p ++ js "=" ++ checkedIds).

(** What the list holds: [arrdata], then [html], then the answer of [url]. *)
Definition UIselect_fill (p : ui_opts) (this_id url answer : jstr) : J G unit :=
  match us_arr p with
  | Some arr =>
      held ← (if bool_decide (arr = []) || us_radio p then mret (VStr []) else val (us_id_id p));
      match held with
      | VStr s => set_html (us_div p) (arr_html p this_id s arr)
      | _ => throw (js "TypeError")
      end
  | None => skip
  end ;;
  when (negb (bool_decide (us_html p = []))) (set_html (us_div p) (us_html p)) ;;
  when (negb (bool_decide (us_url p = [])))
    (emit (EvAjax url []) ;; set_html (us_div p) answer).

(** Width and place of the list; [id] is the element it hangs from. *)
Definition UIselect_place (p : ui_opts) (id : jstr) : J G unit :=
  d0 ← measure (us_div p);
  match us_width p with
  | Some wd => if qlt 0 wd
               then set_css (us_div p ++ js " li") (js "width") (Px (wd - 20)) ;;
                    set_css (us_div p) (js "width") (Px wd)
               else set_css (us_div p ++ js " li") (js "width") (Px (b_w d0 - 20)) ;;
                    set_css (us_div p) (js "width") (Kw (js "auto"))
  | None => set_css (us_div p ++ js " li") (js "width") (Px (b_w d0 - 20)) ;;
            set_css (us_div p) (js "width") (Kw (js "auto"))
  end ;;
  i ← measure id;
  pos ← measure (id ++ js ".position()");
  d ← measure (us_div p);
  w ← win;
  let s := select_place i (b_top pos) d w (us_left p) (us_edit_top p) (us_height p) in
  on (us_div p) (λ e, with_css (js "left") (pl_left (ss_place s))
                       (with_css (js "right") (pl_right (ss_place s))
                         (with_css (js "top") (pl_top (ss_place s))
                           (with_css (js "bottom") (pl_bottom (ss_place s)) e)))) ;;
  match ss_height s with
  | Some h => set_css (us_div p) (js "height") (Px h)
  | None => skip
  end.

(** [$(this).bind("click", ...)] *)
Definition UIselect_click (p : ui_opts) (this_id answer : jstr) : J G bool :=
  set_html (us_div p) [] ;;
  on (us_div p) (λ e, with_css (js "border") (Kw (us_border p))
                       (with_css (js "height") (Kw (js "auto"))
                          (with_css (js "width") (Kw (js "auto")) e))) ;;
  u ← gets w_ui;
  let old_id := u_select_id u in
  let select_id := js "se_" ++ this_id in
  mod_ui (λ u, with_select select_id (u_select_shown u) u) ;;
  let id := if bool_decide (us_id p = []) then js "#" ++ this_id else us_id p in
  rows ← elts_of (js "input[name=" ++ us_url_id p ++ js "]");
  match rows_url p rows with
  | None => error_text (us_url_error p) 1 ;; mret false
  | Some opn_url =>
      UIselect_fill p this_id opn_url answer ;;
      UIselect_place p id ;;
      (if bool_decide (old_id = select_id)
       then mod_ui (with_select [] false)
       else z ← setMaxIndex;
            set_css (us_div p) (js "zIndex") (Px (inject_Z z)) ;;
            mod_ui (λ u, with_select (u_select_id u) true u)) ;;
      bind_doc (js "mousedown.select") (us_div p) ;;
      mret false
  end.

(** The [mousedown.select] handler. *)
Definition select_mousedown (outside : bool) : J G unit :=
  when outside (mod_ui (with_select [] false) ;; unbind_doc (js "mousedown.select")).

(** ** [pagination.js] *)

Definition page_re : re :=
  RSeqs [RBol; RSet (λ c, (49 <=? c)%N && (c <=? 57)%N); RStar true (RSet is_digit); REol].

(** The [keyup] handler that keeps the two page fields the same. *)
Definition pageNo_keyup (typed : jstr) : J G unit := set_val (js "input[name=pageNo]") typed.

(** The click on [.go a]: [num] is the field of the same bar, [host], [path]
    and [search] the address of the page. *)
Definition go_click (host pathname search num : jstr) : J G bool :=
  let bar := js ".go a.parents('.page').find('input[name=pageNo]')" in
  if negb (test page_re num)
  then error_text (js "输入的页码有误") 1 ;;
       set_val bar [] ;; emit (EvFocus bar) ;;
       mret false
  else v ← val (js "input[name=pageNo]");
       emit (EvAssign (pageNo_fun host pathname search (str_of_val v))) ;;
       mret true.

Definition pageSize_fun : J G unit :=
  v ← val (js "#pageSize");
  emit (EvCookie (js "PSC=" ++ str_of_val v ++ js ";path=/")) ;;
  emit EvReload.
End scripts.

(** ** [Mselect] *)

(** The ids the other fields of class [.trig_list_id] hold, joined by commas
    between commas. *)
Definition out_str (values : list jstr) : jstr :=
  js "," ++ join [c_comma] (List.concat (List.map (splitc c_comma) values)) ++ js ",".
Definition listed_in (s : jstr) (o : obj) : bool :=
  contains (js "," ++ str_of_val (o_id o) ++ js ",") s.

(** [$.fn.Mselect.createSelect]: [self] is the field's value, [others] the
    values of the other fields. *)
Definition mselect_line (fn : jstr) (sel : bool) (o : obj) : jstr :=
  (if sel
   then jsq "<li class=`selected`><label>"
        ++ jsq "<input type=`checkbox` name=`trigchecks` checked onclick=`" ++ fn ++ jsq ";`>"
   else js "<li><label>" ++ jsq "<input type=`checkbox` name=`trigchecks` onclick=`" ++ fn ++ jsq ";`>")
  ++ jsq "<span  title=`" ++ title_str o ++ jsq "`" ++ data_attrs o ++ js ">" ++ title_str o
  ++ js "</span>" ++ js "</label></li>".
Definition createSelect_rows (others : list jstr) (self fn : jstr) (l : list obj) : jstr :=
  let outCateStr := out_str others in
  let selfIdStr := js "," ++ join [c_comma] (splitc c_comma self) ++ js "," in
  List.fold_left (λ h o,
    if listed_in outCateStr o then h
    else h ++ mselect_line fn (listed_in selfIdStr o) o) l [].
Definition createSelect (others : list jstr) (self fn : jstr) (json : source) : jstr :=
  match json with
  | Flat ((_ :: _) as l) =>
      js "<ul class='ul_result'>" ++ createSelect_rows others self fn l ++ js "</ul>"
  | _ => js "<p class='center'>暂无选项！</p>"
  end.

(** [$.fn.Mselect.initInput]: the ids of [json] that the field holds, once per
    place they are held; the array [subArr] gets the items (its elements have
    no [id], so none is ever taken out). [cleared] when the fields of the
    whole table are emptied. *)
Record minit := MInit { mi_value : jstr; mi_text : jstr; mi_sub : list item; mi_cleared : bool }.
Definition held_objs (selfIdArr : list jstr) (l : list obj) : list obj :=
  List.flat_map (λ o, List.flat_map (λ id, if loose_eq (VStr id) (o_id o) then [o] else []) selfIdArr) l.
Definition Mselect_initInput (value : jstr) (l : list obj) (subArr : list item) : minit :=
  let tempArr := List.map o_id (held_objs (splitc c_comma value) l) in
  let value1 := join [c_comma] (List.map str_of_elem tempArr) in
  let hits := held_objs (splitc c_comma value1) l in
  let n := Z.of_nat (length hits) in
  MInit value1
    (if 0 <? n then js "已选中" ++ str_of_Z n ++ js "个选项！" else [])
    (subArr ++ List.map (λ o, [o_id o; o_title o]) hits)
    (bool_decide (tempArr = [])).

(** ** Facts *)

(** *** Page numbers *)

(** The numbers the page field accepts: decimal, from 1, no leading zero. *)
Definition page_number (s : jstr) : Prop :=
  match s with
  | c :: t => (49 <= c <= 57)%N ∧ all_digits t
  | [] => False
  end.

Lemma page_re_spec s : test page_re s = true ↔ page_number s.
Proof.
  unfold page_re. rewrite test_head_star. destruct s as [|c t]; [done|].
  unfold page_number. by rewrite andb_true_iff, !N.leb_le.
Qed.

Lemma page_number_positive s : page_number s → ∃ n, parseInt s = round53 n ∧ 1 <= n.
Proof.
  intros Hp. exists (digits_value s). assert (all_digits s) as Hd.
  { destruct s as [|c t]; [done|]. destruct Hp as [Hc Ht]. constructor; [|done].
    unfold is_digit. rewrite andb_true_iff, !N.leb_le. lia. }
  split; [apply parseInt_digits; by destruct s|].
  destruct s as [|c t]; [done|]. destruct Hp as [Hc Ht].
  change (c :: t) with ([c] ++ t). rewrite digits_value_app.
  assert (1 <= digits_value [c]) as H1 by (unfold digits_value; simpl; lia).
  revert H1. generalize (digits_value [c]) as a. inversion Hd as [|? ? _ Ht']; subst. clear -Ht'.
  induction Ht' as [|d t Hd _ IH]; intros a Ha; simpl; [done|]. apply IH. lia.
Qed.

(** *** The drop-down list opens and closes *)

Section ui.
Context {G : Type}.
Implicit Types w : world G.

(** The state of the list: whose it is, and whether it is shown. *)
Definition list_state w : jstr * bool := (u_select_id (w_ui w), u_select_shown (w_ui w)).

(** Computations that do not touch the list's state, and run to the end. *)
Definition keeps_list {A} (m : J G A) : Prop :=
  ∀ w, ∃ a w', m w = (Ok a, w') ∧ list_state w' = list_state w ∧ w_sel w' = w_sel w.

Lemma keeps_bind {A B} (m : J G A) (f : A → J G B) :
  keeps_list m → (∀ a, keeps_list (f a)) → keeps_list (m ≫= f).
Proof.
  intros Hm Hf w. destruct (Hm w) as (a & w1 & E1 & L1 & S1).
  destruct (Hf a w1) as (b & w2 & E2 & L2 & S2). exists b, w2.
  rewrite (bind_ok _ _ _ _ _ E1). split; [done|]. split; congruence.
Qed.
Lemma keeps_gets {A} (f : world G → A) : keeps_list (gets f).
Proof. intros w. by eexists _, w. Qed.
Lemma keeps_ret {A} (a : A) : keeps_list (mret a).
Proof. intros w. by exists a, w. Qed.
Lemma keeps_on sel (f : elt → elt) : keeps_list (on (G := G) sel f).
Proof. intros w. by eexists tt, _. Qed.
Lemma keeps_emit e : keeps_list (emit (G := G) e).
Proof. intros w. by eexists tt, _. Qed.
Lemma keeps_when b (m : J G unit) : keeps_list m → keeps_list (when b m).
Proof. intros Hm. destruct b; [done|apply keeps_ret]. Qed.

Lemma keeps_place (p : ui_opts) id : keeps_list (UIselect_place (G := G) p id).
Proof.
  unfold UIselect_place, measure, win, set_css, skip. repeat first
    [ apply keeps_ret | apply keeps_gets | apply keeps_on
    | (apply keeps_bind; [|intros]) | case_match | intros ].
Qed.

(** The list can be filled: the check-box lists read a field that exists. *)
Definition fillable (p : ui_opts) w : Prop :=
  us_radio p = true ∨ ∃ i l, found (us_id_id p) w = i :: l.

Lemma fill_keeps (p : ui_opts) this_id url answer w :
  fillable p w →
  ∃ w', UIselect_fill p this_id url answer w = (Ok tt, w') ∧ list_state w' = list_state w
    ∧ w_sel w' = w_sel w.
Proof.
  intros Hf. unfold UIselect_fill.
  match goal with |- context [(?m ≫= ?f) w] =>
    assert (∃ w1, m w = (Ok tt, w1) ∧ list_state w1 = list_state w ∧ w_sel w1 = w_sel w)
      as (w1 & E1 & L1 & S1) end.
  { destruct (us_arr p) as [arr|]; [|by exists w].
    destruct (bool_decide (arr = []) || us_radio p) eqn:Hb.
    - rewrite (bind_ok (mret _) _ w _ w eq_refl). by eexists.
    - bool_simp. destruct Hf as [Hf|(i & l & Hf)]; [congruence|].
      rewrite (bind_ok (val _) _ w (VStr (e_val (nth_elt w i))) w)
        by (unfold val, gets, first; by rewrite Hf).
      by eexists. }
  rewrite (bind_ok _ _ _ _ _ E1).
  match goal with |- context [?m w1] => assert (keeps_list m) as Hk end.
  { repeat first [ apply keeps_when | apply keeps_emit | apply keeps_on
                 | (apply keeps_bind; [|intros]) ]. }
  destruct (Hk w1) as ([] & w2 & E2 & L2 & S2). exists w2. split; [done|]. split; congruence.
Qed.

(** A click on the owner of the list closes it, a click elsewhere opens it for
    the element clicked. *)
Lemma UIselect_click_state (p : ui_opts) this_id answer w :
  us_url_id p = [] → fillable p w →
  ∃ w', UIselect_click p this_id answer w = (Ok false, w')
    ∧ list_state w' = if bool_decide (u_select_id (w_ui w) = js "se_" ++ this_id)
                      then ([], false) else (js "se_" ++ this_id, true).
Proof.
  intros Hu Hf. unfold UIselect_click.
  destruct (keeps_on (us_div p) (with_html []) w) as ([] & w1 & E1 & L1 & S1).
  rewrite (bind_ok (set_html _ _) _ w tt w1 E1).
  destruct (keeps_on (us_div p) (λ e, with_css (js "border") (Kw (us_border p))
    (with_css (js "height") (Kw (js "auto")) (with_css (js "width") (Kw (js "auto")) e))) w1)
    as ([] & w2 & E2 & L2 & S2).
  rewrite (bind_ok _ _ _ _ _ E2). rewrite (bind_ok (gets w_ui) _ w2 (w_ui w2) w2 eq_refl).
  assert (u_select_id (w_ui w2) = u_select_id (w_ui w)) as ->
    by (change (fst (list_state w2) = fst (list_state w)); by rewrite L2, L1).
  set (sid := js "se_" ++ this_id).
  set (w3 := set_ui (with_select sid (u_select_shown (w_ui w2)) (w_ui w2)) w2).
  rewrite (bind_ok (mod_ui (λ u, with_select sid (u_select_shown u) u)) _ w2 tt w3 eq_refl).
  set (rows := List.map (nth_elt w3) (found (js "input[name=" ++ us_url_id p ++ js "]") w3)).
  rewrite (bind_ok (elts_of _) _ w3 rows w3 eq_refl).
  unfold rows_url. rewrite (bool_decide_eq_true_2 _ Hu).
  assert (fillable p w3) as Hf3.
  { destruct Hf as [Hf|(i & l & Hf)]; [by left|right; exists i, l].
    rewrite <-Hf. unfold found. change (w_sel w3) with (w_sel w2). by rewrite S2, S1. }
  destruct (fill_keeps p this_id (us_url p) answer w3 Hf3) as (w4 & E4 & L4 & S4).
  rewrite (bind_ok _ _ _ _ _ E4).
  destruct (keeps_place p (if bool_decide (us_id p = []) then js "#" ++ this_id else us_id p) w4)
    as ([] & w5 & E5 & L5 & S5).
  rewrite (bind_ok _ _ _ _ _ E5).
  assert (u_select_id (w_ui w5) = sid) as Hsid
    by (change (fst (list_state w5) = sid); by rewrite L5, L4).
  destruct (bool_decide (u_select_id (w_ui w) = sid));
    eexists; (split; [reflexivity|]); unfold list_state; simpl;
    by rewrite ?Hsid.
Qed.

(** Without a checked row the list is claimed for the element but stays as it
    was. *)
Lemma UIselect_click_norows (p : ui_opts) this_id answer w :
  us_url_id p ≠ [] →
  Forall (λ i, e_checked (nth_elt w i) = false)
    (found (js "input[name=" ++ us_url_id p ++ js "]") w) →
  ∃ w', UIselect_click p this_id answer w = (Ok false, w')
    ∧ list_state w' = (js "se_" ++ this_id, u_select_shown (w_ui w)).
Proof.
  intros Hu Hr. unfold UIselect_click.
  set (f := λ e, with_css (js "border") (Kw (us_border p))
    (with_css (js "height") (Kw (js "auto")) (with_css (js "width") (Kw (js "auto")) e))).
  set (sid := js "se_" ++ this_id).
  set (w1 := upd (with_html []) (found (us_div p) w) w).
  set (w2 := upd f (found (us_div p) w1) w1).
  set (w3 := set_ui (with_select sid (u_select_shown (w_ui w2)) (w_ui w2)) w2).
  rewrite (bind_ok (set_html _ _) _ w tt w1 eq_refl), (bind_ok (on _ f) _ w1 tt w2 eq_refl).
  rewrite (bind_ok (gets w_ui) _ w2 (w_ui w2) w2 eq_refl).
  rewrite (bind_ok (mod_ui (λ u, with_select sid (u_select_shown u) u)) _ w2 tt w3 eq_refl).
  set (rs := js "input[name=" ++ us_url_id p ++ js "]") in *.
  rewrite (bind_ok (elts_of _) _ w3 (List.map (nth_elt w3) (found rs w3)) w3 eq_refl).
  assert (rows_url p (List.map (nth_elt w3) (found rs w3)) = None) as ->.
  { unfold rows_url. rewrite (bool_decide_eq_false_2 _ Hu).
    rewrite checked_ids_none; [done|]. apply Forall_forall. intros e He.
    apply list_elem_of_In, in_map_iff in He as (i & <- & Hi%list_elem_of_In).
    change (found rs w3) with (found rs w) in Hi. rewrite Forall_forall in Hr.
    rewrite <-(Hr i Hi).
    change (nth_elt w3 i) with (nth_elt w2 i). unfold w2, w1. by rewrite !upd_proj. }
  destruct (error_message_runs (VStr (us_url_error p)) (num 1) VUndef VUndef VUndef w3)
    as (w4 & E4 & _ & _ & _ & _ & Hid & Hsh & _). unfold error_text. rewrite (bind_ok _ _ _ _ _ E4).
  exists w4. split; [done|]. unfold list_state. rewrite Hid, Hsh. done.
Qed.
End ui.

(** *** Trigger links *)

Definition link_id (o : obj) : jstr := str_of_val (o_id o).

(** The comma-bracketed test is membership, for ids without commas. *)
Lemma contains_between_commas (ws : list jstr) (s : jstr) :
  ws ≠ [] → Forall (sep_free c_comma) ws → sep_free c_comma s →
  contains (js "," ++ s ++ js ",") (js "," ++ join [c_comma] ws ++ js ",") = bool_decide (s ∈ ws).
Proof.
  intros Hne Hws Hs. change (js ",") with [c_comma]. apply eq_true_iff_eq.
  rewrite contains_spec, bool_decide_eq_true. split.
  - intros (pre & post & E).
    assert (splitc c_comma ([c_comma] ++ join [c_comma] ws ++ [c_comma]) = [] :: ws ++ [[]]) as E1.
    { change ([c_comma] ++ ?x) with ([] ++ c_comma :: x). rewrite splitc_mid.
      change (join [c_comma] ws ++ [c_comma]) with (join [c_comma] ws ++ c_comma :: []).
      rewrite splitc_mid, splitc_join by done. done. }
    rewrite E in E1.
    assert (splitc c_comma (pre ++ ([c_comma] ++ s ++ [c_comma]) ++ post)
            = splitc c_comma pre ++ s :: splitc c_comma post) as E2.
    { rewrite <-!app_assoc. change (pre ++ [c_comma] ++ ?x) with (pre ++ c_comma :: x).
      rewrite splitc_mid. change (s ++ [c_comma] ++ post) with (s ++ c_comma :: post).
      rewrite splitc_mid. by rewrite (splitc_word c_comma s). }
    rewrite E2 in E1. clear E E2.
    pose proof (splitc_ne c_comma pre) as Hp. pose proof (splitc_ne c_comma post) as Hq.
    destruct (splitc c_comma pre) as [|x xs]; [done|]. injection E1 as _ E1.
    destruct (splitc c_comma post) as [|y ys _] using rev_ind; [done|].
    rewrite app_comm_cons, app_assoc in E1. apply app_inj_tail in E1 as [<- _].
    apply elem_of_app. right. constructor.
  - intros Hin. apply list_elem_of_split in Hin as (l1 & l2 & ->).
    rewrite app_assoc, (join_commas (l1 ++ s :: l2)) by (by destruct l1).
    rewrite flat_map_app. cbn [List.flat_map].
    destruct l2 as [|w l2].
    + exists (List.flat_map (λ w, c_comma :: w) l1), []. cbn [List.flat_map].
      rewrite !app_nil_r, <-!app_assoc. done.
    + exists (List.flat_map (λ w, c_comma :: w) l1), (w ++ List.flat_map (λ w, c_comma :: w) l2 ++ [c_comma]).
      cbn [List.flat_map]. rewrite <-!app_assoc. cbn [app]. by rewrite <-?app_assoc.
Qed.

(** A link another field holds is not offered, and of the others those the
    field holds are ticked. *)
Definition offered_links (others : list jstr) (l : list obj) : list obj :=
  List.filter (λ o, negb (bool_decide (link_id o ∈ List.concat (List.map (splitc c_comma) others)))) l.

Lemma concat_splitc_free others :
  Forall (sep_free c_comma) (List.concat (List.map (splitc c_comma) others)).
Proof.
  induction others as [|v vs IH]; [constructor|]. simpl. apply Forall_app. split; [|done].
  apply splitc_sep_free.
Qed.

Lemma listed_in_others others o :
  others ≠ [] → sep_free c_comma (link_id o) →
  listed_in (out_str others) o
  = bool_decide (link_id o ∈ List.concat (List.map (splitc c_comma) others)).
Proof.
  intros Hne Ho. apply contains_between_commas; [|apply concat_splitc_free|done].
  destruct others as [|v vs]; [done|]. simpl. pose proof (splitc_ne c_comma v).
  by destruct (splitc c_comma v).
Qed.

(** The list of a table offers, in order, the links no other table holds, those
    this one holds being ticked; links are compared as whole words of the
    fields, not as parts of other links. *)
Lemma createSelect_rows_spec others self fn l :
  others ≠ [] → Forall (λ o, sep_free c_comma (link_id o)) l →
  createSelect_rows others self fn l
  = List.flat_map (λ o, mselect_line fn (bool_decide (link_id o ∈ splitc c_comma self)) o)
      (offered_links others l).
Proof.
  intros Hne Hl. unfold createSelect_rows. set (f := λ h o, _).
  cut (∀ h, List.fold_left f l h = h ++ List.flat_map (λ o, mselect_line fn
    (bool_decide (link_id o ∈ splitc c_comma self)) o) (offered_links others l)).
  { intros H. by rewrite H. }
  induction Hl as [|o l Ho _ IH]; intros h; [by rewrite app_nil_r|].
  cbn [List.fold_left offered_links List.filter]. rewrite IH. unfold f.
  rewrite listed_in_others by done.
  destruct (bool_decide (link_id o ∈ List.concat _)); cbn [negb]; [done|].
  cbn [List.flat_map]. rewrite <-app_assoc. do 3 f_equal.
  unfold listed_in. fold (link_id o). rewrite contains_between_commas; [done| | |done].
  - apply splitc_ne.
  - apply splitc_sep_free.
Qed.

(** *** [Mselect.initInput] keeps the ids of links that still exist *)

Definition str_objs (l : list obj) : Prop := Forall (λ o, ∃ s, o_id o = VStr s ∧ sep_free c_comma s ∧ s ≠ []) l.
Definition held_ids (arr : list jstr) (l : list obj) : list jstr :=
  List.flat_map (λ o, List.filter (λ id, bool_decide (id = link_id o)) arr) l.

Lemma held_objs_ids arr l : str_objs l →
  List.map str_of_elem (List.map o_id (held_objs arr l)) = held_ids arr l.
Proof.
  induction 1 as [|o l (s & Ho & _) _ IH]; [done|].
  cbn [held_objs held_ids List.flat_map]. fold (held_objs arr l) (held_ids arr l).
  rewrite !List.map_app, IH. f_equal. clear IH.
  induction arr as [|a arr IH]; [done|]. cbn [List.flat_map List.filter].
  assert (link_id o = s) as Hs by (unfold link_id; by rewrite Ho).
  rewrite <-IH, Hs, Ho. cbn [loose_eq].
  case_bool_decide; cbn [app List.map]; [|done].
  rewrite Ho. cbn [str_of_elem str_of_val]. by subst.
Qed.

Lemma filter_single (arr : list jstr) (s : jstr) : NoDup arr →
  List.filter (λ id, bool_decide (id = s)) arr = if bool_decide (s ∈ arr) then [s] else [].
Proof.
  induction 1 as [|a arr Ha Hn IH]; [done|]. cbn [List.filter]. rewrite IH.
  destruct (decide (a = s)) as [->|Hs].
  - rewrite (bool_decide_eq_true_2 (s = s)), (bool_decide_eq_false_2 (s ∈ arr)) by done.
    rewrite bool_decide_eq_true_2; [done|constructor].
  - rewrite (bool_decide_eq_false_2 (a = s)) by done.
    assert (bool_decide (s ∈ a :: arr) = bool_decide (s ∈ arr)) as ->; [|done].
    apply bool_decide_ext. rewrite elem_of_cons. split; [by intros [->|?]|by right].
Qed.

Lemma held_ids_nodup arr l : NoDup arr →
  held_ids arr l = List.filter (λ s, bool_decide (s ∈ arr)) (List.map link_id l).
Proof.
  intros Hn. induction l as [|o l IH]; [done|].
  cbn [held_ids List.flat_map List.map List.filter]. fold (held_ids arr l).
  rewrite filter_single, IH by done. by case_bool_decide.
Qed.

(** The links of the template that the field holds, in the template's order. *)
Definition live_ids (value : jstr) (l : list obj) : list jstr :=
  List.filter (λ s, bool_decide (s ∈ splitc c_comma value)) (List.map link_id l).

Lemma live_ids_words value l : str_objs l →
  Forall (λ s, sep_free c_comma s ∧ s ≠ []) (live_ids value l).
Proof.
  intros Hl. apply Forall_forall. intros s Hs. unfold live_ids in Hs.
  apply list_elem_of_In, filter_In in Hs as [Hs _]. apply in_map_iff in Hs as (o & <- & Ho).
  unfold str_objs in Hl. rewrite Forall_forall in Hl. apply list_elem_of_In in Ho.
  destruct (Hl o Ho) as (t & Et & ? & ?). unfold link_id. by rewrite Et.
Qed.

(** The ids of a joined list, when it is not empty. *)
Lemma live_again value l : str_objs l → NoDup (List.map link_id l) →
  live_ids (join [c_comma] (live_ids value l)) l = live_ids value l.
Proof.
  intros Hl Hn. pose proof (live_ids_words value l Hl) as Hw.
  assert (∀ ws, Forall (λ s, sep_free c_comma s ∧ s ≠ []) ws → ∀ s, s ≠ [] →
    bool_decide (s ∈ splitc c_comma (join [c_comma] ws)) = bool_decide (s ∈ ws)) as Hj.
  { intros ws Hws s Hs. destruct ws as [|w ws].
    - apply bool_decide_ext. cbn [join splitc]. rewrite list_elem_of_singleton. split; [done|].
      by intros ?%elem_of_nil.
    - rewrite splitc_join; [done|done|]. eapply Forall_impl; [exact Hws|]. by intros ? []. }
  unfold live_ids at 1. unfold live_ids in Hw |- * at 2.
  apply filter_ext_in. intros s Hs. apply list_elem_of_In in Hs.
  assert (s ≠ []) as Hne.
  { apply list_elem_of_In, in_map_iff in Hs as (o & <- & Ho%list_elem_of_In).
    unfold str_objs in Hl. rewrite Forall_forall in Hl.
    destruct (Hl o Ho) as (t & Et & _ & ?). unfold link_id. by rewrite Et. }
  rewrite Hj by done. apply bool_decide_ext. rewrite list_elem_of_In. unfold live_ids.
  rewrite filter_In, <-list_elem_of_In, bool_decide_eq_true. tauto.
Qed.

Lemma Mselect_initInput_live value l sub :
  str_objs l → NoDup (List.map link_id l) → NoDup (splitc c_comma value) →
  let r := Mselect_initInput value l sub in
  let live := live_ids value l in
  mi_value r = join [c_comma] live
  ∧ mi_cleared r = bool_decide (live = [])
  ∧ mi_text r = (if bool_decide (live = []) then []
                 else js "已选中" ++ str_of_Z (Z.of_nat (length live)) ++ js "个选项！").
Proof.
  intros Hl Hn Hv r live.
  assert (mi_value r = join [c_comma] live) as Hval.
  { unfold r, Mselect_initInput. cbn [mi_value]. rewrite held_objs_ids by done.
    by rewrite held_ids_nodup. }
  split; [done|]. split.
  - unfold r, Mselect_initInput. cbn [mi_cleared]. apply bool_decide_ext.
    unfold live, live_ids. rewrite <-(held_ids_nodup _ l Hv), <-held_objs_ids by done.
    split; intros E.
    + by rewrite E.
    + by destruct (List.map o_id _).
  - set (value1 := join [c_comma] live) in *.
    assert (NoDup (splitc c_comma value1)) as Hv1.
    { assert (NoDup live) as Hlive by (by apply NoDup_filter_list).
      destruct live as [|x xs] eqn:El; [apply NoDup_singleton|].
      unfold value1. rewrite splitc_join; [done|done|]. rewrite <-El.
      eapply Forall_impl; [by apply live_ids_words|]. by intros ? []. }
    assert (length (held_objs (splitc c_comma value1) l) = length live) as Hlen.
    { rewrite <-(List.length_map o_id), <-(List.length_map str_of_elem), held_objs_ids by done.
      rewrite held_ids_nodup by done. f_equal. by apply live_again. }
    unfold r, Mselect_initInput in Hval |- *. cbn [mi_value mi_text] in *. rewrite Hval, Hlen.
    destruct live as [|x xs]; [done|].
    rewrite bool_decide_eq_false_2 by done. by rewrite (proj2 (Z.ltb_lt _ _)) by (simpl; lia).
Qed.

(** ** Properties *)

(** Only the decimal digits of a positive number leave for another page; anything
    else empties the field, gives it the focus and says so. *)
Theorem go_click_spec {G} host pathname search num (w : world G) :
  ∃ b w', go_click host pathname search num w = (Ok b, w') ∧
    (b = true ↔ page_number num) ∧
    if b
    then w_ev w' = w_ev w ++ [EvAssign (pageNo_fun host pathname search (str_of_val (val_of (js "input[name=pageNo]") w)))]
         ∧ ∃ n, parseInt num = round53 n ∧ 1 <= n
    else w_ev w' = w_ev w ++ [EvFocus (js ".go a.parents('.page').find('input[name=pageNo]')")]
         ∧ ∃ b, u_banner (w_ui w') = Some b ∧ bn_kind b = js "err2".
Proof.
  unfold go_click. pose proof (page_re_spec num) as Hs. destruct (test page_re num); cbn [negb].
  - exists true. rewrite (bind_ok (val _) _ w (val_of (js "input[name=pageNo]") w) w eq_refl).
    eexists. split; [reflexivity|]. split; [done|]. split; [done|]. by apply page_number_positive, Hs.
  - exists false. destruct (error_message_runs (VStr (js "输入的页码有误")) (Js.num 1) VUndef VUndef VUndef w)
      as (w1 & E1 & _ & V1 & _ & _ & _ & _ & _ & (b & Hb & _ & _ & Hk) & _).
    unfold error_text. rewrite (bind_ok _ _ _ _ _ E1). eexists. split; [reflexivity|]. split; [done|].
    split; [cbn; by rewrite V1|]. exists b. split; [exact Hb|exact Hk].
Qed.

Lemma live_nodup value l : str_objs l → NoDup (List.map link_id l) →
  NoDup (splitc c_comma (join [c_comma] (live_ids value l))).
Proof.
  intros Hl Hn. assert (NoDup (live_ids value l)) as H by (by apply NoDup_filter_list).
  pose proof (live_ids_words value l Hl) as Hw. destruct (live_ids value l) as [|x xs]; [apply NoDup_singleton|].
  rewrite splitc_join; [done|done|]. eapply Forall_impl; [exact Hw|]. by intros ? [].
Qed.

(** A field of links keeps, of what it holds, the links the template still
    has; doing so again changes nothing; and it is emptied when none is
    left. *)
Theorem Mselect_keeps_live value l sub sub' :
  str_objs l → NoDup (List.map link_id l) → NoDup (splitc c_comma value) →
  let r := Mselect_initInput value l sub in
  (∀ h, h ∈ live_ids value l ↔ h ∈ splitc c_comma value ∧ h ∈ List.map link_id l)
  ∧ mi_value r = join [c_comma] (live_ids value l)
  ∧ mi_cleared r = bool_decide (live_ids value l = [])
  ∧ mi_value (Mselect_initInput (mi_value r) l sub') = mi_value r
  ∧ mi_text (Mselect_initInput (mi_value r) l sub') = mi_text r.
Proof.
  intros Hl Hn Hv r. destruct (Mselect_initInput_live value l sub Hl Hn Hv) as (V & C & T). fold r in V, C, T.
  pose proof (live_again value l Hl Hn) as A.
  destruct (Mselect_initInput_live (mi_value r) l sub' Hl Hn) as (V2 & _ & T2); [rewrite V; by apply live_nodup|].
  rewrite V, A in V2, T2. split; [|split; [done|split; [done|split; [congruence|congruence]]]].
  intros h. unfold live_ids. rewrite list_elem_of_In, filter_In, bool_decide_eq_true, <-list_elem_of_In. tauto.
Qed.

Definition demo_link (h : string) : obj := [(js "id", VStr (js h)); (js "title", VStr (js h))].
Lemma demo_links_str : str_objs [demo_link "http://a"; demo_link "http://b"].
Proof.
  repeat constructor; eexists; (split; [vm_compute; reflexivity|]); (split; [unfold sep_free; not_in|discriminate]).
Qed.
Lemma Mselect_keeps_live_witness :
  mi_value (Mselect_initInput (js "http://b,http://z") [demo_link "http://a"; demo_link "http://b"] []) = js "http://b".
Proof.
  destruct (Mselect_keeps_live (js "http://b,http://z") [demo_link "http://a"; demo_link "http://b"] [] [])
    as (_ & V & _).
  - exact demo_links_str.
  - vm_compute. repeat constructor; not_in.
  - vm_compute. repeat constructor; not_in.
  - rewrite V. vm_compute. reflexivity.
Defined.

Lemma createSelect_rows_spec_witness :
  createSelect_rows [js "http://b"] (js "http://a") (js "f") [demo_link "http://a"; demo_link "http://b"]
  = mselect_line (js "f") true (demo_link "http://a").
Proof.
  rewrite (createSelect_rows_spec [js "http://b"] (js "http://a") (js "f")).
  - vm_compute. reflexivity.
  - discriminate.
  - repeat constructor; unfold sep_free; not_in.
Defined.

(** A single-choice list. *)
Definition demo_ui (url_id : jstr) : ui_opts :=
  UiOpts None true (Some [(VStr (js "20"), VStr (js "20"))]) [] (js "#pageSize") [] [] [] [] [] 0 true url_id
    (js "e") (js "#div") 100 [].
Definition demo_select : world unit := page_with [(js "#pageSize", with_val (js "20") blank)] tt.
Lemma UIselect_click_state_witness :
  ∃ w', UIselect_click (demo_ui []) (js "page_btm") [] demo_select = (Ok false, w')
    ∧ list_state w' = (js "se_page_btm", true).
Proof.
  destruct (UIselect_click_state (demo_ui []) (js "page_btm") [] demo_select) as (w' & E & S).
  - reflexivity.
  - left. reflexivity.
  - exists w'. split; [exact E|]. rewrite S. vm_compute. reflexivity.
Defined.
Lemma UIselect_click_norows_witness :
  ∃ w', UIselect_click (demo_ui (js "ids")) (js "move") [] demo_select = (Ok false, w')
    ∧ list_state w' = (js "se_move", false).
Proof.
  destruct (UIselect_click_norows (demo_ui (js "ids")) (js "move") [] demo_select) as (w' & E & S).
  - discriminate.
  - vm_compute. constructor.
  - exists w'. split; [exact E|exact S].
Defined.
