(* ===== verification/Markup.v ===== *)
(** * The text of a template -- [mailing.template.common.js]

    The header and the footer a template can carry, put into and taken out of
    its HTML by regular expressions, the table of the multi-line property, and
    the lists of choices the editor shows. *)

From S2P Require Import Prelude Js JsFacts Regex.

(** ** The blocks *)

Definition font_style : jstr :=
  js "style=" ++ jsq "`font:12px/1.5 Consolas, Monaco, Bitstream Vera Sans Mono, Courier New, Courier, monospace;text-align:center;`>".
(** The header and the footer of the template of identifier [id]. *)
Definition header_html (id appUrl : jstr) : jstr :=
  jsq "<div id=`" ++ id ++ jsq "` " ++ font_style
  ++ jsq "如果您想分享此邮件，请点击&nbsp;<a href=`" ++ appUrl ++ jsq "/forward` target=`_blank`>转发给好友</a>"
  ++ js "<br />"
  ++ jsq "如果您不想再接收此类邮件，请点击&nbsp;<a href=`" ++ appUrl ++ jsq "/unsubscribe` target=`_blank`>退订</a>"
  ++ js "</div>".
Definition footer_html (id appUrl : jstr) : jstr :=
  jsq "<div id=`" ++ id ++ jsq "` " ++ font_style
  ++ jsq "如果您觉得此封邮件给您带来了不便，您还可以 <a href=`" ++ appUrl ++ jsq "/complain` target=`_blank`>投诉</a>"
  ++ js "</div>".

Definition page_header : jstr := js "page_header".
Definition page_footer : jstr := js "page_footer".
Definition phone_page_header : jstr := js "phone_page_header".
Definition phone_page_footer : jstr := js "phone_page_footer".

(** ** The expressions *)

(** [(<body[^>]*>)] and [(<\/body[^>]*>)], with [ig] *)
Definition body_tag (name : jstr) : re :=
  RCap (RSeq (RStrI name) (RSeq (RStar true (RNotChar 62)) (RStr [62%N]))).
Definition body_open : re := body_tag (js "<body").
Definition body_close : re := body_tag (js "</body").

(** [<div], any [.] that do not begin a [</div>], the mark, then such runs each
    followed by line feeds, then [</div>]; with [ig] *)
Definition close_div : jstr := js "</div>".
Definition not_close : re := RCap (RSeq (RNot (RStrI close_div)) RDot).
Definition inside_div : re := RStar true not_close.
Definition block_re (mark : jstr) : re :=
  RSeqs [RStrI (js "<div"); inside_div; RStrI mark;
         RStar true (RCap (RSeq inside_div (RStar true (RStr [10%N])))); RStrI close_div].

(** ** The operations on the text *)

Definition addHeader_text (header prop : jstr) : jstr :=
  if test body_open prop then replace_all body_open (js "$1" ++ header) prop
  else header ++ prop.
Definition delHeader_text (mark prop : jstr) : jstr := replace_all (block_re mark) [] prop.
Definition addFooter_text (footer prop : jstr) : jstr :=
  if test body_close prop then replace_all body_close (footer ++ js "$1") prop
  else prop ++ footer.
Definition delFooter_text (mark prop : jstr) : jstr := replace_all (block_re mark) [] prop.

(** ** Facts *)

(** *** A span with no [</div>] beginning in it *)

Definition no_close (s : jstr) (n : nat) : Prop := ∀ k, k < n → ¬ beginsI close_div (drop k s).

(** From [st] to [st'] the matcher stepped over no [</div>]. *)
Definition safe (st st' : mstate) : Prop :=
  ∃ u, m_rest st = u ++ m_rest st' ∧ no_close (m_rest st) (length u).

Lemma safe_refl st : safe st st.
Proof. exists []. split; [done|]. intros k Hk. simpl in Hk. lia. Qed.

Lemma safe_trans st1 st2 st3 : safe st1 st2 → safe st2 st3 → safe st1 st3.
Proof.
  intros (u & E1 & H1) (v & E2 & H2). exists (u ++ v). rewrite E1, E2.
  split; [by rewrite app_assoc|]. intros k Hk. rewrite length_app in Hk.
  destruct (decide (k < length u)) as [Hlt|Hge].
  - rewrite E1, E2 in H1. by apply H1.
  - rewrite drop_app_ge by lia. rewrite E2 in H2. apply H2. lia.
Qed.

Lemma safe_iter R st st' : (∀ a b, R a b → safe a b) → iter R st st' → safe st st'.
Proof.
  intros HR. induction 1 as [|st st1 st2 H _ _ IH]; [apply safe_refl|].
  eapply safe_trans; [by apply HR|done].
Qed.

(** A literal without [<] after its first character, and not [</div>] itself. *)
Lemma safe_lit p st st' :
  (∀ k q t, k < length p → List.map upcase q = List.map upcase p →
     ¬ beginsI close_div (drop k (q ++ t))) →
  den (RStrI p) st st' → safe st st'.
Proof.
  intros Hp (q & E & Hq & _)%den_RStrI. exists q. split; [done|].
  intros k Hk. rewrite E. apply Hp; [|done].
  apply (f_equal length) in Hq. rewrite !List.length_map in Hq. lia.
Qed.

Lemma beginsI_head p c s : beginsI (c :: p) s → ∃ d t, s = d :: t ∧ upcase d = upcase c.
Proof. intros ([|d q] & t & -> & Hq); [done|]. injection Hq as Hd _. by exists d, (q ++ t). Qed.

Lemma beginsI_second p c1 c2 s : beginsI (c1 :: c2 :: p) s →
  ∃ d1 d2 t, s = d1 :: d2 :: t ∧ upcase d1 = upcase c1 ∧ upcase d2 = upcase c2.
Proof.
  intros ([|d1 [|d2 q]] & t & -> & Hq); [done..|]. injection Hq as H1 H2 _.
  by exists d1, d2, (q ++ t).
Qed.

(** The markers are words: no [<] in them. *)
Definition plain_mark (m : jstr) : bool := forallb (λ c, negb (upcase c =? 60)%N) m.

Lemma safe_mark m st st' : plain_mark m = true → den (RStrI m) st st' → safe st st'.
Proof.
  intros Hm. apply safe_lit. intros k q t Hk Hq Hb.
  apply beginsI_head in Hb as (d & s & E & Hd).
  assert (q !! k = Some d) as Hqd.
  { assert (k < length q) as Hkq.
    { apply (f_equal length) in Hq. rewrite !List.length_map in Hq. lia. }
    rewrite <-(lookup_app_l q t) by done. rewrite <-(Nat.add_0_r k), <-lookup_drop. by rewrite E. }
  assert (List.map upcase m !! k = Some (upcase d)) as Hmk.
  { rewrite <-Hq. change (List.map upcase q) with (upcase <$> q). by rewrite list_lookup_fmap, Hqd. }
  change (List.map upcase m) with (upcase <$> m) in Hmk.
  rewrite list_lookup_fmap in Hmk. destruct (m !! k) as [c|] eqn:Hc; [|done].
  injection Hmk as Hmk. unfold plain_mark in Hm. rewrite forallb_forall in Hm.
  specialize (Hm c). rewrite Hmk, Hd in Hm.
  assert (In c m) as Hin by (apply list_elem_of_In; by eapply list_elem_of_lookup_2).
  by specialize (Hm Hin).
Qed.

Lemma safe_div st st' : den (RStrI (js "<div")) st st' → safe st st'.
Proof.
  apply safe_lit. intros k q t Hk Hq Hb.
  destruct q as [|a [|b [|c [|d [|? ?]]]]]; try done.
  injection Hq as H1 H2 H3 H4. change (length (js "<div")) with 4 in Hk.
  destruct k as [|[|[|[|k]]]]; [| | | |lia]; cbn [drop app] in Hb.
  - apply beginsI_second in Hb as (? & ? & ? & [= <- <- _] & _ & Hd). by rewrite H2 in Hd.
  - apply beginsI_head in Hb as (? & ? & [= <- _] & Hd). by rewrite H2 in Hd.
  - apply beginsI_head in Hb as (? & ? & [= <- _] & Hd). by rewrite H3 in Hd.
  - apply beginsI_head in Hb as (? & ? & [= <- _] & Hd). by rewrite H4 in Hd.
Qed.

Lemma safe_char P st st' :
  (∀ st1, ¬ den (RStrI close_div) st st1) → den (RSet P) st st' → safe st st'.
Proof.
  intros Hn (c & s & E & _ & ->). exists [c]. split; [done|].
  intros k Hk. simpl in Hk. assert (k = 0) as -> by lia. rewrite drop_0.
  intros (st1 & H)%den_RStrI_begins. by destruct (Hn st1).
Qed.

Lemma safe_not_close st st' : den not_close st st' → safe st st'.
Proof.
  intros (st1 & (st2 & [-> Hn] & Hd) & ->).
  pose proof (safe_char _ _ _ Hn Hd) as (u & E & Hu). by exists u.
Qed.

Lemma safe_inside st st' : den inside_div st st' → safe st st'.
Proof. apply safe_iter. intros a b. apply safe_not_close. Qed.

Lemma safe_newlines st st' : den (RStar true (RStr [10%N])) st st' → safe st st'.
Proof.
  apply safe_iter. intros a b (st1 & (c & s & E & Hc & ->) & ->).
  exists [c]. split; [done|]. intros k Hk. simpl in Hk. assert (k = 0) as -> by lia.
  rewrite drop_0, E. intros Hb. apply beginsI_head in Hb as (d & t & [= <- _] & Hd).
  apply N.eqb_eq in Hc. by subst c.
Qed.

(** A match of the block ends with the first [</div>] after its start. *)
Lemma block_extent m st st' :
  plain_mark m = true → den (block_re m) st st' →
  ∃ u d, m_rest st = u ++ d ++ m_rest st' ∧ no_close (m_rest st) (length u)
       ∧ List.map upcase d = List.map upcase close_div.
Proof.
  intros Hm (st1 & H1 & st2 & H2 & st3 & H3 & st4 & H4 & st5 & H5 & ->).
  assert (safe st st4) as (u & E & Hu).
  { eapply safe_trans; [by apply safe_div|].
    eapply safe_trans; [by apply safe_inside|].
    eapply safe_trans; [by eapply safe_mark|].
    eapply safe_iter; [|exact H4]. intros a b (b1 & (c & Hc1 & Hc2) & ->).
    assert (safe a b1) as (w & Ew & Hw).
    { eapply safe_trans; [by apply safe_inside|by apply safe_newlines]. }
    by exists w. }
  apply den_RStrI in H5 as (d & Ed & Hd & _). exists u, d. rewrite E, Ed in *. done.
Qed.

(** *** Where a literal can begin *)

Definition containsI (p s : jstr) : bool := contains (List.map upcase p) (List.map upcase s).

Lemma beginsI_contains p s k : beginsI p (drop k s) → containsI p s = true.
Proof.
  intros (q & t & E & Hq). apply contains_spec.
  exists (List.map upcase (take k s)), (List.map upcase t).
  rewrite <-Hq, <-!List.map_app, <-E. by rewrite take_drop.
Qed.

Lemma contains_beginsI p s : containsI p s = true → ∃ k, k ≤ length s ∧ beginsI p (drop k s).
Proof.
  intros (pre & post & E)%contains_spec. exists (length pre).
  assert (length pre ≤ length s) as Hl.
  { apply (f_equal length) in E. rewrite List.length_map, !length_app in E. lia. }
  split; [done|]. rewrite <-(take_drop (length pre) s), List.map_app in E.
  apply app_inj_1 in E as [_ E]; [|rewrite List.length_map, length_take; lia].
  rewrite <-(take_drop (length p) (drop (length pre) s)), List.map_app in E.
  exists (take (length p) (drop (length pre) s)), (drop (length p) (drop (length pre) s)).
  split; [by rewrite take_drop|].
  apply app_inj_1 in E as [E _]; [done|].
  rewrite !List.length_map, length_take. apply (f_equal length) in E.
  rewrite !length_app, !List.length_map, length_take, !length_drop in E. rewrite length_drop. lia.
Qed.

Lemma beginsI_length p s : beginsI p s → length p ≤ length s.
Proof.
  intros (q & t & -> & Hq). apply (f_equal length) in Hq.
  rewrite !List.length_map in Hq. rewrite length_app. lia.
Qed.

Lemma beginsI_lookup p s k c : beginsI p s → p !! k = Some c → ∃ d, s !! k = Some d ∧ upcase d = upcase c.
Proof.
  intros (q & t & -> & Hq) Hc.
  assert ((upcase <$> q) !! k = Some (upcase c)) as Hk.
  { change (upcase <$> q) with (List.map upcase q). rewrite Hq.
    change (List.map upcase p) with (upcase <$> p). by rewrite list_lookup_fmap, Hc. }
  rewrite list_lookup_fmap in Hk. destruct (q !! k) as [d|] eqn:E; [|done].
  injection Hk as Hk. exists d. split; [|done]. by apply lookup_app_l_Some.
Qed.

Lemma beginsI_shorter p s t : beginsI p (s ++ t) → length p ≤ length s → beginsI p s.
Proof.
  intros (q & r & E & Hq) Hl. assert (length q = length p) as Hlq.
  { apply (f_equal length) in Hq. by rewrite !List.length_map in Hq. }
  exists q, (drop (length q) s). split; [|done].
  assert (q = take (length q) s) as Hqs.
  { apply (f_equal (take (length q))) in E. rewrite take_app_length in E.
    rewrite take_app_le in E by lia. done. }
  rewrite Hqs at 1. by rewrite take_drop.
Qed.

(** A literal whose tail has no [<] cannot begin in [u] and reach a [<] that
    follows [u]. *)
Lemma no_cross_begins p u t k :
  plain_mark (tail p) = true → k < length u →
  beginsI p (drop k (u ++ 60%N :: t)) → beginsI p (drop k u).
Proof.
  intros Hp Hk Hb. rewrite drop_app_le in Hb by lia.
  destruct (decide (length p ≤ length (drop k u))) as [Hl|Hl]; [by eapply beginsI_shorter|].
  exfalso. set (j := length (drop k u)) in *.
  destruct (p !! j) as [c|] eqn:Ec; [|apply lookup_ge_None in Ec; lia].
  destruct (beginsI_lookup _ _ _ _ Hb Ec) as (d & Hd & Hdc).
  rewrite lookup_app_r in Hd by lia. replace (j - length (drop k u)) with 0 in Hd by lia.
  injection Hd as <-. unfold j in Ec. rewrite length_drop in Ec.
  destruct (length u - k) as [|i] eqn:Ei; [lia|].
  destruct p as [|x p]; [done|]. cbn [tail] in Hp. change ((x :: p) !! S i) with (p !! i) in Ec.
  unfold plain_mark in Hp. rewrite forallb_forall in Hp. specialize (Hp c).
  rewrite <-Hdc in Hp.
  assert (In c p) as Hin by (apply list_elem_of_In; by eapply list_elem_of_lookup_2).
  by specialize (Hp Hin).
Qed.

Lemma no_cross p u t :
  plain_mark (tail p) = true → containsI p u = false →
  ∀ k, k < length u → ¬ beginsI p (drop k (u ++ 60%N :: t)).
Proof.
  intros Hp Hc k Hk Hb%no_cross_begins; [|done..]. apply beginsI_contains in Hb. congruence.
Qed.

(** A literal begins nowhere in [x ++ y] when it begins nowhere in [y] and its
    first character is not in [x]. *)
Lemma containsI_skip c p x y :
  forallb (λ d, negb (upcase d =? upcase c)%N) x = true →
  containsI (c :: p) y = false → containsI (c :: p) (x ++ y) = false.
Proof.
  intros Hx Hy. apply not_true_is_false. intros (k & _ & Hb)%contains_beginsI.
  destruct (decide (k < length x)) as [Hk|Hk].
  - rewrite drop_app_le in Hb by lia. apply beginsI_head in Hb as (d & t & E & Hd).
    rewrite forallb_forall in Hx. specialize (Hx d).
    assert (x !! k = Some d) as Hkd.
    { rewrite <-(lookup_app_l x y) by done. rewrite <-(Nat.add_0_r k), <-lookup_drop.
      rewrite drop_app_le by lia. by rewrite E. }
    assert (In d x) as Hin by (apply list_elem_of_In; by eapply list_elem_of_lookup_2).
    specialize (Hx Hin). rewrite Hd in Hx. by rewrite N.eqb_refl in Hx.
  - rewrite drop_app_ge in Hb by lia. apply beginsI_contains in Hb. congruence.
Qed.

(** ... and when it is not in [x] and the last character of [x] is not one of
    its own. *)
Lemma containsI_last p x z y :
  containsI p (x ++ [z]) = false → containsI p y = false →
  forallb (λ d, negb (upcase d =? upcase z)%N) p = true →
  containsI p ((x ++ [z]) ++ y) = false.
Proof.
  intros Hx Hy Hz. apply not_true_is_false. intros (k & _ & Hb)%contains_beginsI.
  destruct (decide (k ≤ length x)) as [Hk|Hk].
  - destruct (decide (length p ≤ length (drop k (x ++ [z])))) as [Hl|Hl].
    + rewrite drop_app_le in Hb by (rewrite length_app; simpl; lia).
      apply beginsI_shorter in Hb; [|done]. apply beginsI_contains in Hb. congruence.
    + rewrite length_drop, length_app in Hl. simpl in Hl.
      destruct (p !! (length x - k)) as [c|] eqn:Ec; [|apply lookup_ge_None in Ec; lia].
      destruct (beginsI_lookup _ _ _ _ Hb Ec) as (d & Hd & Hdc).
      rewrite lookup_drop in Hd. replace (k + (length x - k)) with (length x) in Hd by lia.
      rewrite <-app_assoc, lookup_app_r in Hd by lia. rewrite Nat.sub_diag in Hd.
      injection Hd as <-. rewrite forallb_forall in Hz. specialize (Hz c).
      assert (In c p) as Hin by (apply list_elem_of_In; by eapply list_elem_of_lookup_2).
      specialize (Hz Hin). rewrite Hdc in Hz. by rewrite N.eqb_refl in Hz.
  - rewrite drop_app_ge in Hb by (rewrite length_app; simpl; lia).
    apply beginsI_contains in Hb. congruence.
Qed.

(** *** Matching a block *)

Definition one_line (s : jstr) : bool := forallb (λ c, negb (is_line_end c)) s.

Lemma den_inside a t n cs :
  one_line a = true → no_close (a ++ t) (length a) →
  ∃ cs', den inside_div (MState n (a ++ t) cs) (MState (n + length a) t cs').
Proof.
  revert n cs. induction a as [|c a IH]; intros n cs Ha Hc.
  - exists cs. simpl. rewrite Nat.add_0_r. constructor.
  - simpl in Ha. apply andb_true_iff in Ha as [Hc0 Ha].
    assert (no_close (a ++ t) (length a)) as Hc1.
    { intros k Hk. apply (Hc (S k)). simpl. lia. }
    destruct (IH (S n) (cs ++ [take 1 (c :: a ++ t)]) Ha Hc1) as (cs' & Hd).
    exists cs'. replace (n + length (c :: a)) with (S n + length a) by (simpl; lia).
    eapply iter_step; [| |exact Hd].
    + exists (MState (S n) (a ++ t) cs). cbn [m_pos m_rest m_caps]. split.
      * exists (MState n ((c :: a) ++ t) cs). split; [|by exists c, (a ++ t)].
        split; [done|]. intros st1 H1. apply (Hc 0); [simpl; lia|]. rewrite drop_0.
        apply (den_RStrI_begins close_div (MState n ((c :: a) ++ t) cs)). by exists st1.
      * replace (S n - n) with 1 by lia. done.
    + simpl. lia.
Qed.

Lemma den_lit p t n cs : den (RStrI p) (MState n (p ++ t) cs) (MState (n + length p) t cs).
Proof. apply den_RStrI. by exists p. Qed.

(** A block: [<div], text, the mark, text, [</div>], with no other [</div>]. *)
Definition block (m a b : jstr) : jstr := js "<div" ++ a ++ m ++ b ++ close_div.
Definition block_body (m a b : jstr) : jstr := js "<div" ++ a ++ m ++ b.
Record block_ok (m a b : jstr) : Prop := {
  bo_mark : plain_mark m = true;
  bo_a : one_line a = true;
  bo_b : one_line b = true;
  bo_close : containsI close_div (block_body m a b) = false
}.

Lemma close_div_eq : close_div = 60%N :: tail close_div.
Proof. done. Qed.

Lemma block_no_close m a b v : block_ok m a b →
  no_close (block_body m a b ++ close_div ++ v) (length (block_body m a b)).
Proof.
  intros [_ _ _ Hc] k Hk. rewrite close_div_eq at 2. by apply no_cross.
Qed.

Lemma no_close_suffix u x n : no_close (u ++ x) n → no_close x (n - length u).
Proof. intros H k Hk. rewrite <-(drop_app_add u). apply H. lia. Qed.

Lemma den_block m a b v n cs : block_ok m a b →
  ∃ st', den (block_re m) (MState n (block m a b ++ v) cs) st' ∧ m_rest st' = v.
Proof.
  intros Hok. pose proof (block_no_close m a b v Hok) as Hn. destruct Hok as [Hm Ha Hb _].
  unfold block_re. cbn [RSeqs List.fold_right].
  replace (block m a b ++ v) with (js "<div" ++ a ++ m ++ b ++ close_div ++ v)
    by (unfold block; by rewrite <-!app_assoc).
  unfold block_body in Hn. rewrite <-!app_assoc in Hn.
  assert (no_close (a ++ m ++ b ++ close_div ++ v) (length a)) as Ha'.
  { pose proof (no_close_suffix _ _ _ Hn) as H.
    intros k Hk. apply H. rewrite !length_app. lia. }
  assert (no_close (b ++ close_div ++ v) (length b)) as Hb'.
  { replace (js "<div" ++ a ++ m ++ b ++ close_div ++ v)
      with ((js "<div" ++ a ++ m) ++ b ++ close_div ++ v) in Hn by (by rewrite <-!app_assoc).
    pose proof (no_close_suffix _ _ _ Hn) as H.
    intros k Hk. apply H. rewrite !length_app. lia. }
  destruct (den_inside a (m ++ b ++ close_div ++ v) (n + length (js "<div")) cs Ha Ha') as (cs1 & D1).
  destruct (den_inside b (close_div ++ v) (n + length (js "<div") + length a + length m) cs1 Hb Hb')
    as (cs2 & D2).
  set (n2 := n + length (js "<div") + length a + length m) in *.
  assert (∃ cs3, den (RStar true (RCap (RSeq inside_div (RStar true (RStr [10%N])))))
            (MState n2 (b ++ close_div ++ v) cs1) (MState (n2 + length b) (close_div ++ v) cs3))
    as (cs3 & D3).
  { destruct b as [|c b].
    - exists cs1. simpl. rewrite Nat.add_0_r. constructor.
    - set (st2 := MState (n2 + length (c :: b)) (close_div ++ v) cs2) in *.
      set (st1 := MState n2 ((c :: b) ++ close_div ++ v) cs1) in *.
      exists (m_caps st2 ++ [take (m_pos st2 - m_pos st1) (m_rest st1)]).
      eapply iter_step; [| |apply iter_done].
      + exists st2. split; [|done]. exists st2. split; [exact D2|apply iter_done].
      + unfold st1. cbn [m_rest]. rewrite !length_app. simpl. lia. }
  exists (MState (n2 + length b + length close_div) v cs3). split; [|done].
  exists (MState (n + length (js "<div")) (a ++ m ++ b ++ close_div ++ v) cs). split; [apply den_lit|].
  eexists. split; [exact D1|].
  exists (MState n2 (b ++ close_div ++ v) cs1). split; [apply den_lit|].
  eexists. split; [exact D3|].
  eexists. split; [apply den_lit|]. done.
Qed.

(** The block is what is matched, and all of it. *)
Lemma block_match m a b u v : block_ok m a b →
  ∃ st, match_at (block_re m) (u ++ block m a b ++ v) (length u) = Some st ∧ m_rest st = v.
Proof.
  intros Hok. destruct (match_at (block_re m) (u ++ block m a b ++ v) (length u)) as [st|] eqn:E.
  - exists st. split; [done|]. apply match_at_spec in E.
    unfold start in E. rewrite drop_app_length in E.
    apply block_extent in E as (w & d & E & Hw & Hd); [|by destruct Hok].
    cbn [m_rest] in *. pose proof (block_no_close m a b v Hok) as Hn.
    assert (block m a b ++ v = block_body m a b ++ close_div ++ v) as Eb
      by (unfold block, block_body; by rewrite <-!app_assoc).
    assert (length w = length (block_body m a b)) as Hlen.
    { assert (beginsI close_div (drop (length w) (block m a b ++ v))) as H1.
      { rewrite E, drop_app_length. by exists d, (m_rest st). }
      assert (beginsI close_div (drop (length (block_body m a b)) (block m a b ++ v))) as H2.
      { rewrite Eb, drop_app_length. by exists close_div, v. }
      rewrite Eb in H1. rewrite E in H2. rewrite E in Hw.
      destruct (lt_eq_lt_dec (length w) (length (block_body m a b))) as [[Hlt| ->]|Hgt]; [|done|].
      - by destruct (Hn _ Hlt).
      - by destruct (Hw _ Hgt). }
    rewrite Eb in E. apply app_inj_1 in E as [_ E]; [|done].
    apply app_inj_1 in E as [_ E]; [done|].
    apply (f_equal length) in Hd. rewrite !List.length_map in Hd. lia.
  - exfalso. rewrite match_at_None in E. destruct (den_block m a b v (length u) [] Hok) as (st & Hd & _).
    apply (E st). unfold start. by rewrite drop_app_length.
Qed.

(** Every [<div] of the text is followed by a [</div>] or an end of line. *)
Definition beginsIb (p s : jstr) : bool := starts_with (List.map upcase p) (List.map upcase s).
Definition ends_div (s : jstr) : bool := containsI close_div s || existsb is_line_end s.
Definition closed_divs (u : jstr) : bool :=
  forallb (λ k, negb (beginsIb (js "<div") (drop k u)) || ends_div (drop k u)) (seq 0 (length u)).

Lemma beginsIb_true p s : beginsI p s → beginsIb p s = true.
Proof.
  intros (q & t & -> & Hq). apply starts_with_spec. exists (List.map upcase t).
  by rewrite List.map_app, Hq.
Qed.

Lemma den_inside_line st st' : den inside_div st st' →
  ∃ w, m_rest st = w ++ m_rest st' ∧ one_line w = true.
Proof.
  induction 1 as [st|st st1 st2 (x & (y & [-> _] & (c & s & E & Hc & ->)) & ->) _ _ (w & E2 & Hw)].
  - by exists [].
  - cbn [m_rest] in *. exists (c :: w). rewrite E, E2. split; [done|].
    cbn [one_line forallb]. by rewrite Hc.
Qed.

Lemma one_line_no_end w : one_line w = true → existsb is_line_end w = false.
Proof.
  induction w as [|c w IH]; [done|]. cbn [one_line forallb existsb].
  intros [Hc Hw]%andb_true_iff. apply negb_true_iff in Hc. by rewrite Hc, IH.
Qed.

Lemma div_no_end q : List.map upcase q = List.map upcase (js "<div") → existsb is_line_end q = false.
Proof.
  destruct q as [|a [|b [|c [|d [|? ?]]]]]; try done. intros [= H1 H2 H3 H4].
  assert (∀ x y, upcase x = upcase y → is_alpha y || (y =? 60)%N = true → is_line_end x = false) as Hx.
  { intros x y E Hy. unfold is_line_end, upcase, is_alpha in *.
    destruct ((97 <=? x)%N && (x <=? 122)%N) eqn:E1, ((97 <=? y)%N && (y <=? 122)%N) eqn:E2;
      repeat match goal with
      | H : _ && _ = true |- _ => apply andb_true_iff in H as [? ?]
      | H : (_ <=? _)%N = true |- _ => apply N.leb_le in H
      end; apply not_true_is_false; intros Hl; rewrite !orb_true_iff, !N.eqb_eq in Hl;
      rewrite ?orb_true_iff, ?andb_true_iff, ?N.leb_le, ?N.eqb_eq in Hy; try lia. }
  cbn [existsb]. by rewrite (Hx a _ H1 eq_refl), (Hx b _ H2 eq_refl), (Hx c _ H3 eq_refl),
    (Hx d _ H4 eq_refl).
Qed.

(** No match begins in front of the block. *)
Lemma no_match_before m u t k :
  plain_mark m = true → closed_divs u = true → containsI m u = false → k < length u →
  match_at (block_re m) (u ++ 60%N :: t) k = None.
Proof.
  intros Hm Hu Hmu Hk. apply match_at_None.
  intros st' (st1 & Hd1 & st2 & Hd2 & st3 & Hd3 & _).
  set (s := u ++ 60%N :: t) in *.
  assert (beginsI (js "<div") (drop k s)) as Hdiv
    by (apply (den_RStrI_begins _ (start s k)); by exists st1).
  assert (safe (start s k) st2) as (w & E & Hw)
    by (eapply safe_trans; [by apply safe_div|by apply safe_inside]).
  assert (existsb is_line_end w = false) as Hline.
  { apply den_RStrI in Hd1 as (q & E1 & Hq & _).
    apply den_inside_line in Hd2 as (w2 & E2 & Hw2).
    assert (w = q ++ w2) as -> by (rewrite E1, E2, app_assoc in E; by apply app_inv_tail in E).
    rewrite existsb_app, div_no_end, one_line_no_end by done. done. }
  assert (beginsI m (m_rest st2)) as Hmark by (apply den_RStrI_begins; by exists st3).
  unfold start in E, Hw. cbn [m_rest] in E, Hw.
  assert (m_rest st2 = drop (k + length w) s) as Er by (by rewrite <-drop_drop, E, drop_app_length).
  rewrite Er in Hmark.
  assert (length u ≤ k + length w) as Hlong.
  { destruct (decide (length u ≤ k + length w)) as [|Hlt]; [done|]. exfalso.
    apply (no_cross m u t) in Hmark; [done| |done|lia].
    destruct m as [|c m]; [done|]. cbn [plain_mark forallb tail] in *.
    by apply andb_true_iff in Hm as [_ ?]. }
  assert (ends_div (drop k u) = true) as Hends.
  { unfold closed_divs in Hu. rewrite forallb_forall in Hu. specialize (Hu k).
    rewrite beginsIb_true in Hu by (by eapply no_cross_begins). apply Hu, in_seq. lia. }
  unfold s in E. rewrite drop_app_le in E by lia.
  unfold ends_div in Hends. apply orb_true_iff in Hends as [Hc|He].
  - apply contains_beginsI in Hc as (j & _ & Hb). pose proof (beginsI_length _ _ Hb) as Hl.
    rewrite !length_drop in Hl. change (length close_div) with 6 in Hl.
    apply (Hw j); [lia|]. unfold s. rewrite drop_app_le by lia.
    rewrite (drop_app_le (drop k u)) by (rewrite length_drop; lia).
    destruct Hb as (q & r & -> & Hq). exists q, (r ++ 60%N :: t). by rewrite <-app_assoc.
  - assert (drop k u = take (length u - k) w) as Hpre.
    { apply (f_equal (take (length u - k))) in E.
      rewrite take_app_le in E by (rewrite length_drop; lia).
      rewrite take_app_le in E by lia. rewrite <-E. symmetry. apply take_ge.
      rewrite length_drop. lia. }
    rewrite <-(take_drop (length u - k) w), existsb_app, <-Hpre, He in Hline. done.
Qed.

(** Taking a block out of a text whose earlier [<div]s are closed and that has
    no other mark. *)
Lemma strip_block m a b u v :
  block_ok m a b → closed_divs u = true → containsI m u = false → containsI m v = false →
  replace_all (block_re m) [] (u ++ block m a b ++ v) = u ++ v.
Proof.
  intros Hok Hu Hmu Hv. destruct (block_match m a b u v Hok) as (st & Hm & Hr).
  rewrite (replace_all_one _ _ u (block m a b) v st); [done|done|done|done| |].
  - intros k Hk. apply no_match_before; [by destruct Hok|done..].
  - intros k Hk. apply match_at_None. intros st' (st1 & Hd1 & st2 & Hd2 & st3 & Hd3 & _).
    assert (beginsI m (m_rest st2)) as Hb by (apply den_RStrI_begins; by exists st3).
    apply den_consumes in Hd1 as (w1 & E1 & _), Hd2 as (w2 & E2 & _).
    unfold start in E1. cbn [m_rest] in E1.
    rewrite app_assoc, drop_app_ge in E1 by (rewrite length_app; lia).
    assert (containsI m v = true); [|congruence].
    set (j := k - length (u ++ block m a b)) in *.
    apply (beginsI_contains m v (j + length (w1 ++ w2))).
    by rewrite <-drop_drop, E1, E2, app_assoc, drop_app_length.
Qed.

(** *** The header and the footer are blocks *)

(** An address without markup, as [appUrl] is. *)
Definition url_ok (s : jstr) : bool :=
  forallb (λ c, negb (upcase c =? 60)%N && negb (is_line_end c) && negb (c =? 36)%N) s.

Definition block_a : jstr := jsq " id=`".
Definition header_b1 : jstr :=
  jsq "` " ++ font_style ++ jsq "如果您想分享此邮件，请点击&nbsp;<a href=".
Definition header_b2 : jstr :=
  jsq "/forward` target=`_blank`>转发给好友</a>" ++ js "<br />"
  ++ jsq "如果您不想再接收此类邮件，请点击&nbsp;<a href=".
Definition header_b3 : jstr := jsq "/unsubscribe` target=`_blank`>退订</a>".
Definition quote : jstr := [34%N].
Definition header_b (appUrl : jstr) : jstr :=
  (header_b1 ++ quote) ++ appUrl ++ (header_b2 ++ quote) ++ appUrl ++ header_b3.
Definition footer_b1 : jstr :=
  jsq "` " ++ font_style ++ jsq "如果您觉得此封邮件给您带来了不便，您还可以 <a href=".
Definition footer_b2 : jstr := jsq "/complain` target=`_blank`>投诉</a>".
Definition footer_b (appUrl : jstr) : jstr := (footer_b1 ++ quote) ++ appUrl ++ footer_b2.

Lemma header_block id appUrl : header_html id appUrl = block id block_a (header_b appUrl).
Proof.
  unfold header_html, block, header_b.
  assert (jsq "<div id=`" = js "<div" ++ block_a) as -> by reflexivity.
  assert (jsq "如果您想分享此邮件，请点击&nbsp;<a href=`"
          = jsq "如果您想分享此邮件，请点击&nbsp;<a href=" ++ quote) as -> by reflexivity.
  assert (jsq "如果您不想再接收此类邮件，请点击&nbsp;<a href=`"
          = jsq "如果您不想再接收此类邮件，请点击&nbsp;<a href=" ++ quote) as -> by reflexivity.
  unfold header_b1, header_b2, header_b3, close_div. rewrite <-!app_assoc. reflexivity.
Qed.

Lemma footer_block id appUrl : footer_html id appUrl = block id block_a (footer_b appUrl).
Proof.
  unfold footer_html, block, footer_b.
  assert (jsq "<div id=`" = js "<div" ++ block_a) as -> by reflexivity.
  assert (jsq "如果您觉得此封邮件给您带来了不便，您还可以 <a href=`"
          = jsq "如果您觉得此封邮件给您带来了不便，您还可以 <a href=" ++ quote) as -> by reflexivity.
  unfold footer_b1, footer_b2, close_div. rewrite <-!app_assoc. reflexivity.
Qed.

Lemma url_no_close x : url_ok x = true →
  forallb (λ d, negb (upcase d =? upcase 60)%N) x = true ∧ one_line x = true.
Proof.
  unfold url_ok. rewrite forallb_forall. intros H. split; apply forallb_forall;
    intros c Hc; specialize (H c Hc); bool_simp.
  - by apply negb_true_iff.
  - by apply negb_true_iff.
Qed.

Lemma close_after_url x y : url_ok x = true →
  containsI close_div y = false → containsI close_div (x ++ y) = false.
Proof. intros Hx. apply containsI_skip. by apply url_no_close. Qed.

Lemma one_line_app x y : one_line (x ++ y) = one_line x && one_line y.
Proof. apply forallb_app. Qed.

Lemma header_ok id appUrl :
  id = page_header ∨ id = phone_page_header → url_ok appUrl = true →
  block_ok id block_a (header_b appUrl).
Proof.
  intros Hid Hu. destruct (url_no_close _ Hu) as [_ Hl]. constructor.
  - destruct Hid as [-> | ->]; vm_compute; reflexivity.
  - vm_compute; reflexivity.
  - unfold header_b. rewrite !one_line_app, Hl. vm_compute. reflexivity.
  - unfold block_body, header_b.
    replace (js "<div" ++ block_a ++ id ++ (header_b1 ++ quote) ++ appUrl ++
             (header_b2 ++ quote) ++ appUrl ++ header_b3)
      with (((js "<div" ++ block_a ++ id ++ header_b1) ++ quote) ++ appUrl ++
            ((header_b2 ++ quote) ++ (appUrl ++ header_b3)))
      by (rewrite <-!app_assoc; reflexivity).
    apply containsI_last; [| |vm_compute; reflexivity].
    + destruct Hid as [-> | ->]; vm_compute; reflexivity.
    + apply close_after_url; [done|]. apply containsI_last; [| |vm_compute; reflexivity].
      * vm_compute; reflexivity.
      * apply close_after_url; [done|]. vm_compute; reflexivity.
Qed.

Lemma footer_ok id appUrl :
  id = page_footer ∨ id = phone_page_footer → url_ok appUrl = true →
  block_ok id block_a (footer_b appUrl).
Proof.
  intros Hid Hu. destruct (url_no_close _ Hu) as [_ Hl]. constructor.
  - destruct Hid as [-> | ->]; vm_compute; reflexivity.
  - vm_compute; reflexivity.
  - unfold footer_b. rewrite !one_line_app, Hl. vm_compute. reflexivity.
  - unfold block_body, footer_b.
    replace (js "<div" ++ block_a ++ id ++ (footer_b1 ++ quote) ++ appUrl ++ footer_b2)
      with (((js "<div" ++ block_a ++ id ++ footer_b1) ++ quote) ++ (appUrl ++ footer_b2))
      by (rewrite <-!app_assoc; reflexivity).
    apply containsI_last; [| |vm_compute; reflexivity].
    + destruct Hid as [-> | ->]; vm_compute; reflexivity.
    + apply close_after_url; [done|]. vm_compute; reflexivity.
Qed.

(** *** The tag of the body *)

Definition tag_of (name q attrs : jstr) : Prop :=
  List.map upcase q = List.map upcase name ∧ (62%N ∉ attrs).

Lemma body_tag_den name n s st' :
  den (body_tag name) (MState n s []) st' →
  ∃ q t, s = (q ++ t ++ [62%N]) ++ m_rest st' ∧ tag_of name q t ∧ m_caps st' = [q ++ t ++ [62%N]].
Proof.
  intros (st3 & (st1 & (q & E1 & Hq & ->)%den_RStrI & st2 & H2 & (st4 & (c & r & E4 & Hc & ->) & ->)) & ->).
  cbn [m_rest m_pos m_caps] in *.
  apply den_star_set in H2 as (t & E2 & Ht & E3). cbn [m_rest m_pos m_caps] in *.
  apply N.eqb_eq in Hc. subst c. exists q, t.
  assert (m_caps st2 = [] ∧ m_pos st2 = n + length name + length t) as [Ec Ep] by (by rewrite E3).
  rewrite Ec, Ep. cbn [app].
  assert (s = (q ++ t ++ [62%N]) ++ r) as Es by (rewrite E1, E2, E4; by rewrite <-!app_assoc).
  split; [done|]. split.
  - split; [done|]. intros Hin. rewrite Forall_forall in Ht. by specialize (Ht _ Hin).
  - f_equal. rewrite Es. replace (S (n + length name + length t) - n) with (length (q ++ t ++ [62%N])).
    + apply take_app_length.
    + apply (f_equal length) in Hq. rewrite !List.length_map in Hq.
      rewrite !length_app. simpl. lia.
Qed.

Lemma body_tag_match name q attrs pre post :
  tag_of name q attrs →
  ∃ st, match_at (body_tag name) (pre ++ (q ++ attrs ++ [62%N]) ++ post) (length pre) = Some st
      ∧ m_rest st = post ∧ m_caps st = [q ++ attrs ++ [62%N]].
Proof.
  intros [Hq Ha]. set (s := pre ++ _). destruct (match_at (body_tag name) s (length pre)) as [st|] eqn:E.
  - exists st. split; [done|]. apply match_at_spec in E. unfold start, s in E.
    rewrite drop_app_length in E. apply body_tag_den in E as (q' & t' & E & [Hq' Ht'] & Hc).
    rewrite <-!app_assoc in E. apply app_inj_1 in E as [<- E].
    + assert (attrs = t') as <-.
      { clear -E Ha Ht'. revert t' E Ht'. induction attrs as [|c attrs IH]; intros [|d t'] E Ht'.
        - done.
        - injection E as <- _. apply not_elem_of_cons in Ht' as [? _]. done.
        - injection E as -> _. apply not_elem_of_cons in Ha as [? _]. done.
        - injection E as -> E. apply not_elem_of_cons in Ha as [_ Ha], Ht' as [_ Ht'].
          f_equal. by apply IH. }
      apply app_inv_head in E. injection E as E. by rewrite <-E.
    + apply (f_equal length) in Hq, Hq'. rewrite !List.length_map in Hq, Hq'. congruence.
  - exfalso. rewrite match_at_None in E. unfold start, s in E. rewrite drop_app_length in E.
    set (n := length pre) in *. eapply E.
    eexists. split; [|reflexivity].
    exists (MState (n + length name) (attrs ++ [62%N] ++ post) []). split.
    { apply den_RStrI. exists q. cbn [m_rest]. by rewrite <-!app_assoc. }
    exists (MState (n + length name + length attrs) ([62%N] ++ post) []). split.
    { apply den_star_set. exists attrs. split; [done|]. split; [|done].
      apply Forall_forall. intros c Hc. apply negb_true_iff, N.eqb_neq. intros ->. done. }
    eexists. split; [|reflexivity]. exists 62%N, post. done.
Qed.

(** The tags start with [<], and have no other in their name. *)
Definition tag_name (name : jstr) : bool :=
  match name with c :: p => (c =? 60)%N && plain_mark p | [] => false end.

Lemma upcase_lt c : upcase c = 60%N → c = 60%N.
Proof.
  unfold upcase. destruct ((97 <=? c)%N && (c <=? 122)%N) eqn:E; [|done].
  apply andb_true_iff in E as [E1 E2]. apply N.leb_le in E1. lia.
Qed.

Lemma tag_of_cons name q attrs : tag_name name = true → tag_of name q attrs → ∃ q', q = 60%N :: q'.
Proof.
  intros Hn [Hq _]. destruct name as [|c p]; [done|]. cbn [tag_name] in Hn.
  apply andb_true_iff in Hn as [Hc _]. apply N.eqb_eq in Hc. subst c.
  destruct q as [|d q]; [done|]. injection Hq as Hd _. apply upcase_lt in Hd. subst d. by exists q.
Qed.

(** Replacing the only tag of the text. *)
Lemma replace_body_tag name q attrs pre post rep :
  tag_name name = true → tag_of name q attrs →
  containsI name pre = false → containsI name post = false →
  let tag := q ++ attrs ++ [62%N] in
  test (body_tag name) (pre ++ tag ++ post) = true ∧
  replace_all (body_tag name) rep (pre ++ tag ++ post) = pre ++ expand pre tag post [tag] rep ++ post.
Proof.
  intros Hn Ht Hpre Hpost tag.
  destruct (body_tag_match name q attrs pre post Ht) as (st & Hm & Hr & Hc). fold tag in Hm, Hc.
  destruct (tag_of_cons name q attrs Hn Ht) as (q' & Hq').
  split.
  { apply test_spec. exists (length pre), st. split; [rewrite length_app; lia|].
    by apply match_at_spec. }
  rewrite (replace_all_one _ _ pre tag post st); [by rewrite Hc| |done|done| |].
  - unfold tag. by rewrite Hq'.
  - intros k Hk. apply match_at_None. intros st' (st1 & (st2 & Hd & _) & _).
    assert (beginsI name (drop k (pre ++ tag ++ post))) as Hb
      by (apply (den_RStrI_begins _ (start _ k)); by exists st2).
    unfold tag in Hb. rewrite Hq' in Hb. cbn [app] in Hb. revert Hb. apply no_cross; [|done|done].
    destruct name as [|c p]; [done|]. cbn [tag_name tail] in *. by apply andb_true_iff in Hn as [_ ?].
  - intros k Hk. apply match_at_None. intros st' (st1 & (st2 & Hd & _) & _).
    assert (beginsI name (drop k (pre ++ tag ++ post))) as Hb
      by (apply (den_RStrI_begins _ (start _ k)); by exists st2).
    rewrite app_assoc, drop_app_ge in Hb by (rewrite length_app; lia).
    apply beginsI_contains in Hb. congruence.
Qed.

(** *** Adding and removing *)

(** Where the header goes: after the tag of the body, or in front. *)
Inductive header_place : jstr → jstr → jstr → Prop :=
| hp_front prop : test body_open prop = false → header_place prop [] prop
| hp_body pre q attrs post :
    tag_of (js "<body") q attrs → containsI (js "<body") pre = false →
    containsI (js "<body") post = false →
    header_place (pre ++ (q ++ attrs ++ [62%N]) ++ post) (pre ++ q ++ attrs ++ [62%N]) post.

(** Where the footer goes: before the closing tag of the body, or at the end. *)
Inductive footer_place : jstr → jstr → jstr → Prop :=
| fp_end prop : test body_close prop = false → footer_place prop prop []
| fp_body pre q attrs post :
    tag_of (js "</body") q attrs → containsI (js "</body") pre = false →
    containsI (js "</body") post = false →
    footer_place (pre ++ (q ++ attrs ++ [62%N]) ++ post) pre ((q ++ attrs ++ [62%N]) ++ post).

Lemma expand_dollar1 pre m post caps c rep :
  caps !! 0 = Some c → expand pre m post caps (js "$1" ++ rep) = c ++ expand pre m post caps rep.
Proof.
  intros Hc. change (js "$1" ++ rep) with (36%N :: 49%N :: rep). cbn [expand].
  change (match caps !! 0 with Some c => c ++ expand pre m post caps rep
          | None => 36%N :: expand pre m post caps (49%N :: rep) end = c ++ expand pre m post caps rep).
  by rewrite Hc.
Qed.

Lemma expand_app_dollar1 pre m post caps c rep : 36%N ∉ rep →
  caps !! 0 = Some c → expand pre m post caps (rep ++ js "$1") = rep ++ c.
Proof.
  intros Hr Hc. induction rep as [|x rep IH].
  - change ([] ++ js "$1") with (js "$1" ++ []). rewrite (expand_dollar1 _ _ _ _ c) by done.
    simpl. by rewrite app_nil_r.
  - apply not_elem_of_cons in Hr as [Hx Hr].
    assert (∀ k, expand pre m post caps (x :: rep ++ js "$1") = x :: k → k = rep ++ c →
      expand pre m post caps ((x :: rep) ++ js "$1") = (x :: rep) ++ c) as Hk by (intros k E ->; done).
    eapply Hk; [|by apply IH]. cbn [expand].
    destruct x as [|p]; [done|]. do 6 (destruct p as [p|p|]; try done).
Qed.

Lemma addHeader_place header prop u v : (36%N ∉ header) →
  header_place prop u v → prop = u ++ v ∧ addHeader_text header prop = u ++ header ++ v.
Proof.
  intros Hh [p Hp|pre q attrs post Ht Hpre Hpost]; unfold addHeader_text.
  - by rewrite Hp.
  - unfold body_open. destruct (replace_body_tag (js "<body") q attrs pre post (js "$1" ++ header)) as [-> ->]; try done.
    rewrite (expand_dollar1 _ _ _ _ (q ++ attrs ++ [62%N])) by done.
    rewrite expand_plain by done. split; by rewrite <-!app_assoc.
Qed.

Lemma addFooter_place footer prop u v : (36%N ∉ footer) →
  footer_place prop u v → prop = u ++ v ∧ addFooter_text footer prop = u ++ footer ++ v.
Proof.
  intros Hh [p Hp|pre q attrs post Ht Hpre Hpost]; unfold addFooter_text.
  - rewrite Hp. by rewrite !app_nil_r.
  - unfold body_close. destruct (replace_body_tag (js "</body") q attrs pre post (footer ++ js "$1")) as [-> ->]; try done.
    rewrite (expand_app_dollar1 _ _ _ _ (q ++ attrs ++ [62%N])) by done.
    split; [done|]. by rewrite <-!app_assoc.
Qed.

(** No [$] in the blocks. *)
Lemma url_no_dollar x : url_ok x = true → 36%N ∉ x.
Proof.
  unfold url_ok. rewrite forallb_forall. intros H Hin%list_elem_of_In. specialize (H _ Hin).
  by bool_simp.
Qed.

Lemma header_no_dollar id appUrl :
  id = page_header ∨ id = phone_page_header → url_ok appUrl = true → 36%N ∉ header_html id appUrl.
Proof.
  intros Hid Hu%url_no_dollar. unfold header_html. rewrite !not_elem_of_app.
  repeat split; try done; try not_in. destruct Hid as [-> | ->]; not_in.
Qed.

Lemma footer_no_dollar id appUrl :
  id = page_footer ∨ id = phone_page_footer → url_ok appUrl = true → 36%N ∉ footer_html id appUrl.
Proof.
  intros Hid Hu%url_no_dollar. unfold footer_html. rewrite !not_elem_of_app.
  repeat split; try done; try not_in. destruct Hid as [-> | ->]; not_in.
Qed.

(** ** Properties *)

(** C32 -- unticking the header gives back the text it was
    ticked on: for a text with one [<body>] tag or none, whose earlier [<div>]s
    are closed and which does not speak of the header, [delHeader] undoes
    [addHeader]. *)
Theorem header_roundtrip id appUrl prop u v :
  id = page_header ∨ id = phone_page_header → url_ok appUrl = true →
  header_place prop u v →
  closed_divs u = true → containsI id u = false → containsI id v = false →
  delHeader_text id (addHeader_text (header_html id appUrl) prop) = prop.
Proof.
  intros Hid Hurl Hp Hu Hiu Hiv. pose proof (header_no_dollar _ _ Hid Hurl) as Hd.
  destruct (addHeader_place _ _ _ _ Hd Hp) as [Hprop ->].
  unfold delHeader_text. rewrite header_block, strip_block; [done|by apply header_ok|done..].
Qed.

Lemma header_roundtrip_witness :
  let post := jsq "<div id=`a`>hello</div></body></html>" in
  let body := jsq "<body class=`x`>" in
  delHeader_text page_header (addHeader_text (header_html page_header (js "http://139edm.com"))
    (js "<html>" ++ body ++ post)) = js "<html>" ++ body ++ post.
Proof.
  apply (header_roundtrip page_header (js "http://139edm.com") _
    (js "<html>" ++ jsq "<body class=`x`>") (jsq "<div id=`a`>hello</div></body></html>")).
  - by left.
  - by vm_compute.
  - apply (hp_body (js "<html>") (js "<body") (jsq " class=`x`")); [|by vm_compute..].
    split; [by vm_compute|not_in].
  - by vm_compute.
  - by vm_compute.
  - by vm_compute.
Defined.

(** the same for the footer, before [</body>] or at the
    end of the text. *)
Theorem footer_roundtrip id appUrl prop u v :
  id = page_footer ∨ id = phone_page_footer → url_ok appUrl = true →
  footer_place prop u v →
  closed_divs u = true → containsI id u = false → containsI id v = false →
  delFooter_text id (addFooter_text (footer_html id appUrl) prop) = prop.
Proof.
  intros Hid Hurl Hp Hu Hiu Hiv. pose proof (footer_no_dollar _ _ Hid Hurl) as Hd.
  destruct (addFooter_place _ _ _ _ Hd Hp) as [Hprop ->].
  unfold delFooter_text. rewrite footer_block, strip_block; [done|by apply footer_ok|done..].
Qed.

Lemma footer_roundtrip_witness :
  let pre := jsq "<html><body><div><div id=`a`>hello</div></div>" in
  delFooter_text phone_page_footer (addFooter_text (footer_html phone_page_footer (js "http://139edm.com"))
    (pre ++ js "</BODY></html>")) = pre ++ js "</BODY></html>".
Proof.
  apply (footer_roundtrip phone_page_footer (js "http://139edm.com") _
    (jsq "<html><body><div><div id=`a`>hello</div></div>") (js "</BODY></html>")).
  - by right.
  - by vm_compute.
  - apply (fp_body _ (js "</BODY") [] (js "</html>")); [|by vm_compute..].
    split; [by vm_compute|not_in].
  - by vm_compute.
  - by vm_compute.
  - by vm_compute.
Defined.
