(* ===== verification/Template.v ===== *)
(** * The template editor -- [mailing.template.common.js],
    [mailing.template.add.js]

    A template has a PC text and a phone text, each edited in a rich-text
    editor or as plain text; the page keeps the mode of each, the editors that
    exist, and the two encodings of an uploaded text. *)

From S2P Require Import Prelude Js JsFacts Regex Page TagList Base Widgets Search Select Markup.
#[local] Open Scope Z_scope.

(** ** The rich-text editor *)

(** KindEditor, as the scripts use it: an editor is created on a text area, and
    its contents are read, replaced, extended at the caret, at either end, or
    relieved of an element by its id. *)
Class KindEditor (E : Type) := {
  ke_create : jstr → E;
  ke_html : E → jstr;
  ke_set_html : jstr → E → E;
  ke_insertHtml : jstr → E → E;
  ke_prepend : jstr → E → E;
  ke_append : jstr → E → E;
  ke_remove_id : jstr → E → E
}.

(** Text that the editor shows and gives back unchanged, as it is set up
    ([filterMode] and [wellFormatMode] off). *)
Class KindEditorLaws (E : Type) `{!KindEditor E} (normal : jstr → Prop) := {
  ke_set_get s e : normal s → ke_html (ke_set_html s e) = s;
  ke_insert_get s e : normal s → ke_html (ke_insertHtml s (ke_set_html [] e)) = s
}.

(** ** The variables of the page *)

Record template (E : Type) := Template {
  eModel : jstr;
  eModelPhone : jstr;
  ed_K : option E;               (* [K], while the editor exists *)
  ed_K1 : option E;              (* [K1] *)
  codeModel : jstr;
  codeModelPhone : jstr;
  codeResource : option (jstr * jstr);  (* [UTF8], [GB2312] *)
  appUrl : jstr
}.
Arguments Template {E}.
Arguments eModel {E}.
Arguments eModelPhone {E}.
Arguments ed_K {E}.
Arguments ed_K1 {E}.
Arguments codeModel {E}.
Arguments codeModelPhone {E}.
Arguments codeResource {E}.
Arguments appUrl {E}.

(** The two texts of a template. *)
Inductive side := PC | Phone.
#[export] Instance side_eq_dec : EqDecision side.
Proof. solve_decision. Defined.
Definition area (s : side) : jstr := match s with PC => js "#templateContent" | Phone => js "#phoneContent" end.

Section variables.
Context {E : Type}.
Implicit Types g : template E.

Definition model_of (s : side) g : jstr := match s with PC => eModel g | Phone => eModelPhone g end.
Definition editor_of (s : side) g : option E := match s with PC => ed_K g | Phone => ed_K1 g end.
Definition with_model (s : side) (m : jstr) g : template E :=
  match s with
  | PC => Template m (eModelPhone g) (ed_K g) (ed_K1 g) (codeModel g) (codeModelPhone g) (codeResource g) (appUrl g)
  | Phone => Template (eModel g) m (ed_K g) (ed_K1 g) (codeModel g) (codeModelPhone g) (codeResource g) (appUrl g)
  end.
Definition with_editor (s : side) (o : option E) g : template E :=
  match s with
  | PC => Template (eModel g) (eModelPhone g) o (ed_K1 g) (codeModel g) (codeModelPhone g) (codeResource g) (appUrl g)
  | Phone => Template (eModel g) (eModelPhone g) (ed_K g) o (codeModel g) (codeModelPhone g) (codeResource g) (appUrl g)
  end.
Definition with_codeModel (c : jstr) g : template E :=
  Template (eModel g) (eModelPhone g) (ed_K g) (ed_K1 g) c (codeModelPhone g) (codeResource g) (appUrl g).
Definition with_codeModelPhone (c : jstr) g : template E :=
  Template (eModel g) (eModelPhone g) (ed_K g) (ed_K1 g) (codeModel g) c (codeResource g) (appUrl g).
End variables.

Definition WYSIWYG : jstr := js "WYSIWYG".
Definition TEXT : jstr := js "TEXT".
Definition UTF8 : jstr := js "UTF8".
Definition GB2312 : jstr := js "GB2312".

Section scripts.
Context {E : Type} `{!KindEditor E}.
Abbreviation T := (J (template E)).

(** [K] or [K1] used as an editor: a type error when there is none. *)
Definition editor (s : side) : T E :=
  g ← get_glob;
  match editor_of s g with Some e => mret e | None => throw (js "TypeError") end.
Definition put_editor (s : side) (o : option E) : T unit := mod_glob (with_editor s o).
Definition edit (s : side) (f : E → E) : T unit := e ← editor s; put_editor s (Some (f e)).

(** [createEditor()], [createEditor_phone()] *)
Definition create_on (s : side) : T unit :=
  v ← val (area s);
  put_editor s (Some (ke_create (field v))).
Definition createEditor : T unit := create_on PC.
Definition createEditor_phone : T unit := create_on Phone.

(** ** Headers and footers *)

(** [$("#templateContent").val()] as a string: the methods of [undefined] are
    errors. *)
Definition text_of (s : side) : T jstr :=
  v ← val (area s);
  match v with VStr t => mret t | _ => throw (js "TypeError") end.
Definition edit_text (s : side) (f : jstr → jstr) : T unit :=
  t ← text_of s;
  set_val (area s) (f t).

Definition addHeader (header : jstr) : T unit := edit_text PC (addHeader_text header).
Definition delHeader (header : jstr) : T unit := edit_text PC (delHeader_text page_header).
Definition addFooter (footer : jstr) : T unit := edit_text PC (addFooter_text footer).
Definition delFooter (footer : jstr) : T unit := edit_text PC (delFooter_text page_footer).
Definition addHeaderPhone (header : jstr) : T unit := edit_text Phone (addHeader_text header).
Definition delHeaderPhone (header : jstr) : T unit := edit_text Phone (delHeader_text phone_page_header).
Definition addFooterPhone (footer : jstr) : T unit := edit_text Phone (addFooter_text footer).
Definition delFooterPhone (footer : jstr) : T unit := edit_text Phone (delFooter_text phone_page_footer).

(** [$(box).is(":checked")] *)
Definition is_checked (box : jstr) : T bool :=
  gets (λ w, match first box w with Some e => e_checked e | None => false end).

(** The handlers of the four boxes; in the editor the block goes to either end
    of the document it edits. *)
Definition pageHeader_click : T unit :=
  g ← get_glob;
  let header := header_html page_header (appUrl g) in
  c ← is_checked (js "input[name=pageHeader]");
  if bool_decide (eModel g = WYSIWYG)
  then if c : bool then edit PC (ke_prepend header) else edit PC (ke_remove_id page_header)
  else if c : bool then addHeader header else delHeader header.
Definition pageFooter_click : T unit :=
  g ← get_glob;
  let footer := footer_html page_footer (appUrl g) in
  c ← is_checked (js "input[name=pageFooter]");
  if bool_decide (eModel g = WYSIWYG)
  then if c : bool then edit PC (ke_append footer) else edit PC (ke_remove_id page_footer)
  else if c : bool then addFooter footer else delFooter footer.
Definition pagePhoneHeader_click : T unit :=
  g ← get_glob;
  let header := header_html phone_page_header (appUrl g) in
  c ← is_checked (js "input[name=pagePhoneHeader]");
  if bool_decide (eModelPhone g = WYSIWYG)
  then if c : bool then edit Phone (ke_prepend header) else edit Phone (ke_remove_id phone_page_header)
  else if c : bool then addHeaderPhone header else delHeaderPhone header.
Definition pagePhoneFooter_click : T unit :=
  g ← get_glob;
  let footer := footer_html phone_page_footer (appUrl g) in
  c ← is_checked (js "input[name=pagePhoneFooter]");
  if bool_decide (eModelPhone g = WYSIWYG)
  then if c : bool then edit Phone (ke_append footer) else edit Phone (ke_remove_id phone_page_footer)
  else if c : bool then addFooterPhone footer else delFooterPhone footer.

(** ** Modes *)

(** [K.html('').insertHtml(prop)] *)
Definition refill (prop : jstr) (e : E) : E := ke_insertHtml prop (ke_set_html [] e).

(** [changeModel(type)] and [ph_changeModel(type)]: nothing, not even the menu
    closing, when the mode is the same. *)
Definition change_model (s : side) (mode_field type : jstr) : T unit :=
  g ← get_glob;
  if bool_decide (model_of s g = type) then skip
  else
    mod_glob (with_model s type) ;;
    set_val mode_field type ;;
    (if bool_decide (type = WYSIWYG)
     then v ← val (area s);
          create_on s ;;
          edit s (refill (field v))
     else e ← editor s;
          set_val (area s) (ke_html e) ;;
          put_editor s None) ;;
    closeSelectDiv.
Definition changeModel (type : jstr) : T unit := change_model PC (js "input[name=editor]") type.
Definition ph_changeModel (type : jstr) : T unit := change_model Phone (js "input[name=editorPhone]") type.

(** [insert(prop)], [insertPhone(prop)] *)
Definition insert_in (s : side) (prop : jstr) : T unit :=
  g ← get_glob;
  if bool_decide (model_of s g = WYSIWYG)
  then edit s (ke_insertHtml prop)
  else insert_at_caret (area s) prop.
Definition insert (prop : jstr) : T unit := insert_in PC prop.
Definition insertPhone (prop : jstr) : T unit := insert_in Phone prop.

(** ** Encodings *)

Definition phone_now : T bool := hasClass (js "#phone") (js "now").
Definition pc_now : T bool :=
  n ← size_of (js "#pc");
  c ← hasClass (js "#pc") (js "now");
  mret (c || (n <? 1)).

(** The text of an encoding. *)
Definition coded (m : jstr) (r : jstr * jstr) : jstr := if bool_decide (m = UTF8) then fst r else snd r.
Definition other_code (m : jstr) : jstr := if bool_decide (m = UTF8) then GB2312 else UTF8.

Definition changeTempCode : T unit :=
  g ← get_glob;
  match codeResource g with
  | None => skip
  | Some r =>
      let m := other_code (codeModel g) in
      mod_glob (with_codeModel m) ;;
      if bool_decide (eModel g = WYSIWYG)
      then p ← pc_now;
           when p (edit PC (ke_set_html (coded m r))) ;;
           q ← phone_now;
           when q (edit Phone (ke_set_html (coded m r)))
      else set_val (area PC) (coded m r)
  end.

(** The phone's version flips [codeModelPhone] from [codeModel], which it does
    not change, and outside the editor reads a variable that does not exist. *)
Definition changeTempCodePhone : T unit :=
  g ← get_glob;
  match codeResource g with
  | None => skip
  | Some r =>
      mod_glob (with_codeModelPhone (other_code (codeModel g))) ;;
      if bool_decide (eModelPhone g = WYSIWYG)
      then edit Phone (ke_set_html (coded (codeModel g) r))
      else throw (js "ReferenceError")
  end.

(** ** Variables in links *)

(** [new RegExp("href=\".*\\$"+str+"\\$.*\"|...","i")] for a code made of
    characters that are no operators of an expression. *)
Definition prama_re (str : jstr) : re :=
  let one attr q := RSeqs [RStrI (attr ++ js "=" ++ q); RStar true RDot; RStrI (js "$" ++ str ++ js "$");
                           RStar true RDot; RStrI q] in
  let dq := [34%N] in let sq := [39%N] in
  RAlts (one (js "href") dq) [one (js "href") sq; one (js "src") dq; one (js "src") sq].
(** [prop_list[i][0].replace(/\$/g,'')] *)
Definition bare_code (p : jstr * jstr) : jstr := List.filter (λ c, negb (c =? 36)%N) (fst p).
Definition has_prama (prop_list : list (jstr * jstr)) (k : jstr) : bool :=
  existsb (λ p, test (prama_re (bare_code p)) k) prop_list.

Definition contents (s : side) : T jstr :=
  g ← get_glob;
  if bool_decide (model_of s g = WYSIWYG)
  then e ← editor s; mret (ke_html e)
  else v ← val (area s); mret (str_of_val v).
Definition hasPrama (prop_list : list (jstr * jstr)) : T bool :=
  k ← contents PC; mret (has_prama prop_list k).
Definition hasPramaPhone (prop_list : list (jstr * jstr)) : T bool :=
  k ← contents Phone; mret (has_prama prop_list k).

Definition checked_radio (name : jstr) : jstr := js "input[name=" ++ name ++ js "]:checked".
Definition switchParam : T unit :=
  show (js "#advancedOption") ;;
  v ← val (checked_radio (js "personal"));
  if is_str v "true"
  then set_checked (js "input[name=personal][value=false]") true
  else set_checked (js "input[name=personal][value=true]") true.

(** [insertFormUrl(url,obj)]: in the editor, its own link dialog is opened and
    filled half a second later. *)
Definition link_html (url : jstr) : jstr := jsq "<a href=`" ++ url ++ jsq "`>" ++ url ++ js "</a>".
Definition insertFormUrl (url : jstr) : T unit :=
  g ← get_glob;
  if bool_decide (eModel g = WYSIWYG)
  then emit (EvClick (js "#tabMain li:nth-child(1) .ke-icon-link:nth-child(1)")) ;;
       emit (EvTimeout 500) ;;
       closeSelectDiv
  else insert_at_caret (area PC) (link_html url).
Definition insertPhoneFormUrl (url : jstr) : T unit :=
  g ← get_glob;
  if bool_decide (eModelPhone g = WYSIWYG)
  then emit (EvClick (js "#tabMain li:nth-child(2) .ke-icon-link:nth-child(1)")) ;;
       emit (EvTimeout 500) ;;
       closeSelectDiv
  else insert_at_caret (area Phone) (link_html url).
Definition form_url_later (url : jstr) : T unit := set_val (js "#keUrl") url.

(** ** Lists of choices *)

(** The menus of properties; [fn] is [insert] or [insertPhone]. *)
Definition prop_menu (fn : jstr) (l : list (jstr * jstr)) : jstr :=
  List.fold_left (λ h p, h ++ jsq "<li><a hidefocus=`true` onclick=`" ++ fn ++ js "('" ++ fst p
      ++ jsq "')` href=`javascript:void(0)` title=`" ++ snd p ++ jsq "`>" ++ snd p ++ js "</a></li>")
    l (js "<ul>") ++ js "</ul>".
(** The menus of forms; [fn] is [insertFormUrl] or [insertPhoneFormUrl]. *)
Definition form_menu (fn : jstr) (l : list (jstr * jstr)) : jstr :=
  List.fold_left (λ h p, h ++ js "<li><a hidefocus='true' onclick='" ++ fn ++ jsq "(`" ++ fst p
      ++ jsq "`,this)' href='javascript:void(0)' title='" ++ snd p ++ js "'>" ++ snd p ++ js "</a></li>")
    l (js "<ul>") ++ js "</ul>".

Definition showTempImg (id : jval) : T unit :=
  set_val (js "#recommend input[name=templateId]") (str_of_val id) ;;
  set_attr (js ".temp_img img") (js "src") (js "/static/img/template/" ++ str_of_val id ++ js ".jpg").

(** A recommended template; the first is selected. *)
Definition temp_line (i : nat) (o : obj) : jstr :=
  (if (0 <? i)%nat then js "<li>" else js "<li class='selected'>")
  ++ jsq "<a href='javascript:showTempImg(`" ++ str_of_val (o_id o) ++ jsq "`)'>"
  ++ title_str o ++ js "</a></li>".
Definition temp_lines (l : list obj) : jstr := List.concat (imap temp_line l).
Definition show_first (l : list obj) : T unit :=
  match l with o :: _ => showTempImg (o_id o) | [] => skip end.

(** The click on a category: the templates of every key equal to its id. *)
Definition cate_click (rcmTempData : list (jstr * list obj)) (id : jval) : T unit :=
  let ls := List.filter (λ c, loose_eq (VStr (fst c)) id) rcmTempData in
  for_each ls (λ c, show_first (snd c)) ;;
  set_html (js "#tempWrap ul") (List.flat_map (λ c, temp_lines (snd c)) ls).
Definition openSysForm (rcmTempData : list obj) : T unit :=
  openPop (num 0) None (Some (js "#templateRemind")) ;;
  show_first rcmTempData ;;
  set_html (js "#tempWrap ul") (temp_lines rcmTempData).

Definition createCate (arr : list (jval * jval)) : T unit :=
  set_html (js "#cateWrap ul")
    (List.fold_left (λ h c, h ++ js "<li><a href='javascript:void(0)' itemid='" ++ str_of_val (fst c) ++ js "'>"
        ++ str_of_val (snd c) ++ js "</a></li>") arr []).
(** The first category is clicked when the list shows one. *)
Definition openSysTemp (rcmCateData : list (jval * jval)) : T unit :=
  openPop (num 0) None (Some (js "#templateRemind")) ;;
  createCate rcmCateData ;;
  n ← size_of (js "#cateWrap ul");
  when (negb (bool_decide (rcmCateData = [])) && (0 <? n))
    (emit (EvClick (js "#cateWrap ul li:eq(0) a"))).

(** The history of templates, and its search line. *)
Definition importHisTemp (json : source) (fn boxId : jstr) : T unit :=
  set_html (result_list boxId) [] ;;
  createSearch json fn boxId [].
Definition his_keyup (json : source) (fn boxId : jstr) : T unit :=
  v ← val (boxId ++ js " .search_input");
  let val_txt := strip_spaces (field v) in
  if bool_decide (val_txt = []) then createSearch json fn boxId []
  else keySearch json fn boxId val_txt [].
Definition openHisTemp (hisTempData : source) : T unit :=
  importHisTemp hisTempData (js "appendHisId(this)") (js "#historyTemplate") ;;
  openPop (num 0) None (Some (js "#historyTemplate")).
Definition openPhHisTemp (hisPhoneData : source) : T unit :=
  importHisTemp hisPhoneData (js "appendPhHisId(this)") (js "#ph_historyTemplate") ;;
  openPop (num 0) None (Some (js "#ph_historyTemplate")).
Definition appendHisId (o : node) : T unit := set_val (js "#history input[name=templateId]") (n_attr o).
Definition appendPhHisId (o : node) : T unit := set_val (js "#ph_history input[name=templateId]") (n_attr o).

(** ** The answer to a template chosen *)

Record answer := Answer {
  an_code : jval; an_content : jstr; an_header : jval; an_footer : jval; an_message : jstr
}.
(** [success] of [template(form,m)] *)
Definition template_loaded (data : answer) : T unit :=
  closeDialog ;;
  if is_num (an_code data) 1
  then
    g ← get_glob;
    (if bool_decide (eModel g = WYSIWYG)
     then p ← pc_now; when p (edit PC (ke_set_html (an_content data))) ;;
          q ← phone_now; when q (edit Phone (ke_set_html (an_content data)))
     else set_val (area PC) (an_content data)) ;;
    p ← pc_now;
    when p (set_checked (js "#pageHeader") (is_str (an_header data) "on") ;;
            set_checked (js "#pageFooter") (is_str (an_footer data) "on")) ;;
    q ← phone_now;
    when q (set_checked (js "#pagePhoneHeader") (is_str (an_header data) "on") ;;
            set_checked (js "#pagePhoneFooter") (is_str (an_footer data) "on")) ;;
    error_message (VStr (an_message data)) VUndef VUndef VUndef VUndef
  else error_text (an_message data) 1.

(** ** The table of the multi-line property *)

Definition cells (label : jstr) (n : Z) : jstr :=
  List.flat_map (λ k, js "<td>" ++ label ++ str_of_Z (Z.of_nat k + 1) ++ js "</td>") (seq 0 (Z.to_nat n)).
Definition mul_table (tdSum : Z) (tbWidth : jstr) : jstr :=
  jsq "<table border=`1` bordercolor=`#000000` cellpadding=`2` cellspacing=`0` style=`"
  ++ js "text-align:center;" ++ jsq "` width=`" ++ tbWidth ++ jsq "`><tbody>"
  ++ js "<tr>" ++ cells (js "标题") tdSum ++ js "</tr>"
  ++ jsq "<tr class=`__many__`>" ++ cells (js "变量") tdSum ++ js "</tr>"
  ++ js "</tbody></table>".

(** The checks: the message, or the number of columns [k < tdSum] counts and
    the width. *)
Definition check_mul (tdSum tbWidth wdRule : jval) : jstr + (Z * jstr) :=
  if is_nan (num_of_val tbWidth) || lt_num tbWidth 1 then inl (js "表格宽度请输入大于1的数字！")
  else if is_nan (num_of_val tdSum) || gt_num tdSum 100 || lt_num tdSum 1
  then inl (js "表格列数请输入1-100以内的数字！")
  else inr (match parseInt (str_of_val tdSum) with JInt n => n | _ => 0 end,
            if is_str wdRule "px" then str_of_val tbWidth else str_of_val tbWidth ++ js "%").

(** A script whose error is caught: the page keeps what it did before it. *)
Definition caught (m : T unit) : T unit := λ w, (Ok tt, snd (m w)).

Definition insertMul : T unit :=
  tdSum ← val (js "#tdSum");
  tbWidth ← val (js "#tbWidth");
  wdRule ← val (js "#wdRule");
  match check_mul tdSum tbWidth wdRule with
  | inl mess => set_html (js ".Jmul_err") mess
  | inr (n, width) =>
      let table := mul_table n width in
      caught
        (len ← size_of (js "#phone");
         now ← phone_now;
         if negb (len =? 0) && now then insertPhone table else insert table) ;;
      closeDialog
  end.

(** ** The page of a template *)

(** [beforeSerialize] and [beforeSubmit] of the form *)
Definition sync (s : side) : T unit := e ← editor s; set_val (area s) (ke_html e).
Definition beforeSerialize : T unit :=
  g ← get_glob;
  when (bool_decide (eModel g = WYSIWYG)) (sync PC) ;;
  when (bool_decide (eModelPhone g = WYSIWYG)) (sync Phone).
Definition beforeSubmit (templateName categoryId : jstr) : T bool :=
  loading None None ;;
  if bool_decide (templateName = [])
  then error_text (js "请输入模板名称") 1 ;; emit (EvFocus (js "templateName")) ;;
       del_loading None ;; mret false
  else if bool_decide (categoryId = [])
  then error_text (js "请选择模板类别") 1 ;; del_loading None ;; mret false
  else mret true.
Definition add_success (data : answer) : T unit :=
  del_loading None ;;
  if is_num (an_code data) 1
  then error_message (VStr (an_message data)) (num 0) (num 0) (num 1000) (VStr (js "/mailing/template/page"))
  else if is_num (an_code data) 2 then popTips (js "#remindFilter") (VStr (an_message data))
  else error_text (an_message data) 1.

(** The click on [#tempSubmit] up to the comparison of the trigger links: is
    the choice of personal links the one the text needs? *)
Definition personal_mismatch (flag : bool) (cusType : jval) : option bool :=
  if (flag && is_str cusType "false") || (flag && negb (is_str cusType "true")) then Some true
  else if negb flag && is_str cusType "true" then Some false
  else None.
Definition personal_ok (prop_list : list (jstr * jstr)) : T bool :=
  cusType ← val (checked_radio (js "personal"));
  flag ← hasPrama prop_list;
  match personal_mismatch flag cusType with
  | Some true => popTips (js "#remindParam") (VStr (js "PC模板的链接含有变量，可能导致链接失常，设置链接个性化？")) ;; mret false
  | Some false => popTips (js "#remindParam") (VStr (js "PC模板的链接没有可替换的变量，链接个性化会失效，取消链接个性化？")) ;; mret false
  | None =>
      joinPhone ← val (js "#joinPhone");
      if is_num joinPhone 1
      then
        phoneCusType ← val (checked_radio (js "phonePersonal"));
        phoneFlag ← hasPramaPhone prop_list;
        match personal_mismatch phoneFlag phoneCusType with
        | Some true => popTips (js "#remindParam") (VStr (js "PHONE模板的链接含有变量，可能导致链接失常，设置链接个性化？")) ;; mret false
        | Some false => popTips (js "#remindParam") (VStr (js "PHONE模板的链接没有可替换的变量，链接个性化会失效，取消链接个性化？")) ;; mret false
        | None => mret true
        end
      else mret true
  end.

(** The boxes that join a phone or a short message to the template. *)
Definition ph_cb_click : T unit :=
  c ← is_checked (js "#ph_cb");
  set_attr (js "#joinPhone") (js "value") (if c : bool then js "1" else js "0").
Definition dx_cb_click : T unit :=
  c ← is_checked (js "#dx_cb");
  set_attr (js "#joinSms") (js "value") (if c : bool then js "1" else js "0").
Definition mark_tab (tab box : jstr) : T unit :=
  c ← is_checked box;
  if c : bool then addClass tab (js "show") else removeClass tab (js "show").
Definition open_tabs : T unit :=
  addClass (js "#pc") (js "show") ;;
  show (js "#tabMain .tabLi:first") ;;
  show (js "#tab-main-wrap") ;;
  hide (js "#tb-wrap").
Definition jbj_click : T unit :=
  set_disabled (js "#ph_cb") true ;;
  set_disabled (js "#dx_cb") true ;;
  mark_tab (js "#phone") (js "#ph_cb") ;;
  mark_tab (js "#dx") (js "#dx_cb") ;;
  open_tabs.

Definition post (URL : jstr) (PARAMS : list (jstr * jstr)) : T unit := emit (EvPost URL PARAMS).
Definition preview (token : jstr) : T unit :=
  let url := js "/mailing/template/preview?token=" ++ token in
  g ← get_glob;
  let show_side s :=
    if bool_decide (eModel g = WYSIWYG)
    then e ← editor s; post url [(js "content", ke_html e)]
    else v ← val (area s); post url [(js "content", str_of_val v)] in
  pc ← hasClass (js "#pc") (js "now");
  when pc (show_side PC) ;;
  phone ← phone_now;
  when phone (show_side Phone) ;;
  dx ← hasClass (js "#dx") (js "now");
  when dx (v ← val (js "#smsContent"); post url [(js "content", str_of_val v)]).

(** [zcUtil.personSwitch] *)
Definition personSwitch (o : jstr) : T unit :=
  v ← val o;
  if is_str v "false" then set_val o (js "true")
  else if is_str v "true" then set_val o (js "false") else skip.
End scripts.

(** ** Facts *)

(** *** The editors and the modes agree *)

Section live.
Context {E : Type} `{!KindEditor E}.
Abbreviation W := (world (template E)).
Abbreviation T := (J (template E)).

(** An editor exists exactly in the mode that uses it. *)
Definition live_side (s : side) (g : template E) : Prop :=
  (model_of s g = WYSIWYG ∧ is_Some (editor_of s g)) ∨ (model_of s g = TEXT ∧ editor_of s g = None).
Definition live (w : W) : Prop := ∀ s, live_side s (w_glob w).
Definition areas (w : W) : Prop := ∀ s, ∃ i l, found (area s) w = i :: l.

(** The script runs to the end and keeps the page well formed. *)
Definition good {A} (m : T A) : Prop :=
  ∀ w, live w → areas w → ∃ a w', m w = (Ok a, w') ∧ live w' ∧ areas w'.

Lemma good_inert {A} (m : T A) : inert m → good m.
Proof.
  intros Hm w Hl Ha. destruct (Hm w) as (a & w' & Em & Es & Eg). exists a, w'.
  split; [done|]. split; [by intros s; rewrite Eg|].
  intros s. unfold found. rewrite Es. apply Ha.
Qed.

Lemma good_bind {A B} (m : T A) (f : A → T B) : good m → (∀ a, good (f a)) → good (m ≫= f).
Proof.
  intros Hm Hf w Hl Ha. destruct (Hm w Hl Ha) as (a & w1 & E1 & L1 & A1).
  destruct (Hf a w1 L1 A1) as (b & w2 & E2 & L2 & A2). exists b, w2.
  by rewrite (bind_ok _ _ _ _ _ E1).
Qed.

Lemma model_with_editor s s' o (g : template E) : model_of s (with_editor s' o g) = model_of s g.
Proof. by destruct s, s'. Qed.
Lemma editor_with_editor s s' o (g : template E) :
  editor_of s (with_editor s' o g) = if decide (s = s') then o else editor_of s g.
Proof. by destruct s, s'. Qed.
Lemma model_with_model s s' m (g : template E) :
  model_of s (with_model s' m g) = if decide (s = s') then m else model_of s g.
Proof. by destruct s, s'. Qed.
Lemma editor_with_model s s' m (g : template E) : editor_of s (with_model s' m g) = editor_of s g.
Proof. by destruct s, s'. Qed.

(** Editing runs in the editor's mode. *)
Lemma edit_live s f (w : W) : live w → areas w → model_of s (w_glob w) = WYSIWYG →
  ∃ w', edit s f w = (Ok tt, w') ∧ live w' ∧ areas w'
    ∧ ∀ s', model_of s' (w_glob w') = model_of s' (w_glob w).
Proof.
  intros Hl Ha Hm. destruct (Hl s) as [[_ [e He]]|[Ht _]]; [|by rewrite Hm in Ht].
  unfold edit, editor, put_editor, get_glob.
  rewrite bind_assoc, (bind_ok (gets w_glob) _ w (w_glob w) w eq_refl), He.
  eexists. split; [reflexivity|]. split; [|split; [done|]].
  - intros s'. unfold live_side. cbn [w_glob set_glob]. rewrite model_with_editor, editor_with_editor.
    destruct (decide (s' = s)) as [->|]; [|apply Hl]. left. by split.
  - intros s'. apply model_with_editor.
Qed.

Lemma text_of_live s (w : W) : areas w → ∃ t, text_of s w = (Ok t, w).
Proof.
  intros Ha. destruct (Ha s) as (i & l & Hf). exists (e_val (nth_elt w i)).
  unfold text_of, val, mbind, J_bind, gets, first. by rewrite Hf.
Qed.

Lemma edit_text_good s f : good (edit_text s f).
Proof.
  intros w Hl Ha. destruct (text_of_live s w Ha) as [t Ht]. unfold edit_text.
  rewrite (bind_ok _ _ _ _ _ Ht). by apply good_inert; [inert|..].
Qed.

(** In one mode the editor is used, in the other the text. *)
Lemma good_mode {A} (s : side) (m k : T A) :
  (∀ w, live w → areas w → model_of s (w_glob w) = WYSIWYG →
     ∃ a w', m w = (Ok a, w') ∧ live w' ∧ areas w') →
  good k →
  ∀ w, live w → areas w →
    ∃ a w', (if bool_decide (model_of s (w_glob w) = WYSIWYG) then m else k) w = (Ok a, w')
      ∧ live w' ∧ areas w'.
Proof. intros Hm Hk w Hl Ha. case_bool_decide; [by apply Hm|by apply Hk]. Qed.

Lemma insert_at_caret_good s p : good (insert_at_caret (G := template E) (area s) p).
Proof.
  intros w Hl Ha. destruct (Ha s) as (i & l & Hf). unfold insert_at_caret.
  rewrite (bind_ok (gets _) _ w (i :: l) w) by (unfold gets; by rewrite Hf).
  revert w Hl Ha Hf. intros w Hl Ha _. revert w Hl Ha. apply good_inert. inert.
Qed.

Lemma insert_in_good s p : good (insert_in s p).
Proof.
  intros w Hl Ha. unfold insert_in, get_glob. rewrite (bind_ok (gets w_glob) _ w _ w eq_refl).
  apply good_mode; [|apply insert_at_caret_good|done|done].
  intros w' Hl' Ha' Hm. destruct (edit_live s (ke_insertHtml p) w' Hl' Ha' Hm) as (w2 & ? & ? & ? & _).
  by exists tt, w2.
Qed.

Lemma change_model_good s field type : type = WYSIWYG ∨ type = TEXT → good (change_model s field type).
Proof.
  intros Htype w Hl Ha. unfold change_model, get_glob. rewrite (bind_ok (gets w_glob) _ w _ w eq_refl).
  case_bool_decide as Hsame; [by exists tt, w|].
  set (w1 := set_glob (with_model s type (w_glob w)) w).
  rewrite (bind_ok (mod_glob _) _ w tt w1 eq_refl).
  set (w2 := upd (with_val type) (found field w1) w1).
  rewrite (bind_ok (set_val field type) _ w1 tt w2 eq_refl).
  assert (∀ s', s' ≠ s → live_side s' (with_model s type (w_glob w))) as Hother.
  { intros s' Hs'. unfold live_side. rewrite model_with_model, editor_with_model.
    rewrite decide_False by done. apply Hl. }
  destruct Htype as [-> | ->].
  - rewrite bool_decide_eq_true_2 by done. eexists tt, _. split.
    + unfold create_on, edit, editor, put_editor, closeSelectDiv. destruct s; reflexivity.
    + split; [|done]. intros s'. destruct (decide (s' = s)) as [->|Hs'].
      * left. destruct s; by split.
      * specialize (Hother s' Hs'). unfold live_side in *. by destruct s, s'.
  - rewrite bool_decide_eq_false_2 by done.
    destruct (Hl s) as [[_ [e He]]|[Ht _]]; [|done].
    assert (editor s w2 = (Ok e, w2)) as Ee.
    { unfold editor, get_glob. rewrite (bind_ok (gets w_glob) _ w2 _ w2 eq_refl).
      unfold w2, w1. cbn [w_glob set_glob upd set_elt]. by rewrite editor_with_model, He. }
    rewrite bind_assoc, (bind_ok _ _ _ _ _ Ee). eexists tt, _. split; [reflexivity|].
    split; [|done]. intros s'. destruct (decide (s' = s)) as [->|Hs'].
    + right. destruct s; by split.
    + specialize (Hother s' Hs'). unfold live_side in *. by destruct s, s'.
Qed.

(** The four boxes. *)
Lemma box_good (s : side) (box : jstr) (html_of : template E → jstr)
    (f1 : jstr → E → E) (f2 : E → E) (t1 : jstr → jstr → jstr) (t2 : jstr → jstr) :
  good (g ← get_glob;
        let h := html_of g in
        c ← is_checked box;
        if bool_decide (model_of s g = WYSIWYG)
        then if c : bool then edit s (f1 h) else edit s f2
        else if c : bool then edit_text s (t1 h) else edit_text s t2).
Proof.
  intros w Hl Ha. unfold get_glob. rewrite (bind_ok (gets w_glob) _ w _ w eq_refl). cbv zeta.
  set (c := match first box w with Some e => e_checked e | None => false end).
  rewrite (bind_ok (is_checked box) _ w c w eq_refl).
  apply good_mode; [|destruct c; apply edit_text_good|done|done].
  intros w' Hl' Ha' Hm.
  destruct c;
    [destruct (edit_live s (f1 (html_of (w_glob w))) w' Hl' Ha' Hm) as (w2 & ? & ? & ? & _)
    |destruct (edit_live s f2 w' Hl' Ha' Hm) as (w2 & ? & ? & ? & _)]; by exists tt, w2.
Qed.

(** What the user can do in the editor, in any order. *)
Inductive action :=
| AModel (s : side) (wysiwyg : bool)
| AInsert (s : side) (prop : jstr)
| AHeader (s : side)
| AFooter (s : side).
Definition act (a : action) : T unit :=
  match a with
  | AModel PC b => changeModel (if b then WYSIWYG else TEXT)
  | AModel Phone b => ph_changeModel (if b then WYSIWYG else TEXT)
  | AInsert PC p => insert p
  | AInsert Phone p => insertPhone p
  | AHeader PC => pageHeader_click
  | AHeader Phone => pagePhoneHeader_click
  | AFooter PC => pageFooter_click
  | AFooter Phone => pagePhoneFooter_click
  end.

Lemma act_good a : good (act a).
Proof.
  destruct a as [[|] b|[|] p|[|]|[|]]; cbn [act].
  - apply change_model_good. destruct b; auto.
  - apply change_model_good. destruct b; auto.
  - apply insert_in_good.
  - apply insert_in_good.
  - apply (box_good PC).
  - apply (box_good Phone).
  - apply (box_good PC).
  - apply (box_good Phone).
Qed.

Lemma acts_good l : good (for_each l act).
Proof.
  induction l as [|a l IH]; [apply good_inert; inert|]. simpl.
  apply good_bind; [apply act_good|by intros].
Qed.

(** *** Switching modes and back *)

Lemma val_upd_apart (sel : jstr) f l (w : W) :
  (∀ i, i ∈ found sel w → i ∉ l) → val_of sel (upd f l w) = val_of sel w.
Proof. intros Ha. unfold val_of. by rewrite first_upd_ne. Qed.

Definition field_apart (s : side) (field : jstr) (w : W) : Prop :=
  ∀ i, i ∈ found (area s) w → i ∉ found field w.

(** To the editor: it holds the text. *)
Lemma to_editor s field t (w : W) :
  live w → model_of s (w_glob w) = TEXT → field_apart s field w → val_of (area s) w = VStr t →
  ∃ w' e, change_model s field WYSIWYG w = (Ok tt, w')
    ∧ w_sel w' = w_sel w
    ∧ model_of s (w_glob w') = WYSIWYG ∧ editor_of s (w_glob w') = Some (refill t e)
    ∧ (∀ i, is_Some (w_elt w !! i) → is_Some (w_elt w' !! i)).
Proof.
  intros Hl Hm Hf Hv. unfold change_model, get_glob.
  rewrite (bind_ok (gets w_glob) _ w _ w eq_refl), bool_decide_eq_false_2 by (by rewrite Hm).
  set (w1 := set_glob (with_model s WYSIWYG (w_glob w)) w).
  rewrite (bind_ok (mod_glob _) _ w tt w1 eq_refl).
  set (w2 := upd (with_val WYSIWYG) (found field w1) w1).
  rewrite (bind_ok (set_val field WYSIWYG) _ w1 tt w2 eq_refl), bool_decide_eq_true_2 by done.
  assert (val_of (area s) w2 = VStr t) as Hv2 by (unfold w2; by rewrite val_upd_apart).
  assert (val (area s) w2 = (Ok (VStr t), w2)) as Ev by (by rewrite <-Hv2).
  assert (create_on s w2 = put_editor s (Some (ke_create t)) w2) as Ec
    by (unfold create_on; by rewrite (bind_ok _ _ _ _ _ Ev)).
  rewrite bind_assoc, (bind_ok _ _ _ _ _ Ev). cbn [Page.field or_empty].
  set (w3 := set_glob (with_editor s (Some (ke_create t)) (w_glob w2)) w2).
  rewrite bind_assoc, (bind_ok (create_on s) _ w2 tt w3) by (by rewrite Ec).
  eexists _, (ke_create t). split.
  { unfold edit, editor, put_editor, closeSelectDiv. destruct s; reflexivity. }
  split; [done|]. split; [by destruct s|]. split; [by destruct s|].
  intros i Hi. apply (upd_is_some (with_val WYSIWYG) (found field w1) w1 i Hi).
Qed.

(** And back: the text is what the editor gives. *)
Lemma to_text s field e (w : W) :
  model_of s (w_glob w) = WYSIWYG → editor_of s (w_glob w) = Some e → single (area s) w →
  field_apart s field w →
  ∃ w', change_model s field TEXT w = (Ok tt, w') ∧ val_of (area s) w' = VStr (ke_html e).
Proof.
  intros Hm He Hs Hf. unfold change_model, get_glob.
  rewrite (bind_ok (gets w_glob) _ w _ w eq_refl), bool_decide_eq_false_2 by (by rewrite Hm).
  set (w1 := set_glob (with_model s TEXT (w_glob w)) w).
  rewrite (bind_ok (mod_glob _) _ w tt w1 eq_refl).
  set (w2 := upd (with_val TEXT) (found field w1) w1).
  rewrite (bind_ok (set_val field TEXT) _ w1 tt w2 eq_refl), bool_decide_eq_false_2 by done.
  assert (editor s w2 = (Ok e, w2)) as Ee.
  { unfold editor, get_glob. rewrite (bind_ok (gets w_glob) _ w2 _ w2 eq_refl).
    unfold w2, w1. cbn [w_glob set_glob upd set_elt]. by rewrite editor_with_model, He. }
  assert (single (area s) w2) as Hs2.
  { destruct Hs as (i & x & Hi & Hx). exists i, x. split; [done|].
    unfold w2, upd. simpl. rewrite fold_alter_ne; [done|].
    apply (Hf i). rewrite Hi. constructor. }
  destruct (set_val_field (area s) (ke_html e) w2 Hs2) as (w3 & E3 & _ & _ & _ & V3 & _).
  rewrite bind_assoc, (bind_ok _ _ _ _ _ Ee), bind_assoc, (bind_ok _ _ _ _ _ E3).
  eexists. split; [reflexivity|]. exact V3.
Qed.
End live.

(** ** Properties *)



(** An editor that keeps the text it is given. *)
#[local] Instance plain_editor : KindEditor jstr := {
  ke_create s := s; ke_html e := e; ke_set_html s _ := s; ke_insertHtml s e := e ++ s;
  ke_prepend s e := s ++ e; ke_append s e := e ++ s; ke_remove_id _ e := e
}.
Lemma plain_editor_laws : KindEditorLaws jstr (λ _, True).
Proof. by constructor. Qed.
Definition demo_template : world (template jstr) :=
  page_with [(area PC, with_val (js "<p>x</p>") blank); (area Phone, blank); (js "#model", blank)]
    (Template TEXT WYSIWYG None (Some []) [] [] None []).

Lemma demo_live : live demo_template.
Proof. intros [|]; [right|left]; (split; [reflexivity|]); [reflexivity|by eexists]. Qed.


