(* ===== verification/Tabs.v ===== *)
(** * The tabs of the template page -- [mailing.template.add.js],
    [mailing.template.common.js]

    The editors of a template stand in tabs, one for each kind of message; the
    script keeps the number of the tab shown in [cur].  Beside them, the
    further options of the sender unfold under a link whose class tells
    whether they are shown. *)

From S2P Require Import Prelude Js JsFacts Page Base Template.
#[local] Open Scope Z_scope.

(** ** Tabs *)

Definition nth_of (sel : jstr) (i : nat) : jstr := sel ++ js ".eq(" ++ str_of_Z (Z.of_nat i) ++ js ")".
Definition tab_body : nat → jstr := nth_of (js "#tabMain .tabLi").
Definition tab_links : jstr := js "#cq_tab li".
Definition tab_link : nat → jstr := nth_of tab_links.
Definition now : jstr := js "now".

(** The click on the link number [i]; the variable of the page is [cur]. *)
Definition tab_click (i : nat) : J nat unit :=
  cur ← get_glob;
  hide (tab_body cur) ;;
  removeClass tab_links now ;;
  addClass (tab_link i) now ;;
  put_glob i ;;
  show (tab_body i) ;;
  hide (js "#codeTips") ;;
  hide (js "#codeTipsPhone").

Section scripts.
Context {G : Type}.
(** A page that is loaded with a template shows the tabs of its messages. *)
Definition saved_tab (tab field : jstr) : J G unit :=
  v ← attr field (js "value");
  when (is_num v 1) (addClass tab (js "show")).
Definition saved_tabs (templateId : jval) : J G unit :=
  if is_str templateId "" then skip
  else
    saved_tab (js "#phone") (js "#joinPhone") ;;
    saved_tab (js "#dx") (js "#joinSms") ;;
    addClass (js "#pc") (js "show") ;;
    show (js "#tabMain li:first") ;;
    show (js "#tab-main-wrap") ;;
    hide (js "#tb-wrap").

(** The further options of the sender: of the message ([pre] empty) or of the
    phone's. *)
Definition swtpand : jstr := js "swtpand".
Definition swtclose : jstr := js "swtclose".
Definition more_link (pre : jstr) : jstr := js "#" ++ pre ++ js "senderMore".
Definition more_box (pre : jstr) : jstr := js "#" ++ pre ++ js "advancedOption".
Definition senderMore_click (pre : jstr) : J G unit :=
  let this := more_link pre in
  b ← hasClass this swtpand;
  if b : bool
  then removeClass this swtpand ;; addClass this swtclose ;; hide (more_box pre)
  else removeClass this swtclose ;; addClass this swtpand ;; show (more_box pre).
End scripts.

(** ** Facts *)


(** The page: a body and a link for each tab, every one an element of its own,
    and the tips of the codes apart from the bodies. *)
Record tabs_page {G} (n : nat) (w : world G) : Prop := {
  tp_body : ∀ i, (i < n)%nat → single (tab_body i) w;
  tp_bodies : ∀ i j, (i < n)%nat → (j < n)%nat → i ≠ j → apart (tab_body i) (tab_body j) w;
  tp_tips : ∀ i, (i < n)%nat → apart (tab_body i) (js "#codeTips") w ∧ apart (tab_body i) (js "#codeTipsPhone") w;
  tp_once : NoDup (found tab_links w);
  tp_link : ∀ i, (i < n)%nat → single (tab_link i) w ∧ ∀ e, e ∈ found (tab_link i) w → e ∈ found tab_links w;
  tp_links : ∀ i j, (i < n)%nat → (j < n)%nat → i ≠ j → apart (tab_link i) (tab_link j) w
}.
Definition body_shown {G} (i : nat) (w : world G) : option bool := e_shown <$> first (tab_body i) w.
Definition link_now {G} (i : nat) (w : world G) : option bool := has_class now <$> first (tab_link i) w.

(** The tab [cur] is shown, and no other; its link is marked, and no other. *)
Record on_tab (n cur : nat) (w : world nat) : Prop := {
  ob_page : tabs_page n w;
  ob_cur : w_glob w = cur;
  ob_in : (cur < n)%nat;
  ob_body : ∀ i, (i < n)%nat → body_shown i w = Some (bool_decide (i = cur));
  ob_link : ∀ i, (i < n)%nat → link_now i w = Some (bool_decide (i = cur))
}.

Section tabs.
Implicit Types w : world nat.


Lemma page_frame {B} (pi : elt → B) n w w' : frame_step pi w w' → tabs_page n w → tabs_page n w'.
Proof.
  intros F [H1 H2 H3 H4 H5 H6]. assert (∀ s, found s w' = found s w) as Hf by (intros s; unfold found; by rewrite (fs_sel _ _ _ F)).
  constructor.
  - intros i Hi. eapply frame_single; [exact F|by apply H1].
  - intros i j Hi Hj Hij. eapply frame_apart; [exact F|by apply H2].
  - intros i Hi. destruct (H3 i Hi). split; by eapply frame_apart.
  - by rewrite Hf.
  - intros i Hi. destruct (H5 i Hi) as [Hs He]. rewrite !Hf. split; [by eapply frame_single|done].
  - intros i j Hi Hj Hij. eapply frame_apart; [exact F|by apply H6].
Qed.

Lemma body_set n b i j w : tabs_page n w → (i < n)%nat → (j < n)%nat →
  body_shown i (upd (with_shown b) (found (tab_body j) w) w) = if bool_decide (i = j) then Some b else body_shown i w.
Proof.
  intros P Hi Hj. unfold body_shown. destruct (decide (i = j)) as [-> | Hne].
  - rewrite bool_decide_eq_true_2 by done. rewrite on_first by (by apply (tp_body _ _ P)).
    by destruct (single_first _ _ (tp_body _ _ P j Hj)) as [e ->].
  - rewrite bool_decide_eq_false_2 by done. rewrite first_upd_ne; [done|]. by apply (tp_bodies _ _ P).
Qed.

Lemma link_unmarked n i w : tabs_page n w → (i < n)%nat →
  link_now i (upd (remove_class now) (found tab_links w) w) = Some false.
Proof.
  intros P Hi. destruct (tp_link _ _ P i Hi) as [(k & e & Hf & He) Hk]. unfold link_now, first.
  change (found (tab_link i) (upd (remove_class now) (found tab_links w) w)) with (found (tab_link i) w).
  rewrite Hf. unfold nth_elt. cbn [upd w_elt set_elt].
  rewrite fold_alter_in; [|apply P|apply Hk; rewrite Hf; constructor]. rewrite He. cbn. by rewrite has_class_removed.
Qed.

Lemma link_marked n i j w : tabs_page n w → (i < n)%nat → (j < n)%nat →
  link_now i (upd (add_class now) (found (tab_link j) w) w) = if bool_decide (i = j) then Some true else link_now i w.
Proof.
  intros P Hi Hj. unfold link_now. destruct (decide (i = j)) as [-> | Hne].
  - rewrite bool_decide_eq_true_2 by done. rewrite on_first by (by apply (tp_link _ _ P)).
    destruct (single_first _ _ (proj1 (tp_link _ _ P j Hj))) as [e ->]. cbn. rewrite has_class_add.
    by rewrite bool_decide_eq_true_2.
  - rewrite bool_decide_eq_false_2 by done. rewrite first_upd_ne; [done|]. by apply (tp_links _ _ P).
Qed.

Lemma body_frame i w w' : frame_step e_shown w w' → body_shown i w' = body_shown i w.
Proof. apply frame_first. Qed.
Lemma link_frame i w w' : frame_step e_cls w w' → link_now i w' = link_now i w.
Proof.
  intros F. unfold link_now. pose proof (frame_first e_cls (tab_link i) _ _ F) as H.
  destruct (first (tab_link i) w'), (first (tab_link i) w); try done. cbn in H |- *. injection H as H.
  unfold has_class. by rewrite H.
Qed.

Lemma click_shows n cur i w : on_tab n cur w → (i < n)%nat →
  ∃ w', tab_click i w = (Ok tt, w') ∧ on_tab n i w'.
Proof.
  intros [P C Hc Hb Hl] Hi. unfold tab_click. rewrite (bind_ok get_glob _ w cur w) by (by rewrite <-C).
  set (w1 := upd (with_shown false) (found (tab_body cur) w) w).
  set (w2 := upd (remove_class now) (found tab_links w1) w1).
  set (w3 := upd (add_class now) (found (tab_link i) w2) w2).
  set (w4 := set_glob i w3).
  set (w5 := upd (with_shown true) (found (tab_body i) w4) w4).
  set (w6 := upd (with_shown false) (found (js "#codeTips") w5) w5).
  set (w7 := upd (with_shown false) (found (js "#codeTipsPhone") w6) w6).
  exists w7. split; [reflexivity|].
  assert (frame_step e_cls w w1) as F1 by (by apply (frames_on e_cls)).
  assert (frame_step e_shown w1 w2) as F2 by (by apply (frames_on e_shown)).
  assert (frame_step e_shown w2 w3) as F3.
  { apply (frames_on e_shown (tab_link i)). intros e. unfold add_class. by destruct (has_class now e). }
  assert (frame_step id w3 w4) as F4 by (by constructor).
  assert (frame_step e_cls w4 w5) as F5 by (by apply (frames_on e_cls)).
  assert (frame_step e_cls w5 w6) as F6 by (by apply (frames_on e_cls)).
  assert (frame_step e_cls w6 w7) as F7 by (by apply (frames_on e_cls)).
  pose proof (page_frame _ _ _ _ F1 P) as P1. pose proof (page_frame _ _ _ _ F2 P1) as P2.
  pose proof (page_frame _ _ _ _ F3 P2) as P3. pose proof (page_frame _ _ _ _ F4 P3) as P4.
  pose proof (page_frame _ _ _ _ F5 P4) as P5. pose proof (page_frame _ _ _ _ F6 P5) as P6.
  constructor; [by eapply page_frame|done|done| |]; intros j Hj.
  - destruct (tp_tips _ _ P5 j Hj) as [T5 _]. destruct (tp_tips _ _ P6 j Hj) as [_ T6].
    assert (body_shown j w7 = body_shown j w5) as ->.
    { unfold body_shown, w7. rewrite first_upd_ne by exact T6. unfold w6. by rewrite first_upd_ne by exact T5. }
    unfold w5. rewrite (body_set n) by done. destruct (decide (j = i)) as [-> | Hne].
    { by rewrite !bool_decide_eq_true_2. }
    rewrite !(bool_decide_eq_false_2 (j = i)) by done.
    rewrite (body_frame j w3 w4), (body_frame j w2 w3), (body_frame j w1 w2) by (done || by constructor). unfold w1. rewrite (body_set n) by done.
    rewrite Hb by done. by case_bool_decide.
  - rewrite (link_frame j w6 w7), (link_frame j w5 w6), (link_frame j w4 w5) by done.
    rewrite (link_frame j w3 w4) by (by constructor). unfold w3. rewrite (link_marked n) by done.
    destruct (decide (j = i)) as [-> | Hne]; [by rewrite !bool_decide_eq_true_2|].
    rewrite !(bool_decide_eq_false_2 (j = i)) by done. by apply (link_unmarked n).
Qed.

Lemma last_any (j : nat) l a b : List.last (j :: l) a = List.last (j :: l) b.
Proof. revert j. induction l as [|k l IH]; intros j; [done|]. apply IH. Qed.

(** Whatever links are clicked, exactly the last one is marked and exactly its
    tab is shown. *)
Theorem tabs_session n cur ks w : on_tab n cur w → Forall (λ i, (i < n)%nat) ks →
  ∃ w', for_each ks tab_click w = (Ok tt, w') ∧ on_tab n (List.last ks cur) w'.
Proof.
  revert cur w. induction ks as [|i ks IH]; intros cur w H Hi; [by exists w|].
  apply Forall_cons in Hi as [Hi His]. destruct (click_shows n cur i w H Hi) as (w1 & E1 & H1).
  destruct (IH i w1 H1 His) as (w' & E & R). exists w'. split; [cbn [for_each]; by rewrite (bind_ok _ _ _ _ _ E1)|].
  destruct ks as [|j ks]; [exact R|]. by rewrite (last_any j ks i cur) in R.
Qed.
End tabs.

(** ** The further options *)

Section more.
Context {G : Type}.
Implicit Types w : world G.

(** The link tells whether the options are shown. *)
Record on_more (pre : jstr) (b : bool) (w : world G) : Prop := {
  om_link : single (more_link pre) w;
  om_box : single (more_box pre) w;
  om_pand : has_class swtpand <$> first (more_link pre) w = Some b;
  om_close : has_class swtclose <$> first (more_link pre) w = Some (negb b);
  om_shown : e_shown <$> first (more_box pre) w = Some b
}.

Lemma senderMore_toggles pre b w :
  on_more pre b w → ∃ w', senderMore_click pre w = (Ok tt, w') ∧ on_more pre (negb b) w'.
Proof.
  intros [Hl Hb Hp Hc Hs]. unfold senderMore_click.
  rewrite (bind_ok (hasClass _ _) _ w b w).
  2: { unfold hasClass, gets. destruct (first (more_link pre) w); [|done]. cbn in Hp. by injection Hp as ->. }
  set (f := λ e, if b then add_class swtclose (remove_class swtpand e) else add_class swtpand (remove_class swtclose e)).
  set (w1 := upd (if b then remove_class swtpand else remove_class swtclose) (found (more_link pre) w) w).
  set (w2 := upd (if b then add_class swtclose else add_class swtpand) (found (more_link pre) w1) w1).
  set (w3 := upd (with_shown (negb b)) (found (more_box pre) w2) w2).
  exists w3. split; [by destruct b|].
  assert (single (more_link pre) w1) as Hl1 by (by apply upd_single).
  assert (single (more_box pre) w2) as Hb2 by (by do 2 apply upd_single).
  assert (frame_step e_cls w2 w3) as F by (by apply (frames_on e_cls (more_box pre))).
  destruct (single_first _ _ Hl) as [e He]. rewrite He in Hp, Hc. cbn in Hp, Hc. injection Hp as Hp. injection Hc as Hc.
  assert (∀ c, has_class c <$> first (more_link pre) w3 = Some (has_class c (f e))) as Hf.
  { intros c. pose proof (frame_first e_cls (more_link pre) _ _ F) as H3.
    assert (first (more_link pre) w2 = Some (f e)) as H2.
    { unfold w2. rewrite on_first by done. unfold w1. rewrite on_first by done. rewrite He. unfold f. by destruct b. }
    rewrite H2 in H3. destruct (first (more_link pre) w3) as [d|]; [|done]. cbn in H3 |- *. injection H3 as H3.
    unfold has_class. by rewrite H3. }
  assert (swtpand ≠ swtclose) as Hne by (vm_compute; discriminate).
  constructor; [by do 2 apply upd_single|by apply upd_single|rewrite Hf|rewrite Hf|]; f_equal.
  - unfold f. destruct b; cbn [negb]; rewrite has_class_add.
    + rewrite has_class_removed, bool_decide_eq_false_2 by congruence. done.
    + by rewrite bool_decide_eq_true_2.
  - unfold f. destruct b; cbn [negb]; rewrite has_class_add.
    + by rewrite bool_decide_eq_true_2.
    + rewrite has_class_removed, bool_decide_eq_false_2 by congruence. done.
  - unfold w3. rewrite on_first by done. by destruct (single_first _ _ Hb2) as [d ->].
Qed.
End more.

(** Turning the choice of personal links round shows the options but leaves the
    link as it was: the next click on it does nothing the user can see. *)
Definition demo_more : world unit :=
  page_with [(more_link [], with_cls [js "swtbtn"; swtclose] blank); (more_box [], with_shown false blank)] tt.
Example opened_elsewhere :
  let w := (show (more_box []) demo_more).2 in
  let w' := (senderMore_click [] w).2 in
  (e_shown <$> first (more_box []) w, e_shown <$> first (more_box []) w') = (Some true, Some true).
Proof. vm_compute. reflexivity. Qed.
