(* ===== verification/Trigger.v ===== *)
(** * Trigger plans -- [mailing.template.common.js]

    A template of a trigger plan has a table per trigger: the links of the
    template that set it off, the template sent, after how many minutes, and
    its subject.  The links are read from the template's text, and compared
    with the ones the tables name before the template is submitted. *)

From S2P Require Import Prelude Js JsFacts Regex Page TagList Base Search Select Template.
#[local] Open Scope Z_scope.

(** A link of the template, as the browser's parser finds it. *)
Record anchor := Anchor { an_href : option jstr; an_in_header : bool; an_in_footer : bool }.

(** A table: its number, the hidden [.trig_list_id] and the text over it, the
    name and the id of the template, the minutes and the subject, and the
    array [initMselect] gives it. *)
Record trig := Trig {
  tg_no : jstr;
  tg_links : jstr;
  tg_text : jstr;
  tg_sub_name : jstr;
  tg_sub_id : jstr;
  tg_time : jstr;
  tg_subject : jstr;
  tg_sub : list item
}.

Record plan (E : Type) := Plan {
  pl_template : template E;
  trig_list : list jstr;         (* the [id]s, equal to the [title]s *)
  pl_tables : list trig;
  trig_num : Z;
  init_trig_num : jval
}.
Arguments Plan {E}.
Arguments pl_template {E}.
Arguments trig_list {E}.
Arguments pl_tables {E}.
Arguments trig_num {E}.
Arguments init_trig_num {E}.

Definition with_template {E} (t : template E) (g : plan E) : plan E :=
  Plan t (trig_list g) (pl_tables g) (trig_num g) (init_trig_num g).
Definition with_trig_list {E} (l : list jstr) (g : plan E) : plan E :=
  Plan (pl_template g) l (pl_tables g) (trig_num g) (init_trig_num g).
Definition with_tables {E} (l : list trig) (g : plan E) : plan E :=
  Plan (pl_template g) (trig_list g) l (trig_num g) (init_trig_num g).
Definition with_trig_num {E} (n : Z) (g : plan E) : plan E :=
  Plan (pl_template g) (trig_list g) (pl_tables g) n (init_trig_num g).

(** ** The links of the text *)

(** One step of the loop of [getHrefList]: links of the header and the footer,
    links seen before and links that are no addresses are left out. *)
Definition href_step (tempArr : list jstr) (a : anchor) : list jstr :=
  if an_in_header a || an_in_footer a then tempArr
  else
    let href := default [] (an_href a) in
    if bool_decide (href ∈ tempArr) then tempArr
    else if -1 <? indexOf (js "http") href then tempArr ++ [href] else tempArr.
Definition hrefs (l : list anchor) : list jstr := List.fold_left href_step l [].

(** The objects the pickers of links offer. *)
Definition link_obj (h : jstr) : obj := [(js "id", VStr h); (js "title", VStr h)].

(** ** The tables *)

Definition blank_table (no : jstr) : trig := Trig no [] [] [] [] [] [] [].

(** [$(this).data('initInput')()] of the picker of a table: with no link left,
    every field of the table is emptied. *)
Definition init_table (links : list jstr) (t : trig) : trig :=
  let r := Mselect_initInput (tg_links t) (List.map link_obj links) (tg_sub t) in
  if mi_cleared r
  then Trig (tg_no t) [] [] [] [] [] [] (mi_sub r)
  else Trig (tg_no t) (mi_value r) (mi_text r) (tg_sub_name t) (tg_sub_id t) (tg_time t)
         (tg_subject t) (mi_sub r).

(** [getTrig(obj,textId)] for the table [t]: the box of the link [id] is
    [checked] or not. *)
Definition getTrig_value (checked : bool) (id value : jstr) : jstr :=
  let valArr := splitc c_comma value in
  join [c_comma] (if checked then valArr ++ [id]
                  else splice_scan (λ v, bool_decide (v = id)) valArr).
Definition with_links (v : jstr) (t : trig) : trig :=
  Trig (tg_no t) v (tg_text t) (tg_sub_name t) (tg_sub_id t) (tg_time t) (tg_subject t) (tg_sub t).
Definition getTrig (links : list jstr) (checked : bool) (id : jstr) (t : trig) : trig :=
  init_table links (with_links (getTrig_value checked id (tg_links t)) t).

(** [getSubject(obj,inputId)]: the template is picked, and its subject copied;
    the last object of that id wins. *)
Definition getSubject (subtemp_list : list obj) (o : node) (t : trig) : trig :=
  let id := n_attr o in
  let t1 := Trig (tg_no t) (tg_links t) (tg_text t) (n_text o) id (tg_time t) (tg_subject t) (tg_sub t) in
  List.fold_left (λ t s, if loose_eq (o_id s) (VStr id)
      then Trig (tg_no t) (tg_links t) (tg_text t) (tg_sub_name t) (tg_sub_id t) (tg_time t)
             (str_of_val (prop (js "subject") s)) (tg_sub t)
      else t) subtemp_list t1.

(** The HTML of a new table. *)
Definition table_html (n : jstr) : jstr :=
  join (js "
") [
    jsq "<table width=`100%` cellspacing=`0` cellpadding=`0` border=`0`>";
    js "	<tr>";
    jsq "		<td colspan=`2` style=`height: 10px;`>";
    jsq "			<p style=`border-bottom:1px dashed #A0A0A0;`></p>";
    js "		</td>";
    js "	</tr>";
    js "	<tr>";
    jsq "		<td width=`27%`>触点链接(可多选)</td>";
    js "		<td>";
    jsq "			<textarea name=`trig_list_" ++ n ++ jsq "` style=`width:240px;` class=`add_area rad_area J_trig_list` id=`trig_list_" ++ n ++ jsq "` readonly></textarea>";
    jsq "			<input type=`hidden` name=`touchUrls_" ++ n ++ jsq "` value=`` class=`trig_list_id` id=`trig_list_id_" ++ n ++ jsq "`>";
    js "		</td>";
    js "	</tr>";
    js "	<tr>";
    jsq "		<td width=`27%`>触发计划的子模板</td>";
    js "		<td>";
    jsq "			<textarea readonly=`readonly` id=`subtemp_list_" ++ n ++ jsq "` class=`add_area rad_area J_subtemp_list` style=`width:240px;` name=`subtemp_list_" ++ n ++ jsq "`></textarea>";
    jsq "			<input type=`hidden` name=`templateIds_" ++ n ++ jsq "` value=`` id=`subtemp_id_" ++ n ++ jsq "`>";
    js "		</td>";
    js "	</tr>";
    js "	<tr>";
    jsq "		<td width=`27%`>触发投递时间</td>";
    js "		<td>";
    jsq "			<input type=`text` id=`trig_time_" ++ n ++ jsq "` name=`afterMinutes_" ++ n ++ jsq "` class=`input_txt J_trig_time`>&nbsp;分钟";
    js "		</td>";
    js "	</tr>";
    js "	<tr>";
    jsq "		<td width=`27%`>邮件主题</td>";
    js "		<td>";
    jsq "			<input type=`text` name=`subjects_" ++ n ++ jsq "` class=`input_txt J_trig_sub`>";
    jsq "			<span title=`删除` onclick=`del_trig(this)` class=`del_set`></span>";
    js "		</td>";
    js "	</tr>";
    js "</table>"].

(** ** Checking the tables *)

(** A quote of either kind, an exclamation mark, an ellipsis, or one of
    [# $ % & ^] and the star. *)
Definition special_char (c : N) : bool :=
  bool_decide (c ∈ [39; 33; 8230; 34; 35; 36; 37; 38; 94; 42]%N).
Definition bad_time (v : jstr) : bool :=
  negb (existsb is_digit v) || lt_num (VStr v) 0 || gt_num (VStr v) 120 || (-1 <? indexOf (js ".") v).

(** The message for a table, and the field that gets the focus, when it does. *)
Definition trig_error (t : trig) : option (jstr * option jstr) :=
  if bool_decide (tg_links t = []) then Some (js "请选择触点链接！", Some (js "#trig_list_" ++ tg_no t))
  else if bool_decide (tg_sub_name t = []) then Some (js "请选择子模板！", Some (js "#subtemp_list_" ++ tg_no t))
  else if bad_time (tg_time t) then Some (js "触发投递时间请输入0-120的整数", Some (js "#trig_time_" ++ tg_no t))
  else if bool_decide (tg_subject t = []) then Some (js "请填写邮件主题", Some (js "subjects_" ++ tg_no t))
  else if existsb special_char (tg_subject t) then Some (js "邮件主题有特殊字符", None)
  else None.
(** The first table with an error stops the loop. *)
Fixpoint first_error (l : list trig) : option (jstr * option jstr) :=
  match l with
  | [] => None
  | t :: l' => match trig_error t with Some e => Some e | None => first_error l' end
  end.

Section scripts.
Context {E : Type} `{!KindEditor E} (anchors : jstr → list anchor).
Abbreviation T := (J (plan E)).

Definition on_template {A} (m : J (template E) A) : T A := zoom pl_template with_template m.
Definition tables : T (list trig) := gets (λ w, pl_tables (w_glob w)).
Definition mod_tables (f : list trig → list trig) : T unit :=
  mod_glob (λ g, with_tables (f (pl_tables g)) g).

(** [getHrefList()]: in the text mode an editor is borrowed, and removed. *)
Definition getHrefList : T (list jstr) :=
  mod_glob (with_trig_list []) ;;
  g ← get_glob;
  k ← (if bool_decide (eModel (pl_template g) = WYSIWYG)
       then on_template (e ← editor PC; mret (ke_html e))
       else on_template
              (prop ← val (area PC);
               createEditor ;;
               edit PC (refill (field prop)) ;;
               e ← editor PC;
               put_editor PC None ;;
               mret (ke_html e)));
  let tempArr := hrefs (anchors (js "<div>" ++ k ++ js "</div>")) in
  mod_glob (with_trig_list tempArr) ;;
  mret tempArr.

(** Every picker of links reads the links again: they share the array
    [trig_list]. *)
Definition init_tables : T unit :=
  g ← get_glob;
  mod_tables (List.map (init_table (trig_list g))).

(** [testTrig()] *)
Definition testTrig : T bool :=
  let err := js "#tempSetting .err" in
  set_html err [] ;;
  l ← tables;
  match first_error l with
  | Some (mess, focus) =>
      set_html err mess ;;
      match focus with Some f => emit (EvFocus f) | None => skip end ;;
      mret false
  | None =>
      v ← gets (λ w, match first (js "#tempSetting") w with Some e => e_shown e | None => false end);
      when v closeDialog ;;
      set_html err [] ;;
      mret true
  end.

(** ** Comparing the links *)

Definition is_trigger_plan : T bool :=
  c ← html (js "#category_list");
  mret (bool_decide (c = VStr (js "触发计划"))).

(** The links the tables name. *)
Definition initHrefs (l : list trig) : list jstr :=
  List.concat (List.map (λ t, if bool_decide (tg_links t = []) then [] else splitc c_comma (tg_links t)) l).
Definition errorHref (named live : list jstr) : list jstr :=
  List.filter (λ h, negb (bool_decide (h ∈ live))) named.

Definition button_go : jstr :=
  jsq "<input class=`input_yes` type=`button` value=`继续提交` onclick=`closeDialog();$('#add').submit();` />".
Definition button_set : jstr :=
  jsq "<input class=`input_no` type=`button` value=`触发设置` onclick=`closeDialog();openPop(0,0,'#tempSetting');` />".
Definition err_html (errs : list jstr) : jstr :=
  js "<div style='text-align:left;padding:0 5px;'>以下设置的触点链接在模板中已被删除：<div class='err_box'>"
  ++ join (js "<p></p>") errs ++ js "</div></div>".
Definition cmt_wrap : jstr := js "#remindTrig .cmt_wrap".

(** The dialog that stops the submission. *)
Definition refuse (buttons : jstr) : T bool :=
  set_html cmt_wrap buttons ;;
  del_loading None ;;
  mret false.

(** [refer_open] and [refer_submit] *)
Definition refer_open (errs : list jstr) : T bool :=
  if negb (bool_decide (errs = []))
  then popTips (js "#remindTrig") (VStr (err_html errs)) ;; refuse button_set
  else openPop (num 0) None (Some (js "#tempSetting")) ;; mret true.
Definition refer_submit (errs : list jstr) : T bool :=
  g ← get_glob;
  if is_num (init_trig_num g) 0
  then
    if negb (bool_decide (errs = []))
    then popTips (js "#remindTrig") (VStr (err_html errs)) ;; refuse (button_go ++ js "&nbsp;" ++ button_set)
    else mret true
  else if negb (bool_decide (errs = []))
  then
    popTips (js "#remindTrig") (VStr (err_html errs)) ;;
    ok ← testTrig;
    if ok : bool then refuse (button_go ++ js "&nbsp;" ++ button_set) else refuse button_set
  else
    ok ← testTrig;
    if ok : bool then mret true
    else popTips (js "#remindTrig") (VStr (js "修改触发模板必须包含至少一个触发链接！")) ;; refuse button_set.

(** [compareHref(arg)] *)
Definition compareHref (opening : bool) : T bool :=
  p ← is_trigger_plan;
  if p : bool then mret true
  else
    l ← tables;
    let named := initHrefs l in
    tempArr ← getHrefList;
    init_tables ;;
    let errs := errorHref named tempArr in
    if opening then refer_open errs else refer_submit errs.

(** [openTrigPad()] *)
Definition openTrigPad : T unit :=
  _ ← getHrefList;
  g ← get_glob;
  if bool_decide (trig_list g = [])
  then error_text (js "模板中没有可用链接！") 1
  else _ ← compareHref true; skip.

(** The click on [#tempSubmit]. *)
Definition tempSubmit (prop_list : list (jstr * jstr)) : T bool :=
  ok ← on_template (personal_ok prop_list);
  if ok : bool then _ ← getHrefList; compareHref false else mret false.

Definition switchTrig : T unit :=
  p ← is_trigger_plan;
  if p : bool then hide (js ".J_notrig_area") else show (js ".J_notrig_area").

(** [initMselect($this)] for the table of number [no]: a new array, and the
    links read for the first time. *)
Definition initMselect (no : jstr) : T unit :=
  g ← get_glob;
  mod_tables (List.map (λ t, if bool_decide (tg_no t = no)
    then init_table (trig_list g) (Trig (tg_no t) (tg_links t) (tg_text t) (tg_sub_name t)
           (tg_sub_id t) (tg_time t) (tg_subject t) [])
    else t)).

(** [add_trig(obj)], [del_trig(obj)] *)
Definition add_trig : T unit :=
  g ← get_glob;
  let no := str_of_Z (trig_num g) in
  mod_tables (λ l, l ++ [blank_table no]) ;;
  initMselect no ;;
  mod_glob (λ g, with_trig_num (trig_num g + 1) g).
Definition del_trig (no : jstr) : T unit :=
  mod_tables (List.filter (λ t, negb (bool_decide (tg_no t = no)))).

(** A box of the links of table [no] is ticked or not. *)
Definition click_link (no : jstr) (checked : bool) (id : jstr) : T unit :=
  g ← get_glob;
  mod_tables (List.map (λ t, if bool_decide (tg_no t = no) then getTrig (trig_list g) checked id t else t)).

(** [outSubTemp]: the templates the other tables have are hidden in the list;
    answers the titles that stay. *)
Definition outSubTemp (no : jstr) (titles : list jstr) : T (list jstr) :=
  l ← tables;
  let outCate := List.map tg_sub_name
    (List.filter (λ t, negb (bool_decide (tg_no t = no)) && negb (bool_decide (tg_sub_name t = []))) l) in
  mret (List.filter (λ s, negb (bool_decide (s ∈ outCate))) titles).

(** [cancleTrig()]: the links are emptied, the tables read again, and only the
    first stays. *)
Definition cancleTrig : T unit :=
  mod_tables (List.map (with_links [])) ;;
  init_tables ;;
  mod_tables (take 1) ;;
  set_html (js "#tempSetting .err") [] ;;
  emit (EvTimeout 300).
Definition cancleTrig_later : T unit := closeDialog.
End scripts.

(** ** Facts *)

(** *** The links *)

Definition is_link (a : anchor) (h : jstr) : Prop :=
  an_in_header a = false ∧ an_in_footer a = false ∧ h = default [] (an_href a) ∧ contains (js "http") h = true.

Lemma hrefs_from l acc :
  NoDup acc →
  NoDup (List.fold_left href_step l acc) ∧
  ∀ h, h ∈ List.fold_left href_step l acc ↔ h ∈ acc ∨ ∃ a, a ∈ l ∧ is_link a h.
Proof.
  revert acc. induction l as [|a l IH]; intros acc Hn; cbn [List.fold_left].
  - split; [done|]. intros h. split; [by left|]. by intros [?|(a & ?%elem_of_nil & _)].
  - assert (NoDup (href_step acc a) ∧ ∀ h, h ∈ href_step acc a ↔ h ∈ acc ∨ is_link a h) as [Hn' Hs].
    { unfold href_step, is_link. destruct (an_in_header a), (an_in_footer a); cbn [orb];
        try (split; [done|]; intros h; split; [by left|]; by intros [?|(? & ? & _)]).
      set (x := default [] (an_href a)). case_bool_decide as Hx.
      - split; [done|]. intros h. split; [by left|]. by intros [?|(_ & _ & -> & _)].
      - rewrite indexOf_contains. destruct (contains (js "http") x) eqn:Hc.
        + split.
          * apply NoDup_app. split; [done|]. split; [|apply NoDup_singleton].
            intros y Hy ->%list_elem_of_singleton. done.
          * intros h. rewrite elem_of_app, list_elem_of_singleton. split.
            -- intros [?| ->]; [by left|]. by right.
            -- intros [?|(_ & _ & -> & _)]; [by left|by right].
        + split; [done|]. intros h. split; [by left|].
          intros [?|(_ & _ & -> & H)]; [done|congruence]. }
    destruct (IH _ Hn') as [IH1 IH2]. split; [done|]. intros h. rewrite IH2, Hs. split.
    + intros [[?|?]|(b & Hb & ?)]; [by left|right; exists a|right; exists b].
      * split; [constructor|done].
      * split; [by constructor|done].
    + intros [?|(b & [ ->|Hb]%elem_of_cons & ?)]; [by left; left|by left; right|].
      right. by exists b.
Qed.

(** The links of a template are those of its anchors outside the header and
    the footer whose address speaks of http, each once. *)
Lemma hrefs_spec l :
  NoDup (hrefs l) ∧ ∀ h, h ∈ hrefs l ↔ ∃ a, a ∈ l ∧ is_link a h.
Proof.
  destruct (hrefs_from l [] (NoDup_nil_2)) as [H1 H2]. split; [done|].
  intros h. unfold hrefs. rewrite H2. split; [|by right].
  by intros [?%elem_of_nil|?].
Qed.

(** *** A table *)

Record trig_ok (t : trig) : Prop := {
  to_links : tg_links t ≠ [];
  to_name : tg_sub_name t ≠ [];
  to_time : bad_time (tg_time t) = false;
  to_subject : tg_subject t ≠ [];
  to_plain : Forall (λ c, special_char c = false) (tg_subject t)
}.

Lemma existsb_false_Forall {A} (P : A → bool) l : existsb P l = false ↔ Forall (λ x, P x = false) l.
Proof.
  induction l as [|x l IH]; simpl; [split; [constructor|done]|].
  rewrite orb_false_iff, IH, Forall_cons. done.
Qed.

Lemma trig_error_spec t : trig_error t = None ↔ trig_ok t.
Proof.
  unfold trig_error. split.
  - destruct (bool_decide (tg_links t = [])) eqn:H1; [done|].
    destruct (bool_decide (tg_sub_name t = [])) eqn:H2; [done|].
    destruct (bad_time (tg_time t)) eqn:H3; [done|].
    destruct (bool_decide (tg_subject t = [])) eqn:H4; [done|].
    destruct (existsb special_char (tg_subject t)) eqn:H5; [done|].
    intros _. bool_simp. constructor; try done. by apply existsb_false_Forall.
  - intros [H1 H2 H3 H4 H5]. rewrite !bool_decide_eq_false_2 by done. rewrite H3.
    by rewrite (proj2 (existsb_false_Forall _ _) H5).
Qed.

Lemma first_error_spec l : first_error l = None ↔ Forall trig_ok l.
Proof.
  induction l as [|t l IH]; simpl; [split; [constructor|done]|].
  rewrite Forall_cons, <-trig_error_spec, <-IH.
  destruct (trig_error t); [|tauto]. split; [done|]. by intros [? _].
Qed.

(** For a number written in digits the time check is what its message says. *)
Lemma bad_time_digits n : bad_time (str_of_N n) = negb (n <=? 120)%N.
Proof.
  destruct (str_of_N_spec n) as (Hd & Hv & Hne). unfold bad_time.
  assert (existsb is_digit (str_of_N n) = true) as ->.
  { destruct (str_of_N n) as [|c l]; [done|]. inversion Hd as [|? ? Hc _]; subst. simpl. by rewrite Hc. }
  assert (contains (js ".") (str_of_N n) = false) as Hdot.
  { apply not_true_is_false. intros Hc. change (js ".") with [46%N] in Hc.
    apply contains_char in Hc. unfold all_digits in Hd. rewrite Forall_forall in Hd.
    by specialize (Hd _ Hc). }
  rewrite indexOf_contains, Hdot, orb_false_r. cbn [negb orb].
  unfold lt_num, gt_num. cbn [num_of_val]. rewrite to_number_digits, Hv by done.
  assert (pow2_53 = 9007199254740992) as E by reflexivity.
  destruct (Z.leb_spec (Z.of_N n) pow2_53) as [Hle|Hgt].
  - rewrite round53_exact by lia. cbn [num_lt]. rewrite (proj2 (Z.ltb_ge _ _)) by lia. cbn [orb].
    destruct (N.leb_spec n 120); cbn [negb]; [apply Z.ltb_ge; lia|apply Z.ltb_lt; lia].
  - rewrite (proj2 (N.leb_gt _ _)) by lia. cbn [negb].
    destruct (round53_large (Z.of_N n)) as [-> |(a & -> & Ha)]; [lia|done|].
    cbn [num_lt]. apply orb_true_iff. right. apply Z.ltb_lt. lia.
Qed.

(** It lets through text that is no number, when it has a digit. *)
Lemma bad_time_text : bad_time (js "abc1") = false.
Proof. by vm_compute. Qed.

(** *** Comparing the links *)

Section compare.
Context {E : Type} `{!KindEditor E} (anchors : jstr → list anchor).
Abbreviation W := (world (plan E)).

(** The page has the text area, and its editor when the mode needs it. *)
Definition page_ok (w : W) : Prop :=
  live_side PC (pl_template (w_glob w)) ∧ ∃ i l, found (area PC) w = i :: l.

Lemma getHrefList_runs (w : W) : page_ok w →
  ∃ k w', getHrefList anchors w = (Ok (hrefs (anchors k)), w')
    ∧ trig_list (w_glob w') = hrefs (anchors k)
    ∧ pl_tables (w_glob w') = pl_tables (w_glob w)
    ∧ init_trig_num (w_glob w') = init_trig_num (w_glob w)
    ∧ trig_num (w_glob w') = trig_num (w_glob w)
    ∧ w_sel w' = w_sel w ∧ page_ok w'.
Proof.
  intros [Hl Ha]. unfold getHrefList.
  set (w1 := set_glob (with_trig_list [] (w_glob w)) w).
  rewrite (bind_ok (mod_glob _) _ w tt w1 eq_refl).
  unfold get_glob. rewrite (bind_ok (gets w_glob) _ w1 _ w1 eq_refl).
  change (pl_template (w_glob w1)) with (pl_template (w_glob w)).
  destruct w as [sel el bx wn u ev now g]. cbn [w_glob] in *.
  destruct g as [t tl ts tn itn]. destruct t as [m1 m2 K K1 c1 c2 cr au]. cbn [pl_template] in *.
  unfold live_side, model_of, editor_of in Hl. cbn [eModel ed_K] in *.
  destruct Hl as [[-> [e ->]]|[-> ->]].
  - rewrite bool_decide_eq_true_2 by done. do 2 eexists. split; [reflexivity|]. repeat split; [|done].
    left. split; [done|]. by eexists.
  - rewrite bool_decide_eq_false_2 by done. do 2 eexists. split; [reflexivity|]. repeat split; [|done].
    by right.
Qed.

Lemma testTrig_runs (w : W) :
  ∃ b w', testTrig w = (Ok b, w') ∧ w_glob w' = w_glob w ∧ (b = true ↔ Forall trig_ok (pl_tables (w_glob w))).
Proof.
  unfold testTrig. set (err := js "#tempSetting .err").
  set (w1 := upd (with_html []) (found err w) w).
  rewrite (bind_ok (set_html err []) _ w tt w1 eq_refl).
  rewrite (bind_ok tables _ w1 (pl_tables (w_glob w)) w1 eq_refl).
  pose proof (first_error_spec (pl_tables (w_glob w))) as Hspec.
  destruct (first_error (pl_tables (w_glob w))) as [[mess fo]|].
  - exists false. destruct fo; eexists; (split; [reflexivity|]); (split; [done|]);
      (split; [done|]); by intros H%Hspec.
  - exists true. rewrite (bind_ok (gets _) _ w1 _ w1 eq_refl).
    destruct (match first (js "#tempSetting") w1 with Some e => e_shown e | None => false end);
      eexists; (split; [reflexivity|]); (split; [done|]); (split; [|done]); intros _; by apply Hspec.
Qed.

(** The decision of the submission. *)
Definition may_submit (errs : list jstr) (g : plan E) : Prop :=
  errs = [] ∧ (is_num (init_trig_num g) 0 = true ∨ Forall trig_ok (pl_tables g)).

Lemma refuse_runs buttons (w : W) :
  ∃ w', refuse buttons w = (Ok false, w') ∧ w_glob w' = w_glob w.
Proof.
  unfold refuse. destruct (del_loading_inert None (upd (with_html buttons) (found cmt_wrap w) w))
    as ([] & w1 & E1 & S1 & G1).
  rewrite (bind_ok (set_html cmt_wrap buttons) _ w tt _ eq_refl), (bind_ok _ _ _ _ _ E1).
  by exists w1.
Qed.

Lemma refer_submit_runs errs (w : W) :
  ∃ b w', refer_submit errs w = (Ok b, w') ∧ w_glob w' = w_glob w
    ∧ (b = true ↔ may_submit errs (w_glob w)).
Proof.
  unfold refer_submit, get_glob, may_submit. rewrite (bind_ok (gets w_glob) _ w _ w eq_refl).
  destruct (is_num (init_trig_num (w_glob w)) 0) eqn:Hn; case_bool_decide as He; cbn [negb].
  - exists true, w. repeat split; [done|by left].
  - destruct (popTips_inert (js "#remindTrig") (VStr (err_html errs)) w) as ([] & w1 & E1 & S1 & G1).
    rewrite (bind_ok _ _ _ _ _ E1).
    destruct (refuse_runs (button_go ++ js "&nbsp;" ++ button_set) w1) as (w2 & E2 & G2).
    exists false, w2. split; [done|]. split; [congruence|]. split; [done|]. by intros [? _].
  - destruct (testTrig_runs w) as (b & w1 & E1 & G1 & Hb). rewrite (bind_ok _ _ _ _ _ E1).
    destruct b.
    + exists true, w1. split; [done|]. split; [done|]. split; [|done]. intros _.
      split; [done|]. right. by apply Hb.
    + destruct (popTips_inert (js "#remindTrig")
        (VStr (js "修改触发模板必须包含至少一个触发链接！")) w1) as ([] & w2 & E2 & S2 & G2).
      rewrite (bind_ok _ _ _ _ _ E2).
      destruct (refuse_runs button_set w2) as (w3 & E3 & G3).
      exists false, w3. split; [done|]. split; [congruence|]. split; [done|].
      intros [_ [?|H]]; [done|]. by apply Hb.
  - destruct (popTips_inert (js "#remindTrig") (VStr (err_html errs)) w) as ([] & w1 & E1 & S1 & G1).
    rewrite (bind_ok _ _ _ _ _ E1).
    destruct (testTrig_runs w1) as (b & w2 & E2 & G2 & Hb). rewrite (bind_ok _ _ _ _ _ E2).
    destruct b;
      [destruct (refuse_runs (button_go ++ js "&nbsp;" ++ button_set) w2) as (w3 & E3 & G3)
      |destruct (refuse_runs button_set w2) as (w3 & E3 & G3)];
      exists false, w3; (split; [done|]); (split; [congruence|]); (split; [done|]); by intros [? _].
Qed.

Lemma errorHref_nil named live : errorHref named live = [] ↔ ∀ h, h ∈ named → h ∈ live.
Proof.
  unfold errorHref. induction named as [|x named IH]; simpl.
  - split; [|done]. by intros _ h ?%elem_of_nil.
  - case_bool_decide as Hx; cbn [negb].
    + rewrite IH. split.
      * intros H h [->|Hh]%elem_of_cons; [done|by apply H].
      * intros H h Hh. apply H. by constructor.
    + split; [done|]. intros H. destruct Hx. apply H. constructor.
Qed.

End compare.

(** *** Ticking a link *)

Section tick.
Context (links : list jstr).

Definition links_ok : Prop := Forall (λ h, sep_free c_comma h ∧ h ≠ []) links ∧ NoDup links.

Lemma link_objs_ids : List.map link_id (List.map link_obj links) = links.
Proof. rewrite List.map_map. apply List.map_id. Qed.

Lemma link_objs_str : links_ok → str_objs (List.map link_obj links).
Proof.
  intros [Hl _]. unfold str_objs. apply Forall_forall. intros o Ho.
  apply list_elem_of_In, in_map_iff in Ho as (h & <- & Hh%list_elem_of_In).
  rewrite Forall_forall in Hl. destruct (Hl h Hh). by exists h.
Qed.

(** The picker keeps of the value the links of the template. *)
Lemma init_table_links t : links_ok → NoDup (splitc c_comma (tg_links t)) →
  tg_links (init_table links t)
  = join [c_comma] (List.filter (λ h, bool_decide (h ∈ splitc c_comma (tg_links t))) links).
Proof.
  intros Hok Hn. unfold init_table.
  pose proof (Mselect_initInput_live (tg_links t) (List.map link_obj links) (tg_sub t)
    (link_objs_str Hok)) as H. rewrite link_objs_ids in H.
  destruct (H (proj2 Hok) Hn) as (Hv & Hc & _). clear H. unfold live_ids in Hv, Hc.
  rewrite link_objs_ids in Hv, Hc. rewrite Hc, Hv. case_bool_decide as He; [by rewrite He|done].
Qed.

Lemma keep_ne (id : jstr) l :
  keep (λ v, bool_decide (v = id)) l = List.filter (λ v, negb (bool_decide (v = id))) l.
Proof. done. Qed.

Lemma no_adjacent_nodup (id : jstr) l : NoDup l → no_adjacent (λ v, bool_decide (v = id)) l = true.
Proof.
  induction 1 as [|x l Hx Hl IH]; [done|]. destruct l as [|y l]; [done|].
  change (negb (bool_decide (x = id) && bool_decide (y = id))
          && no_adjacent (λ v, bool_decide (v = id)) (y :: l) = true).
  rewrite IH, andb_true_r. apply not_elem_of_cons in Hx as [Hxy _].
  apply negb_true_iff, andb_false_iff.
  destruct (decide (x = id)) as [->|]; [right|left]; by apply bool_decide_eq_false.
Qed.

(** Membership in the value, for words. *)
Lemma splitc_value (ws : list jstr) h :
  Forall (sep_free c_comma) ws → h ≠ [] →
  h ∈ splitc c_comma (join [c_comma] ws) ↔ h ∈ ws.
Proof.
  intros Hws Hh. destruct ws as [|w ws].
  - cbn [join splitc]. rewrite list_elem_of_singleton. split; [done|by intros ?%elem_of_nil].
  - by rewrite splitc_join.
Qed.

Lemma NoDup_splitc_join (ws : list jstr) :
  Forall (sep_free c_comma) ws → NoDup ws → NoDup (splitc c_comma (join [c_comma] ws)).
Proof.
  intros Hws Hn. destruct ws as [|w ws]; [apply NoDup_singleton|]. by rewrite splitc_join.
Qed.

Definition ticked (checked : bool) (id : jstr) (held : list jstr) (h : jstr) : bool :=
  if checked then bool_decide (h ∈ held) || bool_decide (h = id)
  else bool_decide (h ∈ held) && negb (bool_decide (h = id)).

(** Ticking or unticking a link of a table leaves, in its field, exactly the
    links of the template that were ticked with this one put in or taken out,
    in the order of the template; addresses the template lost are dropped. *)
Lemma getTrig_links checked id t :
  links_ok → NoDup (splitc c_comma (tg_links t)) → sep_free c_comma id →
  (checked = true → id ∉ splitc c_comma (tg_links t)) →
  tg_links (getTrig links checked id t)
  = join [c_comma] (List.filter (ticked checked id (splitc c_comma (tg_links t))) links).
Proof.
  intros Hok Hn Hid Hc. unfold getTrig, getTrig_value. set (held := splitc c_comma (tg_links t)) in *.
  assert (Forall (sep_free c_comma) held) as Hheld by apply splitc_sep_free.
  set (ws := if checked then held ++ [id] else splice_scan (λ v, bool_decide (v = id)) held).
  assert (Forall (sep_free c_comma) ws ∧ NoDup ws ∧
          ∀ h, h ∈ ws ↔ ticked checked id held h = true) as (Hws & Hwn & Hwe).
  { unfold ws, ticked. destruct checked.
    - split; [apply Forall_app; by repeat constructor|]. split.
      + apply NoDup_app. split; [done|]. split; [|apply NoDup_singleton].
        intros x Hx ->%list_elem_of_singleton. by apply Hc.
      + intros h. rewrite elem_of_app, list_elem_of_singleton, orb_true_iff, !bool_decide_eq_true. done.
    - rewrite splice_scan_keep by (by apply no_adjacent_nodup). split; [|split].
      + apply Forall_forall. intros x Hx. unfold keep in Hx.
        apply list_elem_of_In, filter_In in Hx as [Hx%list_elem_of_In _].
        rewrite Forall_forall in Hheld. by apply Hheld.
      + by apply NoDup_filter_list.
      + intros h. unfold keep. rewrite list_elem_of_In, filter_In, <-list_elem_of_In.
        by rewrite andb_true_iff, bool_decide_eq_true. }
  rewrite init_table_links; [|done|]; cbn [with_links tg_links].
  - f_equal. apply filter_ext_in. intros h Hh%list_elem_of_In.
    destruct Hok as [Hl _]. rewrite Forall_forall in Hl. destruct (Hl h Hh) as [_ Hne].
    apply eq_true_iff_eq. rewrite bool_decide_eq_true. fold ws. by rewrite splitc_value, Hwe.
  - by apply NoDup_splitc_join.
Qed.
End tick.

(** *** The numbers of the tables *)

Section numbers.
Context {E : Type} `{!KindEditor E}.
Abbreviation W := (world (plan E)).

(** No two tables have the same number, and the next number is new. *)
Definition numbered (w : W) : Prop :=
  0 ≤ trig_num (w_glob w)
  ∧ NoDup (List.map tg_no (pl_tables (w_glob w)))
  ∧ Forall (λ t, ∃ k, tg_no t = str_of_Z k ∧ 0 ≤ k < trig_num (w_glob w)) (pl_tables (w_glob w)).

Lemma map_tg_no f l : (∀ t, tg_no (f t) = tg_no t) → List.map tg_no (List.map f l) = List.map tg_no l.
Proof. intros Hf. rewrite List.map_map. by apply List.map_ext. Qed.

Lemma init_table_no links t : tg_no (init_table links t) = tg_no t.
Proof. unfold init_table. by case_match. Qed.

(** A change of the tables that keeps their numbers. *)
Lemma numbered_map f (w : W) : (∀ t, tg_no (f t) = tg_no t) → numbered w →
  numbered (set_glob (with_tables (List.map f (pl_tables (w_glob w))) (w_glob w)) w).
Proof.
  intros Hf (H0 & H1 & H2). unfold numbered. cbn [w_glob set_glob pl_tables with_tables trig_num].
  rewrite map_tg_no by done. split; [done|]. split; [done|].
  apply Forall_forall. intros t Ht. apply list_elem_of_In, in_map_iff in Ht as (t0 & <- & Ht%list_elem_of_In).
  rewrite Hf. rewrite Forall_forall in H2. by apply H2.
Qed.

Lemma numbered_sublist l (w : W) : sublist l (pl_tables (w_glob w)) → numbered w →
  numbered (set_glob (with_tables l (w_glob w)) w).
Proof.
  intros Hs (H0 & H1 & H2). unfold numbered. cbn [w_glob set_glob pl_tables with_tables trig_num].
  split; [done|]. split.
  - eapply sublist_NoDup; [exact H1|]. by apply (fmap_sublist tg_no).
  - apply Forall_forall. intros t Ht. rewrite Forall_forall in H2. apply H2.
    by eapply elem_of_sublist.
Qed.

Lemma take_sublist {A} n (l : list A) : sublist (take n l) l.
Proof. rewrite <-(take_drop n l) at 2. apply sublist_inserts_r. done. Qed.

Definition step_ok (m : J (plan E) unit) : Prop :=
  ∀ w, numbered w → ∃ w', m w = (Ok tt, w') ∧ numbered w'.

Lemma add_trig_ok : step_ok add_trig.
Proof.
  intros w Hw. unfold add_trig, initMselect, get_glob, mod_tables.
  eexists. split; [reflexivity|]. destruct Hw as (H0 & H1 & H2).
  set (no := str_of_Z (trig_num (w_glob w))).
  unfold numbered. cbn [w_glob set_glob pl_tables with_tables with_trig_num trig_num trig_list].
  split; [lia|]. rewrite map_tg_no by (intros t; case_bool_decide; [by rewrite init_table_no|done]).
  rewrite List.map_app. cbn [List.map blank_table tg_no]. split.
  - apply NoDup_app. split; [done|]. split; [|apply NoDup_singleton].
    intros x Hx ->%list_elem_of_singleton. apply list_elem_of_In, in_map_iff in Hx as (t & Et & Ht).
    apply list_elem_of_In in Ht. rewrite Forall_forall in H2. destruct (H2 t Ht) as (k & Ek & Hk).
    rewrite Ek in Et. apply str_of_Z_inj in Et; lia.
  - apply Forall_forall. intros t Ht. apply list_elem_of_In, in_map_iff in Ht as (t0 & <- & Ht).
    assert (∃ k, tg_no t0 = str_of_Z k ∧ 0 ≤ k < trig_num (w_glob w) + 1) as (k & Ek & Hk).
    { apply in_app_or in Ht as [Ht|[<-|[]]].
      - apply list_elem_of_In in Ht. rewrite Forall_forall in H2.
        destruct (H2 t0 Ht) as (k & Ek & Hk). exists k. split; [done|lia].
      - exists (trig_num (w_glob w)). split; [done|lia]. }
    exists k. split; [|done]. case_bool_decide; [by rewrite init_table_no|done].
Qed.

Lemma del_trig_ok no : step_ok (del_trig no).
Proof.
  intros w Hw. eexists. split; [reflexivity|]. apply (numbered_sublist _ w); [apply filter_keeps_sublist|done].
Qed.

Lemma click_link_ok no checked id : step_ok (click_link no checked id).
Proof.
  intros w Hw. eexists. split; [reflexivity|]. apply (numbered_map _ w); [|done].
  intros t. case_bool_decide; [|done]. unfold getTrig. by rewrite init_table_no.
Qed.

Lemma cancleTrig_ok : step_ok cancleTrig.
Proof.
  intros w Hw. unfold cancleTrig, init_tables, mod_tables, get_glob.
  eexists. split; [reflexivity|].
  pose proof (numbered_map (with_links []) w ltac:(done) Hw) as H1.
  pose proof (numbered_map (init_table (trig_list (w_glob w))) _ (init_table_no _) H1) as H2.
  apply (numbered_sublist (take 1 (List.map (init_table (trig_list (w_glob w)))
    (List.map (with_links []) (pl_tables (w_glob w)))))) in H2; [exact H2|].
  apply take_sublist.
Qed.

(** What the user does with the tables. *)
Inductive trig_action := TAdd | TDel (no : jstr) | TTick (no : jstr) (checked : bool) (id : jstr) | TCancel.
Definition trig_act (a : trig_action) : J (plan E) unit :=
  match a with
  | TAdd => add_trig
  | TDel no => del_trig no
  | TTick no checked id => click_link no checked id
  | TCancel => cancleTrig
  end.

Lemma trig_acts_ok l : step_ok (for_each l trig_act).
Proof.
  induction l as [|a l IH]; intros w Hw; [by exists w|]. simpl.
  assert (step_ok (trig_act a)) as Ha.
  { destruct a; [apply add_trig_ok|apply del_trig_ok|apply click_link_ok|apply cancleTrig_ok]. }
  destruct (Ha w Hw) as (w1 & E1 & H1). rewrite (bind_ok _ _ _ _ _ E1). by apply IH.
Qed.
End numbers.

(** ** Properties *)

(** C37 -- Tables may be added, deleted, ticked and cancelled in any order: none of it
    throws, and no two tables ever have the same number. *)
Theorem tables_numbered {E} `{!KindEditor E} l (w : world (plan E)) :
  numbered w →
  ∃ w', for_each l trig_act w = (Ok tt, w') ∧ numbered w' ∧ NoDup (List.map tg_no (pl_tables (w_glob w'))).
Proof.
  intros Hw. destruct (trig_acts_ok l w Hw) as (w' & E' & H). exists w'. split; [done|]. split; [done|]. apply H.
Qed.

(** A page with one table. *)
#[local] Instance demo_editor : KindEditor jstr := {
  ke_create s := s; ke_html e := e; ke_set_html s _ := s; ke_insertHtml s e := e ++ s;
  ke_prepend s e := s ++ e; ke_append s e := e ++ s; ke_remove_id _ e := e
}.
Definition demo_links : list jstr := [js "http://a"; js "http://b"].
Definition demo_table : trig :=
  Trig (js "0") (js "http://a") [] (js "T") (js "7") (js "30") (js "hello") [].
Definition demo_anchors (text : jstr) : list anchor :=
  List.map (λ h, Anchor (Some h) false false) (demo_links ++ [js "#top"; js "http://a"]).
Definition demo_plan : world (plan jstr) :=
  page_with [(area PC, blank); (js "#category_list", with_html (js "普通") blank)]
    (Plan (Template TEXT TEXT None None [] [] None []) demo_links [demo_table] 1 (num 1)).

Lemma tables_numbered_witness :
  numbered demo_plan ∧
  ∃ w', for_each [TAdd; TDel (js "0"); TAdd; TTick (js "1") true (js "http://b")] trig_act demo_plan = (Ok tt, w')
    ∧ numbered w'.
Proof.
  assert (numbered demo_plan) as H.
  { split; [vm_compute; discriminate|]. split; [vm_compute; repeat constructor; not_in|].
    repeat constructor. exists 0. split; [vm_compute; reflexivity|cbn; lia]. }
  split; [exact H|].
  destruct (tables_numbered [TAdd; TDel (js "0"); TAdd; TTick (js "1") true (js "http://b")] demo_plan H)
    as (w' & E & N & _).
  exists w'. split; [exact E|exact N].
Defined.


Lemma getTrig_links_witness :
  tg_links (getTrig demo_links true (js "http://b") demo_table) = js "http://a,http://b".
Proof.
  rewrite (getTrig_links demo_links true (js "http://b") demo_table).
  - vm_compute. reflexivity.
  - split; [repeat constructor; try discriminate; unfold sep_free; not_in|].
    vm_compute. repeat constructor; not_in.
  - vm_compute. repeat constructor; not_in.
  - unfold sep_free. not_in.
  - intros _. not_in.
Defined.
