(* ===== verification/Task.v ===== *)
(** * The form of a mailing task -- [mailing.task.common.js],
    [mailing.task.add.js]

    A task names a template, a subject, a sender, the tags of its recipients
    and the ones left out, a way of sending and properties; its pickers keep
    arrays with rules of their own, and the form is checked before the
    recipients are counted. *)

From Stdlib Require Import QArith_base.
From S2P Require Import Prelude Js JsFacts Page Layout TagList Url Base Widgets Search Select.
#[local] Open Scope Z_scope.

(** ** The variables of the page *)

Record task := Task {
  tk_sub : gmap jstr (list item);       (* the arrays of the fields *)
  cookieArr : list (jstr * jstr);
  templateData : list obj;
  sender_list : list obj;
  catedata : list (jstr * list obj);
  file_list : list (jstr * list obj);
  include_list : list (jstr * list obj);
  selectionData : list (jstr * obj)
}.
Definition with_sub (m : gmap jstr (list item)) (g : task) : task :=
  Task m (cookieArr g) (templateData g) (sender_list g) (catedata g) (file_list g) (include_list g)
    (selectionData g).
Definition with_senders (l : list obj) (g : task) : task :=
  Task (tk_sub g) (cookieArr g) (templateData g) l (catedata g) (file_list g) (include_list g)
    (selectionData g).
Definition with_tags (c f i : list (jstr * list obj)) (s : list (jstr * obj)) (g : task) : task :=
  Task (tk_sub g) (cookieArr g) (templateData g) (sender_list g) c f i s.

(** Every field has an array of its own: each call of [search] makes one. *)
Definition task_get (k : jstr) (g : task) : option (list item) := tk_sub g !! k.
Definition task_set (k : jstr) (l : list item) (g : task) : task := with_sub (<[k := l]> (tk_sub g)) g.
Lemma task_get_set k l g : is_Some (task_get k g) → task_get k (task_set k l g) = Some l.
Proof. intros _. apply lookup_insert_eq. Qed.
#[export] Instance task_sub : SubArr task := {
  sub_get := task_get; sub_set := task_set; sub_get_set := task_get_set
}.

Abbreviation T := (J task).

(** ** Lists *)

Definition two_digits (i : Z) : jstr := if i <? 10 then js "0" ++ str_of_Z i else str_of_Z i.
Definition upto (a b : Z) : list Z := List.map (λ n, a + Z.of_nat n) (seq 0 (Z.to_nat (b - a + 1))).
Definition period_list : list (jstr * jstr) :=
  [(js "day", js "每天"); (js "week", js "每周"); (js "month", js "每月")].
Definition hour_list : list (jstr * jstr) :=
  List.flat_map (λ i, let i2 := two_digits i in
    [(i2 ++ js ":00", i2 ++ js ":00"); (i2 ++ js ":30", i2 ++ js ":30")]) (upto 0 23).
Definition week_day_list : list (jstr * jstr) :=
  [(js "1", js "周一"); (js "2", js "周二"); (js "3", js "周三"); (js "4", js "周四");
   (js "5", js "周五"); (js "6", js "周六"); (js "7", js "周日");
   (js "work_day", js "工作日（周一至周五）"); (js "holiday", js "休假日（周六至周日）")].
Definition day_list : list (jval * jstr) :=
  List.map (λ i, (num i, two_digits i ++ js "日")) (upto 1 31) ++ [(VStr (js "last_day"), js "最后一天")].

(** ** Rules of the pickers, on the arrays *)

(** [pickExclusion]: the id -1 stands alone. *)
Definition pick_exclusion (l : list item) (val txt : jval) : list item :=
  let l1 := if loose_eq val (num (-1)) then []
            else splice_scan (λ it, loose_eq (item_id it) (num (-1))) l in
  filterArr l1 [val; txt].

(** [pickIncludes]: a file stands alone, and carries its type. *)
Definition is_file (it : item) : bool := loose_eq (at_ 2 it) (VStr (js "file")).
Definition pick_include (l : list item) (file : bool) (val txt type : jval) : list item :=
  if file then filterArr [] [val; txt; type]
  else filterArr (splice_scan is_file l) [val; txt].

(** [addAssProp]: [cate] tells the category of the property of an id. *)
Definition industry : jstr := js "行业兴趣".
Definition pick_prop (cate : jval → jval) (l : list item) (val txt cate_info : jval) : list item :=
  if loose_eq cate_info (VStr industry)
  then filterArr l [val; txt; cate_info]
  else filterArr (splice_scan (λ it, loose_eq (cate (item_id it)) cate_info) l) [val; txt].

Section scripts.

(** ** Ways of sending *)

Definition grey_box (sel : jstr) (b : bool) : T unit :=
  set_disabled sel b ;;
  let box := sel ++ js ".closest('div')" in
  if b then addClass box (js "f666") else removeClass box (js "f666").
Definition schedule : jstr := js "input[value=schedule]".
Definition plan : jstr := js "input[value=plan]".

(** [testSendCode()]: a campaign forbids plans, a file forbids schedules and
    plans. *)
Definition testSendCode : T unit :=
  v1 ← val (js "#campId");
  v2 ← val (js "#includeId");
  let str1 := or_empty v1 in
  let str2 := or_empty v2 in
  let hasCamp := negb (bool_decide (str1 = [])) in
  let hasFile := -1 <? indexOf (js "EXPORT") str2 in
  if negb hasCamp && negb hasFile then grey_box schedule false ;; grey_box plan false
  else if negb hasCamp && hasFile then grey_box schedule true ;; grey_box plan true
  else if hasCamp && negb hasFile then grey_box schedule false ;; grey_box plan true
  else if hasCamp && hasFile then grey_box schedule true ;; grey_box plan true
  else skip.

(** The choice of [sendCode]. *)
Definition sendCode_change : T unit :=
  selectVal ← val (js "input[name=sendCode]:checked");
  (if is_str selectVal "schedule" then show (js "#jobTime")
   else set_val (js "#jobTime") [] ;; hide (js "#jobTime")) ;;
  let label := js "#camp.closest('tr').find('td:first-child')" in
  if is_str selectVal "plan"
  then set_disabled (js "#camp") true ;; addClass label (js "f666") ;; show (js "#periodOption")
  else set_disabled (js "#camp") false ;; removeClass label (js "f666") ;; hide (js "#periodOption").

(** [disPeriod(obj)] *)
Definition disPeriod (o : node) : T unit :=
  pickData o (js "#camp") ;;
  v ← val (js "#campId");
  when (negb (bool_decide (v = VStr [])))
    (let input := js "input[name=sendCode][value=plan]" in
     set_disabled input true ;; addClass (input ++ js ".closest('div')") (js "f666")).

(** The [keydown] of [#camp]. *)
Definition camp_keydown (keyCode : Z) : T bool :=
  when (keyCode =? 8)
    (set_val (js "#camp") [] ;; set_val (js "#camp.next()") [] ;; testSendCode) ;;
  mret true.

(** [switchPeriod()] *)
Definition switchPeriod : T unit :=
  label ← val (js "#periodId");
  hide (js "#periodId.parents('dl').find('.pad')") ;;
  show (js "#periodId.parents('dl').find('.pad').parent().find('." ++ str_of_val label ++ js "_pad')").

(** ** Template, subject and sender *)

Definition insertCon (v : jstr) : T unit := insert_at_caret (js "#subject") v.

(** The loops that copy a property of the objects picked: the last wins. *)
Definition copy_from (l : list obj) (key : string) (wanted : jval) (prop_ : string) (target : jstr) : T unit :=
  for_each l (λ o, when (loose_eq (prop (js key) o) wanted)
                        (set_val target (str_of_val (prop (js prop_) o)))).
Definition postSubject (o : node) (inputId : jstr) : T unit :=
  pickData o inputId ;;
  id ← val (js "#templateId");
  g ← get_glob;
  copy_from (templateData g) "id" id "subject" (js "#subject").
(** Without arguments nothing is picked. *)
Definition postName (picked : option (node * jstr)) : T unit :=
  match picked with Some (o, id) => pickData o id | None => skip end ;;
  email ← val (js "#senderEmail");
  g ← get_glob;
  copy_from (sender_list g) "title" email "info" (js "#senderName").

Definition template_keydown (keyCode : Z) : T bool :=
  when (keyCode =? 8)
    (set_val (js "#template") [] ;; set_val (js "#template.next()") [] ;; set_val (js "#subject") []) ;;
  mret true.

Definition reloadSender (token : jstr) : T unit :=
  emit (EvAjax (js "/account/sender/array?token=" ++ token) []) ;;
  reloadSelect (js "#sender_list").
(** Its answer: the list the plugin holds is refilled in place. *)
Definition reloadSender_success (senderMaps : option (list (jstr * jval))) : T unit :=
  match senderMaps with
  | Some m => mod_glob (with_senders
      (List.map (λ kv, [(js "id", VStr (fst kv)); (js "title", VStr (fst kv)); (js "info", snd kv)]) m))
  | None => skip
  end.

(** The fields filled from the cookie when a task is new. *)
Definition cookie_fill (taskId href : jstr) : T unit :=
  if negb (bool_decide (taskId = [])) then skip
  else
    let isTemplateRefer := -1 <? indexOf (js "templateId=") href in
    g ← get_glob;
    let l := if isTemplateRefer
             then List.filter (λ kv, negb (bool_decide (fst kv = js "templateId"))
                                     && negb (bool_decide (fst kv = js "subject"))) (cookieArr g)
             else cookieArr g in
    mod_glob (λ g, Task (tk_sub g) l (templateData g) (sender_list g) (catedata g) (file_list g)
                     (include_list g) (selectionData g)) ;;
    for_each l (λ kv, if bool_decide (snd kv = []) then skip
                      else v ← lift (decodeURIComponent (snd kv));
                           set_val (js "input[name=" ++ fst kv ++ js "]") v).

(** ** Properties *)

Definition assProp : jstr := js "#assProp".
(** [$("a[data-id="+id+"]").attr("data-info")] *)
Definition cate_in (w : world task) (id : jval) : jval :=
  match first (js "a[data-id=" ++ str_of_val id ++ js "]") w ≫= λ e, e_attr e !! js "data-info" with
  | Some v => VStr v
  | None => VUndef
  end.

(** [addPropSelect(inputId)] *)
Definition prop_link (id : jstr) : jstr :=
  js "#slideSearchProp ul li a[data-id='" ++ id ++ js "'].parents('li')".
Definition addPropSelect (inputId : jstr) : T unit :=
  removeClass (js "#slideSearchProp ul li") (js "selected") ;;
  ids ← val (inputId ++ js ".next()");
  match ids with
  | VStr [] => skip
  | VStr s => for_each (splitc c_comma s) (λ id, addClass (prop_link id) (js "selected"))
  | _ => throw (js "TypeError")
  end.

(** [addAssProp(obj,inputId,fn)]; [selected]: the property is picked already. *)
Definition addAssProp (o : node) (cate_info : jval) (selected : bool) (inputId : jstr) (fn : T unit) : T unit :=
  itemArr ← subArr inputId;
  let tagLimit := 10 in
  if negb selected && (tagLimit <=? Z.of_nat (length itemArr))
  then error_text (js "选择标签数不能大于" ++ str_of_Z tagLimit ++ js "个！") 1
  else
    cate ← gets cate_in;
    let l := if selected then removeArrItem itemArr (VStr (n_text o))
             else pick_prop cate itemArr (VStr (n_attr o)) (VStr (n_text o)) cate_info in
    set_subArr inputId l ;;
    addItemInput l inputId ;;
    addPropSelect inputId ;;
    fn.

(** [removeProp(item,inputId,fn)] *)
Definition removeProp (it : jstr) (inputId : jstr) (fn : T unit) : T unit :=
  itemArr ← subArr inputId;
  let l := removeArrItem itemArr (VStr it) in
  set_subArr inputId l ;;
  addItemInput l inputId ;;
  addPropSelect inputId ;;
  fn.
Definition assProp_keydown (keyCode caret : Z) : T bool :=
  (if keyCode =? 8
   then v ← val assProp; removeProp (getDeleteItem (field v) caret) assProp skip
   else skip) ;;
  mret true.

(** ** The pickers with a limit *)

(** [typeof limit!='undefined' && parentArr.length>=limit] *)
Definition over_limit (limit : option Z) (l : list item) : bool :=
  match limit with Some n => n <=? Z.of_nat (length l) | None => false end.
Definition limit_error (limit : option Z) : T unit :=
  error_text (js "不能超过" ++ str_of_Z (default 0 limit) ++ js "个") 1.

(** [pickExclusion(obj,inputId,limit)] *)
Definition pickExclusion (o : node) (inputId : jstr) (limit : option Z) : T unit :=
  parentArr ← subArr inputId;
  if over_limit limit parentArr then limit_error limit
  else
    let l := pick_exclusion parentArr (n_data o) (VStr (n_text o)) in
    set_subArr inputId l ;;
    addItemInput l inputId.

(** [pickIncludes(obj,inputId,limit)]; [type] is the choice's [data-type]. *)
Definition pickIncludes (o : node) (type : jval) (inputId : jstr) (limit : option Z) : T unit :=
  parentArr ← subArr inputId;
  if over_limit limit parentArr then limit_error limit
  else
    let file := loose_eq type (VStr (js "file")) in
    s ← (if file then checked0 schedule else mret false);
    p ← (if file && negb s then checked0 plan else mret false);
    if s || p
    then error_text (js "如果选择了【定时发送】和【周期发送】，包含标签禁用临时文件") 1
    else
      (if file
       then set_disabled (js "#exclude") true ;;
            set_val (js "#exclude") [] ;; set_val (js "#excludeId") []
       else set_disabled (js "#exclude") false) ;;
      let l := pick_include parentArr file (n_data o) (VStr (n_text o)) type in
      set_subArr inputId l ;;
      addItemInput l inputId ;;
      testSendCode.

(** [pickExcludes(obj,inputId,limit)] *)
Definition pickExcludes (o : node) (inputId : jstr) (limit : option Z) : T unit :=
  parentArr ← subArr inputId;
  if over_limit limit parentArr then limit_error limit
  else pickArr o inputId skip.

(** The [keydown] of [#include] ([deleteFn] of [initTag]). *)
Definition include_keydown (keyCode caret : Z) : T unit :=
  _ ← reduceArr (js "#include") keyCode caret skip;
  v ← val (js "#includeId");
  when (bool_decide (v = VStr []))
    (set_disabled (js "#exclude") false ;; testSendCode).

(** ** The form *)

(** [form.name.value] of the form [#add]. *)
Definition control (name : string) : jstr := js "#add." ++ js name.
Definition form_value (name : string) : T jstr :=
  o ← gets (first (control name));
  match o with Some e => mret (e_val e) | None => throw (js "TypeError") end.

(** The form is refused with a message, perhaps moving the focus. *)
Definition refuse (mess : jstr) (focus : option string) : T bool :=
  error_text mess 1 ;;
  match focus with Some n => emit (EvFocus (control n)) | None => skip end ;;
  del_loading None ;;
  mret false.
Definition require (name : string) (mess : jstr) (focus : bool) (rest : T bool) : T bool :=
  v ← form_value name;
  if bool_decide (v = [])
  then refuse mess (if focus then Some name else None)
  else rest.
(** A control asked for only when [box] is on the page. *)
Definition require_if (box : jstr) (name : string) (mess : jstr) (rest : T bool) : T bool :=
  n ← size_of box;
  if negb (n =? 0) then require name mess false rest else rest.
(** [$("#assProp").size() && $("#assProp").val()!='' && findArrItem(..)==-1] *)
Definition require_industry (rest : T bool) : T bool :=
  n ← size_of assProp;
  v ← val assProp;
  bad ← (if negb (n =? 0) && negb (bool_decide (v = VStr []))
         then l ← subArr assProp; mret (findArrItem l 2 (VStr industry) =? -1)
         else mret false);
  if bad : bool then refuse (js "请选择关联属性的行业兴趣") None else rest.

Definition remind : jstr := js "#remindCustom".
Definition select_url (token : jstr) : jstr := js "/mailing/task/selection?token=" ++ token.

(** [getAjaxSum()]; answers [false] when the form is refused. *)
Definition getAjaxSum (token : jstr) : T bool :=
  loading None None ;;
  require "taskName" (js "请输入任务名称") true
  (require "templateId" (js "请选择邮件模板") false
  (require "subject" (js "请输入邮件主题") true
  (require_if (js "#bindCorpId") "bindCorpId" (js "请选择所属企业")
  (require "senderEmail" (js "请选择发件人邮箱") false
  (require "includeIds" (js "请选择所属标签") false
  (require_if (js "#sms_list") "sms" (js "请选择短信通知")
  (require_industry
    (popTips remind (VStr (jsq "<p><img src='/static/img/loading2.gif' style='margin-bottom:-5px;' />&nbsp;&nbsp;正在筛选收件人，请稍候...</p>")) ;;
     set_disabled (remind ++ js " input") true ;;
     i ← val (js "#includeId");
     x ← val (js "#excludeId");
     emit (EvAjax (select_url token) [(js "includeIds", or_empty i); (js "excludeIds", or_empty x)]) ;;
     mret true)))))))).

(** Its answers. *)
Definition getAjaxSum_success (code : jval) (fileId count message : jval) : T unit :=
  (if is_num code 1
   then set_val (js "input[name=fileId]") (str_of_val fileId) ;;
        popTips remind (VStr (js "<p>筛选成功：当前共筛选<span class='red'>" ++ str_of_val count
          ++ jsq "</span>个收件人<span class=`f666`>（已去重）</span></p>"))
   else popTips remind (VStr (js "<p>筛选失败：" ++ str_of_val message ++ js "</p>"))) ;;
  set_disabled (remind ++ js " input") false ;;
  del_loading None.
Definition getAjaxSum_error : T unit :=
  popTips remind (VStr (js "筛选收件人失败！")) ;;
  set_disabled (remind ++ js " input") false ;;
  del_loading None.

(** [drafted()]: its [beforeSubmit] and [success]. *)
Definition drafted_beforeSubmit : T bool :=
  loading None None ;;
  require "taskName" (js "请输入任务名称") true
  (require "templateId" (js "请选择邮件模板") false
  (require "subject" (js "请输入邮件主题") true
  (require "senderEmail" (js "请输入发件人邮箱") false
  (require "includeIds" (js "请选择所属标签") false
  (require_if (js "#sms_list") "sms" (js "请选择短信通知")
  (require_industry (mret true))))))).
Definition drafted_success (code taskId planId taskName message : jval) : T unit :=
  (if is_num code 1
   then set_val (js "input[name=taskId]") (str_of_val taskId) ;;
        set_val (js "input[name=planId]") (str_of_val planId) ;;
        set_val (js "input[name=orgTaskName]") (str_of_val taskName) ;;
        error_message message VUndef VUndef VUndef VUndef
   else error_message message (num 1) VUndef VUndef VUndef) ;;
  del_loading None.

(** The form's own [success], and [$("#smt")]. *)
Definition add_success (code message : jval) : T unit :=
  (if is_num code 1
   then error_message message (num 0) (num 0) (num 1000) (VStr (js "/mailing/task/page"))
   else error_message message (num 1) VUndef VUndef VUndef) ;;
  del_loading None.
Definition smt_click (token : jstr) : T bool := getAjaxSum token ;; mret false.

(** ** The tags *)

(** [$.extend({},a,b)] on objects of the same kind of values. *)
Fixpoint put {A} (k : jstr) (v : A) (l : list (jstr * A)) : list (jstr * A) :=
  match l with
  | [] => [(k, v)]
  | (k', v') :: l' => if bool_decide (k' = k) then (k, v) :: l' else (k', v') :: put k v l'
  end.
Definition extend {A} (a b : list (jstr * A)) : list (jstr * A) :=
  List.fold_left (λ l kv, put (fst kv) (snd kv) l) b a.

Definition refreshTag (token : jstr) : T unit :=
  emit (EvAjax (js "/mailing/task/refresh?token=" ++ token) []).
Definition unsubscribed : jstr := js "退订".
(** Its answer; without a callback the plugins are given the new data (they
    read these variables) and the list of [#include] is reopened. *)
Definition refreshTag_success (categoryMap fileMap : list (jstr * list obj))
    (selectionMap : list (jstr * obj)) (callFn : option (T unit)) : T unit :=
  mod_glob (with_tags categoryMap fileMap (extend categoryMap fileMap) selectionMap) ;;
  match callFn with
  | Some f => f
  | None => reloadSearch (js "#include")
  end.
Definition refreshTag_error : T unit := error_text (js "数据加载失败！") 1.

(** A category of a result box: its title, its rows (id, shown), whether it is
    shown. *)
Record group := Group { g_cate : jstr; g_rows : list (jstr * bool); g_shown : bool }.
Definition hide_all_unsubscribed (l : list (jstr * bool)) : list (jstr * bool) :=
  List.map (λ r, if bool_decide (fst r = js "-1") then (fst r, false) else r) l.
(** [sortFn] of [#include]: each file category is moved to the front. *)
Definition file_cate (g : group) : bool :=
  bool_decide (g_cate g = js "筛选文件") || bool_decide (g_cate g = js "临时文件").
Definition to_front (l : list group) (g : group) : list group :=
  if file_cate g
  then g :: remove_first (λ h, bool_decide (g_cate h = g_cate g)) l
  else l.
Definition sort_include (l : list group) : list group :=
  List.map (λ g, Group (g_cate g) (hide_all_unsubscribed (g_rows g)) (g_shown g))
    (List.fold_left to_front l l).
(** [sortFn] of [#exclude]: the temporary files are not shown. *)
Definition sort_exclude (l : list group) : list group :=
  List.map (λ g, if bool_decide (g_cate g = js "临时文件") then Group (g_cate g) (g_rows g) false else g) l.

(** The end of [initTag()]: a file was picked before. *)
Definition initTag_end : T unit :=
  l ← subArr (js "#include");
  when (-1 <? findArrItem l 2 (VStr (js "file"))) (set_disabled (js "#exclude") true).

(** The pop-up of a file. *)
Definition file_tips (g : task) (id : jstr) : option jstr :=
  match List.find (λ kv, bool_decide (fst kv = id)) (selectionData g) with
  | None => None
  | Some (_, tips) =>
      let p k := str_of_val (prop (js k) tips) in
      Some (js "<h4>包含标签：</h4><ul><li>" ++ p "includes" ++ js "</li><li>选取标签下的收件人："
        ++ p "activeCnd" ++ js "</li><li>取标签之间的收件人：" ++ p "inCnd"
        ++ js "</li></ul><h4>排除标签：</h4><ul><li>" ++ p "excludes"
        ++ js "</li></ul><h4>过滤器：</h4><ul><li>" ++ p "filter"
        ++ jsq "</li></ul><h4>当前收件人总数：<span class=`red`>" ++ p "emailCount"
        ++ jsq "</span><span class=`f666`>（" ++ p "repeat" ++ js "）</span></h4>")
  end.
End scripts.

(** ** Facts *)

(** *** The pickers' arrays *)

Section pickers.
Context (K : jval → Prop) `{!Keyed K}.
Implicit Types (l : list item) (it : item).

(** An item that must stand alone. *)
Definition alone (P : item → bool) l : Prop := existsb P l = true → length l = 1%nat.

Lemma existsb_sublist (P : item → bool) l k : sublist l k → existsb P l = true → existsb P k = true.
Proof.
  intros Hs. rewrite !existsb_exists. intros (x & Hx & Px). exists x. split; [|done].
  apply list_elem_of_In. eapply elem_of_sublist; [|done]. by apply list_elem_of_In.
Qed.

(** The scan empties an array that breaks the rule of the new item. *)
Lemma scan_alone (P : item → bool) l :
  alone P l → existsb P (splice_scan P l) = false.
Proof.
  intros Ha. destruct (existsb P l) eqn:E.
  - specialize (Ha E). destruct l as [|x [|y l]]; try done. simpl in *.
    rewrite orb_false_r in E. by rewrite E.
  - destruct (existsb P (splice_scan P l)) eqn:E'; [|done].
    rewrite (existsb_sublist P _ l) in E by (by auto using splice_scan_sublist). done.
Qed.

Lemma pick_alone (P : item → bool) l it :
  alone P l → alone P (filterArr (if P it then [] else splice_scan P l) it).
Proof.
  intros Ha. destruct (P it) eqn:Hit; [by intros _|].
  intros H. exfalso. rewrite filterArr_spec, existsb_app in H. simpl in H. rewrite Hit, !orb_false_r in H.
  apply (existsb_sublist P _ (splice_scan P l)) in H; [|by auto with edm].
  by rewrite scan_alone in H.
Qed.

Lemma pick_exclusion_eq l val txt :
  pick_exclusion l val txt
  = filterArr (if loose_eq (item_id [val; txt]) (num (-1)) then []
               else splice_scan (λ it, loose_eq (item_id it) (num (-1))) l) [val; txt].
Proof. done. Qed.

Lemma pick_include_eq l file val txt type :
  file = loose_eq type (VStr (js "file")) →
  pick_include l file val txt type
  = let it := if file then [val; txt; type] else [val; txt] in
    filterArr (if is_file it then [] else splice_scan is_file l) it.
Proof.
  intros ->. unfold pick_include. destruct (loose_eq type _) eqn:E; [|done].
  unfold is_file at 1. unfold at_. cbn [nth]. by rewrite E.
Qed.

Lemma wf_nil : wf K [].
Proof. split; constructor. Qed.

Lemma pick_wf (b : bool) (P : item → bool) l it :
  wf K l → K (item_id it) → wf K (filterArr (if b then [] else splice_scan P l) it).
Proof.
  intros Hl Hit. apply filterArr_wf; try done. destruct b; [apply wf_nil|].
  by apply splice_scan_wf.
Qed.

(** One property of a category, the industry interests apart. *)
Definition cates (cate : jval → jval) l : list jval := List.map (λ it, cate (item_id it)) l.
Definition exclusive (cate : jval → jval) l : Prop :=
  NoDup (List.filter (λ c, negb (bool_decide (c = VStr industry))) (cates cate l)).
Definition stringly (cate : jval → jval) l : Prop := Forall (λ c, ∃ s, c = VStr s) (cates cate l).

Lemma cates_sublist cate l k : sublist l k → sublist (cates cate l) (cates cate k).
Proof. intros H. unfold cates. change (@List.map) with (@fmap list _). by apply fmap_sublist. Qed.

Lemma filter_sublist_mono {A} (P : A → bool) (l k : list A) : sublist l k → sublist (List.filter P l) (List.filter P k).
Proof.
  induction 1 as [|x l k _ IH|x l k _ IH]; simpl; [done|..]; destruct (P x); by try constructor.
Qed.

Lemma exclusive_sublist cate l k : sublist l k → exclusive cate k → exclusive cate l.
Proof. intros Hs He. eapply sublist_NoDup; [exact He|]. by apply filter_sublist_mono, cates_sublist. Qed.

Lemma loose_eq_str s v : (∃ t, v = VStr t) → loose_eq v (VStr s) = bool_decide (v = VStr s).
Proof. intros [t ->]. apply (str_id_keyed (VStr t) (VStr s)); by eexists. Qed.

(** Two properties of one category cannot be neighbours. *)
Lemma exclusive_no_adjacent cate l c :
  exclusive cate l → stringly cate l → c ≠ industry →
  no_adjacent (λ it, loose_eq (cate (item_id it)) (VStr c)) l = true.
Proof.
  intros He Hs Hc. induction l as [|x [|y l] IH]; [done|done|].
  cbn [no_adjacent]. inversion Hs as [|? ? Hx Hs']; subst. inversion Hs' as [|? ? Hy _]; subst.
  apply andb_true_iff. split.
  - rewrite !loose_eq_str by done. apply negb_true_iff, andb_false_iff. repeat case_bool_decide; auto.
    exfalso. unfold exclusive, cates in He. cbn [List.map List.filter] in He.
    rewrite H, H0 in He. rewrite !bool_decide_eq_false_2 in He by congruence.
    cbn [negb] in He. apply NoDup_cons in He as [Hn _]. apply Hn, elem_of_cons. by left.
  - apply IH; [|done]. eapply exclusive_sublist; [|exact He]. by apply sublist_cons.
Qed.

Lemma exclusive_snoc cate l it :
  exclusive cate l →
  (cate (item_id it) ≠ VStr industry → ∀ x, x ∈ l → cate (item_id x) ≠ cate (item_id it)) →
  exclusive cate (l ++ [it]).
Proof.
  intros He Hf. unfold exclusive, cates in *. rewrite map_app, List.filter_app. simpl.
  case_bool_decide as Hi; simpl; [by rewrite app_nil_r|].
  apply NoDup_app. split; [done|]. split; [|apply NoDup_singleton].
  intros v Hv Hv'%list_elem_of_singleton. subst v.
  apply list_elem_of_In, filter_In in Hv as [(x & E & Hx)%in_map_iff _].
  eapply Hf; [done| |done]. by apply list_elem_of_In.
Qed.

Lemma pick_prop_exclusive cate l val txt c :
  exclusive cate l → stringly cate l → cate val = VStr c →
  exclusive cate (pick_prop cate l val txt (VStr c))
  ∧ (length (pick_prop cate l val txt (VStr c)) ≤ S (length l))%nat.
Proof.
  intros He Hs Hc. unfold pick_prop. rewrite loose_eq_str by (by eexists).
  case_bool_decide as Hi.
  - split; [|apply filterArr_length]. rewrite filterArr_spec. apply exclusive_snoc.
    + eapply exclusive_sublist; [|exact He]. auto with edm.
    + cbn [item_id at_ nth]. congruence.
  - assert (c ≠ industry) as Hci by congruence. split.
    + rewrite filterArr_spec, splice_scan_keep by (by apply exclusive_no_adjacent).
      apply exclusive_snoc.
      * eapply exclusive_sublist; [|exact He]. rewrite <-splice_scan_keep by (by apply exclusive_no_adjacent).
        etrans; [apply remove_first_sublist|apply splice_scan_sublist].
      * intros _ x Hx. cbn [item_id at_ nth]. rewrite Hc.
        assert (x ∈ keep (λ it, loose_eq (cate (item_id it)) (VStr c)) l) as Hk.
        { eapply elem_of_sublist; [exact Hx|]. apply remove_first_sublist. }
        apply list_elem_of_In, keep_In in Hk as [Hx' Hk].
        rewrite loose_eq_str in Hk by
          (eapply Forall_forall in Hs; [exact Hs|]; apply list_elem_of_In, in_map_iff; by exists x).
        by apply bool_decide_eq_false in Hk.
    + etrans; [apply filterArr_length|]. apply le_n_S, sublist_length. auto with edm.
Qed.
End pickers.

(** *** What the pickers do to the form *)

Section scripts_facts.
Implicit Types w : world task.

Lemma posfix_frames (t b : jstr) : frames e_disabled (posfix (G := task) t b).
Proof. unfold posfix, apply_place. frames. Qed.
Lemma addItemInput_frames l input : frames e_disabled (addItemInput (G := task) l input).
Proof. pose proof posfix_frames. unfold addItemInput. frames; auto. Qed.

(** A control that is enabled or disabled with its box. *)
Lemma grey_box_ok sel b w :
  single sel w →
  ∃ w', grey_box sel b w = (Ok tt, w') ∧ style_only w w' ∧ dis_of sel w' = Some b
    ∧ w_ui w' = w_ui w ∧ ∀ s, apart s sel w → dis_of s w' = dis_of s w.
Proof.
  intros Hs. set (box := sel ++ js ".closest('div')").
  set (w1 := upd (with_disabled b) (found sel w) w).
  set (f := if b then add_class (js "f666") else remove_class (js "f666")).
  exists (upd f (found box w1) w1).
  assert (∀ e, e_disabled (f e) = e_disabled e ∧ e_val (f e) = e_val e) as Hf.
  { intros e. unfold f, add_class, remove_class. destruct b; [|done]. by destruct (has_class _ e). }
  assert (∀ s, dis_of s (upd f (found box w1) w1) = dis_of s w1) as Hd.
  { intros s. unfold dis_of, first. change (found s (upd f (found box w1) w1)) with (found s w1).
    destruct (found s w1); [done|]. simpl. f_equal. apply (upd_proj e_disabled). intros e. apply Hf. }
  split; [unfold grey_box, f; by destruct b|]. split; [|split; [|split; [done|]]].
  - eapply style_trans; [apply (upd_style (with_disabled b)); done|]. apply upd_style, Hf.
  - rewrite Hd. unfold dis_of, w1. rewrite on_first by done.
    destruct (single_first _ _ Hs) as [e ->]. done.
  - intros s Ha. rewrite Hd. unfold dis_of, w1. by rewrite first_upd_ne.
Qed.

Definition hasCamp w : bool := negb (bool_decide (or_empty (val_of (js "#campId") w) = [])).
Definition hasFile w : bool := -1 <? indexOf (js "EXPORT") (or_empty (val_of (js "#includeId") w)).

Lemma testSendCode_ok w :
  single schedule w → single plan w → apart schedule plan w →
  ∃ w', testSendCode w = (Ok tt, w') ∧ style_only w w'
    ∧ dis_of schedule w' = Some (hasFile w)
    ∧ dis_of plan w' = Some (hasCamp w || hasFile w)
    ∧ w_ui w' = w_ui w
    ∧ ∀ s, apart s schedule w → apart s plan w → dis_of s w' = dis_of s w.
Proof.
  intros Hs Hp Ha. destruct (grey_box_ok schedule (hasFile w) w Hs) as (w1 & E1 & S1 & D1 & U1 & F1).
  destruct (grey_box_ok plan (hasCamp w || hasFile w) w1) as (w2 & E2 & S2 & D2 & U2 & F2).
  { by eapply style_single. }
  exists w2. repeat split.
  - unfold testSendCode. rewrite (bind_ok (val _) _ w (val_of (js "#campId") w) w eq_refl).
    rewrite (bind_ok (val _) _ w (val_of (js "#includeId") w) w eq_refl). cbv zeta.
    fold (hasCamp w). fold (hasFile w).
    destruct (hasCamp w), (hasFile w); cbn [negb andb orb] in *; by rewrite (bind_ok _ _ _ _ _ E1).
  - apply (style_trans _ _ _ S1 S2).
  - apply (style_trans _ _ _ S1 S2).
  - apply (style_trans _ _ _ S1 S2).
  - rewrite F2; [done|]. by eapply style_apart.
  - done.
  - congruence.
  - intros s Hs1 Hs2. rewrite F2; [by apply F1|]. by eapply style_apart.
Qed.
(** The fields and controls of the form the picker of the included tags uses. *)
Definition include : jstr := js "#include".
Definition exclude : jstr := js "#exclude".
Record include_form (l : list item) w : Prop := {
  if_ready : field_ready include w;
  if_sub : sub_get include (w_glob w) = Some l;
  if_id : found (js "#includeId") w = found (hidden include) w;
  if_schedule : single schedule w;
  if_plan : single plan w;
  if_apart : apart schedule plan w;
  if_exclude : single exclude w;
  if_ex_schedule : apart exclude schedule w;
  if_ex_plan : apart exclude plan w
}.

Lemma upd_ready (f : elt → elt) k input w : field_ready input w → field_ready input (upd f k w).
Proof. apply field_ready_sel; [done|]. intros s. apply upd_single. Qed.

Lemma upd_include_form (f : elt → elt) k l w : include_form l w → include_form l (upd f k w).
Proof. intros [? ? ? ? ? ? ? ? ?]. constructor; auto using upd_ready, upd_single. Qed.

(** The array and the controls after a pick. *)
Definition exported (l : list item) : bool := -1 <? indexOf (js "EXPORT") (id_text l).
Lemma include_refill l0 l w :
  include_form l0 w →
  ∃ w', (set_subArr include l ;; addItemInput l include ;; testSendCode) w = (Ok tt, w')
    ∧ synced include l w'
    ∧ dis_of schedule w' = Some (exported l)
    ∧ dis_of plan w' = Some (hasCamp w' || exported l)
    ∧ dis_of exclude w' = dis_of exclude w
    ∧ w_glob w' = sub_set include l (w_glob w).
Proof.
  intros H. destruct H as [Hr Hsub Hid Hsch Hpl Hap Hex Hes Hep].
  destruct (refill_synced include l0 l w Hr Hsub) as (w1 & E1 & S1 & G1).
  assert (frames e_disabled (set_subArr include l ;; addItemInput l include)) as Hfr.
  { apply frames_bind; [apply frames_mod_glob|]. intros _. apply addItemInput_frames. }
  pose proof (frame_of _ _ _ _ _ Hfr E1) as F1.
  destruct (testSendCode_ok w1) as (w2 & E2 & St & D1 & D2 & _ & D3).
  1,2: by eapply frame_single. 1: by eapply frame_apart.
  assert (hasFile w1 = exported l) as Hf.
  { unfold hasFile, val_of, first, found. rewrite (fs_sel _ _ _ F1). fold (found (js "#includeId") w).
    rewrite Hid. unfold found. rewrite <-(fs_sel _ _ _ F1). fold (found (hidden include) w1).
    fold (first (hidden include) w1). fold (val_of (hidden include) w1).
    destruct S1 as (_ & _ & _ & ->). done. }
  exists w2. split; [rewrite <-bind_assoc; by rewrite (bind_ok _ _ _ _ _ E1)|].
  split; [by rewrite <-St|]. repeat split.
  - by rewrite D1, Hf.
  - rewrite D2, Hf. unfold hasCamp. by rewrite (val_of_proper _ _ _ St).
  - rewrite D3 by (by eapply frame_apart). apply (frame_first e_disabled _ _ _ F1).
  - by rewrite <-St.
Qed.

Definition files_allowed w : bool :=
  bool_decide (checked_of schedule w = Some false) && bool_decide (checked_of plan w = Some false).

(** The pick goes ahead: the controls of the left out tags are set first. *)
Lemma pickIncludes_enter o type limit l w :
  include_form l w → over_limit limit l = false →
  (loose_eq type (VStr (js "file")) = true → files_allowed w = true) →
  ∃ w1, include_form l w1 ∧ w_glob w1 = w_glob w
    ∧ dis_of exclude w1 = Some (loose_eq type (VStr (js "file")))
    ∧ let l' := pick_include l (loose_eq type (VStr (js "file"))) (n_data o) (VStr (n_text o)) type in
      pickIncludes o type include limit w
      = (set_subArr include l' ;; addItemInput l' include ;; testSendCode) w1.
Proof.
  intros H Hl Hf. unfold pickIncludes. rewrite (bind_ok _ _ _ _ _ (subArr_ok _ _ _ (if_sub _ _ H))), Hl.
  destruct (loose_eq type _) eqn:Hfile; cbv zeta iota.
  - specialize (Hf eq_refl). unfold files_allowed in Hf. bool_simp.
    rewrite (bind_ok (checked0 schedule) _ w false w) by (by apply checked0_of).
    rewrite (bind_ok _ _ w false w) by (by apply checked0_of). cbn [orb].
    set (w1 := upd (with_disabled true) (found exclude w) w).
    set (w2 := upd (with_val []) (found exclude w) w1).
    exists (upd (with_val []) (found (js "#excludeId") w) w2). repeat apply conj; try done.
    + by repeat apply upd_include_form.
    + assert (∀ k (x : world task), dis_of exclude (upd (with_val []) k x) = dis_of exclude x) as Hd.
      { intros k x. unfold dis_of, first. change (found exclude (upd (with_val []) k x)) with (found exclude x).
        destruct (found exclude x); [done|]. simpl. f_equal. by apply (upd_proj e_disabled). }
      unfold w2. rewrite !Hd. unfold dis_of, w1. rewrite on_first by apply (if_exclude _ _ H).
      by destruct (single_first _ _ (if_exclude _ _ H)) as [e ->].
  - exists (upd (with_disabled false) (found exclude w) w). repeat apply conj; try done.
    + by apply upd_include_form.
    + unfold dis_of. rewrite on_first by apply (if_exclude _ _ H).
      by destruct (single_first _ _ (if_exclude _ _ H)) as [e ->].
Qed.
End scripts_facts.

(** C6 -- Picking an included tag: the field shows the array, no id is twice in it, a
    file stands alone in it, tags may be left out exactly when no file is
    picked, and the ways of sending follow what is picked. *)
Theorem pickIncludes_ok o type limit l (w : world task) :
  let file := loose_eq type (VStr (js "file")) in
  let l' := pick_include l file (n_data o) (VStr (n_text o)) type in
  include_form l w → wf data_id l → alone is_file l → data_id (n_data o) →
  over_limit limit l = false → (file = true → files_allowed w = true) →
  ∃ w', pickIncludes o type include limit w = (Ok tt, w')
    ∧ synced include l' w' ∧ wf data_id l' ∧ alone is_file l'
    ∧ dis_of exclude w' = Some file
    ∧ dis_of schedule w' = Some (exported l')
    ∧ dis_of plan w' = Some (hasCamp w' || exported l')
    ∧ ∀ k, k ≠ include → sub_get k (w_glob w') = sub_get k (w_glob w).
Proof.
  intros file l' H Hwf Ha Hid Hl Hf.
  destruct (pickIncludes_enter o type limit l w H Hl Hf) as (w1 & H1 & G1 & D1 & E1).
  destruct (include_refill l l' w1 H1) as (w2 & E2 & S2 & Ds & Dp & De & G2).
  assert (l' = _) as El by (by apply pick_include_eq). cbv zeta in El.
  exists w2. split; [by rewrite E1|]. split; [done|]. split; [|split].
  - rewrite El. apply pick_wf; [apply _|done|]. by destruct file.
  - rewrite El. by apply pick_alone.
  - split; [by rewrite De, D1|]. split; [done|]. split; [done|].
    intros k Hk. rewrite G2, G1. by apply lookup_insert_ne.
Qed.


(** The sender that stands for all the senders. *)
Definition anyone (it : item) : bool := loose_eq (item_id it) (num (-1)).

(** C8 -- Picking a sender: the array stays well formed, the id -1 stands alone in
    it, the picked sender is in it, and the fields show it. *)
Theorem pickExclusion_ok o inputId limit l (w : world task) :
  let l' := pick_exclusion l (n_data o) (VStr (n_text o)) in
  field_ready inputId w → sub_get inputId (w_glob w) = Some l →
  wf data_id l → alone anyone l → data_id (n_data o) → over_limit limit l = false →
  ∃ w', pickExclusion o inputId limit w = (Ok tt, w')
    ∧ synced inputId l' w' ∧ wf data_id l' ∧ alone anyone l' ∧ n_data o ∈ ids l'.
Proof.
  intros l' Hr Hs Hwf Ha Hid Hl. unfold pickExclusion. rewrite (bind_ok _ _ _ _ _ (subArr_ok _ _ _ Hs)), Hl.
  destruct (refill_synced inputId l l' w Hr Hs) as (w' & E & Sy & _).
  exists w'. split; [done|]. split; [done|].
  pose proof (pick_exclusion_eq l (n_data o) (VStr (n_text o))) as El.
  fold anyone in El. change (loose_eq (item_id [n_data o; VStr (n_text o)]) (num (-1)))
    with (anyone [n_data o; VStr (n_text o)]) in El.
  change (λ it : list jval, loose_eq (item_id it) (num (-1))) with anyone in El.
  split; [|split]; unfold l'; rewrite El.
  - apply pick_wf; [apply _|done|done].
  - by apply pick_alone.
  - rewrite filterArr_spec. unfold ids. rewrite fmap_app. apply elem_of_app. right. by apply list_elem_of_singleton.
Qed.

(** *** Properties *)

Section properties_facts.
Implicit Types w : world task.

Lemma addPropSelect_quiet inputId w s :
  val_of (hidden inputId) w = VStr s →
  ∃ w', addPropSelect inputId w = (Ok tt, w') ∧ style_only w w'.
Proof.
  intros Hv. unfold addPropSelect. fold (hidden inputId).
  assert (∀ sel c, quiet (G := task) (addClass sel c)) as Ha.
  { intros sel c. apply quiet_on. intros e. unfold add_class. by destruct (has_class c e). }
  destruct (quiet_on (js "#slideSearchProp ul li") (remove_class (js "selected")) (λ e, eq_refl) w)
    as ([] & w1 & E1 & S1).
  unfold removeClass. rewrite (bind_ok _ _ _ _ _ E1).
  rewrite (bind_ok (val (hidden inputId)) _ w1 (VStr s) w1).
  2: { rewrite <-Hv, <-(style_val _ _ _ S1). done. }
  destruct s as [|c s]; [by exists w1|].
  generalize (splitc c_comma (c :: s)) as ids. intros ids.
  assert (quiet (for_each ids (λ id, addClass (G := task) (prop_link id) (js "selected")))) as Hq.
  { induction ids as [|i ids IH]; [apply quiet_ret|]. cbn [for_each]. by apply quiet_bind. }
  destruct (Hq w1) as ([] & w2 & E2 & S2). exists w2. split; [done|]. by eapply style_trans.
Qed.

(** The array, the two fields and the marked links, in one go. *)
Lemma prop_refill input l0 l w :
  field_ready input w → sub_get input (w_glob w) = Some l0 →
  ∃ w', (set_subArr input l ;; addItemInput l input ;; addPropSelect input ;; skip) w = (Ok tt, w')
    ∧ synced input l w'.
Proof.
  intros Hr Hs. destruct (refill_synced input l0 l w Hr Hs) as (w1 & E1 & S1 & _).
  destruct (addPropSelect_quiet input w1 _ (proj2 (proj2 (proj2 S1)))) as (w2 & E2 & St).
  exists w2. split; [|by rewrite <-St].
  rewrite <-bind_assoc, (bind_ok _ _ _ _ _ E1). by rewrite (bind_ok _ _ _ _ _ E2).
Qed.
End properties_facts.

(** C9 -- Adding a property: at most ten are kept, and one of each category that is
    not an industry interest; the field shows them. *)
Theorem addAssProp_ok o c l (w : world task) :
  let l' := pick_prop (cate_in w) l (VStr (n_attr o)) (VStr (n_text o)) (VStr c) in
  field_ready assProp w → sub_get assProp (w_glob w) = Some l →
  exclusive (cate_in w) l → stringly (cate_in w) l → (length l ≤ 10)%nat →
  cate_in w (VStr (n_attr o)) = VStr c →
  (∃ w', addAssProp o (VStr c) false assProp skip w = (Ok tt, w') ∧
    if (length l <? 10)%nat
    then synced assProp l' w' ∧ exclusive (cate_in w) l' ∧ (length l' ≤ 10)%nat
    else w_glob w' = w_glob w ∧ w_elt w' = w_elt w).
Proof.
  intros l' Hr Hs He Hst Hlen Hc. unfold addAssProp. rewrite (bind_ok _ _ _ _ _ (subArr_ok _ _ _ Hs)).
  cbn [negb andb]. destruct (length l <? 10)%nat eqn:E.
  - apply Nat.ltb_lt in E. replace (10 <=? Z.of_nat (length l)) with false by lia.
    rewrite (bind_ok (gets cate_in) _ w (cate_in w) w eq_refl). cbv zeta iota. fold l'.
    destruct (prop_refill assProp l l' w Hr Hs) as (w' & E' & Sy). exists w'. split; [done|].
    split; [done|]. unfold l'.
    destruct (pick_prop_exclusive (cate_in w) l (VStr (n_attr o)) (VStr (n_text o)) c He Hst Hc) as [? ?].
    split; [done|lia].
  - apply Nat.ltb_ge in E. replace (10 <=? Z.of_nat (length l)) with true by lia.
    destruct (error_message_runs (G := task) (VStr (js "选择标签数不能大于" ++ str_of_Z 10 ++ js "个！"))
      (num 1) VUndef VUndef VUndef w) as (w' & E' & He' & _ & Hg & _).
    exists w'. by split.
Qed.

(** *** The form *)

Section form.
Implicit Types w : world task.

(** The value of a control; a control with a condition counts when its box is
    on the page. *)
Definition empty_control (name : string) w : bool :=
  bool_decide (or_empty (val_of (control name) w) = []).
Definition on_page (box : jstr) w : bool := negb (Z.of_nat (length (found box w)) =? 0).
Definition no_industry w : bool :=
  on_page assProp w && negb (bool_decide (val_of assProp w = VStr []))
  && (findArrItem (default [] (sub_get assProp (w_glob w))) 2 (VStr industry) =? -1).

(** The message of the first requirement that is not met. *)
Definition first_missing w : option jstr :=
  snd <$> List.find fst
    [(empty_control "taskName" w, js "请输入任务名称");
     (empty_control "templateId" w, js "请选择邮件模板");
     (empty_control "subject" w, js "请输入邮件主题");
     (on_page (js "#bindCorpId") w && empty_control "bindCorpId" w, js "请选择所属企业");
     (empty_control "senderEmail" w, js "请选择发件人邮箱");
     (empty_control "includeIds" w, js "请选择所属标签");
     (on_page (js "#sms_list") w && empty_control "sms" w, js "请选择短信通知");
     (no_industry w, js "请选择关联属性的行业兴趣")].

(** The form has its controls. *)
Definition present (name : string) w : Prop := is_Some (first (control name) w).
Record form_ready w : Prop := {
  fm_controls : Forall (λ n, present n w) ["taskName"; "templateId"; "subject"; "senderEmail"; "includeIds"]%string;
  fm_corp : on_page (js "#bindCorpId") w = true → present "bindCorpId" w;
  fm_sms : on_page (js "#sms_list") w = true → present "sms" w;
  fm_prop : on_page assProp w = true → is_Some (sub_get assProp (w_glob w))
}.

(** A refusal: the reason is shown, the overlay is gone, nothing is sent. *)
Definition refused (mess : jstr) w w' : Prop :=
  (∃ b, u_banner (w_ui w') = Some b ∧ bn_text b = mess ∧ bn_kind b = js "err2")
  ∧ u_overlays (w_ui w') = [] ∧ w_glob w' = w_glob w
  ∧ ∀ u a, EvAjax u a ∈ w_ev w' → EvAjax u a ∈ w_ev w.

Lemma refuse_ok mess focus w : ∃ w', refuse mess focus w = (Ok false, w') ∧ refused mess w w'.
Proof.
  destruct (error_message_runs (VStr mess) (num 1) VUndef VUndef VUndef w)
    as (w1 & E1 & _ & V1 & G1 & _ & _ & _ & _ & (b & Hb & _ & Ht & Hk) & _).
  unfold refuse, error_text. rewrite (bind_ok _ _ _ _ _ E1).
  set (w2 := match focus with Some n => set_ev (w_ev w1 ++ [EvFocus (control n)]) w1 | None => w1 end).
  assert (match focus with Some n => emit (EvFocus (control n)) | None => skip end w1 = (Ok tt, w2)) as E2
    by (by destruct focus).
  rewrite (bind_ok _ _ _ _ _ E2).
  assert (w_ui w2 = w_ui w1 ∧ w_glob w2 = w_glob w1
    ∧ ∀ u a, EvAjax u a ∈ w_ev w2 → EvAjax u a ∈ w_ev w1) as (U2 & G2 & V2).
  { unfold w2. destruct focus; repeat split; try done. cbn.
    intros u a [?|H%list_elem_of_singleton]%elem_of_app; done. }
  unfold del_loading, win. jrun. destruct (win_ie6 (w_win w2)); eexists; (split; [reflexivity|]);
    (split; [exists b; rewrite <-U2 in Hb; done|]); (split; [done|]); (split; [cbn; congruence|]);
    intros u a H; rewrite <-V1; by apply V2.
Qed.

(** A chain of requirements: the rest is reached when this one is met. *)
Definition gated (o : option jstr) w (m : T bool) (go : T bool) : Prop :=
  match o with
  | Some mess => ∃ w', m w = (Ok false, w') ∧ refused mess w w'
  | None => m w = go w
  end.

Definition or_else (b : bool) (mess : jstr) (o : option jstr) : option jstr := if b then Some mess else o.

Lemma find_or_else (b : bool) (mess : jstr) l :
  snd <$> List.find fst ((b, mess) :: l) = or_else b mess (snd <$> List.find fst l).
Proof. by destruct b. Qed.

Lemma require_gated name mess focus rest go o w :
  present name w → gated o w rest go →
  gated (or_else (empty_control name w) mess o) w (require name mess focus rest) go.
Proof.
  intros [e He] Hr.
  assert (require name mess focus rest w
    = (if empty_control name w then refuse mess (if focus then Some name else None) else rest) w) as E.
  { unfold require, form_value. rewrite bind_assoc, (bind_ok (gets (first (control name))) _ w _ w eq_refl), He.
    unfold empty_control, val_of. rewrite He. done. }
  unfold or_else. destruct (empty_control name w).
  - destruct (refuse_ok mess (if focus then Some name else None) w) as (w' & E' & R).
    exists w'. by rewrite E.
  - unfold gated in *. destruct o; by rewrite E.
Qed.

Lemma require_if_gated box name mess rest go o w :
  (on_page box w = true → present name w) → gated o w rest go →
  gated (or_else (on_page box w && empty_control name w) mess o) w (require_if box name mess rest) go.
Proof.
  intros Hp Hr. assert (require_if box name mess rest w
    = (if on_page box w then require name mess false rest else rest) w) as E by done.
  destruct (on_page box w); cbn [andb].
  - unfold gated in *. rewrite E. apply (require_gated name mess false); auto.
  - unfold or_else, gated in *. by rewrite E.
Qed.

Lemma require_industry_gated rest go w :
  (on_page assProp w = true → is_Some (sub_get assProp (w_glob w))) → gated None w rest go →
  gated (or_else (no_industry w) (js "请选择关联属性的行业兴趣") None) w (require_industry rest) go.
Proof.
  intros Hp Hr. assert (require_industry rest w
    = (if no_industry w then refuse (js "请选择关联属性的行业兴趣") None else rest) w) as E.
  { unfold require_industry, no_industry.
    rewrite (bind_ok (size_of assProp) _ w _ w eq_refl).
    rewrite (bind_ok (val assProp) _ w (val_of assProp w) w eq_refl). fold (on_page assProp w).
    destruct (on_page assProp w) eqn:Ep; cbn [andb]; [|done].
    destruct (negb (bool_decide (val_of assProp w = VStr []))); cbn [andb]; [|done].
    destruct (Hp eq_refl) as [l Hl]. rewrite Hl. cbn [default].
    unfold mbind at 1, J_bind at 1. rewrite (bind_ok _ _ _ _ _ (subArr_ok _ _ _ Hl)). done. }
  unfold or_else. destruct (no_industry w).
  - destruct (refuse_ok (js "请选择关联属性的行业兴趣") None w) as (w' & E' & R). exists w'. by rewrite E.
  - unfold gated in *. by rewrite E.
Qed.

(** The overlay changes none of what the requirements read. *)
Record same_form w w' : Prop := {
  sf_frame : frame_step e_val w w';
  sf_glob : w_glob w' = w_glob w;
  sf_ev : w_ev w' = w_ev w
}.

Lemma same_val sel w w' : same_form w w' → val_of sel w' = val_of sel w.
Proof.
  intros [F _ _]. pose proof (frame_first e_val sel _ _ F) as H. unfold val_of.
  destruct (first sel w), (first sel w'); simplify_eq/=; congruence.
Qed.
Lemma same_present name w w' : same_form w w' → present name w → present name w'.
Proof.
  intros [F _ _]. pose proof (frame_first e_val (control name) _ _ F) as H. unfold present.
  intros [e He]. rewrite He in H. destruct (first (control name) w'); [by eexists|done].
Qed.
Lemma same_on_page box w w' : same_form w w' → on_page box w' = on_page box w.
Proof. intros [[S _ _] _ _]. unfold on_page, found. by rewrite S. Qed.
Lemma same_empty name w w' : same_form w w' → empty_control name w' = empty_control name w.
Proof. intros H. unfold empty_control. by rewrite (same_val _ _ _ H). Qed.

Lemma same_missing w w' : same_form w w' → first_missing w' = first_missing w.
Proof.
  intros H. unfold first_missing, no_industry. rewrite !(same_empty _ _ _ H), !(same_on_page _ _ _ H).
  by rewrite (same_val _ _ _ H), (sf_glob _ _ H).
Qed.
Lemma same_ready w w' : same_form w w' → form_ready w → form_ready w'.
Proof.
  intros H [H1 H2 H3 H4]. constructor.
  - eapply Forall_impl; [exact H1|]. intros n. by apply same_present.
  - rewrite (same_on_page _ _ _ H). intros P. eapply same_present; eauto.
  - rewrite (same_on_page _ _ _ H). intros P. eapply same_present; eauto.
  - by rewrite (same_on_page _ _ _ H), (sf_glob _ _ H).
Qed.

Lemma loading_same w :
  ∃ w', loading None None w = (Ok tt, w') ∧ same_form w w' ∧ u_overlays (w_ui w') ≠ [].
Proof.
  assert (frames e_val (loading (G := task) None None)) as Hf by (unfold loading; frames).
  unfold loading, win in *. jrun.
  destruct (win_ie6 (w_win w)) eqn:E; eexists.
  all: split; [cbn; rewrite E; reflexivity|]; split; [|cbn; by destruct (u_overlays (w_ui w))].
  all: constructor; [|done|done]; eapply (frame_of e_val); [exact Hf|]; jrun; cbn; by rewrite E.
Qed.

(** What is sent, and the box shown meanwhile. *)
Definition select_args w : list (jstr * jstr) :=
  [(js "includeIds", or_empty (val_of (js "#includeId") w));
   (js "excludeIds", or_empty (val_of (js "#excludeId") w))].

Lemma popTips_frames box m : frames e_val (popTips (G := task) box m).
Proof. unfold popTips, openPop, openCover, centre_pop, with_rnd. change (truthy (num 0)) with false. frames. Qed.

Lemma popTips_runs box m w :
  ∃ w', popTips box m w = (Ok tt, w') ∧ w_glob w' = w_glob w ∧ w_ev w' = w_ev w
    ∧ u_overlays (w_ui w') = u_overlays (w_ui w) ∧ u_banner (w_ui w') = u_banner (w_ui w).
Proof.
  unfold popTips, openPop, openCover, centre_pop, win, measure. change (truthy (num 0)) with false. jrun.
  destruct (truthy m); eexists; (split; [reflexivity|]); done.
Qed.

(** The end of [getAjaxSum]. *)
Definition send_selection (token : jstr) : T bool :=
  popTips remind (VStr (jsq "<p><img src='/static/img/loading2.gif' style='margin-bottom:-5px;' />&nbsp;&nbsp;正在筛选收件人，请稍候...</p>")) ;;
  set_disabled (remind ++ js " input") true ;;
  i ← val (js "#includeId");
  x ← val (js "#excludeId");
  emit (EvAjax (select_url token) [(js "includeIds", or_empty i); (js "excludeIds", or_empty x)]) ;;
  mret true.

Lemma send_selection_ok token w :
  ∃ w', send_selection token w = (Ok true, w')
    ∧ w_ev w' = w_ev w ++ [EvAjax (select_url token) (select_args w)]
    ∧ w_glob w' = w_glob w ∧ u_overlays (w_ui w') = u_overlays (w_ui w)
    ∧ u_banner (w_ui w') = u_banner (w_ui w).
Proof.
  unfold send_selection. match goal with |- context [popTips remind ?m] => generalize m as mess end. intros mess.
  destruct (popTips_runs remind mess w) as (w1 & E1 & G1 & V1 & O1 & B1).
  pose proof (frame_of e_val _ _ _ _ (popTips_frames remind mess) E1) as F1.
  rewrite (bind_ok _ _ _ _ _ E1).
  set (w2 := upd (with_disabled true) (found (remind ++ js " input") w1) w1).
  rewrite (bind_ok (set_disabled _ true) _ w1 tt w2 eq_refl).
  assert (same_form w w2) as S2.
  { assert (frames e_val (set_disabled (G := task) (remind ++ js " input") true)) as Hf by frames.
    constructor; [|done|done]. eapply frame_trans; [exact F1|]. exact (Hf w1). }
  rewrite (bind_ok (val _) _ w2 (val_of (js "#includeId") w2) w2 eq_refl).
  rewrite (bind_ok (val _) _ w2 (val_of (js "#excludeId") w2) w2 eq_refl).
  rewrite !(same_val _ _ _ S2). eexists. split; [reflexivity|]. cbn. by rewrite V1.
Qed.

(** The requirements, from the first on. *)
Lemma getAjaxSum_gated token w :
  form_ready w →
  ∃ w0, same_form w w0 ∧ u_overlays (w_ui w0) ≠ [] ∧
    (∃ m, gated (first_missing w) w0 m (send_selection token) ∧ getAjaxSum token w = m w0).
Proof.
  intros Hw. destruct (loading_same w) as (w0 & E & S & O). exists w0. split; [done|]. split; [done|].
  rewrite <-(same_missing _ _ S). destruct (same_ready _ _ S Hw) as [H1 H2 H3 H4].
  unfold getAjaxSum. rewrite (bind_ok _ _ _ _ _ E). eexists. split; [|reflexivity].
  repeat (apply Forall_cons in H1 as [? H1]).
  replace (first_missing w0) with
    (or_else (empty_control "taskName" w0) (js "请输入任务名称")
    (or_else (empty_control "templateId" w0) (js "请选择邮件模板")
    (or_else (empty_control "subject" w0) (js "请输入邮件主题")
    (or_else (on_page (js "#bindCorpId") w0 && empty_control "bindCorpId" w0) (js "请选择所属企业")
    (or_else (empty_control "senderEmail" w0) (js "请选择发件人邮箱")
    (or_else (empty_control "includeIds" w0) (js "请选择所属标签")
    (or_else (on_page (js "#sms_list") w0 && empty_control "sms" w0) (js "请选择短信通知")
    (or_else (no_industry w0) (js "请选择关联属性的行业兴趣") None)))))))).
  2: { unfold first_missing. by rewrite !find_or_else. }
  repeat first [apply require_gated; [assumption|] | apply require_if_gated; [assumption|]].
  apply require_industry_gated; [exact H4|]. unfold gated, send_selection. reflexivity.
Qed.
End form.

(** C1 -- The form of a task is sent exactly when nothing required is missing; then
    the tags picked and the ones left out go with it and the overlay stays
    until the answer; otherwise the first thing missing is named. *)
Theorem getAjaxSum_gate token (w : world task) :
  form_ready w →
  match first_missing w with
  | Some mess => ∃ w', getAjaxSum token w = (Ok false, w') ∧ refused mess w w'
  | None => ∃ w', getAjaxSum token w = (Ok true, w')
      ∧ w_ev w' = w_ev w ++ [EvAjax (select_url token) (select_args w)]
      ∧ u_overlays (w_ui w') ≠ []
  end.
Proof.
  intros Hw. destruct (getAjaxSum_gated token w Hw) as (w0 & S & O & m & Hg & E).
  rewrite E. destruct (first_missing w) as [mess|]; cbn [gated] in Hg.
  - destruct Hg as (w' & E' & Hb & Ho & G & V). exists w'. split; [done|]. split; [done|].
    split; [done|]. rewrite G, (sf_glob _ _ S). split; [done|]. intros u a H. rewrite <-(sf_ev _ _ S). auto.
  - destruct (send_selection_ok token w0) as (w' & E' & V & _ & O' & _).
    exists w'. rewrite Hg, E'. split; [done|]. rewrite V, (sf_ev _ _ S), O'. split; [|done].
    unfold select_args. by rewrite !(same_val _ _ _ S).
Qed.

(** *** The lists of tags *)

Section tags.

(** [obj[k]] *)
Definition assoc {A} (k : jstr) (l : list (jstr * A)) : option A :=
  snd <$> List.find (λ kv, bool_decide (fst kv = k)) l.

Lemma assoc_put {A} k k' (v : A) l :
  assoc k (put k' v l) = if bool_decide (k' = k) then Some v else assoc k l.
Proof.
  unfold assoc. induction l as [|[k1 v1] l IH]; cbn [put].
  - cbn [List.find fst]. by case_bool_decide.
  - destruct (bool_decide (k1 = k')) eqn:E1; bool_simp; cbn [List.find fst].
    + subst k1. by case_bool_decide.
    + destruct (bool_decide (k1 = k)) eqn:E2; [|done].
      bool_simp. subst k1. rewrite (bool_decide_eq_false_2 (k' = k)) by congruence. done.
Qed.

Lemma assoc_extend {A} k (a b : list (jstr * A)) :
  NoDup (List.map fst b) →
  assoc k (extend a b) = match assoc k b with Some v => Some v | None => assoc k a end.
Proof.
  unfold extend. revert a. induction b as [|[k1 v1] b IH]; intros a Hn; [done|].
  cbn [List.map fst List.fold_left snd] in *. apply NoDup_cons in Hn as [Hk Hn].
  rewrite IH by done. unfold assoc at 3. cbn [List.find fst]. rewrite assoc_put.
  case_bool_decide as E; [|done]. subst k1. cbn.
  assert (assoc k b = None) as ->; [|done].
  unfold assoc. destruct (List.find _ b) as [[k2 v2]|] eqn:F; [|done]. exfalso.
  apply find_some in F as [F E]. cbn in E. bool_simp. subst k2.
  apply Hk, list_elem_of_In, in_map_iff. by exists (k, v2).
Qed.

Lemma remove_first_mid {A} (P : A → bool) l x k :
  forallb (λ y, negb (P y)) l = true → P x = true → remove_first P (l ++ x :: k) = l ++ k.
Proof.
  intros Hl Hx. induction l as [|y l IH]; cbn in *; [by rewrite Hx|].
  bool_simp. rewrite H. by rewrite IH.
Qed.

Definition titles_of (l : list group) : list jstr := List.map g_cate l.

Lemma to_front_fold p s :
  NoDup (titles_of (p ++ s)) →
  List.fold_left to_front s (rev (List.filter file_cate p) ++ keep file_cate p ++ s)
  = rev (List.filter file_cate (p ++ s)) ++ keep file_cate (p ++ s).
Proof.
  revert p. induction s as [|g s IH]; intros p Hn; [by rewrite !app_nil_r|].
  cbn [List.fold_left]. replace (p ++ g :: s) with ((p ++ [g]) ++ s) in * by (by rewrite <-app_assoc).
  rewrite <-IH by done. f_equal. unfold to_front, keep.
  rewrite !List.filter_app, rev_app_distr. cbn [List.filter].
  destruct (file_cate g) eqn:E; cbn [negb rev app]; [|by rewrite <-!app_assoc].
  rewrite app_nil_r, app_assoc, remove_first_mid, <-app_assoc; [done| |by apply bool_decide_eq_true].
  apply forallb_forall. intros h Hh. apply negb_true_iff, bool_decide_eq_false. intros Ht.
  unfold titles_of in Hn. rewrite !map_app in Hn. apply NoDup_app in Hn as [Hn _].
  apply NoDup_app in Hn as (_ & Hn & _). apply (Hn (g_cate g)); [|by apply list_elem_of_singleton].
  apply list_elem_of_In, in_map_iff. exists h. split; [done|].
  apply in_app_or in Hh as [Hh%in_rev|Hh]; by apply filter_In in Hh as [Hh _].
Qed.
End tags.

(** The categories as the list of the included tags shows them: the categories
    of files first, the others in their order; the row of all the unsubscribed
    is hidden. *)
Theorem sort_include_spec l :
  NoDup (titles_of l) →
  titles_of (sort_include l) = rev (List.filter (λ k, file_cate (Group k [] true)) (titles_of l))
    ++ keep (λ k, file_cate (Group k [] true)) (titles_of l)
  ∧ Forall (λ g, Forall (λ r, fst r = js "-1" → snd r = false) (g_rows g)) (sort_include l).
Proof.
  intros Hn. pose proof (to_front_fold [] l Hn) as E. cbn [app rev keep List.filter] in E.
  assert (∀ (P : jstr → bool) k, List.filter P (titles_of k) = titles_of (List.filter (λ g, P (g_cate g)) k)) as Hf.
  { intros P k. unfold titles_of. induction k as [|g k IH]; [done|]. cbn. destruct (P (g_cate g)); cbn; by rewrite IH. }
  unfold sort_include. change (List.filter (λ x, negb (file_cate x)) [] ++ l) with l in E. split.
  - unfold titles_of at 1. rewrite map_map. cbn [g_cate]. rewrite E. unfold keep. rewrite !Hf.
    unfold titles_of. by rewrite map_app, map_rev.
  - apply Forall_forall. intros g (h & <- & _)%list_elem_of_In%in_map_iff. cbn.
    apply Forall_forall. intros r (r0 & <- & _)%list_elem_of_In%in_map_iff.
    case_bool_decide; [done|]. by intros ?.
Qed.

(** After the tags are refreshed the included tags may be any category, the
    files' ones taken from the files. *)
Theorem refreshTag_include_list c f s k (w : world task) :
  NoDup (List.map fst f) →
  ∃ w', refreshTag_success c f s (Some skip) w = (Ok tt, w')
    ∧ assoc k (include_list (w_glob w')) = match assoc k f with Some v => Some v | None => assoc k c end
    ∧ catedata (w_glob w') = c.
Proof. intros Hn. eexists. split; [reflexivity|]. split; [by apply assoc_extend|done]. Qed.

(** ** A page to try them on *)

Definition demo_item (a b : string) : item := [VStr (js a); VStr (js b)].
Definition demo_props : elt := with_attr (js "data-info") (js "颜色") blank.
Definition demo_sub : gmap jstr (list item) :=
  list_to_map [(include, [demo_item "a" "A"]); (exclude, [demo_item "b" "B"]); (assProp, [])].
Definition demo : world task :=
  page [(include, [0]); (hidden include, [1]); (js "#includeId", [1]); (schedule, [2]); (plan, [3]);
        (exclude, [4]); (js "#excludeId", [5]); (assProp, [6]); (hidden assProp, [7]);
        (js "a[data-id=p1]", [8]); (control "taskName", [9]); (control "templateId", [9]);
        (control "subject", [9]); (control "senderEmail", [9]); (control "includeIds", [1])]%nat
       [(0, with_val (js "A") blank); (1, with_val (js "a") blank); (2, blank); (3, blank); (4, with_val (js "B") blank);
        (5, with_val (js "b") blank); (6, blank); (7, blank); (8, demo_props); (9, with_val (js "x") blank)]%nat
       (Task demo_sub [] [] [] [] [] [] []).

Lemma demo_wf a b : data_id (VStr (js a)) → wf data_id [demo_item a b].
Proof. intros H. split; repeat constructor; [exact H|]. not_in. Qed.

Lemma pickIncludes_ok_witness :
  include_form [demo_item "a" "A"] demo ∧
  ∃ w', pickIncludes (Node (js "EXPORT1") (VStr (js "EXPORT1")) (js "f.txt")) (VStr (js "file")) include (Some 5) demo = (Ok tt, w')
    ∧ dis_of exclude w' = Some true ∧ dis_of plan w' = Some (hasCamp w' || true)
    ∧ sub_get exclude (w_glob w') = sub_get exclude (w_glob demo).
Proof.
  assert (include_form [demo_item "a" "A"] demo) as H by (constructor; [constructor| | | | | | | |]; on_page).
  split; [exact H|].
  destruct (pickIncludes_ok (Node (js "EXPORT1") (VStr (js "EXPORT1")) (js "f.txt")) (VStr (js "file")) (Some 5)
    _ demo H) as (w' & E & _ & _ & _ & D & _ & P & G).
  - by apply demo_wf.
  - by intros ?.
  - done.
  - done.
  - done.
  - exists w'. split; [exact E|]. split; [exact D|]. split; [exact P|]. apply G. discriminate.
Defined.


Lemma pickExclusion_ok_witness :
  ∃ w', pickExclusion (Node (js "-1") (num (-1)) (js "全部")) include (Some 5) demo = (Ok tt, w')
    ∧ synced include [[num (-1); VStr (js "全部")]] w'.
Proof.
  destruct (pickExclusion_ok (Node (js "-1") (num (-1)) (js "全部")) include (Some 5) [demo_item "a" "A"] demo)
    as (w' & E & S & _).
  - constructor; on_page.
  - on_page.
  - by apply demo_wf.
  - by intros ?.
  - done.
  - done.
  - exists w'. split; [exact E|exact S].
Defined.

Lemma addAssProp_ok_witness :
  ∃ w', addAssProp (Node (js "p1") (VStr (js "p1")) (js "红")) (VStr (js "颜色")) false assProp skip demo = (Ok tt, w')
    ∧ synced assProp [[VStr (js "p1"); VStr (js "红")]] w'.
Proof.
  destruct (addAssProp_ok (Node (js "p1") (VStr (js "p1")) (js "红")) (js "颜色") [] demo) as (w' & E & S & _).
  - constructor; on_page.
  - on_page.
  - constructor.
  - constructor.
  - cbn. lia.
  - on_page.
  - exists w'. split; [exact E|exact S].
Defined.

Lemma getAjaxSum_gate_witness :
  form_ready demo ∧ first_missing demo = None ∧
  ∃ w', getAjaxSum (js "t") demo = (Ok true, w')
    ∧ w_ev w' = [EvAjax (select_url (js "t")) [(js "includeIds", js "a"); (js "excludeIds", js "b")]].
Proof.
  assert (form_ready demo) as H.
  { constructor; [unfold present; on_page|discriminate|discriminate|intros _; on_page]. }
  assert (first_missing demo = None) as M by on_page.
  split; [exact H|]. split; [exact M|].
  pose proof (getAjaxSum_gate (js "t") demo H) as P. rewrite M in P.
  destruct P as (w' & E & V & _). exists w'. split; [exact E|exact V].
Defined.

Lemma sort_include_spec_witness :
  titles_of (sort_include [Group (js "客户") [] true; Group (js "临时文件") [(js "-1", true)] true])
  = [js "临时文件"; js "客户"].
Proof.
  destruct (sort_include_spec [Group (js "客户") [] true; Group (js "临时文件") [(js "-1", true)] true]) as [E _].
  - vm_compute. repeat constructor; not_in.
  - rewrite E. vm_compute. reflexivity.
Defined.
