(* ===== verification/TaskForm.v ===== *)
(** * A whole session on the form of a task -- [mailing.task.common.js],
    [mailing.task.add.js]

    The pickers of the included tags, of the ones left out and of the campaign,
    the choice of the way of sending and the keys that erase all change each
    other's controls.  [task_session] shows that any sequence of them
    implements one abstract form ([form], [abs_act]), and that this form never
    holds two things that exclude each other. *)

From stdpp Require Import functions.
From S2P Require Import Prelude Js JsFacts Page Layout TagList Url Base Controls Widgets Search Select Task.
#[local] Open Scope Z_scope.

(** ** The controls *)

Inductive way := Current | Schedule | Plan.
#[export] Instance way_eq_dec : EqDecision way.
Proof. solve_decision. Defined.
Inductive ctl := FInc | FIncId | FExc | FExcId | FCamp | FCampId | FJob | FWay (r : way).
#[export] Instance ctl_eq_dec : EqDecision ctl.
Proof. solve_decision. Defined.

Definition camp : jstr := js "#camp".
Definition way_name (r : way) : jstr :=
  match r with Current => js "current" | Schedule => js "schedule" | Plan => js "plan" end.
Definition radio (r : way) : jstr := js "input[value=" ++ way_name r ++ js "]".
Definition sel_of (c : ctl) : jstr :=
  match c with
  | FInc => include | FIncId => hidden include
  | FExc => exclude | FExcId => hidden exclude
  | FCamp => camp | FCampId => hidden camp
  | FJob => js "#jobTime"
  | FWay r => radio r
  end.
Abbreviation ticked := (js "input[name=sendCode]:checked").

Abbreviation looks := (ctl → look).
Abbreviation at_c := (at_ctl (ctl := ctl)).

(** ** What the user does *)

Inductive act :=
| PickInclude (o : node) (type : jval)
| PickExclude (o : node)
| PickCamp (o : node)
| Tick (r : way)
| Time (s : jstr)                       (* a time put into [#jobTime] *)
| KeyInclude (code caret : Z)
| KeyExclude (code caret : Z)
| KeyCamp (code : Z).

(** The browser ticks one button of the three. *)
Definition tick (r : way) : T unit :=
  for_each [Current; Schedule; Plan] (λ q, set_checked (radio q) (bool_decide (q = r))) ;;
  modify (λ w, World (<[ticked := found (radio r) w]> (w_sel w)) (w_elt w) (w_box w) (w_win w) (w_ui w)
                 (w_ev w) (w_now w) (w_glob w)).

Section session.
(** [includeLimit], [excludeLimit] of the page *)
Context (includeLimit excludeLimit : option Z).

(** The handler of each event, as [initTag] and the page's [ready] bind them.
    The time is shown only while the task is scheduled. *)
Definition handle (a : act) : T unit :=
  match a with
  | PickInclude o type => pickIncludes o type include includeLimit
  | PickExclude o => pickExcludes o exclude excludeLimit
  | PickCamp o => disPeriod o
  | Tick r => tick r ;; sendCode_change
  | Time s => b ← checked0 schedule; when b (set_val (js "#jobTime") s)
  | KeyInclude code caret => include_keydown code caret
  | KeyExclude code caret => _ ← reduceArr exclude code caret skip; skip
  | KeyCamp code => _ ← camp_keydown code; skip
  end.
(** The control an event happens on; a disabled one has no events. *)
Definition control_of (a : act) : ctl :=
  match a with
  | PickInclude _ _ | KeyInclude _ _ => FInc
  | PickExclude _ | KeyExclude _ _ => FExc
  | PickCamp _ | KeyCamp _ => FCamp
  | Tick r => FWay r
  | Time _ => FJob
  end.
Definition user (a : act) : T unit :=
  d ← gets (dis_of (sel_of (control_of a)));
  if bool_decide (d = Some true) then skip else handle a.

(** ** The abstract form *)

Record form := Form {
  f_inc : list item;           (* the tags included *)
  f_exc : list item;           (* the ones left out *)
  f_blank : bool;              (* their fields were emptied by a file *)
  f_camp : jstr * jstr;        (* title and id of the campaign *)
  f_way : way;
  f_job : jstr;
  f_now : bool                 (* immediate sending is on offer *)
}.
Definition has_file (l : list item) : bool := existsb is_file l.
#[global] Arguments has_file : simpl never.
Definition has_camp (a : form) : bool := negb (bool_decide (snd (f_camp a) = [])).
Definition offers (a : form) (r : way) : bool :=
  match r with
  | Current => f_now a
  | Schedule => negb (has_file (f_inc a))
  | Plan => negb (has_camp a || has_file (f_inc a))
  end.

Definition with_inc l (a : form) := Form l (f_exc a) (f_blank a) (f_camp a) (f_way a) (f_job a) (f_now a).
Definition with_exc l (a : form) := Form (f_inc a) l false (f_camp a) (f_way a) (f_job a) (f_now a).
Definition with_blank (a : form) := Form (f_inc a) (f_exc a) true (f_camp a) (f_way a) (f_job a) (f_now a).
Definition with_camp c (a : form) := Form (f_inc a) (f_exc a) (f_blank a) c (f_way a) (f_job a) (f_now a).
Definition with_way r j (a : form) := Form (f_inc a) (f_exc a) (f_blank a) (f_camp a) r j (f_now a).

(** The texts of the fields of the tags left out. *)
Definition exc_title (a : form) : jstr := if f_blank a then [] else title_text (f_exc a).
Definition exc_ids (a : form) : jstr := if f_blank a then [] else id_text (f_exc a).

Definition abs_act (a : form) (e : act) : form :=
  match e with
  | PickInclude o type =>
      let file := loose_eq type (VStr (js "file")) in
      if over_limit includeLimit (f_inc a) || file && negb (bool_decide (f_way a = Current)) then a
      else let a' := with_inc (pick_include (f_inc a) file (n_data o) (VStr (n_text o)) type) a in
           if file then with_blank a' else a'
  | PickExclude o =>
      if has_file (f_inc a) || over_limit excludeLimit (f_exc a) then a
      else with_exc (filterArr (f_exc a) [n_data o; VStr (n_text o)]) a
  | PickCamp o => if bool_decide (f_way a = Plan) then a else with_camp (n_text o, n_attr o) a
  | Tick r => if offers a r then with_way r (if bool_decide (r = Schedule) then f_job a else []) a else a
  | Time s => if bool_decide (f_way a = Schedule) then with_way Schedule s a else a
  | KeyInclude code caret =>
      if code =? 8 then with_inc (erase (f_inc a) (title_text (f_inc a)) caret) a else a
  | KeyExclude code caret =>
      if (code =? 8) && negb (has_file (f_inc a))
      then with_exc (erase (f_exc a) (exc_title a) caret) a else a
  | KeyCamp code => if (code =? 8) && negb (bool_decide (f_way a = Plan)) then with_camp ([], []) a else a
  end.
Definition abs_acts (a : form) (l : list act) : form := List.fold_left abs_act l a.

(** What the page shows of an abstract form. *)
Record agrees (a : form) (v : looks) : Prop := {
  ag_inc : l_val (v FInc) = title_text (f_inc a);
  ag_incid : l_val (v FIncId) = id_text (f_inc a);
  ag_free : l_dis (v FInc) = false;
  ag_exc : l_val (v FExc) = exc_title a;
  ag_excid : l_val (v FExcId) = exc_ids a;
  ag_excdis : l_dis (v FExc) = has_file (f_inc a);
  ag_camp : l_val (v FCamp) = fst (f_camp a);
  ag_campid : l_val (v FCampId) = snd (f_camp a);
  ag_campdis : l_dis (v FCamp) = bool_decide (f_way a = Plan);
  ag_job : l_val (v FJob) = f_job a;
  ag_jobdis : l_dis (v FJob) = false;
  ag_radio : ∀ r, v (FWay r) = Look (way_name r) (negb (offers a r)) (bool_decide (r = f_way a))
}.
(** The page of the task shows the abstract form. *)
Record form_on (a : form) (w : world task) : Prop := {
  fo_looks : ∃ v, reads sel_of v w ∧ agrees a v;
  fo_inc : sub_get include (w_glob w) = Some (f_inc a);
  fo_exc : sub_get exclude (w_glob w) = Some (f_exc a);
  fo_ticked : found ticked w = found (radio (f_way a)) w;
  fo_incid : found (js "#includeId") w = found (hidden include) w;
  fo_excid : found (js "#excludeId") w = found (hidden exclude) w;
  fo_campid : found (js "#campId") w = found (hidden camp) w;
  fo_planbox : found (js "input[name=sendCode][value=plan]") w = found plan w
}.

(** An item has an id, and is a file exactly when the id says so. *)
Definition marked (it : item) : Prop :=
  is_file it = contains (js "EXPORT") (str_of_elem (item_id it)) ∧ str_of_elem (item_id it) ≠ [].
(** What the pickers offer: ids of one kind; those of files carry the mark the
    server gives them; a campaign has an id. *)
Definition offered (e : act) : Prop :=
  match e with
  | PickInclude o type => data_id (n_data o)
      ∧ loose_eq type (VStr (js "file")) = contains (js "EXPORT") (str_of_elem (n_data o))
      ∧ str_of_elem (n_data o) ≠ []
  | PickCamp o => n_attr o ≠ []
  | _ => True
  end.

(** What must never be on the form together. *)
Record sound (a : form) : Prop := {
  so_wf : wf data_id (f_inc a);
  so_alone : alone is_file (f_inc a);
  so_marked : Forall marked (f_inc a);
  so_file : has_file (f_inc a) = true → f_way a = Current ∧ f_blank a = true;
  so_camp : has_camp a = true → f_way a ≠ Plan;
  so_time : f_way a ≠ Schedule → f_job a = []
}.
End session.

(** ** Facts *)

(** *** The mark of the files *)

Lemma app_cut {A} (x : A) (p pre post w t : list A) :
  x ∉ p → pre ++ p ++ post = w ++ x :: t →
  (∃ k, w = pre ++ p ++ k) ∨ (∃ k, t = k ++ p ++ post).
Proof.
  intros Hx E. apply app_eq_app in E as (k & [[-> E]|[-> E]]).
  - destruct k as [|y k]; cbn in E.
    + destruct p as [|y p]; [left; exists []; by rewrite !app_nil_r|].
      injection E as -> E. exfalso. apply Hx. constructor.
    + injection E as <- E. right. by exists k.
  - apply app_eq_app in E as (m & [[-> E]|[-> E]]).
    + destruct m as [|y m]; cbn in E.
      * left. exists []. by rewrite !app_nil_r.
      * injection E as <- _. exfalso. apply Hx, elem_of_app. right. constructor.
    + left. by exists m.
Qed.

Lemma contains_sep p w c t :
  c ∉ p → p ≠ [] → contains p (w ++ c :: t) = contains p w || contains p t.
Proof.
  intros Hc Hp. apply eq_true_iff_eq. rewrite orb_true_iff, !contains_spec. split.
  - intros (pre & post & E). symmetry in E. apply app_cut in E as [[k ->]|[k ->]]; [| |exact Hc]; eauto.
  - intros [(pre & post & ->)|(pre & post & ->)].
    + exists pre, (post ++ c :: t). by rewrite <-!app_assoc.
    + exists (w ++ c :: pre), post. by rewrite <-!app_assoc.
Qed.

Lemma contains_join p ws :
  c_comma ∉ p → p ≠ [] → contains p (join [c_comma] ws) = existsb (contains p) ws.
Proof.
  intros Hc Hp. induction ws as [|w ws IH].
  - cbn. by destruct p.
  - destruct ws as [|u ws]; [cbn; by rewrite orb_false_r|].
    rewrite join_cons by done. rewrite contains_sep, IH by done. done.
Qed.

Lemma exported_file l : Forall marked l → exported l = has_file l.
Proof.
  intros H. unfold exported, has_file. rewrite indexOf_contains. unfold id_text.
  rewrite contains_join; [|not_in|done].
  induction H as [|it l Hit _ IH]; [done|]. cbn [List.map existsb]. by rewrite IH, (proj1 Hit).
Qed.

(** *** The controls of the scripts *)

Section scripts_facts.
Implicit Types (w : world task) (v : looks).

Lemma val_alias (s t : jstr) w : found s w = found t w → val s w = val t w.
Proof. intros H. unfold val, gets, first. by rewrite H. Qed.
Lemma found_sel (s : jstr) w w' : w_sel w' = w_sel w → found s w' = found s w.
Proof. intros H. unfold found. by rewrite H. Qed.

Lemma class_calm sel b : calm (G := task) (if b : bool then addClass sel (js "f666") else removeClass sel (js "f666")).
Proof. destruct b; apply calm_on; intros e; [|done]. unfold add_class. by destruct (has_class _ e). Qed.

Lemma grey_box_reads c b v w :
  reads sel_of v w → ∃ w', grey_box (sel_of c) b w = (Ok tt, w')
    ∧ reads sel_of (at_c c (put_dis b) v) w' ∧ w_glob w' = w_glob w ∧ w_sel w' = w_sel w.
Proof.
  intros H. unfold grey_box. destruct (set_disabled_reads sel_of c b v w H) as (w1 & E1 & R1 & G1 & S1).
  rewrite (bind_ok _ _ _ _ _ E1).
  destruct (calm_reads sel_of _ _ w1 (class_calm (sel_of c ++ js ".closest('div')") b) R1) as ([] & w2 & E2 & R2 & G2 & S2).
  exists w2. split; [done|]. split; [done|]. split; congruence.
Qed.

Definition camp_in v : bool := negb (bool_decide (l_val (v FCampId) = [])).
Definition file_in v : bool := contains (js "EXPORT") (l_val (v FIncId)).
Definition send_flags v : looks :=
  at_c (FWay Plan) (put_dis (camp_in v || file_in v)) (at_c (FWay Schedule) (put_dis (file_in v)) v).

Lemma testSendCode_reads v w :
  found (js "#includeId") w = found (hidden include) w → found (js "#campId") w = found (hidden camp) w →
  reads sel_of v w → ∃ w', testSendCode w = (Ok tt, w') ∧ reads sel_of (send_flags v) w'
    ∧ w_glob w' = w_glob w ∧ w_sel w' = w_sel w.
Proof.
  intros Hi Hc H.
  destruct (grey_box_reads (FWay Schedule) (file_in v) v w H) as (w1 & E1 & R1 & G1 & S1).
  destruct (grey_box_reads (FWay Plan) (camp_in v || file_in v) _ w1 R1) as (w2 & E2 & R2 & G2 & S2).
  exists w2. split; [|split; [done|split; congruence]]. unfold testSendCode.
  assert (val (js "#campId") w = (Ok (VStr (l_val (v FCampId))), w)) as Ec.
  { rewrite (val_alias _ _ _ Hc). exact (val_reads sel_of v w FCampId H). }
  assert (val (js "#includeId") w = (Ok (VStr (l_val (v FIncId))), w)) as Ei.
  { rewrite (val_alias _ _ _ Hi). exact (val_reads sel_of v w FIncId H). }
  rewrite (bind_ok _ _ _ _ _ Ec), (bind_ok _ _ _ _ _ Ei). cbn [or_empty]. cbv zeta.
  rewrite indexOf_contains. fold (camp_in v) (file_in v).
  destruct (camp_in v), (file_in v); cbn [negb andb orb] in *;
    change schedule with (sel_of (FWay Schedule)); rewrite (bind_ok _ _ _ _ _ E1); exact E2.
Qed.
End scripts_facts.

(** Reading one control of an updated vector. *)
Ltac read_ctl :=
  unfold send_flags; repeat first [rewrite at_ctl_eq | rewrite at_ctl_ne by discriminate];
  cbn [l_val l_dis l_chk put_val put_dis put_chk].

(** *** One event *)

Section events.
Context (includeLimit excludeLimit : option Z).
Implicit Types (w : world task) (v : looks) (a : form).
Abbreviation does := (user includeLimit excludeLimit).
Abbreviation step := (abs_act includeLimit excludeLimit).

Lemma sub_other (s t : jstr) l (g : task) : s ≠ t → sub_get s (sub_set t l g) = sub_get s g.
Proof. intros H. by apply lookup_insert_ne. Qed.

Lemma form_on_step a a' v' w w' :
  form_on a w → reads sel_of v' w' → agrees a' v' → w_sel w' = w_sel w → f_way a' = f_way a →
  sub_get include (w_glob w') = Some (f_inc a') → sub_get exclude (w_glob w') = Some (f_exc a') →
  form_on a' w'.
Proof.
  intros [_ _ _ Ht Hi He Hc Hp] R A S W. constructor; [by exists v'|done|done|..];
    rewrite ?W, !(found_sel _ _ _ S); done.
Qed.

Lemma form_on_calm {A} (m : T A) a w :
  calm m → form_on a w → ∃ x w', m w = (Ok x, w') ∧ form_on a w'.
Proof.
  intros Hm H. destruct (fo_looks _ _ H) as (v & R & Ag).
  destruct (calm_reads sel_of m v w Hm R) as (x & w' & E & R' & G & S).
  exists x, w'. split; [done|]. eapply form_on_step; [exact H|exact R'|exact Ag|done|done|..]; rewrite G; apply H.
Qed.

(** The buttons of the ways after [testSendCode]. *)
Lemma radios_agree a v r :
  (∀ q, l_val (v (FWay q)) = way_name q ∧ l_chk (v (FWay q)) = bool_decide (q = f_way a)) →
  l_dis (v (FWay Current)) = negb (f_now a) → camp_in v = has_camp a → file_in v = has_file (f_inc a) →
  send_flags v (FWay r) = Look (way_name r) (negb (offers a r)) (bool_decide (r = f_way a)).
Proof.
  intros H Hn Hc Hf. destruct r; read_ctl; cbn [offers]; rewrite ?negb_involutive;
    unfold put_dis; destruct (H Current) as [E1 E2], (H Schedule) as [E3 E4], (H Plan) as [E5 E6].
  - destruct (v (FWay Current)). cbn in *. congruence.
  - by rewrite E3, E4, Hf.
  - by rewrite E5, E6, Hf, Hc.
Qed.

(** The array of the included tags changed, on the page and in the model. *)
Lemma include_changed a b l v0 w0 w :
  form_on a w → sound a → Forall marked l →
  let a' := Form l (f_exc a) b (f_camp a) (f_way a) (f_job a) (f_now a) in
  reads sel_of v0 w0 → w_glob w0 = w_glob w → w_sel w0 = w_sel w →
  (∃ v, agrees a v ∧ (∀ c, c ≠ FExc → c ≠ FExcId → v0 c = v c)) →
  l_val (v0 FExc) = exc_title a' → l_val (v0 FExcId) = exc_ids a' → l_dis (v0 FExc) = has_file l →
  ∃ w', (set_subArr include l ;; addItemInput l include ;; testSendCode) w0 = (Ok tt, w') ∧ form_on a' w'.
Proof.
  intros H Hs Hl a' R0 G0 S0 (v & Ag & Hv) Ht Hi Hd.
  assert (sub_get (sel_of FInc) (w_glob w0) = Some (f_inc a)) as Hg by (rewrite G0; apply H).
  destruct (refill_reads sel_of FInc FIncId (f_inc a) l v0 w0) as (w1 & E1 & R1 & G1 & S1); [done..|].
  assert (∀ s t, found s w = found t w → found s w1 = found t w1) as Hal.
  { intros s t. by rewrite !(found_sel _ w w1) by congruence. }
  destruct (testSendCode_reads _ w1 (Hal _ _ (fo_incid _ _ H)) (Hal _ _ (fo_campid _ _ H)) R1)
    as (w2 & E2 & R2 & G2 & S2).
  exists w2. split.
  { rewrite <-bind_assoc. change include with (sel_of FInc). by rewrite (bind_ok _ _ _ _ _ E1). }
  eapply form_on_step; [exact H|exact R2| |congruence|done|..].
  - destruct Ag as [? ? A3 ? ? ? A7 A8 A9 A10 A11 A12].
    constructor; [read_ctl..|]; rewrite ?Hv by done; try done.
    intros r. apply radios_agree.
    + intros q. destruct q; read_ctl; rewrite Hv, A12 by done; done.
    + read_ctl. by rewrite Hv, A12.
    + unfold camp_in, has_camp. read_ctl. by rewrite Hv, A8.
    + unfold file_in. read_ctl. rewrite <-indexOf_contains. by apply exported_file.
  - rewrite G2, G1, G0. apply lookup_insert_eq.
  - rewrite G2, G1, G0. rewrite sub_other by done. apply H.
Qed.
(** *** What excludes each other stays apart *)

Lemma marked_sublist (l k : list item) : sublist l k → Forall marked k → Forall marked l.
Proof. intros Hs H. by eapply Forall_sublist. Qed.

Lemma pick_include_marked l o type :
  offered (PickInclude o type) → Forall marked l →
  Forall marked (pick_include l (loose_eq type (VStr (js "file"))) (n_data o) (VStr (n_text o)) type).
Proof.
  intros (_ & Hm & Hn) Hl. unfold pick_include. destruct (loose_eq type _) eqn:E; rewrite filterArr_spec.
  - constructor; [|constructor]. unfold marked, is_file. cbn. by rewrite E.
  - apply Forall_app. split; [|constructor; [|constructor]; done].
    eapply marked_sublist; [|exact Hl]. etrans; [apply remove_first_sublist|apply splice_scan_sublist].
Qed.

Lemma pick_include_file l o type :
  alone is_file l →
  has_file (pick_include l (loose_eq type (VStr (js "file"))) (n_data o) (VStr (n_text o)) type)
  = loose_eq type (VStr (js "file")).
Proof.
  intros Ha. unfold pick_include, has_file. destruct (loose_eq type _) eqn:E; rewrite filterArr_spec.
  - cbn. unfold is_file. cbn. by rewrite E.
  - rewrite existsb_app. cbn. rewrite orb_false_r. apply not_true_is_false. intros H.
    eapply existsb_sublist in H; [|apply remove_first_sublist]. by rewrite scan_alone in H.
Qed.

Lemma alone_sublist P (l k : list item) : sublist l k → alone P k → alone P l.
Proof.
  intros Hs Ha H. pose proof (existsb_sublist P l k Hs H) as Hk. pose proof (sublist_length _ _ Hs) as Hl.
  rewrite (Ha Hk) in Hl. destruct l as [|x [|y l]]; cbn in *; [done|done|lia].
Qed.

(** The rules of the included tags. *)
Definition tags_ok (l : list item) : Prop := wf data_id l ∧ alone is_file l ∧ Forall marked l.

Lemma pick_tags_ok l o type :
  tags_ok l → offered (PickInclude o type) →
  tags_ok (pick_include l (loose_eq type (VStr (js "file"))) (n_data o) (VStr (n_text o)) type).
Proof.
  intros (Hw & Ha & Hm) Ho. split; [|split; [|by apply pick_include_marked]];
    rewrite pick_include_eq by done; cbv zeta.
  - apply pick_wf; [apply _|done|]. destruct (loose_eq type _); apply Ho.
  - by apply pick_alone.
Qed.
Lemma erase_tags_ok l text caret : tags_ok l → tags_ok (erase l text caret).
Proof.
  intros (Hw & Ha & Hm). pose proof (erase_sublist l text caret) as Hs. split; [|split].
  - by eapply (sublist_wf data_id).
  - by eapply alone_sublist.
  - by eapply marked_sublist.
Qed.
Lemma erase_file l text caret : has_file (erase l text caret) = true → has_file l = true.
Proof. apply existsb_sublist, erase_sublist. Qed.

Lemma sound_intro a :
  tags_ok (f_inc a) → (has_file (f_inc a) = true → f_way a = Current ∧ f_blank a = true) →
  (has_camp a = true → f_way a ≠ Plan) → (f_way a ≠ Schedule → f_job a = []) → sound a.
Proof. intros (? & ? & ?). by constructor. Qed.
Lemma sound_tags a : sound a → tags_ok (f_inc a).
Proof. intros []. by split. Qed.

Lemma act_sound a e : sound a → offered e → sound (step a e).
Proof.
  intros Hs He. pose proof (sound_tags a Hs) as Ht. pose proof (so_file _ Hs) as Hf.
  pose proof (so_camp _ Hs) as Hc. pose proof (so_time _ Hs) as Hj.
  destruct e as [o type|o|o|r|s|code caret|code caret|code]; unfold abs_act.
  - pose proof (pick_include_file (f_inc a) o type (so_alone _ Hs)) as Hp.
    pose proof (pick_tags_ok _ _ _ Ht He) as Hok.
    destruct (over_limit includeLimit (f_inc a)); [done|]. cbn [orb].
    destruct (loose_eq type (VStr (js "file"))); cbn [andb]; [case_bool_decide as Hw; [|done]|];
      (apply sound_intro; [exact Hok|cbn [negb f_inc f_way f_blank with_inc with_blank]; rewrite Hp|exact Hc|exact Hj]); done.
  - destruct (has_file (f_inc a)) eqn:E; [done|]. destruct (over_limit _ _); [done|].
    apply sound_intro; try done. cbn. by rewrite E.
  - case_bool_decide; [done|]. by apply sound_intro.
  - destruct r; unfold offers; [destruct (f_now a)|destruct (has_file _) eqn:E|]; try done.
    + apply sound_intro; try done. intros H. by destruct (Hf H).
    + apply sound_intro; try done. cbn. by rewrite E.
    + destruct (has_camp a) eqn:Ec, (has_file (f_inc a)) eqn:E; cbn; try done.
      apply sound_intro; try done; cbn; [by rewrite E|]. unfold has_camp in *. cbn. by rewrite Ec.
  - case_bool_decide as Hw; [|done]. apply sound_intro; try done. intros H. destruct (Hf H). congruence.
  - destruct (code =? 8); [|done]. apply sound_intro; try done; [by apply erase_tags_ok|].
    intros H%erase_file. by apply Hf.
  - destruct (code =? 8); [|done]. destruct (has_file (f_inc a)) eqn:E; [done|].
    apply sound_intro; try done. cbn. by rewrite E.
  - destruct (code =? 8); [|done]. case_bool_decide; [done|]. by apply sound_intro.
Qed.
(** *** The handlers implement the abstract events *)

Lemma user_enabled a w e :
  form_on a w →
  does e w = (if match control_of e with
                 | FExc | FExcId => has_file (f_inc a)
                 | FCamp | FCampId => bool_decide (f_way a = Plan)
                 | FWay r => negb (offers a r)
                 | _ => false
                 end then skip else handle includeLimit excludeLimit e) w.
Proof.
  intros H. destruct (fo_looks _ _ H) as (v & R & Ag). unfold user.
  rewrite (bind_ok (gets (dis_of (sel_of (control_of e)))) _ w _ w eq_refl).
  rewrite (reads_dis sel_of v w _ R).
  destruct e as [o type|o|o|r|s|code caret|code caret|code]; cbn [control_of];
    rewrite ?(ag_free _ _ Ag), ?(ag_excdis _ _ Ag), ?(ag_campdis _ _ Ag), ?(ag_jobdis _ _ Ag), ?(ag_radio _ _ Ag);
    cbn [l_dis]; try done.
  - by destruct (has_file _).
  - by destruct (bool_decide (f_way a = Plan)).
  - by destruct (offers a r).
  - by destruct (has_file _).
  - by destruct (bool_decide (f_way a = Plan)).
Qed.

Lemma refused_simulates m a w :
  form_on a w → ∃ w', error_text m 1 w = (Ok tt, w') ∧ form_on a w'.
Proof.
  intros H. destruct (form_on_calm (error_text m 1) a w (error_text_calm m 1) H) as ([] & w' & E & F).
  by exists w'.
Qed.

(** A file empties the fields of the tags left out. *)
Lemma clear_excludes v w :
  found (js "#excludeId") w = found (hidden exclude) w → reads sel_of v w →
  ∃ w', (set_disabled exclude true ;; set_val exclude [] ;; set_val (js "#excludeId") []) w = (Ok tt, w')
    ∧ reads sel_of (at_c FExcId (put_val []) (at_c FExc (put_val []) (at_c FExc (put_dis true) v))) w'
    ∧ w_glob w' = w_glob w ∧ w_sel w' = w_sel w.
Proof.
  intros Hx R. destruct (set_disabled_reads sel_of FExc true v w R) as (w1 & E1 & R1 & G1 & S1).
  destruct (set_val_reads sel_of FExc [] _ w1 R1) as (w2 & E2 & R2 & G2 & S2).
  destruct (set_val_reads sel_of FExcId [] _ w2 R2) as (w3 & E3 & R3 & G3 & S3).
  exists w3. split; [|split; [done|split; congruence]].
  change exclude with (sel_of FExc). rewrite (bind_ok _ _ _ _ _ E1), (bind_ok _ _ _ _ _ E2), <-E3.
  unfold set_val, on, modify. rewrite (found_sel _ w w2) by congruence. rewrite Hx.
  by rewrite <-(found_sel (hidden exclude) w w2) by congruence.
Qed.

Lemma include_pick_simulates o type a w :
  form_on a w → sound a → offered (PickInclude o type) →
  ∃ w', does (PickInclude o type) w = (Ok tt, w') ∧ form_on (step a (PickInclude o type)) w'.
Proof.
  intros H Hs Ho. rewrite (user_enabled a) by done. cbn [control_of handle].
  destruct (fo_looks _ _ H) as (v & R & Ag). unfold abs_act, pickIncludes. cbv zeta.
  rewrite (bind_ok _ _ _ _ _ (subArr_ok _ _ _ (fo_inc _ _ H))).
  destruct (over_limit includeLimit (f_inc a)); cbn [orb].
  { unfold limit_error. apply refused_simulates. exact H. }
  assert (∀ r, checked0 (radio r) w = (Ok (bool_decide (r = f_way a)), w)) as Hck.
  { intros r. change (radio r) with (sel_of (FWay r)). rewrite (checked0_reads sel_of v w _ R).
    by rewrite (ag_radio _ _ Ag). }
  pose proof (pick_include_marked (f_inc a) o type Ho (so_marked _ Hs)) as Hm.
  pose proof (pick_include_file (f_inc a) o type (so_alone _ Hs)) as Hp.
  destruct (loose_eq type (VStr (js "file"))) eqn:Hfile; cbv iota; cbn [andb negb].
  - rewrite (bind_ok _ _ _ _ _ (Hck Schedule)).
    destruct (f_way a) eqn:Hw; cbn [andb negb].
    2: { rewrite (bool_decide_eq_true_2 (Schedule = Schedule)) by done. cbn [andb negb].
         rewrite (bind_ok (mret false) _ w false w eq_refl). cbn [orb].
         apply refused_simulates. exact H. }
    2: { rewrite (bool_decide_eq_false_2 (Schedule = Plan)) by done. cbn [andb negb].
         rewrite (bind_ok _ _ _ _ _ (Hck Plan)), (bool_decide_eq_true_2 (Plan = Plan)) by done. cbn [orb].
         apply refused_simulates. exact H. }
    rewrite (bool_decide_eq_false_2 (Schedule = Current)) by done. cbn [andb negb].
    rewrite (bind_ok _ _ _ _ _ (Hck Plan)), (bool_decide_eq_false_2 (Plan = Current)) by done. cbn [orb].
    rewrite (bool_decide_eq_true_2 (Current = Current)) by done. cbn [negb].
    destruct (clear_excludes v w (fo_excid _ _ H) R) as (w1 & E1 & R1 & G1 & S1).
    rewrite (bind_ok _ _ _ _ _ E1).
    apply (include_changed a true _ _ w1 w H Hs Hm R1 G1 S1).
    + exists v. split; [done|]. intros c Hc1 Hc2. by rewrite !at_ctl_ne.
    + by read_ctl.
    + by read_ctl.
    + read_ctl. by rewrite Hp.
  - rewrite (bind_ok (mret false) _ w false w eq_refl), (bind_ok (mret false) _ w false w eq_refl). cbn [orb].
    destruct (set_disabled_reads sel_of FExc false v w R) as (w1 & E1 & R1 & G1 & S1).
    rewrite (bind_ok _ _ _ _ _ E1).
    apply (include_changed a (f_blank a) _ _ w1 w H Hs Hm R1 G1 S1).
    + exists v. split; [done|]. intros c Hc1 Hc2. by rewrite at_ctl_ne.
    + read_ctl. apply (ag_exc _ _ Ag).
    + read_ctl. apply (ag_excid _ _ Ag).
    + read_ctl. by rewrite Hp.
Qed.


Lemma exc_agrees a l v :
  agrees a v →
  agrees (with_exc l a) (at_c FExcId (put_val (id_text l)) (at_c FExc (put_val (title_text l)) v)).
Proof. intros [? ? ? ? ? ? ? ? ? ? ? Hr]. constructor; [read_ctl; done..|]. intros r. read_ctl. by rewrite Hr. Qed.

Lemma exclude_pick_simulates o a w :
  form_on a w → ∃ w', does (PickExclude o) w = (Ok tt, w') ∧ form_on (step a (PickExclude o)) w'.
Proof.
  intros H. rewrite (user_enabled a) by done. cbn [control_of handle]. unfold abs_act.
  destruct (has_file (f_inc a)); cbn [orb]; [by exists w|]. unfold pickExcludes.
  rewrite (bind_ok _ _ _ _ _ (subArr_ok _ _ _ (fo_exc _ _ H))).
  destruct (over_limit excludeLimit (f_exc a)); [unfold limit_error; apply refused_simulates; exact H|].
  unfold pickArr. rewrite (bind_ok _ _ _ _ _ (subArr_ok _ _ _ (fo_exc _ _ H))). cbv zeta.
  set (l := filterArr (f_exc a) [n_data o; VStr (n_text o)]).
  destruct (fo_looks _ _ H) as (v & R & Ag).
  destruct (refill_reads sel_of FExc FExcId (f_exc a) l v w) as (w1 & E1 & R1 & G1 & S1); [done..|apply H|].
  exists w1. split; [rewrite <-bind_assoc; change exclude with (sel_of FExc); by rewrite (bind_ok _ _ _ _ _ E1)|].
  eapply form_on_step; [exact H|exact R1|by apply exc_agrees|done|done|..]; rewrite G1.
  - rewrite sub_other by done. apply H.
  - apply lookup_insert_eq.
Qed.

Lemma exclude_key_simulates code caret a w :
  form_on a w → ∃ w', does (KeyExclude code caret) w = (Ok tt, w') ∧ form_on (step a (KeyExclude code caret)) w'.
Proof.
  intros H. rewrite (user_enabled a) by done. cbn [control_of handle]. unfold abs_act.
  destruct (has_file (f_inc a)); cbn [negb]; [exists w; by rewrite andb_false_r|]. rewrite andb_true_r.
  destruct (Z.eqb_spec code 8) as [->|H8].
  2: { destruct (reduceArr_other_key exclude code caret skip w H8) as [b E]. rewrite (bind_ok _ _ _ _ _ E). by exists w. }
  destruct (fo_looks _ _ H) as (v & R & Ag).
  destruct (reduceArr_reads sel_of FExc FExcId (f_exc a) v w caret skip) as (w1 & E1 & R1 & G1 & S1); [done..|apply H|].
  rewrite (ag_exc _ _ Ag) in R1, G1.
  exists w1. split; [change exclude with (sel_of FExc); erewrite bind_ok; [|exact E1]; done|].
  eapply form_on_step; [exact H|exact R1|by apply exc_agrees|done|done|..]; rewrite G1.
  - rewrite sub_other by done. apply H.
  - apply lookup_insert_eq.
Qed.

Lemma id_text_nil l : Forall marked l → id_text l = [] → l = [].
Proof.
  intros Hm [E|E]%join_nil_iff; [by destruct l|]. destruct l as [|it [|]]; try done.
  injection E as E. apply Forall_cons in Hm as [[_ Hn] _]. done.
Qed.

(** The array after a key in [#include]: the flags already fit unless it is empty. *)
Lemma inc_agrees a l v :
  agrees a v → has_file l = has_file (f_inc a) →
  agrees (with_inc l a) (at_c FIncId (put_val (id_text l)) (at_c FInc (put_val (title_text l)) v)).
Proof.
  intros [? ? ? ? ? He ? ? ? ? ? Hr] Hf. constructor; [read_ctl; try done..|]; [by rewrite He, <-Hf|].
  intros r. read_ctl. rewrite Hr. destruct r; cbn [offers f_now f_inc with_inc]; by rewrite ?Hf.
Qed.
Lemma erase_same_file l text caret :
  alone is_file l → erase l text caret ≠ [] → has_file (erase l text caret) = has_file l.
Proof.
  intros Ha Hn. pose proof (erase_sublist l text caret) as Hs. apply eq_true_iff_eq. split.
  - apply existsb_sublist, Hs.
  - intros Hf. pose proof (Ha Hf) as Hl. destruct (erase l text caret) as [|x k] eqn:E; [done|].
    destruct l as [|y [|z l]]; try done. apply sublist_cons_l in Hs as (l1 & l2 & El & Hs).
    destruct l1 as [|u [|]]; try done. injection El as -> <-. by apply sublist_nil_r in Hs as ->.
Qed.

Lemma reads_ext v v' w : (∀ c, v c = v' c) → reads sel_of v w → reads sel_of v' w.
Proof. intros E [P L]. constructor; [done|]. intros c. by rewrite <-E. Qed.

(** The rest of the key's handler: an empty field sets the controls free. *)
Lemma include_tail a l v w w1 :
  form_on a w → agrees a v → Forall marked l → (l ≠ [] → has_file l = has_file (f_inc a)) →
  reads sel_of (at_c FIncId (put_val (id_text l)) (at_c FInc (put_val (title_text l)) v)) w1 →
  w_sel w1 = w_sel w → sub_get include (w_glob w1) = Some l → sub_get exclude (w_glob w1) = Some (f_exc a) →
  ∃ w', (i ← val (js "#includeId");
         when (bool_decide (i = VStr [])) (set_disabled (js "#exclude") false ;; testSendCode)) w1 = (Ok tt, w')
    ∧ form_on (with_inc l a) w'.
Proof.
  intros H Ag Hm Hf R S Gi Ge.
  assert (∀ s t, found s w = found t w → found s w1 = found t w1) as Hal.
  { intros s t. by rewrite !(found_sel _ w w1) by congruence. }
  assert (val (js "#includeId") w1 = (Ok (VStr (id_text l)), w1)) as E.
  { rewrite (val_alias _ (hidden include)) by (apply Hal, H).
    change (hidden include) with (sel_of FIncId). rewrite (val_reads sel_of _ w1 _ R). by read_ctl. }
  rewrite (bind_ok _ _ _ _ _ E). case_bool_decide as Hn; cbn [when].
  - injection Hn as Hn. apply id_text_nil in Hn; [|done]. subst l.
    destruct (set_disabled_reads sel_of FExc false _ w1 R) as (w2 & E2 & R2 & G2 & S2).
    rewrite (bind_ok _ _ _ _ _ E2).
    assert (∀ s t, found s w = found t w → found s w2 = found t w2) as Hal2.
    { intros s t. by rewrite !(found_sel _ w w2) by congruence. }
    destruct (testSendCode_reads _ w2 (Hal2 _ _ (fo_incid _ _ H)) (Hal2 _ _ (fo_campid _ _ H)) R2)
      as (w3 & E3 & R3 & G3 & S3).
    exists w3. split; [done|].
    eapply form_on_step; [exact H|exact R3| |congruence|done|by rewrite G3, G2|by rewrite G3, G2].
    destruct Ag as [? ? ? ? ? ? ? A8 ? ? ? Ar]. constructor; [read_ctl; done..|].
    intros r. apply radios_agree.
    + intros q. destruct q; read_ctl; rewrite Ar; done.
    + read_ctl. by rewrite Ar.
    + unfold camp_in, has_camp. read_ctl. by rewrite A8.
    + unfold file_in. by read_ctl.
  - exists w1. split; [done|]. eapply form_on_step; [exact H|exact R| |done|done|done|done].
    apply inc_agrees; [done|]. apply Hf. intros ->. by apply Hn.
Qed.

Lemma include_key_simulates code caret a w :
  form_on a w → sound a →
  ∃ w', does (KeyInclude code caret) w = (Ok tt, w') ∧ form_on (step a (KeyInclude code caret)) w'.
Proof.
  intros H Hs. rewrite (user_enabled a) by done. cbn [control_of handle]. unfold abs_act, include_keydown.
  destruct (fo_looks _ _ H) as (v & R & Ag). pose proof (sound_tags a Hs) as Ht.
  destruct (Z.eqb_spec code 8) as [->|H8].
  - destruct (reduceArr_reads sel_of FInc FIncId (f_inc a) v w caret skip) as (w1 & E1 & R1 & G1 & S1); [done..|apply H|].
    rewrite (ag_inc _ _ Ag) in R1, G1.
    change (reduceArr include) with (reduceArr (G := task) (sel_of FInc)). erewrite bind_ok; [|exact E1].
    eapply include_tail; [exact H|exact Ag|by apply erase_tags_ok| |exact R1|done|..].
    + apply erase_same_file, Ht.
    + rewrite G1. apply lookup_insert_eq.
    + rewrite G1, sub_other by done. apply H.
  - destruct (reduceArr_other_key include code caret skip w H8) as [b E]. rewrite (bind_ok _ _ _ _ _ E).
    destruct (include_tail a (f_inc a) v w w H Ag) as (w' & E' & F); [apply Ht|done| |done|apply H|apply H|].
    { eapply reads_ext; [|exact R]. intros c. destruct c; read_ctl; try done.
      - rewrite <-(ag_inc _ _ Ag). by destruct (v FInc).
      - rewrite <-(ag_incid _ _ Ag). by destruct (v FIncId). }
    exists w'. split; [done|]. by destruct a.
Qed.

(** *** The campaign *)

(** The two fields of the campaign set, and then the flags. *)
Lemma camp_agrees a t i v v' :
  agrees a v →
  (∀ c, v' c = at_c FCampId (put_val i) (at_c FCamp (put_val t) v) c ∨ ∃ r, c = FWay r) →
  (∀ r, v' (FWay r) = Look (way_name r) (negb (offers (with_camp (t, i) a) r)) (bool_decide (r = f_way a))) →
  agrees (with_camp (t, i) a) v'.
Proof.
  intros [? ? ? ? ? ? ? ? ? ? ? _] Hv Hr.
  assert (∀ c, (∀ r, c ≠ FWay r) → v' c = at_c FCampId (put_val i) (at_c FCamp (put_val t) v) c) as Hc.
  { intros c Hn. destruct (Hv c) as [E|[r ->]]; [done|]. by destruct (Hn r). }
  constructor; [rewrite Hc by done; read_ctl; done..|done].
Qed.

Lemma pickData_reads (o : node) v w :
  reads sel_of v w → ∃ w', pickData o camp w = (Ok tt, w')
    ∧ reads sel_of (at_c FCampId (put_val (n_attr o)) (at_c FCamp (put_val (n_text o)) v)) w'
    ∧ w_glob w' = w_glob w ∧ w_sel w' = w_sel w.
Proof.
  intros R. destruct (set_val_reads sel_of FCamp (n_text o) v w R) as (w1 & E1 & R1 & G1 & S1).
  destruct (set_val_reads sel_of FCampId (n_attr o) _ w1 R1) as (w2 & E2 & R2 & G2 & S2).
  exists w2. split; [|split; [done|split; congruence]]. unfold pickData.
  change camp with (sel_of FCamp). by rewrite (bind_ok _ _ _ _ _ E1).
Qed.

Lemma camp_pick_simulates o a w :
  form_on a w → sound a → offered (PickCamp o) →
  ∃ w', does (PickCamp o) w = (Ok tt, w') ∧ form_on (step a (PickCamp o)) w'.
Proof.
  intros H Hs Ho. rewrite (user_enabled a) by done. cbn [control_of handle]. unfold abs_act.
  case_bool_decide as Hw; [by exists w|]. unfold disPeriod.
  destruct (fo_looks _ _ H) as (v & R & Ag).
  destruct (pickData_reads o v w R) as (w1 & E1 & R1 & G1 & S1).
  change (js "#camp") with camp. rewrite (bind_ok _ _ _ _ _ E1).
  assert (val (js "#campId") w1 = (Ok (VStr (n_attr o)), w1)) as E.
  { rewrite (val_alias _ (hidden camp)) by (rewrite !(found_sel _ w w1) by done; apply H).
    change (hidden camp) with (sel_of FCampId). rewrite (val_reads sel_of _ w1 _ R1). by read_ctl. }
  rewrite (bind_ok _ _ _ _ _ E). rewrite bool_decide_eq_false_2 by (intros [=]; by apply Ho). cbn [negb when].
  destruct (set_disabled_reads sel_of (FWay Plan) true _ w1 R1) as (w2 & E2 & R2 & G2 & S2).
  match goal with |- context [set_disabled ?s true] => assert (set_disabled (G := task) s true w1 = (Ok tt, w2)) as E2' end.
  { rewrite <-E2. unfold set_disabled, on, modify. rewrite !(found_sel _ w w1) by done.
    rewrite (fo_planbox _ _ H). reflexivity. }
  cbv zeta. rewrite (bind_ok _ _ _ _ _ E2').
  match goal with |- context [addClass ?s ?c w2] =>
    destruct (calm_reads sel_of _ _ w2 (class_calm s true) R2) as ([] & w3 & E3 & R3 & G3 & S3) end.
  exists w3. split; [exact E3|].
  eapply form_on_step; [exact H|exact R3| |congruence|done|..].
  2,3: rewrite G3, G2, G1; apply H.
  eapply camp_agrees; [exact Ag| |].
  - intros c. destruct c; try (left; read_ctl; done). right. by eexists.
  - intros r. cbn [offers has_camp with_camp f_camp snd f_inc f_now].
    destruct r; read_ctl; rewrite (ag_radio _ _ Ag); cbn [offers put_dis l_val l_chk]; try done.
    change (has_camp (with_camp (n_text o, n_attr o) a)) with (negb (bool_decide (n_attr o = []))).
    by rewrite (bool_decide_eq_false_2 (n_attr o = []) Ho).
Qed.

Lemma camp_key_simulates code a w :
  form_on a w → sound a →
  ∃ w', does (KeyCamp code) w = (Ok tt, w') ∧ form_on (step a (KeyCamp code)) w'.
Proof.
  intros H Hs. rewrite (user_enabled a) by done. cbn [control_of handle]. unfold abs_act, camp_keydown.
  destruct (bool_decide (f_way a = Plan)) eqn:Hw; cbn [negb]; [rewrite andb_false_r; by exists w|].
  rewrite andb_true_r. destruct (code =? 8); [|by exists w]. cbn [when].
  destruct (fo_looks _ _ H) as (v & R & Ag).
  destruct (pickData_reads (Node [] VUndef []) v w R) as (w1 & E1 & R1 & G1 & S1).
  cbn [n_attr n_text] in R1. unfold pickData in E1. cbn [n_attr n_text] in E1.
  assert (∀ s t, found s w = found t w → found s w1 = found t w1) as Hal.
  { intros s t. by rewrite !(found_sel _ w w1) by congruence. }
  destruct (testSendCode_reads _ w1 (Hal _ _ (fo_incid _ _ H)) (Hal _ _ (fo_campid _ _ H)) R1)
    as (w2 & E2 & R2 & G2 & S2).
  exists w2. split.
  { rewrite (bind_ok _ _ w true w2); [done|]. rewrite (bind_ok _ _ w tt w2); [done|].
    rewrite <-bind_assoc. erewrite bind_ok; [exact E2|exact E1]. }
  eapply form_on_step; [exact H|exact R2| |congruence|done|..].
  2,3: rewrite G2, G1; apply H.
  eapply camp_agrees; [exact Ag| |].
  - intros c. destruct c; try (left; read_ctl; done). right. by eexists.
  - intros r. apply (radios_agree (with_camp ([], []) a)).
    + intros q. destruct q; read_ctl; rewrite (ag_radio _ _ Ag); done.
    + read_ctl. by rewrite (ag_radio _ _ Ag).
    + unfold camp_in, has_camp. by read_ctl.
    + unfold file_in. read_ctl. rewrite (ag_incid _ _ Ag), <-indexOf_contains. apply exported_file, Hs.
Qed.

(** *** The way of sending *)

Lemma tick_reads r v w :
  reads sel_of v w →
  ∃ w', tick r w = (Ok tt, w')
    ∧ reads sel_of (at_c (FWay Plan) (put_chk (bool_decide (Plan = r)))
        (at_c (FWay Schedule) (put_chk (bool_decide (Schedule = r)))
        (at_c (FWay Current) (put_chk (bool_decide (Current = r))) v))) w'
    ∧ w_glob w' = w_glob w ∧ found ticked w' = found (radio r) w
    ∧ ∀ s, s ≠ ticked → found s w' = found s w.
Proof.
  intros R. unfold tick. cbn [for_each].
  assert (∀ q b v0 w0, reads sel_of v0 w0 → ∃ w1, set_checked (radio q) b w0 = (Ok tt, w1)
    ∧ reads sel_of (at_c (FWay q) (put_chk b) v0) w1 ∧ w_glob w1 = w_glob w0 ∧ w_sel w1 = w_sel w0) as Hset.
  { intros q b v0 w0 R0. eexists. split; [reflexivity|]. split; [|done]. by apply (on_reads sel_of (FWay q)). }
  destruct (Hset Current (bool_decide (Current = r)) v w R) as (w1 & E1 & R1 & G1 & S1).
  destruct (Hset Schedule (bool_decide (Schedule = r)) _ w1 R1) as (w2 & E2 & R2 & G2 & S2).
  destruct (Hset Plan (bool_decide (Plan = r)) _ w2 R2) as (w3 & E3 & R3 & G3 & S3).
  eexists. split.
  { rewrite (bind_ok _ _ w tt w3); [reflexivity|].
    rewrite (bind_ok _ _ _ _ _ E1), (bind_ok _ _ _ _ _ E2), (bind_ok _ _ _ _ _ E3). done. }
  assert (∀ s, found s w3 = found s w) as Hw3 by (intros s; apply found_sel; congruence).
  assert (∀ s, s ≠ ticked → found s (World (<[ticked:=found (radio r) w3]> (w_sel w3)) (w_elt w3) (w_box w3)
    (w_win w3) (w_ui w3) (w_ev w3) (w_now w3) (w_glob w3)) = found s w3) as Hne.
  { intros s Hs. unfold found. cbn [w_sel]. by rewrite lookup_insert_ne. }
  assert (∀ c, sel_of c ≠ ticked) as Hc by (intros [| | | | | | |[]]; vm_compute; congruence).
  split; [|split; [cbn; congruence|split]].
  - destruct R3 as [[P1 P2] L]. constructor; [constructor|].
    + intros c. destruct (P1 c) as (i & e & F & He). exists i, e. split; [by rewrite Hne|done].
    + intros c d Hcd i. rewrite !Hne by done. by apply P2.
    + intros c. rewrite <-L. unfold first. rewrite Hne by done. done.
  - unfold found at 1. cbn [w_sel]. rewrite lookup_insert_eq. cbn. apply Hw3.
  - intros s Hs. by rewrite Hne.
Qed.

Lemma way_strings r :
  is_str (VStr (way_name r)) "schedule" = bool_decide (r = Schedule)
  ∧ is_str (VStr (way_name r)) "plan" = bool_decide (r = Plan).
Proof. destruct r; vm_compute; done. Qed.

(** The time is shown with the scheduled way, and emptied with the others. *)
Lemma job_shown (b : bool) v w :
  reads sel_of v w →
  ∃ w1, (if b then show (js "#jobTime") else set_val (js "#jobTime") [] ;; hide (js "#jobTime")) w = (Ok tt, w1)
    ∧ reads sel_of (if b then v else at_c FJob (put_val []) v) w1 ∧ w_glob w1 = w_glob w ∧ w_sel w1 = w_sel w.
Proof.
  intros R. destruct b.
  - destruct (calm_reads sel_of _ _ w (calm_on (js "#jobTime") (with_shown true) (λ _, eq_refl)) R) as ([] & w1 & H1).
    by exists w1.
  - destruct (set_val_reads sel_of FJob [] v w R) as (w1 & E1 & R1 & G1 & S1).
    destruct (calm_reads sel_of _ _ w1 (calm_on (sel_of FJob) (with_shown false) (λ _, eq_refl)) R1)
      as ([] & w2 & E2 & R2 & G2 & S2).
    exists w2. change (js "#jobTime") with (sel_of FJob). rewrite (bind_ok _ _ _ _ _ E1).
    split; [exact E2|]. split; [exact R2|split; congruence].
Qed.

(** No campaign goes with the periodic way. *)
Lemma camp_closed (b : bool) v w :
  reads sel_of v w →
  let label := js "#camp.closest('tr').find('td:first-child')" in
  ∃ w1, (if b then set_disabled (js "#camp") true ;; addClass label (js "f666") ;; show (js "#periodOption")
         else set_disabled (js "#camp") false ;; removeClass label (js "f666") ;; hide (js "#periodOption")) w
        = (Ok tt, w1)
    ∧ reads sel_of (at_c FCamp (put_dis b) v) w1 ∧ w_glob w1 = w_glob w ∧ w_sel w1 = w_sel w.
Proof.
  intros R label. destruct (set_disabled_reads sel_of FCamp b v w R) as (w1 & E1 & R1 & G1 & S1).
  assert (∀ k, calm (on (G := task) (js "#periodOption") (with_shown k))) as Hs by (intros k; by apply calm_on).
  destruct (calm_reads sel_of _ _ w1 (class_calm label b) R1) as ([] & w2 & E2 & R2 & G2 & S2).
  destruct (calm_reads sel_of _ _ w2 (Hs b) R2) as ([] & w3 & E3 & R3 & G3 & S3).
  exists w3. split; [|split; [exact R3|split; congruence]].
  destruct b; rewrite (bind_ok (set_disabled (js "#camp") _) _ _ _ _ E1), (bind_ok _ _ _ _ _ E2); exact E3.
Qed.

Lemma sendCode_change_reads r v w :
  found ticked w = found (radio r) w → l_val (v (FWay r)) = way_name r → reads sel_of v w →
  ∃ w', sendCode_change w = (Ok tt, w')
    ∧ reads sel_of (at_c FCamp (put_dis (bool_decide (r = Plan)))
        (if bool_decide (r = Schedule) then v else at_c FJob (put_val []) v)) w'
    ∧ w_glob w' = w_glob w ∧ w_sel w' = w_sel w.
Proof.
  intros Ht Hv R. unfold sendCode_change.
  assert (val ticked w = (Ok (VStr (way_name r)), w)) as E.
  { rewrite (val_alias _ _ _ Ht). change (radio r) with (sel_of (FWay r)). by rewrite (val_reads sel_of v w _ R), Hv. }
  rewrite (bind_ok _ _ _ _ _ E).
  destruct (way_strings r) as [-> ->].
  set (v1 := if bool_decide (r = Schedule) then v else at_c FJob (put_val []) v).
  assert (∃ w1, (if bool_decide (r = Schedule) then show (js "#jobTime")
      else set_val (js "#jobTime") [] ;; hide (js "#jobTime")) w = (Ok tt, w1)
    ∧ reads sel_of v1 w1 ∧ w_glob w1 = w_glob w ∧ w_sel w1 = w_sel w) as (w1 & E1 & R1 & G1 & S1).
  { apply job_shown, R. }
  rewrite (bind_ok _ _ _ _ _ E1).
  destruct (camp_closed (bool_decide (r = Plan)) v1 w1 R1) as (w2 & E2 & R2 & G2 & S2).
  exists w2. split; [exact E2|]. split; [exact R2|]. split; congruence.
Qed.

Lemma tick_agrees r a v :
  agrees a v →
  agrees (with_way r (if bool_decide (r = Schedule) then f_job a else []) a)
    (at_c FCamp (put_dis (bool_decide (r = Plan)))
      ((λ v1, if bool_decide (r = Schedule) then v1 else at_c FJob (put_val []) v1)
        (at_c (FWay Plan) (put_chk (bool_decide (Plan = r)))
        (at_c (FWay Schedule) (put_chk (bool_decide (Schedule = r)))
        (at_c (FWay Current) (put_chk (bool_decide (Current = r))) v))))).
Proof.
  intros [? ? ? ? ? ? ? ? ? Hj ? Hr].
  assert (∀ q, offers (with_way r (if bool_decide (r = Schedule) then f_job a else []) a) q = offers a q) as Ho
    by (by intros []).
  constructor; try (case_bool_decide; read_ctl; done).
  intros q. rewrite Ho. cbn [f_way with_way].
  assert (∀ v1, at_c FCamp (put_dis (bool_decide (r = Plan)))
            (if bool_decide (r = Schedule) then v1 else at_c FJob (put_val []) v1) (FWay q) = v1 (FWay q)) as ->.
  { intros v1. case_bool_decide; by read_ctl. }
  destruct q; read_ctl; by rewrite Hr.
Qed.

Lemma tick_simulates r a w :
  form_on a w → sound a → ∃ w', does (Tick r) w = (Ok tt, w') ∧ form_on (step a (Tick r)) w'.
Proof.
  intros H Hs. rewrite (user_enabled a) by done. cbn [control_of handle]. unfold abs_act.
  destruct (offers a r) eqn:Ho; cbn [negb]; [|by exists w].
  destruct (fo_looks _ _ H) as (v & R & Ag). pose proof (ag_radio _ _ Ag) as Hr.
  destruct (tick_reads r v w R) as (w1 & E1 & R1 & G1 & T1 & S1).
  rewrite (bind_ok _ _ _ _ _ E1).
  assert (∀ q, radio q ≠ ticked) as Hq by (intros []; vm_compute; congruence).
  destruct (λ X Y, sendCode_change_reads r _ w1 X Y R1) as (w2 & E2 & R2 & G2 & S2).
  { rewrite T1. by rewrite S1. }
  { destruct r; read_ctl; by rewrite Hr. }
  exists w2. split; [exact E2|]. constructor.
  all: rewrite ?(found_sel _ _ _ S2), ?G2, ?G1, ?T1, ?S1 by (try apply Hq; vm_compute; congruence).
  2-8: try apply H; done.
  eexists. split; [exact R2|]. by apply tick_agrees.
Qed.

Lemma time_simulates t a w :
  form_on a w → ∃ w', does (Time t) w = (Ok tt, w') ∧ form_on (step a (Time t)) w'.
Proof.
  intros H. rewrite (user_enabled a) by done. cbn [control_of handle]. unfold abs_act.
  destruct (fo_looks _ _ H) as (v & R & Ag).
  assert (checked0 schedule w = (Ok (bool_decide (f_way a = Schedule)), w)) as E.
  { change schedule with (sel_of (FWay Schedule)). rewrite (checked0_reads sel_of v w _ R), (ag_radio _ _ Ag).
    cbn [l_chk]. do 2 f_equal. by apply bool_decide_ext. }
  rewrite (bind_ok _ _ _ _ _ E). case_bool_decide as Hw; cbn [when]; [|by exists w].
  destruct (set_val_reads sel_of FJob t v w R) as (w1 & E1 & R1 & G1 & S1).
  exists w1. split; [exact E1|].
  eapply form_on_step; [exact H|exact R1| |done|by rewrite Hw|..]; [|rewrite G1; apply H..].
  destruct Ag as [? ? ? ? ? ? ? ? Hc ? ? Hr]. constructor; try (read_ctl; done).
  - read_ctl. by rewrite Hc, Hw.
  - intros r. read_ctl. rewrite Hr. destruct r; cbn; by rewrite Hw.
Qed.

Lemma act_simulates e a w :
  form_on a w → sound a → offered e →
  ∃ w', does e w = (Ok tt, w') ∧ form_on (step a e) w' ∧ sound (step a e).
Proof.
  intros H Hs Ho. assert (∃ w', does e w = (Ok tt, w') ∧ form_on (step a e) w') as (w' & E & F).
  { destruct e; eauto using include_pick_simulates, exclude_pick_simulates, camp_pick_simulates,
      tick_simulates, time_simulates, include_key_simulates, exclude_key_simulates, camp_key_simulates. }
  exists w'. split; [done|]. split; [done|]. by apply act_sound.
Qed.

Lemma form_args a w :
  form_on a w → select_args w = [(js "includeIds", id_text (f_inc a)); (js "excludeIds", exc_ids a)].
Proof.
  intros H. destruct (fo_looks _ _ H) as (v & R & Ag). unfold select_args.
  assert (∀ s t, found s w = found t w → val_of s w = val_of t w) as Hal.
  { intros s t E. unfold val_of, first. by rewrite E. }
  rewrite (Hal _ _ (fo_incid _ _ H)), (Hal _ _ (fo_excid _ _ H)).
  change (hidden include) with (sel_of FIncId). change (hidden exclude) with (sel_of FExcId).
  rewrite !(reads_val sel_of v w _ R), (ag_incid _ _ Ag), (ag_excid _ _ Ag). done.
Qed.

(** *** The page as it is loaded *)

(** The texts and the buttons are those of the form; no flag is set yet. *)
Record loaded (a : form) (v : looks) : Prop := {
  ld_inc : l_val (v FInc) = title_text (f_inc a);
  ld_incid : l_val (v FIncId) = id_text (f_inc a);
  ld_free : l_dis (v FInc) = false;
  ld_exc : l_val (v FExc) = exc_title a;
  ld_excid : l_val (v FExcId) = exc_ids a;
  ld_excdis : l_dis (v FExc) = false;
  ld_camp : l_val (v FCamp) = fst (f_camp a);
  ld_campid : l_val (v FCampId) = snd (f_camp a);
  ld_campdis : l_dis (v FCamp) = bool_decide (f_way a = Plan);
  ld_job : l_val (v FJob) = f_job a;
  ld_jobdis : l_dis (v FJob) = false;
  ld_radio : ∀ r, l_val (v (FWay r)) = way_name r ∧ l_chk (v (FWay r)) = bool_decide (r = f_way a);
  ld_now : l_dis (v (FWay Current)) = negb (f_now a)
}.

Lemma loaded_agrees a v :
  Forall marked (f_inc a) → loaded a v → agrees a (at_c FExc (put_dis (has_file (f_inc a))) (send_flags v)).
Proof.
  intros Hm [? Hi ? ? ? ? ? Hc ? ? ? Hr Hn]. constructor; try (read_ctl; done).
  intros r. rewrite at_ctl_ne by done. apply radios_agree; [done|done|..].
  - unfold camp_in, has_camp. by rewrite Hc.
  - unfold file_in. rewrite Hi, <-indexOf_contains. by apply exported_file.
Qed.
End events.

(** ** Properties *)

(** C2 -- Any sequence of what the user does on the form of a task (picking and
    erasing tags, tags left out and the campaign, choosing the way of sending
    and its time) runs without exception and implements the abstract form: the
    fields, the arrays and the disabled controls are those of [abs_acts], and
    that form never holds two things that exclude each other: a file goes with
    nothing else, no left out tags and no schedule or plan, a campaign with no
    plan, a time with the scheduled way only.  What [getAjaxSum] would then send
    are the ids of the abstract form. *)
Theorem task_session incl excl es a (w : world task) :
  form_on a w → sound a → Forall offered es →
  let a' := abs_acts incl excl a es in
  ∃ w', for_each es (user incl excl) w = (Ok tt, w') ∧ form_on a' w' ∧ sound a'
    ∧ select_args w' = [(js "includeIds", id_text (f_inc a')); (js "excludeIds", exc_ids a')].
Proof.
  cbv zeta. revert a w. induction es as [|e es IH]; intros a w H Hs Ho.
  - exists w. split; [done|]. split; [done|]. split; [done|]. by apply form_args.
  - apply Forall_cons in Ho as [He Ho].
    destruct (act_simulates incl excl e a w H Hs He) as (w1 & E1 & H1 & S1).
    destruct (IH _ w1 H1 S1 Ho) as (w' & E & R). exists w'. split; [|exact R].
    cbn [for_each]. by rewrite (bind_ok _ _ _ _ _ E1).
Qed.

(** The scripts that run when the page is loaded ([testSendCode], and the end of
    [initTag]) set the flags the session starts from. *)
Theorem load_establishes a v (w : world task) :
  reads sel_of v w → loaded a v → Forall marked (f_inc a) →
  sub_get include (w_glob w) = Some (f_inc a) → sub_get exclude (w_glob w) = Some (f_exc a) →
  found ticked w = found (radio (f_way a)) w → found (js "#includeId") w = found (hidden include) w →
  found (js "#excludeId") w = found (hidden exclude) w → found (js "#campId") w = found (hidden camp) w →
  found (js "input[name=sendCode][value=plan]") w = found plan w →
  ∃ w', (testSendCode ;; initTag_end) w = (Ok tt, w') ∧ form_on a w'.
Proof.
  intros R L Hm Hi He Ht Hii Hei Hci Hp.
  destruct (testSendCode_reads v w Hii Hci R) as (w1 & E1 & R1 & G1 & S1). rewrite (bind_ok _ _ _ _ _ E1).
  unfold initTag_end. change (js "#include") with include.
  rewrite (bind_ok _ _ w1 (f_inc a) w1) by (apply subArr_ok; by rewrite G1).
  rewrite findArrItem_found. change (λ it, loose_eq (at_ 2 it) (VStr (js "file"))) with is_file.
  fold (has_file (f_inc a)).
  assert (∃ w2, when (has_file (f_inc a)) (set_disabled (js "#exclude") true) w1 = (Ok tt, w2)
    ∧ reads sel_of (at_c FExc (put_dis (has_file (f_inc a))) (send_flags v)) w2
    ∧ w_glob w2 = w_glob w1 ∧ w_sel w2 = w_sel w1) as (w2 & E2 & R2 & G2 & S2).
  { destruct (has_file (f_inc a)); [exact (set_disabled_reads sel_of FExc true _ w1 R1)|].
    exists w1. split; [done|]. split; [|done]. eapply reads_ext; [|exact R1]. intros c.
    destruct (decide (c = FExc)) as [->|H]; [|by rewrite at_ctl_ne].
    read_ctl. pose proof (ld_excdis _ _ L) as D. destruct (v FExc); cbn in *. by rewrite D. }
  exists w2. split; [exact E2|].
  constructor; rewrite ?(found_sel _ w w2) by congruence; rewrite ?(found_sel _ w w2) by congruence; try done.
  - eexists. split; [exact R2|]. by apply loaded_agrees.
  - by rewrite G2, G1.
  - by rewrite G2, G1.
Qed.

(** ** A page to try them on *)

Definition demo_form : form := Form [] [] false ([], []) Current [] true.
Definition demo_ways (r : way) : elt := with_checked (bool_decide (r = Current)) (with_val (way_name r) blank).
Definition demo_task : world task :=
  page [(include, [0]); (hidden include, [1]); (js "#includeId", [1]); (exclude, [2]); (hidden exclude, [3]);
        (js "#excludeId", [3]); (camp, [4]); (hidden camp, [5]); (js "#campId", [5]); (js "#jobTime", [6]);
        (radio Current, [7]); (radio Schedule, [8]); (radio Plan, [9]);
        (js "input[name=sendCode][value=plan]", [9]); (ticked, [7])]%nat
       ((λ l, l ++ [(7, demo_ways Current); (8, demo_ways Schedule); (9, demo_ways Plan)]%nat)
          (List.map (λ i, (i, blank)) (seq 0 7)))
       (Task (list_to_map [(include, []); (exclude, [])]) [] [] [] [] [] [] []).

Definition demo_vec (c : ctl) : look :=
  match c with FWay r => Look (way_name r) false (bool_decide (r = Current)) | _ => Look [] false false end.
Lemma demo_reads : reads sel_of demo_vec demo_task.
Proof.
  constructor; [constructor|].
  - intros [| | | | | | |[]]; on_page.
  - intros [| | | | | | |[]] [| | | | | | |[]] H; try done; on_page.
  - intros [| | | | | | |[]]; vm_compute; reflexivity.
Qed.
Lemma demo_form_on : form_on demo_form demo_task.
Proof.
  constructor; [|on_page..]. exists demo_vec. split; [apply demo_reads|].
  constructor; try done. by intros [].
Qed.
Lemma demo_sound : sound demo_form.
Proof. apply sound_intro; [|done..]. split; [split; constructor|]. split; [done|constructor]. Qed.

Definition demo_file : act := PickInclude (Node (js "EXPORT1") (VStr (js "EXPORT1")) (js "f.txt")) (VStr (js "file")).
Definition demo_tag (i t : string) : node := Node (js i) (VStr (js i)) (js t).
Definition demo_acts : list act :=
  [PickExclude (demo_tag "b" "B"); demo_file; Tick Plan; PickInclude (demo_tag "a" "A") VUndef;
   Tick Plan; PickCamp (demo_tag "k" "K"); PickExclude (demo_tag "c" "C")].

(** A file, then a tag: the plan is refused while the file is there, and the
    campaign while there is a plan; the tags left out before the file was
    picked come back with the next one. *)
Lemma task_session_witness :
  ∃ w', for_each demo_acts (user None None) demo_task = (Ok tt, w')
    ∧ select_args w' = [(js "includeIds", js "a"); (js "excludeIds", js "b,c")]
    ∧ f_way (abs_acts None None demo_form demo_acts) = Plan
    ∧ f_camp (abs_acts None None demo_form demo_acts) = ([], []).
Proof.
  destruct (task_session None None demo_acts demo_form demo_task demo_form_on demo_sound)
    as (w' & E & _ & _ & S).
  - repeat constructor; vm_compute; congruence.
  - exists w'. split; [exact E|]. split; [rewrite S; vm_compute; reflexivity|]. split; vm_compute; reflexivity.
Defined.
