(* ===== verification/Pool.v ===== *)
(** * Rows that share a pool of properties -- [datasource.recipient.add.js],
    [step.2.import.js], [datasource.selection.import.js]

    Each row of a table names one property through a drop-down list; a
    property is named once at most: what a row names is taken out of the pool
    all the lists offer, and comes back when the row names something else or
    is deleted. *)

From S2P Require Import Prelude Js JsFacts.
From Stdlib Require Import Sorting.Permutation.
#[local] Open Scope Z_scope.

(** ** The rows and the pool *)

(** A property: its key and its title. *)
Abbreviation property := (jstr * jstr)%type.
(** A row: the hidden value, the text of the link, the parameter, and the menu
    its [UIselect] holds ([data('edit').html]); [None]: none is attached. *)
Record row := Row { r_val : jstr; r_text : jstr; r_param : jstr; r_menu : option jstr }.
Record pool := Pool {
  props : list property;
  rows : list row;
  len : Z;
  total : Z;
  select_id : jstr;        (* the shared [.select_div] *)
  select_shown : bool
}.

Definition unset : jstr := js "请选择".
Definition real (t : jstr) : bool := negb (bool_decide (t = [])) && negb (bool_decide (t = unset)).

(** The menu of row [i]; [fn] is the handler of the page. *)
Definition menu_line (fn : jstr) (i : Z) (p : property) : jstr :=
  jsq "<li><a hidefocus=`true` onclick=`" ++ fn ++ js "('#prop_" ++ str_of_Z i ++ js "','" ++ fst p
  ++ js "','#prop_list_" ++ str_of_Z i ++ js "','" ++ snd p
  ++ jsq "')` href=`javascript:void(0)`>" ++ snd p ++ js "</a></li>".
Definition menu_html (fn : jstr) (i : Z) (ps : list property) : jstr :=
  js "<ul>" ++ concat (List.map (menu_line fn i) ps) ++ js "</ul>".

(** [for(i=0;i<len;i++) $("#prop_list_"+i).data('edit').html=...]: throws on a
    row that has no list. *)
Fixpoint set_menus (fn : jstr) (i : Z) (n : nat) (ps : list property) (l : list row) : option (list row) :=
  match n, l with
  | O, _ => Some l
  | S n', r :: l' =>
      match r_menu r with
      | Some _ => cons (Row (r_val r) (r_text r) (r_param r) (Some (menu_html fn i ps)))
                    <$> set_menus fn (i + 1) n' ps l'
      | None => None
      end
  | S _, [] => None
  end.

(** [$(sel).UIselect({html:..})] on the rows from [i] on. *)
Fixpoint attach_menus (fn : jstr) (i : Z) (ps : list property) (l : list row) : list row :=
  match l with
  | [] => []
  | r :: l' => Row (r_val r) (r_text r) (r_param r) (Some (menu_html fn i ps)) :: attach_menus fn (i + 1) ps l'
  end.

(** ** Operations *)

(** [props_list()], [import_props_list()]: the lists of the rows on the page. *)
Definition props_list (fn : jstr) (p : pool) : pool :=
  let n := Z.of_nat (length (rows p)) in
  Pool (props p) (attach_menus fn 0 (props p) (rows p)) n (n + Z.of_nat (length (props p)))
    (select_id p) (select_shown p).
Definition import_props_list (fn : jstr) (p : pool) : pool :=
  Pool (props p) (attach_menus fn 0 (props p) (rows p)) (Z.of_nat (length (rows p))) (total p)
    (select_id p) (select_shown p).

Definition give_back (r : row) (ps : list property) : list property :=
  if real (r_text r) then ps ++ [(r_val r, r_text r)] else ps.
Definition take_out (title : jstr) (ps : list property) : list property :=
  splice_scan (λ q, bool_decide (snd q = title) && negb (bool_decide (title = unset))) ps.

(** [repeat('#prop_i',val_hide,'#prop_list_i',val_click)], [im_repeat] *)
Definition repeat (fn : jstr) (i : nat) (val_hide val_click : jstr) (p : pool) : option pool :=
  let old := nth i (rows p) (Row [] [] [] None) in
  let ps := take_out val_click (give_back old (props p)) in
  l ← set_menus fn 0 (Z.to_nat (len p)) ps (rows p);
  let l' := alter (λ r, Row val_hide val_click (r_param r) (r_menu r)) i l in
  Some (Pool ps l' (len p) (total p) [] false).

(** [add_prop()]: a new row, or the message that refuses it. *)
Definition add_prop (fn : jstr) (p : pool) : pool * option jstr :=
  if total p <=? len p + 1
  then (p, Some (js "自定义信息不能多于" ++ str_of_Z (total p - 1) ++ js "个"))
  else (Pool (props p) (rows p ++ [Row [] unset [] (Some (menu_html fn (len p) (props p)))])
          (len p + 1) (total p) (select_id p) (select_shown p), None).

(** [del_prop(id)]: the row goes, the others are numbered again. *)
Definition del_prop (fn : jstr) (i : nat) (p : pool) : option pool :=
  let old := nth i (rows p) (Row [] [] [] None) in
  let ps := give_back old (props p) in
  let n := len p - 1 in
  l ← set_menus fn 0 (Z.to_nat n) ps (delete i (rows p));
  Some (Pool ps l n (total p) (select_id p) (select_shown p)).

(** ** What the user does *)

(** Choosing the [j]-th line of the menu of row [i]. *)
Inductive deed := Choose (i j : nat) | Add | Del (i : nat).
Definition deed_ok (d : deed) (p : pool) : bool :=
  match d with
  | Choose i j => (i <? length (rows p))%nat && (j <? length (props p))%nat
  | Add => true
  | Del i => (i <? length (rows p))%nat
  end.
Definition do_deed (fn : jstr) (d : deed) (p : pool) : option pool :=
  match d with
  | Choose i j => let c := nth j (props p) ([], []) in repeat fn i (fst c) (snd c) p
  | Add => Some (fst (add_prop fn p))
  | Del i => del_prop fn i p
  end.
(** A deed the page does not offer is not done. *)
Definition do_deeds (fn : jstr) (ds : list deed) (p : pool) : option pool :=
  List.fold_left (λ o d, p ← o; if deed_ok d p then do_deed fn d p else Some p) ds (Some p).

(** ** Facts *)

Section facts.
Context (fn : jstr).
Implicit Types (p : pool) (ps : list property) (l : list row).

(** What the rows name. *)
Definition named l : list property :=
  List.filter (λ q, real (snd q)) (List.map (λ r, (r_val r, r_text r)) l).

(** Every property is in the pool or named by one row, and every menu offers
    the pool. *)
Record pool_ok (all : list property) p : Prop := {
  po_all : props p ++ named (rows p) ≡ₚ all;
  po_len : len p = Z.of_nat (length (rows p));
  po_menus : ∀ i r, rows p !! i = Some r → r_menu r = Some (menu_html fn (Z.of_nat i) (props p))
}.

Lemma set_menus_ok i ps l :
  (∀ r, r ∈ l → is_Some (r_menu r)) →
  set_menus fn i (length l) ps l = Some (attach_menus fn i ps l).
Proof.
  revert i. induction l as [|r l IH]; intros i H; [done|]. cbn [set_menus length attach_menus].
  destruct (H r) as [m ->]; [apply elem_of_cons; by left|].
  rewrite IH; [done|]. intros r' Hr. apply H, elem_of_cons. by right.
Qed.

Lemma attach_lookup i ps l k :
  attach_menus fn i ps l !! k
  = (λ r, Row (r_val r) (r_text r) (r_param r) (Some (menu_html fn (i + Z.of_nat k) ps))) <$> l !! k.
Proof.
  revert i k. induction l as [|r l IH]; intros i k; [done|].
  destruct k as [|k]; cbn [attach_menus]; [by rewrite Z.add_0_r|].
  change ((?x :: ?y) !! S k) with (y !! k). rewrite IH. replace (i + 1 + Z.of_nat k) with (i + Z.of_nat (S k)) by lia. done.
Qed.

Lemma attach_named i ps l : named (attach_menus fn i ps l) = named l.
Proof.
  unfold named. revert i. induction l as [|r l IH]; intros i; [done|].
  cbn [attach_menus List.map List.filter r_val r_text snd]. by rewrite IH.
Qed.

Lemma attach_length i ps l : length (attach_menus fn i ps l) = length l.
Proof. revert i. induction l as [|r l IH]; intros i; [done|]. cbn. by rewrite IH. Qed.

Lemma menus_some p : (∀ i r, rows p !! i = Some r → r_menu r = Some (menu_html fn (Z.of_nat i) (props p))) →
  ∀ r, r ∈ rows p → is_Some (r_menu r).
Proof. intros H r [i Hi]%list_elem_of_lookup. rewrite (H i r Hi). by eexists. Qed.

(** *** The pool *)

Definition back (r : row) : list property := if real (r_text r) then [(r_val r, r_text r)] else [].
Lemma give_back_app r ps : give_back r ps = ps ++ back r.
Proof. unfold give_back, back. destruct (real _); [done|]. by rewrite app_nil_r. Qed.

Lemma named_app l k : named (l ++ k) = named l ++ named k.
Proof. unfold named. by rewrite map_app, List.filter_app. Qed.

Lemma named_middle l i r : l !! i = Some r → named l ≡ₚ back r ++ named (delete i l).
Proof.
  intros H. rewrite <-(take_drop_middle l i r H) at 1. rewrite delete_take_drop, !named_app.
  assert (named (r :: drop (S i) l) = back r ++ named (drop (S i) l)) as ->.
  { unfold named, back. cbn [List.map List.filter snd]. by destruct (real (r_text r)). }
  rewrite !app_assoc. apply Permutation_app_tail, Permutation_app_comm.
Qed.

Lemma named_alter l i r v t :
  l !! i = Some r →
  named (alter (λ r, Row v t (r_param r) (r_menu r)) i l)
  ≡ₚ back (Row v t [] None) ++ named (delete i l).
Proof.
  intros H. set (f := λ r, Row v t (r_param r) (r_menu r)).
  assert (alter f i l !! i = Some (f r)) as Ha by (by rewrite list_lookup_alter_eq, H).
  rewrite (named_middle _ _ _ Ha).
  assert (delete i (alter f i l) = delete i l) as ->; [|done].
  rewrite !delete_take_drop. f_equal; [by rewrite take_alter_ge|by rewrite drop_alter_lt by lia].
Qed.

(** Taking out a title the pool has once takes out that property only. *)
Lemma take_out_perm ps c :
  NoDup (List.map snd ps) → c ∈ ps → real (snd c) = true → ps ≡ₚ c :: take_out (snd c) ps.
Proof.
  intros Hn Hc Hr. unfold take_out. assert (snd c ≠ unset) as Hu.
  { unfold real in Hr. by bool_simp. }
  rewrite bool_decide_eq_false_2 by done. cbn [negb].
  rewrite splice_scan_keep.
  - unfold keep. induction ps as [|q ps IH]; [by apply elem_of_nil in Hc|].
    cbn [List.map] in Hn. apply NoDup_cons in Hn as [Hq Hn]. cbn [List.filter].
    rewrite andb_true_r. apply elem_of_cons in Hc as [<-|Hc].
    + rewrite bool_decide_eq_true_2 by done. cbn [negb]. apply Permutation_cons; [done|].
      clear IH Hn. induction ps as [|q ps IH]; [done|]. cbn [List.filter List.map] in *.
      apply not_elem_of_cons in Hq as [Hq1 Hq2]. rewrite bool_decide_eq_false_2 by congruence.
      cbn. f_equiv. auto.
    + rewrite bool_decide_eq_false_2.
      2: { intros E. apply Hq. rewrite E. apply list_elem_of_In, in_map, list_elem_of_In. done. }
      cbn [negb]. rewrite perm_swap. f_equiv. auto.
  - clear Hc. induction ps as [|q [|q' ps] IH]; [done|done|]. cbn [no_adjacent].
    cbn [List.map] in Hn. apply NoDup_cons in Hn as [Hq Hn]. apply andb_true_iff. split; [|by apply IH].
    rewrite !andb_true_r. apply negb_true_iff, andb_false_iff.
    repeat case_bool_decide; auto. exfalso. apply Hq, elem_of_cons. left. congruence.
Qed.

(** *** Every deed keeps the pool *)

Context (all : list property).
Hypothesis titles_once : NoDup (List.map snd all).
Hypothesis titles_full : Forall (λ q, snd q ≠ []) all.

Lemma perm_titles (l k : list property) : l ≡ₚ k → NoDup (List.map snd k) → NoDup (List.map snd l).
Proof. intros E. by rewrite E. Qed.

Lemma back_titles ps l i r :
  ps ++ named l ≡ₚ all → l !! i = Some r → NoDup (List.map snd (ps ++ back r)).
Proof.
  intros Hp Hi. assert (NoDup (List.map snd ((ps ++ back r) ++ named (delete i l)))) as Hn.
  { eapply perm_titles; [|exact titles_once]. rewrite <-Hp, <-app_assoc.
    by rewrite (named_middle _ _ _ Hi). }
  rewrite map_app in Hn. by apply NoDup_app in Hn as [Hn _].
Qed.

Lemma take_out_unset ps : take_out unset ps = ps.
Proof.
  unfold take_out. apply splice_scan_id, forallb_forall. intros q _.
  rewrite (bool_decide_eq_true_2 (unset = unset)) by done. by rewrite andb_false_r.
Qed.

Lemma not_real_unset t : t ≠ [] → real t = false → t = unset.
Proof.
  unfold real. intros Ht H. destruct (decide (t = unset)) as [?|Hu]; [done|].
  rewrite !bool_decide_eq_false_2 in H by done. done.
Qed.

Lemma set_menus_len n ps p :
  pool_ok all p → n = len p → set_menus fn 0 (Z.to_nat n) ps (rows p) = Some (attach_menus fn 0 ps (rows p)).
Proof.
  intros [_ Hl Hm] ->. rewrite Hl, Nat2Z.id. apply set_menus_ok. by apply menus_some with (p := p).
Qed.

Lemma attach_cut k ps l n :
  named (take n (attach_menus fn k ps l)) = named (take n l)
  ∧ named (drop n (attach_menus fn k ps l)) = named (drop n l).
Proof.
  revert k n. induction l as [|x l IH]; intros k n; [by destruct n|].
  destruct n as [|n]; [split; [done|apply (attach_named k ps (x :: l))]|].
  cbn [attach_menus]. destruct (IH (k + 1) n) as [I1 I2]. split; [|exact I2].
  cbn [take]. unfold named in *. cbn [List.map List.filter r_val r_text snd]. by rewrite I1.
Qed.
Lemma attach_delete k ps l i : named (delete i (attach_menus fn k ps l)) = named (delete i l).
Proof. by rewrite !delete_take_drop, !named_app, (proj1 (attach_cut _ _ _ _)), (proj2 (attach_cut _ _ _ _)). Qed.

(** What a choice moves between the pool and the rows. *)
Lemma choice_perm ps l i r c :
  ps ++ named l ≡ₚ all → l !! i = Some r → c ∈ ps →
  take_out (snd c) (ps ++ back r) ++ back (Row (fst c) (snd c) [] None) ++ named (delete i l) ≡ₚ all.
Proof.
  intros Hp Hi Hc. rewrite <-Hp, (named_middle _ _ _ Hi), !app_assoc.
  apply Permutation_app_tail. destruct (real (snd c)) eqn:Hr; unfold back at 2; cbn [r_text r_val]; rewrite Hr.
  - rewrite Permutation_app_comm. symmetry. etrans; [apply (take_out_perm _ c)|by destruct c].
    + by eapply back_titles.
    + apply elem_of_app. by left.
    + done.
  - rewrite app_nil_r, (not_real_unset (snd c)); [by rewrite take_out_unset| |done].
    rewrite Forall_forall in titles_full. apply titles_full. rewrite <-Hp.
    apply elem_of_app. by left.
Qed.

Lemma repeat_ok p i r c :
  pool_ok all p → rows p !! i = Some r → c ∈ props p →
  ∃ p', repeat fn i (fst c) (snd c) p = Some p' ∧ pool_ok all p' ∧ total p' = total p
    ∧ length (rows p') = length (rows p)
    ∧ ∃ r', rows p' !! i = Some r' ∧ (r_val r', r_text r') = c.
Proof.
  intros Hp Hi Hc. unfold repeat. rewrite (nth_lookup_Some _ _ _ _ Hi), give_back_app.
  set (ps := take_out (snd c) (props p ++ back r)).
  rewrite (set_menus_len _ ps p Hp eq_refl). cbn [mbind option_bind].
  assert (attach_menus fn 0 ps (rows p) !! i
    = Some (Row (r_val r) (r_text r) (r_param r) (Some (menu_html fn (Z.of_nat i) ps)))) as E1
    by (by rewrite attach_lookup, Hi).
  eexists. split; [reflexivity|]. cbn [rows total]. rewrite length_alter, attach_length.
  split; [|split; [done|split; [done|]]].
  - constructor; cbn [props rows len].
    + rewrite (named_alter _ _ _ _ _ E1), attach_delete. apply choice_perm; [apply Hp|done|done].
    + rewrite length_alter, attach_length. apply Hp.
    + intros j r' Hj. rewrite list_lookup_alter, attach_lookup in Hj.
      case_decide; subst; rewrite ?attach_lookup in Hj.
      * rewrite Hi in Hj. by injection Hj as <-.
      * destruct (rows p !! j); [|done]. by injection Hj as <-.
  - rewrite list_lookup_alter_eq, E1. eexists. split; [reflexivity|]. by destruct c.
Qed.

(** The rows after a choice: one of them has another property. *)
Lemma repeat_cols p i r c :
  pool_ok all p → rows p !! i = Some r → c ∈ props p →
  ∃ p', repeat fn i (fst c) (snd c) p = Some p' ∧ pool_ok all p'
    ∧ List.map (λ r, (r_param r, (r_val r, r_text r))) (rows p')
      = alter (λ col, (fst col, c)) i (List.map (λ r, (r_param r, (r_val r, r_text r))) (rows p)).
Proof.
  intros Hp Hi Hc. destruct (repeat_ok p i r c Hp Hi Hc) as (p' & E & Hp' & _). exists p'. split; [done|]. split; [done|].
  revert E. unfold repeat. rewrite (nth_lookup_Some _ _ _ _ Hi), give_back_app.
  rewrite (set_menus_len _ (take_out (snd c) (props p ++ back r)) p Hp eq_refl). cbn [mbind option_bind]. intros [= <-].
  cbn [rows]. apply list_eq. intros j. change (@List.map) with (@fmap list _). rewrite list_lookup_fmap, !list_lookup_alter.
  rewrite !list_lookup_fmap, !attach_lookup.
  destruct (rows p !! i), (rows p !! j), (decide (i = j)); cbn; try done; by destruct c.
Qed.

Lemma add_ok p :
  pool_ok all p →
  pool_ok all (fst (add_prop fn p)) ∧ total (fst (add_prop fn p)) = total p
  ∧ if total p <=? len p + 1 then fst (add_prop fn p) = p
    else len (fst (add_prop fn p)) = len p + 1.
Proof.
  intros Hp. unfold add_prop. destruct (total p <=? len p + 1); [done|]. cbn [fst]. split; [|done].
  destruct Hp as [Ha Hl Hm]. constructor; cbn [props rows len].
  - rewrite named_app. unfold named at 2. cbn. by rewrite app_nil_r.
  - rewrite length_app. cbn. lia.
  - intros i r Hi. apply lookup_app_Some in Hi as [Hi|[Hle Hi]]; [by apply Hm|].
    apply list_lookup_singleton_Some in Hi as [Hz <-]. cbn. rewrite Hl. do 3 f_equal. lia.
Qed.

Lemma del_ok p i r :
  pool_ok all p → rows p !! i = Some r →
  ∃ p', del_prop fn i p = Some p' ∧ pool_ok all p' ∧ total p' = total p ∧ len p' = len p - 1.
Proof.
  intros Hp Hi. unfold del_prop. rewrite (nth_lookup_Some _ _ _ _ Hi), give_back_app.
  pose proof (lookup_lt_Some _ _ _ Hi) as Hlt. pose proof (length_delete (rows p) i ltac:(by eexists)) as Hd.
  pose proof (po_len _ _ Hp) as Hl.
  replace (Z.to_nat (len p - 1)) with (length (delete i (rows p))) by lia.
  rewrite set_menus_ok.
  2: { intros x Hx. eapply menus_some; [apply Hp|]. rewrite delete_take_drop in Hx.
       rewrite <-(take_drop_middle _ _ _ Hi). apply elem_of_app.
       apply elem_of_app in Hx as [?|?]; [by left|right; apply elem_of_cons; by right]. }
  eexists. split; [reflexivity|]. split; [|done]. constructor; cbn [props rows len].
  - rewrite attach_named, <-app_assoc, <-(named_middle _ _ _ Hi). apply Hp.
  - rewrite attach_length. lia.
  - intros j r' Hj. rewrite attach_lookup in Hj. destruct (delete i (rows p) !! j); [|done].
    by injection Hj as <-.
Qed.

Lemma deed_keeps d p :
  pool_ok all p → deed_ok d p = true →
  ∃ p', do_deed fn d p = Some p' ∧ pool_ok all p' ∧ total p' = total p
    ∧ len p' <= Z.max (len p) (total p - 1).
Proof.
  intros Hp Hd. destruct d as [i j| |i]; cbn [do_deed deed_ok] in *.
  - bool_simp. apply Nat.ltb_lt in H, H0.
    destruct (lookup_lt_is_Some_2 _ _ H) as [r Hr]. destruct (lookup_lt_is_Some_2 _ _ H0) as [c Hc].
    rewrite (nth_lookup_Some _ _ _ _ Hc).
    destruct (repeat_ok p i r c Hp Hr) as (p' & E & Hp' & Ht & Hn & _).
    { by eapply list_elem_of_lookup_2. }
    exists p'. repeat split; try done; [apply Hp'..|]. rewrite (po_len _ _ Hp'), (po_len _ _ Hp). lia.
  - eexists. split; [reflexivity|]. destruct (add_ok p Hp) as (H1 & H2 & H3).
    split; [done|]. split; [done|]. destruct (total p <=? len p + 1) eqn:E; [rewrite H3; lia|].
    apply Z.leb_gt in E. lia.
  - apply Nat.ltb_lt in Hd. destruct (lookup_lt_is_Some_2 _ _ Hd) as [r Hr].
    destruct (del_ok p i r Hp Hr) as (p' & E & Hp' & Ht & Hl). exists p'. repeat split; try done; [apply Hp'..|]. lia.
Qed.

Lemma deeds_keep ds p :
  pool_ok all p →
  ∃ p', do_deeds fn ds p = Some p' ∧ pool_ok all p' ∧ total p' = total p
    ∧ len p' <= Z.max (len p) (total p - 1).
Proof.
  unfold do_deeds. revert p. induction ds as [|d ds IH]; intros p Hp.
  - exists p. split; [done|]. split; [done|]. split; [done|]. lia.
  - cbn [List.fold_left mbind option_bind]. destruct (deed_ok d p) eqn:E; [|by apply IH].
    destruct (deed_keeps d p Hp E) as (p1 & -> & H1 & T1 & L1).
    destruct (IH p1 H1) as (p2 & -> & H2 & T2 & L2). exists p2. repeat split; try done; [apply H2..|congruence|lia].
Qed.
End facts.

(** The lists of a fresh page. *)
Lemma props_list_ok fn all p :
  props p ++ named (rows p) ≡ₚ all → pool_ok fn all (props_list fn p) ∧ pool_ok fn all (import_props_list fn p).
Proof.
  intros H. assert (∀ q, props q = props p → rows q = attach_menus fn 0 (props p) (rows p) →
    len q = Z.of_nat (length (rows p)) → pool_ok fn all q) as Hq; [|by split; apply Hq].
  intros q Hps Hr Hl. constructor; rewrite ?Hps, ?Hr.
  - by rewrite attach_named.
  - by rewrite attach_length.
  - intros i r Hi. rewrite attach_lookup in Hi. destruct (rows p !! i); [|done]. by injection Hi as <-.
Qed.

(** C10 -- Whatever rows the user adds, deletes and fills in, no step throws, every
    property stays in the pool or in exactly one row, every menu offers exactly
    the pool, and there are never more rows than the page allows. *)
Theorem pool_never_loses fn all ds p :
  NoDup (List.map snd all) → Forall (λ q, snd q ≠ []) all → pool_ok fn all p →
  ∃ p', do_deeds fn ds p = Some p'
    ∧ props p' ++ named (rows p') ≡ₚ all
    ∧ NoDup (List.map snd (named (rows p')))
    ∧ (∀ i r, rows p' !! i = Some r → r_menu r = Some (menu_html fn (Z.of_nat i) (props p')))
    ∧ Z.of_nat (length (rows p')) <= Z.max (len p) (total p - 1).
Proof.
  intros Hn Hf Hp. destruct (deeds_keep fn all Hn Hf ds p Hp) as (p' & E & [Ha Hl Hm] & _ & Hb).
  exists p'. split; [done|]. split; [done|]. split; [|split; [done|by rewrite <-Hl]].
  pose proof (perm_titles _ _ Ha Hn) as H. rewrite map_app in H. by apply NoDup_app in H as (_ & _ & H).
Qed.

(** A table of one row over two properties. *)
Definition demo_props : list property := [([], unset); (js "p1", js "颜色"); (js "p2", js "城市")].
Definition demo_pool : pool := props_list (js "repeat") (Pool demo_props [Row [] unset [] None] 0 0 [] false).

Lemma pool_never_loses_witness :
  pool_ok (js "repeat") demo_props demo_pool ∧
  ∃ p', do_deeds (js "repeat") [Add; Choose 0 1; Choose 1 1; Add; Del 0] demo_pool = Some p'
    ∧ props p' ++ named (rows p') ≡ₚ demo_props
    ∧ named (rows p') = [(js "p2", js "城市")].
Proof.
  assert (pool_ok (js "repeat") demo_props demo_pool) as H by (apply props_list_ok; vm_compute; reflexivity).
  split; [exact H|].
  destruct (pool_never_loses (js "repeat") demo_props [Add; Choose 0 1; Choose 1 1; Add; Del 0] demo_pool)
    as (p' & E & P & _).
  - vm_compute. repeat constructor; not_in.
  - vm_compute. by repeat constructor.
  - exact H.
  - exists p'. split; [exact E|]. split; [exact P|]. vm_compute in E. injection E as <-. reflexivity.
Defined.
