(* ===== verification/Import.v ===== *)
(** * Importing and exporting recipients -- [step.2.js], [step.2.import.js],
    [step.2.export.js], [datasource.selection.import.js],
    [datasource.selection.export.js]

    A file of recipients is uploaded, shown in one of two encodings with a
    property to name for each of its columns, and imported; recipients are also
    picked by tags, their number being counted as the tags change. *)

From S2P Require Import Prelude Js JsFacts Regex Page Layout TagList Url Base Widgets Search Pool.
#[local] Open Scope Z_scope.

(** ** The variables of the page *)

(** What an upload answers: the first two lines in each encoding. *)
Record upload := Upload { GB2312 : list jstr; UTF8 : list jstr }.
Record import_page := ImportPage {
  ip_sub : gmap jstr (list item);
  ip_catedata : list (jstr * list tag);
  ip_source : source;                  (* [catedata], as [search] reads it *)
  fileData : option upload;
  ip_pool : pool;                      (* [props], [len] and the rows of [#data_wrap] *)
  orig_props : list property;
  parameters : jstr;
  time_id : option Z
}.
Definition with_ip_sub (m : gmap jstr (list item)) (g : import_page) : import_page :=
  ImportPage m (ip_catedata g) (ip_source g) (fileData g) (ip_pool g) (orig_props g) (parameters g) (time_id g).
Definition with_fileData (f : option upload) (g : import_page) : import_page :=
  ImportPage (ip_sub g) (ip_catedata g) (ip_source g) f (ip_pool g) (orig_props g) (parameters g) (time_id g).
Definition with_pool (p : pool) (g : import_page) : import_page :=
  ImportPage (ip_sub g) (ip_catedata g) (ip_source g) (fileData g) p (orig_props g) (parameters g) (time_id g).
Definition with_time_id (t : option Z) (g : import_page) : import_page :=
  ImportPage (ip_sub g) (ip_catedata g) (ip_source g) (fileData g) (ip_pool g) (orig_props g) (parameters g) t.

Definition ip_get (k : jstr) (g : import_page) : option (list item) := ip_sub g !! k.
Definition ip_set (k : jstr) (l : list item) (g : import_page) : import_page :=
  with_ip_sub (<[k := l]> (ip_sub g)) g.
Lemma ip_get_set k l g : is_Some (ip_get k g) → ip_get k (ip_set k l g) = Some l.
Proof. intros _. apply lookup_insert_eq. Qed.
#[export] Instance import_sub : SubArr import_page := {
  sub_get := ip_get; sub_set := ip_set; sub_get_set := ip_get_set
}.

Abbreviation I := (J import_page).

Section scripts.

(** ** The columns of the file *)

(** [l[i]] as text *)
Definition cell (l : list jstr) (i : nat) : jstr := default (js "undefined") (l !! i).
Definition column_html (heads cells : list jstr) (i : nat) : jstr :=
  let n := str_of_Z (Z.of_nat i) in
  let h := cell heads i in
  let c := cell cells i in
  jsq "<li class=`item_" ++ n ++ jsq "`><div class=`data_prop`><a style=`width:110px` class=`a_select` id=`prop_list_"
  ++ n ++ jsq "`>请选择</a><input type=`hidden` value=`` name=`prop_" ++ n ++ jsq "` id=`prop_" ++ n
  ++ jsq "` /><input type=`hidden` value=`" ++ h ++ jsq "` name=`parameter_" ++ n
  ++ jsq "`></div><div class=`data_title` title=`" ++ h ++ jsq "`>" ++ h
  ++ jsq "</div><div class=`data_preview` title=`" ++ c ++ jsq "`>" ++ c ++ js "</div></li>".
Definition columns_head : jstr :=
  jsq "<li style=`width:100px;`><div class=`data_prop`>属" ++ [12288%N; 12288%N] ++ jsq "性</div><div class=`data_title`>数据标题</div><div class=`data_preview`>数据预览</div></li>".
Definition columns_html (heads cells : list jstr) : jstr :=
  columns_head ++ List.flat_map (column_html heads cells) (seq 0 (length heads)).

Definition im_repeat_fn : jstr := js "im_repeat".
Definition data_wrap : jstr := js "#data_wrap ul".
Definition charset_field : jstr := js "input[name=charset]".
(** Fresh rows for the columns, nothing named in them. *)
Definition column_rows (heads : list jstr) (p : pool) : pool :=
  Pool (props p) (List.map (λ h, Row [] unset h None) heads) (len p) (total p) (select_id p) (select_shown p).

(** [showChar()] *)
Definition showChar : I unit :=
  g ← get_glob;
  match fileData g with
  | None => skip
  | Some f =>
      c ← val charset_field;
      let obj := if is_str c "GB2312" then GB2312 f else UTF8 f in
      set_html data_wrap [] ;;
      match obj with
      | header :: preview :: _ =>
          let heads := splitc c_comma header in
          let cells := splitc c_comma preview in
          set_html data_wrap (columns_html heads cells) ;;
          mod_glob (λ g, with_pool (import_props_list im_repeat_fn (column_rows heads (ip_pool g))) g) ;;
          let auto_width := Z.of_nat (length heads) in
          set_css data_wrap (js "width") (Px (inject_Z (auto_width * 172 + 100))) ;;
          set_css (js ".preview_box") (js "width") (Px (inject_Z (auto_width * 172 + 220)))
      | _ => throw (js "TypeError")      (* [obj[0].split], [obj[1].split] of [undefined] *)
      end
  end.

(** [props = orig_props.slice(0)] *)
Definition fresh_props : I unit :=
  mod_glob (λ g, let p := ip_pool g in
    with_pool (Pool (orig_props g) (rows p) (len p) (total p) (select_id p) (select_shown p)) g).

(** [changeCode()] *)
Definition changeCode : I unit :=
  c ← val charset_field;
  set_val charset_field (if is_str c "GB2312" then js "UTF-8" else js "GB2312") ;;
  fresh_props ;;
  showChar.

(** [im_repeat('#prop_i',val_hide,'#prop_list_i',val_click)] on the page. *)
Definition im_repeat (i : nat) (val_hide val_click : jstr) : I unit :=
  g ← get_glob;
  match repeat im_repeat_fn i val_hide val_click (ip_pool g) with
  | Some p => put_glob (with_pool p g) ;; mod_ui (with_select [] false)
  | None => throw (js "TypeError")
  end.

(** ** Uploading *)

Definition load_box : option jstr := Some (js ".upload_box .load_img_open").
Definition import_value (name : string) : I jstr := value0 (js "#import." ++ js name).
(** [loading(0,..)]: the number 0 stands for no [append_id]. *)
Definition refuse_file (mess : jstr) : I bool :=
  error_text mess 1 ;; emit (EvFocus (js "#import.file")) ;; del_loading load_box ;; mret false.
Definition previewCode_beforeSubmit : I bool :=
  loading None load_box ;;
  v ← import_value "file";
  if bool_decide (v = []) then refuse_file (js "请选择需要上传的文件")
  else if negb (suff v (js ",txt,csv,xls,xlsx,")) then refuse_file (js "您选择的文件格式不正确")
  else mret true.

(** The answer, on the page of [step.2]: one column alone is not shown. *)
Definition step2_upload_success (code : jval) (f : upload) (emailCount message : jval) : I unit :=
  (if is_num code 1
   then mod_glob (with_fileData (Some f)) ;;
        match GB2312 f with
        | [] => throw (js "TypeError")
        | header :: _ =>
            if (1 <? length (splitc c_comma header))%nat
            then fresh_props ;; showChar ;; show (js ".preview_box")
            else hide (js ".preview_box")
        end ;;
        show (js "#isUpload,#isImportTag,#isExclude") ;;
        set_html (js "#emailCount1") (str_of_val emailCount) ;;
        set_html (js "#importTips") (js "（未去重）")
   else error_message message (num 1) VUndef VUndef VUndef) ;;
  del_loading load_box.
(** On the page of the data source. *)
Definition upload_success (code : jval) (f : upload) (message : jval) : I unit :=
  (if is_num code 1
   then mod_glob (with_fileData (Some f)) ;; fresh_props ;; showChar ;; show (js ".preview_box")
   else error_message message (num 1) VUndef VUndef VUndef) ;;
  del_loading load_box.
Definition upload_error : I unit := error_text (js "上传失败") 1 ;; del_loading load_box.
(** [importUpload(obj)] *)
Definition importUpload (path : jstr) : I unit :=
  getFilePath path ;; emit (EvSubmit (js "#import")).

(** ** [step.2.js] *)

Definition igType : jstr := js "#igType".
(** The texts of the links of the columns. *)
Definition named_texts (g : import_page) : list jstr := List.map r_text (rows (ip_pool g)).

(** [testProps()] *)
Definition testProps : I bool :=
  g ← get_glob;
  if negb (bool_decide (named_texts g = [])) && negb (bool_decide (parameters g = []))
  then
    flag ← attr igType (js "flag");
    if is_str flag "go" then mret true
    else if forallb (λ p, bool_decide (p ∈ named_texts g)) (splitc c_comma (parameters g))
    then mret true
    else popTips (js "#confirmProps") (VStr (js "您设置的收件人属性与邮件模板的变量不符")) ;; mret false
  else mret true.

Definition file_chosen : I bool :=
  v ← val (js "input[name=action]:checked"); mret (is_str v "file").
Definition action_change : I unit :=
  f ← file_chosen;
  if f : bool then hide (js ".tab_content2") ;; show (js ".tab_content1")
  else hide (js ".tab_content1") ;; show (js ".tab_content2").
Definition isImport_change (checked : bool) : I unit :=
  let next := js "#isImport.parents('tr').next()" in
  if checked then show next ;; set_val (js "input[name=opt]") (js "input")
  else hide next ;; set_val (js "input[name=opt]") (js "export").
Definition recipientSubmit_click : I unit :=
  f ← file_chosen;
  emit (EvSubmit (if f : bool then js "#import" else js "#export")).
Definition igType_click : I unit :=
  set_attr igType (js "flag") (js "go") ;;
  closeDialog ;;
  emit (EvSubmit (js "#import")) ;;
  set_attr igType (js "flag") (js "stop").
Definition assignStep3 : I unit :=
  v ← val (js "input[name=id]"); emit (EvAssign (js "/step/3?id=" ++ str_of_val v)).

(** [importFile()] of [step.2.import.js] *)
Definition visible (sel : jstr) : I bool :=
  gets (λ w, match first sel w with Some e => e_shown e | None => false end).
Definition is_checked (sel : jstr) : I bool :=
  gets (λ w, match first sel w with Some e => e_checked e | None => false end).
Definition step2_import_beforeSubmit : I bool :=
  up ← visible (js "#isUpload");
  if negb up
  then error_text (js "请先上传文件") 1 ;; del_loading None ;; mret false
  else
    ok ← testProps;
    if negb ok then del_loading None ;; mret false
    else
      c ← is_checked (js "#isImport");
      t ← (if c : bool then import_value "tagId" else mret (js "-"));
      if bool_decide (t = [])
      then error_text (js "请选择所属标签") 1 ;; emit (EvFocus (js "#import.tagId")) ;;
           del_loading None ;; mret false
      else mret true.
Definition selected_text (emailCount : jval) : jstr :=
  js "<p>筛选成功：当前共选中了<span class='red'>" ++ str_of_val emailCount
  ++ jsq "</span>个收件人用于投递<span class=`f666`>（已去重过滤）</span></p>".
Definition step2_success (code emailCount message : jval) : I unit :=
  closeDialog ;;
  del_loading None ;;
  if is_num code 1
  then popTips (js "#remindCustom2") (VStr (selected_text emailCount))
  else error_message message (num 1) VUndef VUndef VUndef.

(** ** [datasource.selection.import.js] *)

Definition initChecked : I unit :=
  f ← file_chosen;
  if f : bool
  then hide (js ".Jtag") ;; show (js ".Jfile") ;; set_val (js "#action") (js "file")
  else show (js ".Jtag") ;; hide (js ".Jfile") ;; set_val (js "#action") (js "tag").
(** [isFile] is the value of the action chosen; [form.tagId[0]] is the first
    control of that name. *)
Definition import_beforeSubmit : I bool :=
  isFile ← val (js "input[name=action]:checked");
  f ← import_value "fileTag";
  if bool_decide (f = []) && is_str isFile "file"
  then error_text (js "请填写标签名称") 1 ;; emit (EvFocus (js "#import.fileTag")) ;;
       del_loading None ;; mret false
  else
    t ← import_value "tagId[0]";
    if bool_decide (t = []) && is_str isFile "tag"
    then error_text (js "请选择所属标签") 1 ;; emit (EvFocus (js "#import.tagId")) ;;
         del_loading None ;; mret false
    else mret true.
(** [setInterval(importCounter,3000)] answers the timer [id]. *)
Definition import_success (code message action : jval) (id : Z) : I unit :=
  del_loading None ;;
  mod_glob (with_time_id None) ;;
  (if is_num code 1
   then popTips (js "#remindCustom") (VStr (js "<p><img src='/static/img/loading2.gif' style='margin-bottom:-5px;' />&nbsp;&nbsp;正在导入收件人，请稍候...</p>")) ;;
        mod_glob (with_time_id (Some id))
   else error_message message (num 1) VUndef VUndef VUndef) ;;
  set_val (js "#action") (str_of_val action).
Definition importCounter (token : jstr) : I unit :=
  emit (EvAjax (js "/datasource/selection/counter?token=" ++ token) []).
(** Its answer: the counter's own code, message and the two counts. *)
Definition importCounter_success (code ccode : jval) (message : jstr) (start end_ : Z) : I unit :=
  when (is_num code 1 && is_num ccode 1)
    (mod_glob (with_time_id None) ;;
     if bool_decide (message = js "收件人导入成功")
     then popTips (js "#remindCustom") (VStr (js "<p>导入成功：当前共导入<span class='red'>"
            ++ str_of_Z (end_ - start) ++ js "</span>个收件人</p>"))
     else popTips (js "#remindCustom") (VStr (js "<p>导入失败：" ++ message ++ js "</p>"))).
Definition importRefresh : I unit :=
  t ← val (js "input[name=tagId]");
  a ← val (js "#action");
  emit (EvAssign (js "/datasource/selection/import?tagId=" ++ str_of_val t ++ js "&action=" ++ str_of_val a)).

(** ** Picking by tags *)

Definition en_cate : jstr := js "#en_cate".
Definition out_cate : jstr := js "#out_cate".
(** [callReloadSum()], on the two pages. *)
Definition callReloadSum : I unit :=
  en ← subArr en_cate;
  out ← subArr out_cate;
  g ← get_glob;
  show_person_sum (ip_catedata g) en out (js "#personSum") ;;
  t ← html (js "#personSum");
  set_val (js "#emailCount") (field t).
Definition step2_callReloadSum : I unit :=
  en ← subArr en_cate;
  out ← subArr out_cate;
  g ← get_glob;
  show_person_sum (ip_catedata g) en out (js "#emailCount2") ;;
  set_html (js "#exportTips") (js "（未过滤去重）").

(** [deleteCate.call(this,e)], with the page's [callReloadSum]. *)
Definition deleteCate (reload : I unit) (this : jstr) (keyCode caret : Z) : I bool :=
  l ← subArr this;
  when (keyCode =? 8)
    (v ← val this;
     let l' := removeArrItem l (VStr (getDeleteItem (field v) caret)) in
     set_subArr this l' ;;
     addItemInput l' this ;;
     reload) ;;
  mret true.

Definition activeCnd : I unit := v ← val (js "#activePeriod"); set_val (js "#active") (field v).
Definition activeCnd_change : I unit :=
  c ← is_checked (js "input[name=activeCnd][data-info=1]");
  if c : bool then show (js "#period_list")
  else set_val (js "#period_list") [] ;; hide (js "#period_list").
Definition showNewCate : I unit :=
  closeSelectDiv ;;
  set_html (js "#category_list") [] ;;
  set_val (js "#categoryId") [] ;;
  show (js ".new_cate_box").
Definition hideNewCate : I unit := hide (js ".new_cate_box") ;; set_val (js "#newCate") [].
Definition appendTagId (o : node) : I unit := set_val (js "#tagId") (n_attr o).

(** Whether nothing is picked: the message, or the rest. *)
Definition need (sel mess : jstr) (rest : I bool) : I bool :=
  v ← val sel;
  if truthy v then rest else error_text mess 1 ;; mret false.
Definition include_tags : jstr := js "input[name=includeTagIds]".
Definition create_btn_click : I bool :=
  need include_tags (js "请选择包含标签")
    (set_val (js "input[name=type]") (js "0") ;; set_val (js "#tagId") [] ;;
     openPop (VStr (js "/datasource/tag/add?action=selection.export")) None (Some (js "#newTag")) ;;
     mret true).

(** [importTag(json,fn,boxId)] and the [keyup] it binds. *)
Definition importTag (json : source) (fn boxId : jstr) : I unit :=
  set_html (boxId ++ js " .search_result") [] ;;
  createSearch json fn boxId [].
Definition importTag_keyup (json : source) (fn boxId : jstr) : I unit :=
  v ← val (boxId ++ js " .search_input");
  let val_txt := strip_spaces (field v) in
  if bool_decide (val_txt = [])
  then createSearch json fn boxId []
  else keySearch json fn boxId val_txt [].
Definition import_btn_click : I bool :=
  need include_tags (js "请选择包含标签")
    (set_val (js "input[name=type]") (js "1") ;; set_val (js "#tagId") [] ;;
     g ← get_glob;
     importTag (ip_source g) (js "appendTagId(this)") (js "#popSearch") ;;
     openPop (num 0) None (Some (js "#popSearch")) ;;
     mret true).

(** [$(sel).is(":hidden")] *)
Definition is_hidden (sel : jstr) : I bool :=
  gets (λ w, match first sel w with Some e => negb (e_shown e) | None => false end).
(** [exports(type)]; answers [false] when it is refused. *)
Definition send_export (field_ : jstr) (v : jval) : I bool :=
  closeDialog ;; set_val field_ (str_of_val v) ;; emit (EvSubmit (js "#export")) ;; mret true.
Definition exports (type : jval) : I bool :=
  need include_tags (js "请选择包含标签")
    (if loose_eq type (VStr (js "1"))
     then need (js "input[name=tagId]") (js "请选择标签")
            (closed ← is_hidden (js "#popSearch");
             n ← size_of (js "#popSearch li.selected");
             if negb closed && (n <? 1)
             then error_text (js "请选择标签") 1 ;; mret false
             else send_export (js "#type") type)
     else send_export (js "#type") type).
(** [exports(opt)] of [step.2.export.js]. *)
Definition step2_exports (opt : jval) : I bool :=
  need include_tags (js "请选择包含标签")
    (if loose_eq opt (VStr (js "input"))
     then need (js "input[name=tagId]") (js "请选择标签") (send_export (js "#opt") opt)
     else send_export (js "#opt") opt).
(** The check of the form of [step.2.export.js]. *)
Definition step2_export_beforeSubmit : I bool :=
  loading None None ;;
  v ← val include_tags;
  if truthy v then mret true
  else error_text (js "请选择包含标签") 1 ;; del_loading None ;; mret false.
(** [exportCounter()] of [datasource.selection.export.js] and its answer. *)
Definition exportCounter (token : jstr) : I unit :=
  emit (EvAjax (js "/datasource/selection/counter?token=" ++ token) []).
Definition exportCounter_success (code : jval) : I unit :=
  when (is_num code 1) (popTips (js "#remindCustom") VUndef).
Definition export_success (code message : jval) : I unit :=
  del_loading None ;;
  if is_num code 1 then popTips (js "#remindCustom") VUndef
  else error_message message (num 1) VUndef VUndef VUndef.
End scripts.

(** ** Facts *)

Section facts.
Implicit Types w : world import_page.

(** The charset after a change, and the lines shown then. *)
Definition other_charset (c : jstr) : jstr := if bool_decide (c = js "GB2312") then js "UTF-8" else js "GB2312".
Definition shown_lines (c : jstr) (f : upload) : list jstr :=
  if bool_decide (c = js "GB2312") then UTF8 f else GB2312 f.

Lemma column_rows_named heads p : named (rows (column_rows heads p)) = [].
Proof. unfold named. cbn. by induction heads. Qed.

Lemma showChar_runs w f c header preview rest :
  fileData (w_glob w) = Some f → val_of charset_field w = VStr c →
  (if is_str (VStr c) "GB2312" then GB2312 f else UTF8 f) = header :: preview :: rest →
  ∃ w', showChar w = (Ok tt, w')
    ∧ w_glob w' = with_pool (import_props_list im_repeat_fn
        (column_rows (splitc c_comma header) (ip_pool (w_glob w)))) (w_glob w).
Proof.
  intros Hf Hc Hl. unfold showChar. rewrite (bind_ok get_glob _ w (w_glob w) w eq_refl), Hf.
  rewrite (bind_ok (val _) _ w (VStr c) w) by (by rewrite <-Hc). cbv zeta. rewrite Hl.
  unfold set_html, set_css, on. jrun. eexists. split; [reflexivity|]. done.
Qed.

Lemma showChar_frames : frames e_val showChar.
Proof. unfold showChar. frames. Qed.

Lemma val_frame {A} (m : I A) sel w r w' : frames e_val m → m w = (r, w') → val_of sel w' = val_of sel w.
Proof.
  intros Hm E. pose proof (frame_first e_val sel _ _ (frame_of e_val _ _ _ _ Hm E)) as H. unfold val_of.
  destruct (first sel w), (first sel w'); simplify_eq/=; congruence.
Qed.

Lemma is_str_charset c : is_str (VStr c) "GB2312" = bool_decide (c = js "GB2312").
Proof. done. Qed.
End facts.

(** Changing the encoding starts the columns afresh: the other encoding's lines
    are shown, one row for each column, nothing is named in them, and the
    lists offer every property again. *)
Theorem changeCode_resets (w : world import_page) f c header preview rest :
  fileData (w_glob w) = Some f → single charset_field w → val_of charset_field w = VStr c →
  shown_lines c f = header :: preview :: rest →
  ∃ w', changeCode w = (Ok tt, w')
    ∧ val_of charset_field w' = VStr (other_charset c)
    ∧ pool_ok im_repeat_fn (orig_props (w_glob w)) (ip_pool (w_glob w'))
    ∧ List.map r_param (rows (ip_pool (w_glob w'))) = splitc c_comma header
    ∧ List.map r_text (rows (ip_pool (w_glob w'))) = List.map (λ _, unset) (splitc c_comma header)
    ∧ fileData (w_glob w') = Some f.
Proof.
  intros Hf Hs Hc Hl.
  destruct (set_val_field charset_field (other_charset c) w Hs) as (w1 & E1 & S1 & G1 & _ & V1 & _).
  set (p := ip_pool (w_glob w)).
  set (w2 := set_glob (with_pool (Pool (orig_props (w_glob w)) (rows p) (len p) (total p) (select_id p)
    (select_shown p)) (w_glob w)) w1).
  destruct (showChar_runs w2 f (other_charset c) header preview rest) as (w3 & E3 & G3).
  - done.
  - exact V1.
  - rewrite is_str_charset, <-Hl. unfold other_charset, shown_lines.
    by destruct (bool_decide (c = js "GB2312")).
  - exists w3. split; [|split; [|split; [|split; [|split]]]].
    + unfold changeCode. rewrite (bind_ok (val _) _ w (VStr c) w) by (by rewrite <-Hc).
      rewrite is_str_charset. fold (other_charset c). rewrite (bind_ok _ _ _ _ _ E1).
      rewrite <-E3. unfold w2, fresh_props. jrun. by rewrite G1.
    + rewrite (val_frame _ _ _ _ _ showChar_frames E3). exact V1.
    + rewrite G3. apply props_list_ok. rewrite column_rows_named, app_nil_r. done.
    + rewrite G3. cbn. generalize 0 as k. generalize (splitc c_comma header) as hs.
      induction hs as [|h hs IH]; intros k; [done|]. cbn. by rewrite IH.
    + rewrite G3. cbn. generalize 0 as k. generalize (splitc c_comma header) as hs.
      induction hs as [|h hs IH]; intros k; [done|]. cbn. by rewrite IH.
    + rewrite G3. done.
Qed.

(** The file may be imported when no column is shown, when the template has no
    variable, when the user said so, or when every variable of the template is
    named by a column. *)
Theorem testProps_spec (w : world import_page) :
  let g := w_glob w in
  let go := match first igType w ≫= λ e, e_attr e !! js "flag" with Some v => bool_decide (v = js "go") | None => false end in
  ∃ b w', testProps w = (Ok b, w') ∧ w_glob w' = w_glob w ∧ w_ev w' = w_ev w
    ∧ (b = true ↔ named_texts g = [] ∨ parameters g = [] ∨ go = true
        ∨ ∀ p, p ∈ splitc c_comma (parameters g) → p ∈ named_texts g).
Proof.
  intros g go. unfold testProps. rewrite (bind_ok get_glob _ w g w eq_refl).
  destruct (bool_decide (named_texts g = [])) eqn:E1; cbn [negb andb].
  { exists true, w. bool_simp. repeat split; auto. }
  destruct (bool_decide (parameters g = [])) eqn:E2; cbn [negb andb].
  { exists true, w. bool_simp. repeat split; auto. }
  bool_simp.
  assert (∃ v, attr igType (js "flag") w = (Ok v, w) ∧ is_str v "go" = go) as (v & Ev & Eg).
  { unfold attr, attr_of, gets, go. eexists. split; [reflexivity|]. by destruct (first igType w ≫= _). }
  rewrite (bind_ok _ _ _ _ _ Ev), Eg.
  destruct go; [exists true, w; repeat split; auto|].
  destruct (forallb _ _) eqn:E3.
  { exists true, w. repeat split; auto. intros _. do 3 right. intros p Hp.
    rewrite forallb_forall in E3. apply (bool_decide_unpack _). rewrite E3; [done|]. by apply list_elem_of_In. }
  unfold popTips, openPop, openCover, centre_pop, win, measure.
  change (truthy (num 0)) with false. match goal with |- context [truthy ?m] => destruct (truthy m) end;
  jrun; eexists false, _; (split; [reflexivity|]); repeat split; try done;
  intros [?|[?|[?|Hp]]]; try done;
  (rewrite <-not_true_iff_false in E3; exfalso; apply E3, forallb_forall; intros p Hin;
   apply bool_decide_eq_true_2, Hp; by apply list_elem_of_In).
Qed.

(** What the export page asks for. *)
Definition may_export (type : jval) (w : world import_page) : bool :=
  truthy (val_of include_tags w)
  && (negb (loose_eq type (VStr (js "1")))
      || truthy (val_of (js "input[name=tagId]") w)
         && (match first (js "#popSearch") w with Some e => negb (e_shown e) | None => false end
             || (0 <? Z.of_nat (length (found (js "#popSearch li.selected") w))))).

(** The recipients are exported exactly when tags are picked and, into a tag,
    when that tag is chosen; otherwise nothing is sent and the banner says
    what is missing. *)
Theorem exports_spec type (w : world import_page) :
  ∃ w', exports type w = (Ok (may_export type w), w') ∧
    if may_export type w
    then w_ev w' = w_ev w ++ [EvSubmit (js "#export")] ∧ u_cover (w_ui w') = None
    else w_ev w' = w_ev w ∧ w_elt w' = w_elt w
         ∧ ∃ b, u_banner (w_ui w') = Some b ∧ bn_kind b = js "err2".
Proof.
  assert (∀ m, ∃ w', (error_text m 1 ;; mret false) w = (Ok false, w') ∧ w_ev w' = w_ev w
    ∧ w_elt w' = w_elt w ∧ ∃ b, u_banner (w_ui w') = Some b ∧ bn_kind b = js "err2") as Hno.
  { intros m. destruct (error_message_runs (VStr m) (num 1) VUndef VUndef VUndef w)
      as (w' & E & He & Hv & _ & _ & _ & _ & _ & (b & Hb & _ & _ & Hk) & _).
    exists w'. unfold error_text. rewrite (bind_ok _ _ _ _ _ E). repeat split; try done. by exists b. }
  assert (∃ w', send_export (js "#type") type w = (Ok true, w')
    ∧ w_ev w' = w_ev w ++ [EvSubmit (js "#export")] ∧ u_cover (w_ui w') = None) as Hgo
    by (by eexists).
  unfold exports, may_export, need.
  rewrite (bind_ok (val include_tags) _ w (val_of include_tags w) w eq_refl).
  destruct (truthy (val_of include_tags w)); [|apply Hno]. cbn [andb].
  destruct (loose_eq type _); [|exact Hgo]. cbn [negb orb].
  rewrite (bind_ok (val _) _ w (val_of (js "input[name=tagId]") w) w eq_refl).
  destruct (truthy (val_of (js "input[name=tagId]") w)); [|apply Hno]. cbn [andb].
  unfold is_hidden. rewrite (bind_ok (gets _) _ w _ w eq_refl).
  rewrite (bind_ok (size_of _) _ w (Z.of_nat (length (found (js "#popSearch li.selected") w))) w eq_refl).
  set (hid := match first (js "#popSearch") w with Some e => negb (e_shown e) | None => false end).
  set (n := Z.of_nat (length (found (js "#popSearch li.selected") w))).
  replace (n <? 1) with (negb (0 <? n)) by lia.
  destruct hid; cbn [negb andb orb]; [exact Hgo|].
  destruct (0 <? n); cbn [negb]; [exact Hgo|apply Hno].
Qed.

(** The number of recipients shown is that of the tags picked and not left
    out. *)
Theorem callReloadSum_counts en out (w : world import_page) :
  sub_get en_cate (w_glob w) = Some en → sub_get out_cate (w_glob w) = Some out →
  wf data_id en → wf data_id out → Forall (tag_ok data_id) (all_tags (ip_catedata (w_glob w))) →
  sum_by tag_int (all_tags (ip_catedata (w_glob w))) <= pow2_53 →
  single (js "#personSum") w → single (js "#emailCount") w →
  ∃ w', callReloadSum w = (Ok tt, w')
    ∧ val_of (js "#emailCount") w'
      = VStr (str_of_num (JInt (sum_by (counted_int en out) (all_tags (ip_catedata (w_glob w))))))
    ∧ w_glob w' = w_glob w.
Proof.
  intros He Ho We Wo Ht Hb Hp Hc. unfold callReloadSum.
  rewrite (bind_ok _ _ _ _ _ (subArr_ok _ _ _ He)), (bind_ok _ _ _ _ _ (subArr_ok _ _ _ Ho)).
  rewrite (bind_ok get_glob _ w (w_glob w) w eq_refl).
  unfold show_person_sum. rewrite (reloadPersonSum_spec data_id) by done.
  set (t := str_of_num _). set (w1 := upd (with_html t) (found (js "#personSum") w) w).
  rewrite (bind_ok (set_html _ t) _ w tt w1 eq_refl).
  assert (html (js "#personSum") w1 = (Ok (VStr t), w1)) as Eh.
  { unfold html, gets, w1. rewrite on_first by done. by destruct (single_first _ _ Hp) as [e ->]. }
  rewrite (bind_ok _ _ _ _ _ Eh). cbn [field or_empty].
  destruct (set_val_field (js "#emailCount") t w1) as (w2 & E2 & _ & G2 & _ & V2 & _).
  { by apply upd_single. }
  exists w2. split; [done|]. by rewrite G2.
Qed.

(** ** A page to try them on *)

Definition demo_tags : list (jstr * list tag) :=
  [(js "客户", [Tag (VStr (js "a")) (js "A") (num 3); Tag (VStr (js "b")) (js "B") (num 4)])].
Definition demo_upload : upload :=
  Upload [js "mail,name"; js "x@y.z,X"] [js "mail,name"; js "x@y.z,X"].
Definition demo_import : world import_page :=
  page [(charset_field, [0]); (js "#personSum", [1]); (js "#emailCount", [2])]%nat
       [(0, with_val (js "GB2312") blank); (1, blank); (2, blank)]%nat
       (ImportPage (list_to_map [(en_cate, [[VStr (js "a"); VStr (js "A")]]); (out_cate, [])]) demo_tags (Flat [])
          (Some demo_upload) (Pool [] [] 0 0 [] false) [(js "p1", js "城市")] [] None).

Lemma changeCode_resets_witness :
  ∃ w', changeCode demo_import = (Ok tt, w')
    ∧ val_of charset_field w' = VStr (js "UTF-8")
    ∧ pool_ok im_repeat_fn [(js "p1", js "城市")] (ip_pool (w_glob w'))
    ∧ List.map r_param (rows (ip_pool (w_glob w'))) = [js "mail"; js "name"].
Proof.
  destruct (changeCode_resets demo_import demo_upload (js "GB2312") (js "mail,name") (js "x@y.z,X") [])
    as (w' & E & V & P & R & _); [on_page..|].
  exists w'. split; [exact E|]. split; [exact V|]. split; [exact P|exact R].
Defined.

Lemma callReloadSum_counts_witness :
  ∃ w', callReloadSum demo_import = (Ok tt, w') ∧ val_of (js "#emailCount") w' = VStr (js "3").
Proof.
  destruct (callReloadSum_counts [[VStr (js "a"); VStr (js "A")]] [] demo_import) as (w' & E & V & _).
  - on_page.
  - on_page.
  - split; repeat constructor. not_in.
  - split; constructor.
  - repeat constructor; eexists; (split; [vm_compute; reflexivity|]); lia.
  - vm_compute. discriminate.
  - on_page.
  - on_page.
  - exists w'. split; [exact E|exact V].
Defined.
