(* ===== verification/Selection.v ===== *)
(** * Choosing recipients by tags -- [datasource.selection.export.js],
    [step.2.export.js]

    Two fields hold the tags whose recipients are taken and the tags whose
    recipients are left out, and a number shows how many that makes.  The two
    pages share the handlers and count into elements of their own, so the
    session below is proved against what it asks of the page's
    [callReloadSum] (the class [Counter]), and both pages are instances. *)

From stdpp Require Import functions.
From S2P Require Import Prelude Js JsFacts Page Layout TagList Url Base Controls Search Select Pool Import.
#[local] Open Scope Z_scope.

Inductive ctl := EEn | EEnId | EOut | EOutId | EPerson | ECount.
#[export] Instance ctl_eq_dec : EqDecision ctl.
Proof. solve_decision. Defined.
Inductive side := En | Out.
Definition box_of (s : side) : ctl := match s with En => EEn | Out => EOut end.
Definition ids_of (s : side) : ctl := match s with En => EEnId | Out => EOutId end.
Definition input_of (s : side) : jstr := match s with En => en_cate | Out => out_cate end.

(** The elements the page counts into are its own. *)
Definition sel_of (person count : jstr) (c : ctl) : jstr :=
  match c with
  | EEn => en_cate | EEnId => hidden en_cate
  | EOut => out_cate | EOutId => hidden out_cate
  | EPerson => person | ECount => count
  end.

Lemma sel_box person count s : sel_of person count (box_of s) = input_of s.
Proof. by destruct s. Qed.

(** What a page's [callReloadSum] promises: it counts the two arrays into the
    elements of the page and leaves the fields alone. *)
Class Counter (reload : I unit) (person count : jstr) (displays : jstr → world import_page → Prop) : Prop :=
  counter_runs v w en out :
    reads (sel_of person count) v w →
    sub_get en_cate (w_glob w) = Some en → sub_get out_cate (w_glob w) = Some out →
    ∃ v' w', reload w = (Ok tt, w') ∧ reads (sel_of person count) v' w'
      ∧ (∀ s, v' (box_of s) = v (box_of s) ∧ v' (ids_of s) = v (ids_of s))
      ∧ w_glob w' = w_glob w
      ∧ displays (str_of_num (reloadPersonSum (ip_catedata (w_glob w)) en out)) w'.

(** What the user does: picks a tag into a field, or presses a key in it. *)
Inductive act := Pick (s : side) (o : node) | Key (s : side) (code caret : Z).

(** The tags of the two fields. *)
Definition tags := side → list item.
Definition with_tags (s : side) (l : list item) (t : tags) : tags :=
  λ q, match s, q with En, En | Out, Out => l | _, _ => t q end.

Definition abs_act (t : tags) (a : act) : tags :=
  match a with
  | Pick s o => with_tags s (filterArr (t s) [n_data o; VStr (n_text o)]) t
  | Key s code caret => if code =? 8 then with_tags s (erase (t s) (title_text (t s)) caret) t else t
  end.
Definition abs_acts (t : tags) (l : list act) : tags := List.fold_left abs_act l t.

(** How many recipients the tags make. *)
Definition person_count (json : list (jstr * list tag)) (t : tags) : jstr :=
  str_of_num (JInt (sum_by (counted_int (t En) (t Out)) (all_tags json))).

Section session.
Context (reload : I unit) (person count : jstr) (displays : jstr → world import_page → Prop)
  `{!Counter reload person count displays}.
Abbreviation reads := (reads (sel_of person count)).
Implicit Types (w : world import_page) (t : tags) (v : ctl → look).

(** The handlers as the page binds them. *)
Definition handle (a : act) : I unit :=
  match a with
  | Pick s o => pickArr o (input_of s) reload
  | Key s code caret => _ ← deleteCate reload (input_of s) code caret; skip
  end.

(** The categories of the page: ids of one kind, counts that add up exactly. *)
Context (json : list (jstr * list tag))
  (json_ok : Forall (tag_ok data_id) (all_tags json))
  (json_small : sum_by tag_int (all_tags json) ≤ pow2_53).

Record fields_on t w : Prop := {
  fd_looks : ∃ v, reads v w
    ∧ ∀ s, l_val (v (box_of s)) = title_text (t s) ∧ l_val (v (ids_of s)) = id_text (t s);
  fd_sub : ∀ s, sub_get (input_of s) (w_glob w) = Some (t s);
  fd_wf : ∀ s, wf data_id (t s);
  fd_json : ip_catedata (w_glob w) = json
}.
Definition offered (a : act) : Prop := match a with Pick _ o => data_id (n_data o) | Key _ _ _ => True end.

Lemma abs_act_wf t a : (∀ s, wf data_id (t s)) → offered a → ∀ s, wf data_id (abs_act t a s).
Proof.
  intros Ht Ho s. destruct a as [q o|q code caret]; cbn [abs_act].
  - assert (wf data_id (filterArr (t q) [n_data o; VStr (n_text o)])) by (apply filterArr_wf; [apply _|done..]).
    unfold with_tags. by destruct q, s.
  - destruct (code =? 8); [|done].
    assert (wf data_id (erase (t q) (title_text (t q)) caret)).
    { eapply (sublist_wf data_id); [apply erase_sublist|done]. }
    unfold with_tags. by destruct q, s.
Qed.

(** The array of a side changed, and counted. *)
Lemma side_changed t w s l :
  fields_on t w → (∀ q, wf data_id (with_tags s l t q)) →
  ∃ w', (set_subArr (input_of s) l ;; addItemInput l (input_of s) ;; reload) w = (Ok tt, w')
    ∧ fields_on (with_tags s l t) w' ∧ displays (person_count json (with_tags s l t)) w'.
Proof.
  intros [(v & R & Hv) Hsub Hwf Hj] Hl.
  destruct (refill_reads (sel_of person count) (box_of s) (ids_of s) (t s) l v w) as (w1 & E1 & R1 & G1 & _).
  - by destruct s.
  - by destruct s.
  - exact R.
  - rewrite sel_box. apply Hsub.
  - rewrite sel_box in E1, G1. assert (∀ q, sub_get (input_of q) (w_glob w1) = Some (with_tags s l t q)) as Hsub1.
    { intros q. rewrite G1. pose proof (Hsub q) as Hq. unfold with_tags.
      destruct s, q; first [apply lookup_insert_eq | etrans; [by apply lookup_insert_ne|exact Hq]]. }
    assert (ip_catedata (w_glob w1) = json) as Hj1 by (by rewrite G1).
    destruct (counter_runs _ w1 _ _ R1 (Hsub1 En) (Hsub1 Out)) as (v2 & w2 & E2 & R2 & H2 & G2 & D2).
    exists w2. split; [|split].
    + rewrite <-bind_assoc. by rewrite (bind_ok _ _ _ _ _ E1).
    + constructor; [|by rewrite G2|done|by rewrite G2].
      eexists. split; [exact R2|]. intros q. destruct (H2 q) as [-> ->], (Hv q) as [Hb Hi].
      unfold with_tags. destruct s, q; cbn [box_of ids_of] in *;
        repeat first [rewrite at_ctl_eq | rewrite at_ctl_ne by discriminate]; done.
    + rewrite Hj1 in D2. rewrite (reloadPersonSum_spec data_id) in D2 by (done || apply Hl). exact D2.
Qed.

Lemma tags_simulate t w a :
  fields_on t w → displays (person_count json t) w → offered a →
  ∃ w', handle a w = (Ok tt, w') ∧ fields_on (abs_act t a) w' ∧ displays (person_count json (abs_act t a)) w'.
Proof.
  intros H D Ho. pose proof (abs_act_wf t a (fd_wf _ _ H) Ho) as Hwf.
  destruct a as [s o|s code caret]; cbn [handle abs_act] in *.
  - unfold pickArr. rewrite (bind_ok _ _ _ _ _ (subArr_ok _ _ _ (fd_sub _ _ H s))). by apply side_changed.
  - unfold deleteCate. destruct (code =? 8); cbn [when].
    + destruct (side_changed t w s _ H Hwf) as (w' & E & F & D').
      exists w'. split; [|done]. rewrite (bind_ok _ _ w true w'); [done|].
      rewrite (bind_ok _ _ _ _ _ (subArr_ok _ _ _ (fd_sub _ _ H s))).
      destruct (fd_looks _ _ H) as (v & R & Hv).
      assert (val (input_of s) w = (Ok (VStr (title_text (t s))), w)) as Ev.
      { rewrite <-(sel_box person count). rewrite (val_reads _ v w _ R). by rewrite (proj1 (Hv s)). }
      rewrite (bind_ok _ _ w tt w'); [done|]. rewrite (bind_ok _ _ _ _ _ Ev). exact E.
    + exists w. rewrite (bind_ok _ _ w true w); [done|].
      by rewrite (bind_ok _ _ _ _ _ (subArr_ok _ _ _ (fd_sub _ _ H s))).
Qed.
End session.

(** ** The two pages *)

Definition html_of (sel : jstr) (w : world import_page) : option jstr := e_html <$> first sel w.
Definition in_field (sel s : jstr) (w : world import_page) : Prop := val_of sel w = VStr s.
Definition in_html (sel s : jstr) (w : world import_page) : Prop := html_of sel w = Some s.

Lemma set_html_calm sel h : calm (G := import_page) (set_html sel h).
Proof. by apply calm_on. Qed.
Lemma set_html_html sel h w : single sel w → html_of sel (snd (set_html sel h w)) = Some h.
Proof. intros H. unfold html_of. cbn [set_html on modify snd]. rewrite on_first by done. by destruct (single_first _ _ H) as [e ->]. Qed.
Lemma html_reads sel h w : html_of sel w = Some h → html sel w = (Ok (VStr h), w).
Proof. unfold html_of, html, gets. destruct (first sel w); [|done]. by intros [= ->]. Qed.

(** The page of the exports counts into a hidden field too. *)
#[export] Instance export_counter :
  Counter callReloadSum (js "#personSum") (js "#emailCount") (in_field (js "#emailCount")).
Proof.
  intros v w en out R He Ho. unfold callReloadSum.
  rewrite (bind_ok _ _ _ _ _ (subArr_ok _ _ _ He)), (bind_ok _ _ _ _ _ (subArr_ok _ _ _ Ho)).
  rewrite (bind_ok get_glob _ w (w_glob w) w eq_refl). unfold show_person_sum.
  set (n := str_of_num _). pose proof (po_single _ _ (rd_page _ _ _ R) EPerson) as Hp.
  destruct (calm_reads _ _ v w (set_html_calm (js "#personSum") n) R) as ([] & w1 & E1 & R1 & G1 & _).
  rewrite (bind_ok _ _ _ _ _ E1).
  assert (html_of (js "#personSum") w1 = Some n) as Hh.
  { pose proof (set_html_html (js "#personSum") n w Hp) as H. by rewrite E1 in H. }
  rewrite (bind_ok _ _ _ _ _ (html_reads _ _ _ Hh)). cbn [field or_empty].
  destruct (set_val_reads _ ECount n v w1 R1) as (w2 & E2 & R2 & G2 & _).
  exists (at_ctl ECount (put_val n) v), w2. split; [exact E2|]. split; [exact R2|].
  split; [intros []; by rewrite !at_ctl_ne by done|]. split; [congruence|].
  unfold in_field. pose proof (reads_val _ _ _ ECount R2) as H. rewrite at_ctl_eq in H. exact H.
Qed.

(** The second step of the sending in steps shows it and says it is not exact. *)
#[export] Instance step2_counter :
  Counter step2_callReloadSum (js "#emailCount2") (js "#exportTips") (in_html (js "#emailCount2")).
Proof.
  intros v w en out R He Ho. unfold step2_callReloadSum.
  rewrite (bind_ok _ _ _ _ _ (subArr_ok _ _ _ He)), (bind_ok _ _ _ _ _ (subArr_ok _ _ _ Ho)).
  rewrite (bind_ok get_glob _ w (w_glob w) w eq_refl). unfold show_person_sum.
  set (n := str_of_num _). pose proof (po_single _ _ (rd_page _ _ _ R) EPerson) as Hp.
  destruct (calm_reads _ _ v w (set_html_calm (js "#emailCount2") n) R) as ([] & w1 & E1 & R1 & G1 & _).
  rewrite (bind_ok _ _ _ _ _ E1).
  destruct (calm_reads _ _ v w1 (set_html_calm (js "#exportTips") (js "（未过滤去重）")) R1)
    as ([] & w2 & E2 & R2 & G2 & _).
  exists v, w2. split; [exact E2|]. split; [exact R2|]. split; [done|]. split; [congruence|].
  unfold in_html, html_of. injection E2 as <-. rewrite first_upd_ne.
  - pose proof (set_html_html (js "#emailCount2") n w Hp) as H. by rewrite E1 in H.
  - exact (po_apart _ _ (rd_page _ _ _ R1) EPerson ECount ltac:(done)).
Qed.

(** ** Properties *)

(** C13 -- On both pages any sequence of picks and keys in the two fields leaves the
    arrays and the fields of the abstract choice of tags, without a tag twice,
    and the number shown is always the number of the recipients of the tags
    taken that are not left out. *)
Theorem tags_session reload person count displays `{!Counter reload person count displays} json es t
    (w : world import_page) :
  Forall (tag_ok data_id) (all_tags json) → sum_by tag_int (all_tags json) ≤ pow2_53 →
  fields_on person count json t w → displays (person_count json t) w → Forall offered es →
  ∃ w', for_each es (handle reload) w = (Ok tt, w')
    ∧ fields_on person count json (abs_acts t es) w' ∧ displays (person_count json (abs_acts t es)) w'.
Proof.
  intros Hj Hs. revert t w. induction es as [|e es IH]; intros t w H D Ho; [by exists w|].
  apply Forall_cons in Ho as [He Ho].
  destruct (tags_simulate reload person count displays json Hj Hs t w e H D He) as (w1 & E1 & H1 & D1).
  destruct (IH _ w1 H1 D1 Ho) as (w' & E & R). exists w'. split; [|exact R].
  cbn [for_each]. by rewrite (bind_ok _ _ _ _ _ E1).
Qed.

(** *** A page to try it on *)

Definition demo_choice : tags := λ s, [].
Definition demo_export : world import_page :=
  page_with [(en_cate, blank); (hidden en_cate, blank); (out_cate, blank); (hidden out_cate, blank);
             (js "#personSum", blank); (js "#emailCount", with_val (js "0") blank)]
    (ImportPage (list_to_map [(en_cate, []); (out_cate, [])]) demo_tags (Flat []) None
       (Pool [] [] 0 0 [] false) [] [] None).
Definition demo_node (i t : string) : node := Node (js i) (VStr (js i)) (js t).
Definition demo_acts : list act :=
  [Pick En (demo_node "a" "A"); Pick En (demo_node "b" "B"); Pick Out (demo_node "a" "A"); Key En 8 4].

Lemma tags_session_witness :
  ∃ w', for_each demo_acts (handle callReloadSum) demo_export = (Ok tt, w')
    ∧ val_of (js "#emailCount") w' = VStr (js "0") ∧ val_of (hidden en_cate) w' = VStr (js "a").
Proof.
  destruct (tags_session callReloadSum (js "#personSum") (js "#emailCount") (in_field (js "#emailCount"))
    demo_tags demo_acts demo_choice demo_export) as (w' & E & H & D).
  - repeat constructor; eexists; (split; [vm_compute; reflexivity|]); lia.
  - vm_compute. discriminate.
  - constructor; [|intros []; vm_compute; reflexivity|intros s; split; constructor|reflexivity].
    exists (λ c, Look (if bool_decide (c = ECount) then js "0" else []) false false).
    split; [|by intros []]. constructor; [constructor|].
    + intros []; on_page.
    + intros [] [] Hne; try done; on_page.
    + intros []; vm_compute; reflexivity.
  - vm_compute. reflexivity.
  - repeat constructor; vm_compute; reflexivity.
  - exists w'. split; [exact E|]. split; [rewrite D; vm_compute; reflexivity|].
    destruct (fd_looks _ _ _ _ _ H) as (v & R & Hv).
    pose proof (reads_val _ _ _ EEnId R) as Hi. change EEnId with (ids_of En) in Hi at 2.
    rewrite (proj2 (Hv En)) in Hi. etrans; [exact Hi|]. vm_compute. reflexivity.
Defined.
