(* ===== verification/Columns.v ===== *)
(** * Naming the columns of a file -- sessions of [step.2.import.js] and
    [datasource.selection.import.js]

    A file that was uploaded is shown as a table, in one of two encodings, and
    every column may be given one of the properties; the lists of properties
    are the pool of [Pool], the table is the one [Import.showChar] builds.  The
    session below puts the two together with the answers of the server: over
    any sequence of uploads, refusals, changes of the encoding and choices, the
    page implements a plain table of columns with the properties given to
    them.  The two pages differ in what they do with a file of one column. *)

From S2P Require Import Prelude Js JsFacts Page Layout TagList Url Base Widgets Search Pool Import.
#[local] Open Scope Z_scope.

(** ** The abstract table *)

(** The encoding, the file and, for every column, its head and its property. *)
Record table := Table { tb_charset : jstr; tb_file : option upload; tb_cols : list (jstr * property) }.
Definition no_property : property := ([], unset).

Definition lines_in (c : jstr) (f : upload) : list jstr := if bool_decide (c = js "GB2312") then GB2312 f else UTF8 f.
Definition heads (ls : list jstr) : list jstr := match ls with header :: _ => splitc c_comma header | [] => [] end.
Definition fresh (c : jstr) (f : upload) : list (jstr * property) := List.map (λ h, (h, no_property)) (heads (lines_in c f)).
(** More than one column. *)
Definition many (f : upload) : bool := (1 <? length (heads (GB2312 f)))%nat.

(** What happens: the server answers an upload, the user changes the encoding,
    or gives a column a property. *)
Inductive act :=
  | Uploaded (f : upload) (count message : jval)
  | Refused (f : upload) (code count message : jval)
  | Switch
  | Give (i : nat) (c : property).

(** [alone]: the page shows a file of one column too, as the page of the data
    source does. *)
Definition abs_act (alone : bool) (t : table) (a : act) : table :=
  match a with
  | Uploaded f _ _ => Table (tb_charset t) (Some f) (if alone || many f then fresh (tb_charset t) f else tb_cols t)
  | Refused _ _ _ _ => t
  | Switch =>
      let c := other_charset (tb_charset t) in
      Table c (tb_file t) (match tb_file t with Some f => fresh c f | None => tb_cols t end)
  | Give i c => Table (tb_charset t) (tb_file t) (alter (λ col, (fst col, c)) i (tb_cols t))
  end.
Definition abs_acts (alone : bool) (t : table) (l : list act) : table := List.fold_left (abs_act alone) l t.

(** A file the server shows has two lines in each encoding; a list offers what
    no column has, and the choice to take a property back. *)
Definition two_lines (f : upload) : Prop := ∀ c, ∃ header preview rest, lines_in c f = header :: preview :: rest.
Definition allowed (orig : list property) (t : table) (a : act) : Prop :=
  match a with
  | Uploaded f _ _ => two_lines f
  | Refused _ code _ _ => is_num code 1 = false
  | Switch => True
  | Give i c => (i < length (tb_cols t))%nat ∧ c ∈ orig ∧ (real (snd c) = true → c ∉ List.map snd (tb_cols t))
  end.
Fixpoint all_allowed (alone : bool) (orig : list property) (t : table) (l : list act) : Prop :=
  match l with
  | [] => True
  | a :: l' => allowed orig t a ∧ all_allowed alone orig (abs_act alone t a) l'
  end.

(** ** The handlers of the two pages *)

Definition handle (alone : bool) (a : act) : I unit :=
  let answered code f count message :=
    if alone then upload_success code f message else step2_upload_success code f count message in
  match a with
  | Uploaded f count message => answered (num 1) f count message
  | Refused f code count message => answered code f count message
  | Switch => changeCode
  | Give i c => im_repeat i (fst c) (snd c)
  end.

(** ** Facts *)

Definition cols_of (p : pool) : list (jstr * property) := List.map (λ r, (r_param r, (r_val r, r_text r))) (rows p).
(** The properties given. *)
Definition given (cols : list (jstr * property)) : list property := List.filter (λ q, real (snd q)) (List.map snd cols).

Lemma given_named p : given (cols_of p) = named (rows p).
Proof. unfold given, cols_of, named. by rewrite List.map_map. Qed.

Section session.
Context (alone : bool) (orig : list property)
  (titles_once : NoDup (List.map snd orig)) (titles_full : Forall (λ q, snd q ≠ []) orig).
Implicit Types (w : world import_page) (t : table).

Record on_table t w : Prop := {
  ot_field : single charset_field w;
  ot_charset : val_of charset_field w = VStr (tb_charset t);
  ot_file : fileData (w_glob w) = tb_file t;
  ot_lines : ∀ f, tb_file t = Some f → two_lines f;
  ot_empty : tb_file t = None → tb_cols t = [];
  ot_orig : orig_props (w_glob w) = orig;
  ot_pool : pool_ok im_repeat_fn orig (ip_pool (w_glob w));
  ot_cols : cols_of (ip_pool (w_glob w)) = tb_cols t
}.

Lemma attach_cols fn i ps l : List.map (λ r, (r_param r, (r_val r, r_text r))) (attach_menus fn i ps l)
  = List.map (λ r, (r_param r, (r_val r, r_text r))) l.
Proof. revert i. induction l as [|r l IH]; intros i; [done|]. cbn. by rewrite IH. Qed.

(** The variables after the pool is filled again and the file shown. *)
Definition shown_glob (hs : list jstr) (g : import_page) : import_page :=
  let p := ip_pool g in
  with_pool (import_props_list im_repeat_fn (column_rows hs (Pool (orig_props g) (rows p) (len p) (total p) (select_id p) (select_shown p)))) g.

Lemma shown_again w f c :
  fileData (w_glob w) = Some f → val_of charset_field w = VStr c → two_lines f →
  ∃ w', (fresh_props ;; showChar) w = (Ok tt, w') ∧ w_glob w' = shown_glob (heads (lines_in c f)) (w_glob w)
    ∧ frame_step e_val w w'.
Proof.
  intros Hf Hc Hl. destruct (Hl c) as (header & preview & rest & El).
  set (p := ip_pool (w_glob w)).
  set (w1 := set_glob (with_pool (Pool (orig_props (w_glob w)) (rows p) (len p) (total p) (select_id p) (select_shown p)) (w_glob w)) w).
  assert (fresh_props w = (Ok tt, w1)) as E1 by done.
  destruct (showChar_runs w1 f c header preview rest Hf Hc) as (w2 & E2 & G2).
  { rewrite <-El. by unfold lines_in. }
  exists w2. rewrite (bind_ok _ _ _ _ _ E1). split; [exact E2|]. split.
  - rewrite G2, El. done.
  - eapply frame_trans; [eapply frame_of, E1; unfold fresh_props; frames|]. eapply frame_of, E2. apply showChar_frames.
Qed.

Lemma shown_pool hs g : pool_ok im_repeat_fn (orig_props g) (ip_pool (shown_glob hs g))
  ∧ cols_of (ip_pool (shown_glob hs g)) = List.map (λ h, (h, no_property)) hs.
Proof.
  split.
  - apply props_list_ok. rewrite column_rows_named, app_nil_r. done.
  - unfold cols_of, shown_glob. cbn. rewrite attach_cols. by rewrite List.map_map.
Qed.

(** A page whose file was shown again. *)
Lemma shown_table w g c f :
  single charset_field w → val_of charset_field w = VStr c → two_lines f →
  fileData g = Some f → orig_props g = orig → w_glob w = shown_glob (heads (lines_in c f)) g →
  on_table (Table c (Some f) (fresh c f)) w.
Proof.
  intros Hs Hc Hl Hf Ho Hg. destruct (shown_pool (heads (lines_in c f)) g) as [Hp Hcols].
  constructor; cbn [tb_charset tb_file tb_cols]; rewrite ?Hg; try done.
  - by intros f' [= <-].
  - by rewrite <-Ho.
Qed.

(** What a handler does besides: messages, what is shown and hidden. *)
Record aside {A} (m : I A) : Prop := { as_inert : inert m; as_frames : frames e_val m }.
Lemma aside_table {A} (m : I A) t w : aside m → on_table t w → ∃ a w', m w = (Ok a, w') ∧ on_table t w'.
Proof.
  intros [Hi Hf] [H1 H2 H3 H4 H5 H6 H7 H8]. destruct (Hi w) as (a & w' & E & _ & G). exists a, w'. split; [done|].
  constructor; rewrite ?G; try done.
  - eapply frame_single; [|exact H1]. by eapply frame_of.
  - by rewrite (val_frame _ _ _ _ _ Hf E).
Qed.
Ltac aside := constructor; [inert|frames]; done.

Lemma told_aside (m : jval) : aside (error_message m (num 1) VUndef VUndef VUndef).
Proof. unfold error_message, setMaxIndex. aside. Qed.
Lemma freed_aside b : aside (del_loading b).
Proof. unfold del_loading. aside. Qed.
Lemma shown_aside sel b : aside (if b : bool then show sel else hide sel).
Proof. destruct b; aside. Qed.
Lemma html_aside sel h : aside (set_html sel h).
Proof. aside. Qed.

(** The file of an answer, shown or not. *)
Lemma filed_table t w f (b : bool) :
  on_table t w → two_lines f →
  ∃ w', (if b then fresh_props ;; showChar else skip) (set_glob (with_fileData (Some f) (w_glob w)) w) = (Ok tt, w')
    ∧ on_table (Table (tb_charset t) (Some f) (if b then fresh (tb_charset t) f else tb_cols t)) w'.
Proof.
  intros [H1 H2 H3 H4 H5 H6 H7 H8] Hl. set (w1 := set_glob (with_fileData (Some f) (w_glob w)) w).
  destruct b.
  - destruct (shown_again w1 f (tb_charset t) eq_refl H2 Hl) as (w' & E & G & F). exists w'. split; [exact E|].
    apply (shown_table w' (w_glob w1)); [by eapply frame_single| |done|done|done|done].
    etrans; [|exact H2]. unfold val_of. pose proof (frame_first e_val charset_field _ _ F) as Hv.
    change (first charset_field w1) with (first charset_field w) in Hv.
    destruct (first charset_field w'), (first charset_field w); try done. cbn in Hv. by injection Hv as ->.
  - exists w1. split; [done|]. constructor; try done. by intros f' [= <-].
Qed.

Lemma switch_table t w : on_table t w → ∃ w', changeCode w = (Ok tt, w') ∧ on_table (abs_act alone t Switch) w'.
Proof.
  intros [H1 H2 H3 H4 H5 H6 H7 H8]. set (c := other_charset (tb_charset t)).
  destruct (set_val_field charset_field c w H1) as (w1 & E1 & S1 & G1 & D1 & V1 & _).
  unfold changeCode. rewrite (bind_ok (val _) _ w (VStr (tb_charset t)) w) by (by rewrite <-H2).
  rewrite is_str_charset. change (if bool_decide (tb_charset t = js "GB2312") then js "UTF-8" else js "GB2312") with c.
  rewrite (bind_ok _ _ _ _ _ E1). cbn [abs_act]. fold c. destruct (tb_file t) as [f|] eqn:Ef.
  - destruct (shown_again w1 f c) as (w' & E & G & F); [by rewrite G1|done|by apply H4|]. exists w'. split; [exact E|].
    apply (shown_table w' (w_glob w1)); [eapply frame_single; [exact F|by apply D1]| |by apply H4|by rewrite G1|by rewrite G1|done].
    etrans; [|exact V1]. unfold val_of. pose proof (frame_first e_val charset_field _ _ F) as Hv.
    destruct (first charset_field w'), (first charset_field w1); try done. cbn in Hv. by injection Hv as ->.
  - set (p := ip_pool (w_glob w1)).
    exists (set_glob (with_pool (Pool (orig_props (w_glob w1)) (rows p) (len p) (total p) (select_id p) (select_shown p)) (w_glob w1)) w1).
    assert (rows p = []) as Hr.
    { pose proof H8 as H8'. rewrite (H5 eq_refl) in H8'. unfold cols_of in H8'. unfold p. rewrite G1.
      by destruct (rows (ip_pool (w_glob w))). }
    split.
    + unfold fresh_props, showChar. jrun. cbn. unfold p. by rewrite G1, H3.
    + constructor; cbn [tb_charset tb_file tb_cols w_glob set_glob]; try done.
      * by apply D1.
      * cbn. by rewrite G1.
      * cbn. by rewrite G1.
      * assert (len p = 0) as Hz.
        { unfold p. rewrite G1, (po_len _ _ _ H7). unfold p in Hr. rewrite G1 in Hr. by rewrite Hr. }
        constructor; cbn; rewrite Hr; [by rewrite app_nil_r, G1, H6|done|done].
      * unfold cols_of. cbn. rewrite Hr. cbn. symmetry. by apply H5.
Qed.

Lemma seq_then {A} (a b : I unit) (k : I A) w w1 : (a ;; b) w = (Ok tt, w1) → (a ;; b ;; k) w = k w1.
Proof. intros E. by rewrite <-bind_assoc, (bind_ok _ _ _ _ _ E). Qed.

Lemma answered_table t w f count message :
  on_table t w → two_lines f → ∃ w', handle alone (Uploaded f count message) w = (Ok tt, w')
    ∧ on_table (abs_act alone t (Uploaded f count message)) w'.
Proof.
  intros H Hl. destruct (Hl (js "GB2312")) as (header & preview & rest & El).
  destruct (filed_table t w f (alone || many f) H Hl) as (w1 & E1 & H1).
  assert (GB2312 f = header :: preview :: rest) as Eg by (rewrite <-El; unfold lines_in; by rewrite bool_decide_eq_true_2).
  cbn [handle abs_act]. destruct (aside_table _ _ _ (shown_aside (js ".preview_box") (alone || many f)) H1) as ([] & w2 & E2 & H2).
  set (w0 := set_glob _ w) in E1.
  assert ((if alone || many f then fresh_props ;; showChar ;; show (js ".preview_box") else hide (js ".preview_box")) w0
    = (Ok tt, w2)) as E02.
  { destruct (alone || many f); [by rewrite (seq_then _ _ _ _ _ E1)|]. injection E1 as <-. exact E2. }
  unfold many in *. rewrite Eg in *. cbn [heads] in *. destruct alone; cbn [orb] in *.
  - destruct (aside_table _ _ _ (freed_aside load_box) H2) as ([] & w3 & E3 & H3). exists w3. split; [|exact H3].
    unfold upload_success. change (is_num (num 1) 1) with true. cbv iota.
    rewrite (bind_ok _ _ w tt w2); [exact E3|]. by rewrite (bind_ok (mod_glob _) _ w tt w0 eq_refl).
  - destruct (aside_table _ _ _ (shown_aside (js "#isUpload,#isImportTag,#isExclude") true) H2) as ([] & w3 & E3 & H3).
    destruct (aside_table _ _ _ (html_aside (js "#emailCount1") (str_of_val count)) H3) as ([] & w4 & E4 & H4).
    destruct (aside_table _ _ _ (html_aside (js "#importTips") (js "（未去重）")) H4) as ([] & w5 & E5 & H5).
    destruct (aside_table _ _ _ (freed_aside load_box) H5) as ([] & w6 & E6 & H6). exists w6. split; [|exact H6].
    unfold step2_upload_success. change (is_num (num 1) 1) with true. rewrite Eg. cbv iota.
    rewrite (bind_ok _ _ w tt w5); [exact E6|]. rewrite (bind_ok (mod_glob _) _ w tt w0 eq_refl).
    rewrite (bind_ok _ _ _ _ _ E02), (bind_ok _ _ _ _ _ E3), (bind_ok _ _ _ _ _ E4). exact E5.
Qed.

Lemma refused_table t w f code count message :
  on_table t w → is_num code 1 = false →
  ∃ w', handle alone (Refused f code count message) w = (Ok tt, w') ∧ on_table t w'.
Proof.
  intros H Hc. destruct (aside_table _ _ _ (told_aside message) H) as ([] & w1 & E1 & H1).
  destruct (aside_table _ _ _ (freed_aside load_box) H1) as ([] & w2 & E2 & H2). exists w2. split; [|done].
  cbn [handle]. unfold upload_success, step2_upload_success. rewrite Hc.
  destruct alone; by rewrite (bind_ok _ _ _ _ _ E1).
Qed.

Lemma give_table t w i c :
  on_table t w → allowed orig t (Give i c) →
  ∃ w', im_repeat i (fst c) (snd c) w = (Ok tt, w') ∧ on_table (abs_act alone t (Give i c)) w'.
Proof.
  intros [H1 H2 H3 H4 H5 H6 H7 H8] (Hi & Hc & Hn). set (p := ip_pool (w_glob w)) in *.
  rewrite <-H8 in Hi. unfold cols_of in Hi. rewrite length_map in Hi.
  destruct (lookup_lt_is_Some_2 _ _ Hi) as [r Hr].
  assert (c ∈ props p) as Hin.
  { rewrite <-(po_all _ _ _ H7) in Hc. apply elem_of_app in Hc as [Hc|Hc]; [done|]. exfalso.
    rewrite <-given_named, H8 in Hc. unfold given in Hc. apply list_elem_of_In, filter_In in Hc as [Hc Hreal].
    apply (Hn Hreal). by apply list_elem_of_In. }
  destruct (repeat_cols im_repeat_fn orig titles_once titles_full p i r c H7 Hr Hin) as (p' & E & Hp' & Hcols).
  unfold im_repeat. rewrite (bind_ok get_glob _ w (w_glob w) w eq_refl). fold p. rewrite E.
  eexists. split; [reflexivity|]. constructor; try done.
  - cbn. intros E0. rewrite (H5 E0) in H8. rewrite <-H8. by destruct p as [? [|]].
  - etrans; [exact Hcols|]. cbn [abs_act tb_cols]. by rewrite <-H8.
Qed.

Lemma act_table t w a :
  on_table t w → allowed orig t a → ∃ w', handle alone a w = (Ok tt, w') ∧ on_table (abs_act alone t a) w'.
Proof.
  intros H Ha. destruct a as [f count message|f code count message| |i c].
  - by apply answered_table.
  - by apply refused_table.
  - by apply switch_table.
  - by apply give_table.
Qed.

Lemma acts_table t w es :
  on_table t w → all_allowed alone orig t es →
  ∃ w', for_each es (handle alone) w = (Ok tt, w') ∧ on_table (abs_acts alone t es) w'.
Proof.
  revert t w. induction es as [|e es IH]; intros t w H Ha; [by exists w|]. destruct Ha as [He Ha].
  destruct (act_table t w e H He) as (w1 & E1 & H1). destruct (IH _ w1 H1 Ha) as (w' & E & R).
  exists w'. split; [|done]. cbn [for_each]. by rewrite (bind_ok _ _ _ _ _ E1).
Qed.
End session.

(** What the check of the variables reads of the table. *)
Definition fits (go : bool) (variables : jstr) (cols : list (jstr * property)) : Prop :=
  cols = [] ∨ variables = [] ∨ go = true
  ∨ ∀ p, p ∈ splitc c_comma variables → p ∈ List.map (λ col, snd (snd col)) cols.
Definition told_go (w : world import_page) : bool :=
  match first igType w ≫= λ e, e_attr e !! js "flag" with Some v => bool_decide (v = js "go") | None => false end.

(** C12 -- Over any sequence of uploads, refusals, changes of the encoding and choices
    of properties no handler throws, and the page implements the abstract table:
    a file shown starts with columns without a property, in the heads of its
    encoding, and a choice gives one column the property; every property is
    offered or given to exactly one column; and the check of the variables of
    the template answers for the columns of that table. *)
Theorem columns_session alone orig es t (w : world import_page) :
  NoDup (List.map snd orig) → Forall (λ q, snd q ≠ []) orig → on_table orig t w → all_allowed alone orig t es →
  let cols := tb_cols (abs_acts alone t es) in
  ∃ w', for_each es (handle alone) w = (Ok tt, w')
    ∧ on_table orig (abs_acts alone t es) w'
    ∧ props (ip_pool (w_glob w')) ++ given cols ≡ₚ orig ∧ NoDup (List.map snd (given cols))
    ∧ ∃ b w'', testProps w' = (Ok b, w'') ∧ (b = true ↔ fits (told_go w') (parameters (w_glob w')) cols).
Proof.
  intros Hn Hf H Ha cols. destruct (acts_table alone orig Hn Hf t w es H Ha) as (w' & E & H').
  exists w'. split; [done|]. split; [done|].
  assert (props (ip_pool (w_glob w')) ++ given cols ≡ₚ orig) as Hall.
  { unfold cols. rewrite <-(ot_cols _ _ _ H'), given_named. apply (ot_pool _ _ _ H'). }
  split; [done|]. split.
  - pose proof (perm_titles _ _ Hall Hn) as Hd. rewrite List.map_app in Hd. by apply NoDup_app in Hd as (_ & _ & Hd).
  - destruct (testProps_spec w') as (b & w'' & Eb & _ & _ & Hb). exists b, w''. split; [done|]. rewrite Hb.
    assert (named_texts (w_glob w') = List.map (λ col, snd (snd col)) cols) as ->.
    { unfold cols. rewrite <-(ot_cols _ _ _ H'). unfold cols_of, named_texts. by rewrite List.map_map. }
    unfold fits, told_go. split; (intros [Hc|R]; [left|right; exact R]).
    + by destruct cols.
    + by rewrite Hc.
Qed.

(** A file of one column that the page does not show leaves the columns of the
    file before it, with what they were given: they are still sent and
    checked. *)
Lemma single_column_keeps t f count message :
  many f = false → tb_cols (abs_act false t (Uploaded f count message)) = tb_cols t.
Proof. intros H. cbn [abs_act tb_cols orb]. by rewrite H. Qed.

(** *** A page to try it on *)

Definition demo_orig : list property := [([], unset); (js "p1", js "a"); (js "p2", js "b")].
Definition demo_file : upload := Upload [js "x,y"; js "1,2"] [js "u,v"; js "1,2"].
Definition demo_single : upload := Upload [js "x"; js "1"] [js "x"; js "1"].
Definition demo_columns : world import_page :=
  page_with [(charset_field, with_val (js "GB2312") blank)]
    (ImportPage ∅ [] (Flat []) None (Pool demo_orig [] 0 0 [] false) demo_orig (js "b") None).
Definition demo_table : table := Table (js "GB2312") None [].
Definition demo_acts : list act :=
  [Uploaded demo_file (num 9) VUndef; Give 0 (js "p1", js "a"); Switch; Give 1 (js "p2", js "b"); Uploaded demo_single (num 1) VUndef].

Lemma columns_session_witness :
  ∃ w', for_each demo_acts (handle false) demo_columns = (Ok tt, w')
    ∧ cols_of (ip_pool (w_glob w')) = [(js "u", no_property); (js "v", (js "p2", js "b"))]
    ∧ fileData (w_glob w') = Some demo_single.
Proof.
  assert (∀ f, f = demo_file ∨ f = demo_single → two_lines f) as Hl.
  { intros f [-> | ->] c; unfold lines_in; destruct (bool_decide _); do 3 eexists; reflexivity. }
  destruct (columns_session false demo_orig demo_acts demo_table demo_columns) as (w' & E & H & _).
  - vm_compute. repeat constructor; not_in.
  - vm_compute. by repeat constructor.
  - constructor; try done. on_page.
  - split; [apply Hl; by left|]. split; [|split; [done|split; [|split; [apply Hl; by right|done]]]].
    + split; [vm_compute; lia|]. split; [by apply list_elem_of_further, list_elem_of_here|]. intros _. not_in.
    + split; [vm_compute; lia|]. split; [by do 2 apply list_elem_of_further; apply list_elem_of_here|]. intros _. not_in.
  - exists w'. split; [exact E|]. split.
    + rewrite (ot_cols _ _ _ H). vm_compute. reflexivity.
    + rewrite (ot_file _ _ _ H). reflexivity.
Defined.
