(* ===== verification/Compare.v ===== *)
(** * Comparing periods of a campaign -- [report.detail.compare.js] *)

From S2P Require Import Prelude Js JsFacts Page Layout TagList Url Base.
#[local] Open Scope Z_scope.

(** ** The months and seasons to choose from *)

(** [for(..){arr.unshift(f(k)); if(stop(k)) break;}] *)
Fixpoint unshift_until {A} (stop : Z → bool) (f : Z → A) (ks : list Z) (arr : list A) : list A :=
  match ks with
  | [] => arr
  | k :: ks' => if stop k then f k :: arr else unshift_until stop f ks' (f k :: arr)
  end.
(** Three years, the last one up to [last]. *)
Definition three_years {A} (f : Z → Z → A) (ks : list Z) (nowYear last : Z) (arr : list A) : list A :=
  List.fold_left (λ arr y, unshift_until (λ k, (y =? nowYear) && (k =? last)) (f y) ks arr)
    [nowYear - 2; nowYear - 1; nowYear] arr.

Definition month_entry (y k : Z) : jstr * jstr :=
  (if k <? 10 then str_of_Z y ++ js "0" ++ str_of_Z k else str_of_Z y ++ str_of_Z k,
   str_of_Z y ++ js "年" ++ str_of_Z k ++ js "月").
Definition season_entry (y k : Z) : jstr * jstr :=
  (str_of_Z y ++ str_of_Z k, str_of_Z y ++ js "年" ++ str_of_Z k ++ js "季").
Definition dataMonths : list Z := [1; 2; 3; 4; 5; 6; 7; 8; 9; 10; 11; 12].
Definition dataSeasons : list Z := [1; 2; 3; 4].
(** [Math.floor(nowMonth%3==0 ? nowMonth/3 : nowMonth/3+1)] *)
Definition currentSeason (nowMonth : Z) : Z :=
  if nowMonth mod 3 =? 0 then nowMonth / 3 else nowMonth / 3 + 1.

(** [createDateArr()], on [dateArr] and [seasonArr]. *)
Definition createDateArr (nowYear nowMonth : Z) (dateArr seasonArr : list (jstr * jstr)) :
    list (jstr * jstr) * list (jstr * jstr) :=
  (three_years month_entry dataMonths nowYear nowMonth dateArr,
   three_years season_entry dataSeasons nowYear (currentSeason nowMonth) seasonArr).

(** ** The choice of the periods *)

Section scripts.
(** The page's campaign. *)
Context {G : Type} (cid : jstr).

(** [$('#periodId').val()] in a string. *)
Definition period : J G jstr := v ← val (js "#periodId"); mret (str_of_val v).

(** [postParam()] *)
Definition postParam : J G unit :=
  text ← period;
  num ← val (js "#" ++ text ++ js "Box input[type=hidden]");
  if is_str num "otherMonth" then openPop (Js.num 0) None (Some (js "#monthPad"))
  else if is_str num "otherSeason" then openPop (Js.num 0) None (Some (js "#seasonPad"))
  else emit (EvAssign (js "/report/detail/campaign/compare?campaignId=" ++ cid ++ js "&m=" ++ text
                       ++ js "&recents=" ++ str_of_val num)).

(** [swicthBox()] *)
Definition swicthBox : J G unit :=
  text ← period;
  hide (js ".prd_box") ;;
  show (js "#" ++ text ++ js "Box") ;;
  postParam.

(** The values chosen, the empty ones apart. *)
Definition chosen (sel : jstr) : J G (list jstr) :=
  l ← elts_of sel;
  mret (List.filter (λ v, negb (bool_decide (v = []))) (List.map e_val l)).

(** The buttons of the two pads; [fst_], [snd_] are the ones that must be
    chosen. *)
Definition compare_click (fst_ snd_ err inputs : jstr) : J G unit :=
  a ← val fst_;
  b ← val snd_;
  if bool_decide (a = VStr []) || bool_decide (b = VStr [])
  then set_html err (js "请选择必填项")
  else
    arr ← chosen inputs;
    if isRepeat arr then set_html err (js "请去除重复选择")
    else
      text ← period;
      emit (EvAssign (js "compare?campaignId=" ++ cid ++ js "&m=" ++ text ++ js "&checkeds="
                      ++ join [c_comma] arr)) ;;
      closeDialog.
Definition smt_click : J G unit :=
  compare_click (js "#m_0") (js "#m_1") (js "#monthPad .err") (js "input[name=mth]").
Definition seasonBtn_click : J G unit :=
  compare_click (js "#s_0") (js "#s_1") (js "#seasonPad .err") (js "input[name=sth]").

(** [campaign_exports(cid)] *)
Definition campaign_exports (c : jstr) : J G unit :=
  if bool_decide (c = []) then error_text (js "没有需要导出的对比报告") 1
  else
    m ← val (js "#periodId");
    recents ← val (js ".btn .prd_box:visible input");
    arr ← (if is_str recents "otherSeason" then chosen (js "input[name=sth]")
           else if is_str recents "otherMonth" then chosen (js "input[name=mth]")
           else mret []);
    emit (EvAssign (js "/report/export/campaign/compare?campaignId=" ++ c ++ js "&m=" ++ str_of_val m
                    ++ js "&recents=" ++ str_of_val recents ++ js "&checkeds=" ++ join [c_comma] arr)).
End scripts.

(** ** Facts *)

Section facts.

Lemma unshift_until_map {A B} (g : A → B) stop (f : Z → A) ks arr :
  unshift_until stop (λ k, g (f k)) ks (List.map g arr) = List.map g (unshift_until stop f ks arr).
Proof.
  revert arr. induction ks as [|k ks IH]; intros arr; [done|]. cbn.
  destruct (stop k); [done|]. apply (IH (f k :: arr)).
Qed.

(** The entries are those of the pairs of a year and a number. *)
Lemma three_years_map {A} (f : Z → Z → A) ks y last :
  three_years f ks y last [] = List.map (λ p, f (fst p) (snd p)) (three_years pair ks y last []).
Proof.
  unfold three_years. cbn [List.fold_left].
  assert (∀ y' stop arr, unshift_until stop (f y') ks (List.map (λ p, f (fst p) (snd p)) arr)
    = List.map (λ p, f (fst p) (snd p)) (unshift_until stop (pair y') ks arr)) as H
    by (intros; by rewrite <-(unshift_until_map (λ p, f (fst p) (snd p)))).
  rewrite <-!H. done.
Qed.

(** Counting the months (seasons) from year 0. *)
Definition ordinal (n : Z) (p : Z * Z) : Z := n * fst p + snd p - 1.
Definition countdown (from : Z) (n : nat) : list Z := List.map (λ i, from - Z.of_nat i) (seq 0 n).

Lemma unshift_none {A} (f : Z → A) ks arr : unshift_until (λ _, false) f ks arr = rev (List.map f ks) ++ arr.
Proof.
  revert arr. induction ks as [|k ks IH]; intros arr; [done|]. cbn. by rewrite IH, <-app_assoc.
Qed.
Lemma unshift_until_ext {A} (s t : Z → bool) (f : Z → A) ks arr :
  (∀ k, s k = t k) → unshift_until s f ks arr = unshift_until t f ks arr.
Proof. intros H. revert arr. induction ks as [|k ks IH]; intros arr; [done|]. cbn. by rewrite H, IH. Qed.

(** The loop stops in the last year only. *)
Lemma three_years_last {A} (f : Z → Z → A) ks y last :
  three_years f ks y last []
  = unshift_until (λ k, k =? last) (f y) ks (rev (List.map (f (y - 1)) ks) ++ rev (List.map (f (y - 2)) ks)).
Proof.
  unfold three_years. cbn [List.fold_left].
  rewrite (unshift_until_ext _ (λ k, k =? last) (f y)) by (intros k; by rewrite Z.eqb_refl).
  rewrite (unshift_until_ext _ (λ _, false) (f (y - 1))) by (intros k; by replace (y - 1 =? y) with false by lia).
  rewrite (unshift_until_ext _ (λ _, false) (f (y - 2))) by (intros k; by replace (y - 2 =? y) with false by lia).
  by rewrite !unshift_none, app_nil_r.
Qed.

Ltac each_one :=
  rewrite three_years_last; unfold countdown, ordinal; cbn -[Z.add Z.sub Z.mul];
  repeat (apply (f_equal2 cons); [lia|]); done.

Lemma months_ordinal y m :
  1 <= m <= 12 →
  List.map (ordinal 12) (three_years pair dataMonths y m []) = countdown (ordinal 12 (y, m)) (24 + Z.to_nat m).
Proof.
  intros H. assert (m = 1 ∨ m = 2 ∨ m = 3 ∨ m = 4 ∨ m = 5 ∨ m = 6 ∨ m = 7 ∨ m = 8 ∨ m = 9 ∨ m = 10
    ∨ m = 11 ∨ m = 12) as Hm by lia. clear H.
  repeat destruct Hm as [->|Hm]; [..|subst m]; each_one.
Qed.

Lemma seasons_ordinal y q :
  1 <= q <= 4 →
  List.map (ordinal 4) (three_years pair dataSeasons y q []) = countdown (ordinal 4 (y, q)) (8 + Z.to_nat q).
Proof.
  intros H. assert (q = 1 ∨ q = 2 ∨ q = 3 ∨ q = 4) as Hq by lia. clear H.
  repeat destruct Hq as [->|Hq]; [..|subst q]; each_one.
Qed.

Lemma currentSeason_range m : 1 <= m <= 12 → 1 <= currentSeason m <= 4 ∧ 3 * currentSeason m - 2 <= m <= 3 * currentSeason m.
Proof. intros H. unfold currentSeason. pose proof (Z.div_mod m 3). destruct (Z.eqb_spec (m mod 3) 0); lia. Qed.
End facts.

(** The lists offer the current month (season) first and then, one by one, all
    those before it back to the first of two years ago, and no other. *)
Theorem createDateArr_spec y m :
  1 <= m <= 12 →
  ∃ ms ss, createDateArr y m [] [] = (List.map (λ p, month_entry (fst p) (snd p)) ms,
                                     List.map (λ p, season_entry (fst p) (snd p)) ss)
    ∧ List.map (ordinal 12) ms = countdown (ordinal 12 (y, m)) (24 + Z.to_nat m)
    ∧ List.map (ordinal 4) ss = countdown (ordinal 4 (y, currentSeason m)) (8 + Z.to_nat (currentSeason m))
    ∧ 3 * currentSeason m - 2 <= m <= 3 * currentSeason m.
Proof.
  intros H. destruct (currentSeason_range m H) as [Hq Hm].
  exists (three_years pair dataMonths y m []), (three_years pair dataSeasons y (currentSeason m) []).
  split; [unfold createDateArr; by rewrite (three_years_map month_entry), (three_years_map season_entry)|].
  split; [by apply months_ordinal|]. split; [by apply seasons_ordinal|done].
Qed.

(** The periods chosen are compared exactly when the two first ones are chosen
    and none is chosen twice; the address names them all, in their order. *)
Theorem compare_click_spec {G} cid fst_ snd_ err inputs (w : world G) :
  let arr := List.filter (λ v, negb (bool_decide (v = []))) (List.map e_val (List.map (nth_elt w) (found inputs w))) in
  (∀ x, x ∈ arr → x ∉ proto_names) →
  ∃ w', compare_click cid fst_ snd_ err inputs w = (Ok tt, w')
    ∧ w_ev w' = w_ev w ++
        (if decide (val_of fst_ w ≠ VStr [] ∧ val_of snd_ w ≠ VStr [] ∧ NoDup arr)
         then [EvAssign (js "compare?campaignId=" ++ cid ++ js "&m=" ++ str_of_val (val_of (js "#periodId") w)
                         ++ js "&checkeds=" ++ join [c_comma] arr)]
         else []).
Proof.
  intros arr Hp. unfold compare_click.
  rewrite (bind_ok (val fst_) _ w (val_of fst_ w) w eq_refl), (bind_ok (val snd_) _ w (val_of snd_ w) w eq_refl).
  assert (∀ m, w_ev (set_html err m w).2 = w_ev w) as He by done.
  destruct (bool_decide (val_of fst_ w = VStr []) || bool_decide (val_of snd_ w = VStr [])) eqn:E.
  { eexists. split; [reflexivity|]. rewrite decide_False; [by rewrite app_nil_r|].
    intros (H1 & H2 & _). by rewrite !bool_decide_eq_false_2 in E. }
  bool_simp. rewrite (bind_ok (chosen inputs) _ w arr w eq_refl). unfold isRepeat.
  destruct (repeat_from [] arr) eqn:R.
  - eexists. split; [reflexivity|]. rewrite decide_False; [by rewrite app_nil_r|].
    intros (_ & _ & Hn). assert (repeat_from [] arr = false); [|congruence].
    apply repeat_from_spec; [done|]. split; [done|]. intros x _. by apply not_elem_of_nil.
  - apply repeat_from_spec in R as [Hn _]; [|done]. rewrite decide_True by done.
    rewrite (bind_ok (period (G := G)) _ w (str_of_val (val_of (js "#periodId") w)) w eq_refl).
    eexists. split; [reflexivity|]. done.
Qed.

Lemma createDateArr_spec_witness :
  1 <= 5 <= 12 ∧ ∃ ms, fst (createDateArr 2014 5 [] []) = List.map (λ p, month_entry (fst p) (snd p)) ms
    ∧ List.map (ordinal 12) ms = countdown (ordinal 12 (2014, 5)) 29.
Proof.
  split; [lia|]. destruct (createDateArr_spec 2014 5 ltac:(lia)) as (ms & ss & E & M & _).
  exists ms. rewrite E. split; [reflexivity|exact M].
Defined.

Definition demo_compare : world unit :=
  page_with [(js "#m_0", with_val (js "201405") blank); (js "#m_1", with_val (js "201404") blank)] tt.
Lemma compare_click_spec_witness :
  ∃ w', compare_click (js "9") (js "#m_0") (js "#m_1") (js ".err") (js "#m_0") demo_compare = (Ok tt, w')
    ∧ w_ev w' = [EvAssign (js "compare?campaignId=9&m=undefined&checkeds=201405")].
Proof.
  destruct (compare_click_spec (js "9") (js "#m_0") (js "#m_1") (js ".err") (js "#m_0") demo_compare)
    as (w' & E & V).
  - intros x Hx. assert (x = js "201405") as ->; [|not_in].
    vm_compute in Hx. by apply list_elem_of_singleton in Hx.
  - exists w'. split; [exact E|]. rewrite V. vm_compute. reflexivity.
Defined.
