(* ===== verification/Account.v ===== *)
(** * Accounts and the log-in -- [account.user.add.js], [account.password.js],
    [settings.js], [login.js]

    A user is given a share of the corporation's sending total and a role; the
    log-in form checks what is typed and reacts to the server's answer. *)

From S2P Require Import Prelude Js JsFacts Page Layout TagList Url Base Search.
#[local] Open Scope Z_scope.

Section scripts.
Context {G : Type}.

(** ** The forms of the account pages *)

(** [form.name.value] of the form [f]. *)
Definition control_of (f : jstr) (name : string) : jstr := f ++ js "." ++ js name.
Definition control_value (f : jstr) (name : string) : J G jstr := value0 (control_of f name).
(** A control that must not be empty: the banner, the focus, the overlay. *)
Definition must_fill (f : jstr) (name : string) (mess : jstr) (overlay : bool) (rest : J G bool) : J G bool :=
  v ← control_value f name;
  if bool_decide (v = [])
  then error_text mess 1 ;; emit (EvFocus (control_of f name)) ;;
       when overlay (del_loading None) ;; mret false
  else rest.
Definition add_form : jstr := js "#add".

(** The user form: a password is asked for only from a new user. *)
Definition user_beforeSubmit : J G bool :=
  loading None None ;;
  must_fill add_form "userId" (js "请输入用户名") true
  (org ← control_value add_form "orgUserId";
   (if bool_decide (org = []) then must_fill add_form "password" (js "请输入密码") true else λ rest, rest)
   (must_fill add_form "email" (js "请输入邮箱地址") true (mret true))).
Definition user_success (code message : jval) : J G unit :=
  (if is_num code 1
   then error_message message (num 0) (num 0) (num 1000) (VStr (js "/account/user/page"))
   else error_message message (num 1) VUndef VUndef VUndef) ;;
  del_loading None.

Definition password_beforeSubmit : J G bool :=
  loading None None ;;
  must_fill add_form "oldPassword" (js "请输入原密码") true
  (must_fill add_form "password" (js "请输入新密码") true
  (must_fill add_form "passwordConfirm" (js "请输入确认密码") true (mret true))).
Definition password_success (code message : jval) : J G unit :=
  set_val (js "input[name=oldPassword]") [] ;;
  set_val (js "input[name=password]") [] ;;
  set_val (js "input[name=passwordConfirm]") [] ;;
  (if is_num code 1 then error_message message VUndef VUndef VUndef VUndef
   else error_message message (num 1) VUndef VUndef VUndef) ;;
  del_loading None.

Definition settings_beforeSubmit : J G bool :=
  must_fill (js "#settings") "password" (js "请输入密码") false
  (must_fill (js "#settings") "passwordConfirm" (js "请输入重复密码") false (mret true)).
Definition settings_success (code message : jval) : J G unit :=
  if is_str code "1"
  then error_message message (num 0) (num 0) (num 1000) (VStr (js "/login"))
  else error_message message (num 1) VUndef VUndef VUndef.

(** ** The user's corporation and role *)

(** [postHook(obj,id)]; [level] is the choice's [data-level]. *)
Definition postHook (o : node) (level id : jstr) : J G unit :=
  pickData o id ;;
  set_attr (js "#corpId") (js "data-level") level ;;
  if bool_decide (level = js "1") then hide (js ".Jhook")
  else if bool_decide (level = js "0") then show (js ".Jhook")
  else skip.

(** The roles of the other level are hidden: [sortFn] of [#role], on the
    [data-level] of each role. *)
Definition role_sort (isChild : jval) (l : list (jval * bool)) : list (jval * bool) :=
  List.map (λ r, if negb (loose_eq isChild (fst r)) then (fst r, false) else r) l.

(** [sendFunc(obj)]: the lines of the role picked. *)
Definition role_html (modelList : list (jval * list jstr)) (id : jval) : jstr :=
  List.flat_map (λ m, if loose_eq (fst m) id then List.flat_map (λ i, i ++ js "<br>") (snd m) else []) modelList.
Definition sendFunc (modelList : list (jval * list jstr)) (o : node) : J G unit :=
  pickData o (js "#role2") ;;
  id ← val (js "#roleId2");
  set_html (js "#funcDesc") (role_html modelList id) ;;
  hide (js "#slideSearch5").
Definition triggerHelp : J G unit :=
  openPop (num 0) None (Some (js "#remindRole")) ;;
  emit (EvClick (js "#role2")) ;;
  emit (EvClick (js "#slideSearch5 a:first")).

(** ** The sending total *)

Definition raise_field : jstr := js "input[name=raiseSum]".
Definition total_field : jstr := js "input[name=totalSend]".
Definition surplus_box : jstr := js "#surplus".
Definition sum_box : jstr := js "#totalSum".
(** [isNaN(v)] *)
Definition isNaN (v : jval) : bool := is_nan (num_of_val v).
(** [''+n] of what [parseInt] read. *)
Definition int_of (v : jval) : jnum := parseInt (str_of_val v).

(** [addSum()] *)
Definition addSum : J G unit :=
  raiseSum ← val raise_field;
  totalSend ← val total_field;
  surplus ← html surplus_box;
  totalSum ← html sum_box;
  if is_str totalSend ""
  then error_text (js "最大发送总量不能为空") 1 ;; emit (EvFocus total_field)
  else if isNaN totalSend
  then error_text (js "最大发送总量只能为数字") 1 ;; emit (EvFocus total_field)
  else if is_str raiseSum ""
  then error_text (js "增加的投递总量不能为空") 1 ;; emit (EvFocus raise_field)
  else if isNaN raiseSum
  then error_text (js "增加的投递总量只能为数字") 1 ;; emit (EvFocus raise_field)
  else
    let raise := int_of raiseSum in
    let assign := int_of totalSend in
    let sur := int_of surplus in
    let total := int_of totalSum in
    if num_le (num_sub total raise) (JInt 0)
    then error_text (js "不足以分配") 1
    else
      set_val total_field (str_of_num (num_add assign raise)) ;;
      set_html surplus_box (str_of_num (num_add sur raise)) ;;
      set_html sum_box (str_of_num (num_sub total raise)).

(** ** The log-in page *)

Definition login_err : jstr := js "#login_form .err".
Definition submit_button : jstr := js "input[name=submit]".
Definition loginStart : J G unit := addClass submit_button (js "submit_load").
Definition loginEnd : J G unit := removeClass submit_button (js "submit_load").
Definition kaptcha : jstr := js "input[name=kaptcha]".
(** [refresh()] *)
Definition refresh : J G unit :=
  set_val kaptcha [] ;;
  emit (EvFocus kaptcha) ;;
  now ← gets w_now;
  set_attr (js "#kaptcha") (js "src") (js "/kaptcha.jpg?" ++ str_of_Z now).

(** A field of the form that is empty. *)
Definition login_need (name : string) (mess : jstr) (rest : J G bool) : J G bool :=
  v ← control_value (js "#login_form") name;
  if bool_decide (v = [])
  then set_html login_err mess ;; emit (EvFocus (control_of (js "#login_form") name)) ;;
       loginEnd ;; mret false
  else rest.
Definition login_beforeSubmit : J G bool :=
  set_html login_err [] ;;
  login_need "j_username" (js "请输入用户名")
  (login_need "j_password" (js "请输入密码")
  (o ← gets (first kaptcha);
   let hidden_ := match o with Some e => negb (e_shown e) | None => false end in
   (if hidden_ then λ rest, rest else login_need "kaptcha" (js "请输入验证码")) (mret true))).
Definition login_error : J G unit := loginEnd ;; set_html login_err (js "登录超时").

Definition user_name : jstr := js "input[name=j_username]".
Definition password : jstr := js "input[name=j_password]".
(** The messages after which the name, the password or the code is typed
    again. *)
Definition bad_account (m : jstr) : bool := bool_decide (m ∈ [js "账号输入有误"; js "账号已失效"]).
Definition bad_password (m : jstr) : bool := bool_decide (m = js "密码输入有误").
Definition bad_code (m : jstr) : bool := bool_decide (m ∈ [js "验证码输入有误"; js "验证码超时"; js "登录超时"]).
Definition login_success (code assign : jval) (message : jstr) (count : jval) : J G unit :=
  if is_str code "1"
  then
    when (is_str assign "AROUND" || is_str assign "ALREADY" || is_str assign "NOTNOW")
      (emit (EvAlert message)) ;;
    emit (EvAssign (js "/"))
  else
    loginEnd ;;
    (if bad_account message
     then set_val user_name [] ;; emit (EvFocus user_name) ;; set_val password [] ;; set_val kaptcha []
     else if bad_password message then set_val password [] ;; emit (EvFocus password)
     else if bad_code message then set_val kaptcha [] ;; emit (EvFocus kaptcha)
     else emit (EvFocus user_name)) ;;
    refresh ;;
    when (gt_num count 4) (show (js "#code_li")) ;;
    set_html login_err message.

(** The three fields show their label while they are empty. *)
Definition login_field_focus (sel : jstr) : J G unit := removeClass sel (js "bg").
Definition login_field_blur (sel : jstr) : J G unit :=
  v ← val sel;
  if bool_decide (v = VStr []) then addClass sel (js "bg") else removeClass sel (js "bg").

(** The form of a lost password. *)
Definition forget_err : jstr := js "#forget_form .err".
Definition forget_beforeSubmit : J G bool :=
  loading (Some (js ".msg_content")) (Some (js ".load_img")) ;;
  set_html forget_err [] ;;
  v ← control_value (js "#forget_form") "userId";
  if bool_decide (v = [])
  then del_loading (Some (js ".load_img")) ;; set_html forget_err (js "请输入用户名") ;;
       emit (EvFocus (control_of (js "#forget_form") "userId")) ;; mret false
  else mret true.
Definition forget_success (message : jstr) : J G unit :=
  del_loading (Some (js ".load_img")) ;; set_html forget_err message.
Definition forget_error : J G unit := set_html forget_err (js "邮件发送超时").
End scripts.

(** ** Facts *)

Section facts.
Context {G : Type}.
Implicit Types w : world G.

Definition html_of (sel : jstr) w : jval :=
  match first sel w with Some e => VStr (e_html e) | None => VNull end.

Lemma val_html sel k v w : val_of sel (upd (with_html v) k w) = val_of sel w.
Proof.
  unfold val_of, first. change (found sel (upd (with_html v) k w)) with (found sel w).
  destruct (found sel w); [done|]. f_equal. by apply (upd_proj e_val).
Qed.

Lemma int_of_str z : 0 <= z <= pow2_53 → int_of (VStr (str_of_Z z)) = JInt z.
Proof.
  intros Hz. unfold int_of. cbn [str_of_val]. rewrite parseInt_str_of_Z by lia. apply round53_exact. lia.
Qed.

(** What [addSum] reads: four numbers of mails. *)
Record sums (assign raise sur total : Z) w : Prop := {
  sm_assign : val_of total_field w = VStr (str_of_Z assign);
  sm_raise : val_of raise_field w = VStr (str_of_Z raise);
  sm_sur : html_of surplus_box w = VStr (str_of_Z sur);
  sm_total : html_of sum_box w = VStr (str_of_Z total);
  sm_range : Forall (λ z, 0 <= z <= 2 ^ 52) [assign; raise; sur; total]
}.
Record sums_page w : Prop := {
  sp_assign : single total_field w;
  sp_sur : single surplus_box w;
  sp_total : single sum_box w;
  sp_apart : apart surplus_box sum_box w
}.

Lemma addSum_reads assign raise sur total w :
  sums assign raise sur total w →
  addSum w = (if total - raise <=? 0 then error_text (js "不足以分配") 1
              else set_val total_field (str_of_num (JInt (assign + raise))) ;;
                   set_html surplus_box (str_of_num (JInt (sur + raise))) ;;
                   set_html sum_box (str_of_num (JInt (total - raise)))) w.
Proof.
  intros [Ha Hr Hs Ht Hb]. repeat (apply Forall_cons in Hb as [? Hb]).
  assert (2 ^ 52 + 2 ^ 52 = pow2_53) as Hp by done.
  unfold addSum. rewrite (bind_ok (val raise_field) _ w (val_of raise_field w) w eq_refl), Hr.
  rewrite (bind_ok (val total_field) _ w (val_of total_field w) w eq_refl), Ha.
  rewrite (bind_ok (html surplus_box) _ w (html_of surplus_box w) w eq_refl), Hs.
  rewrite (bind_ok (html sum_box) _ w (html_of sum_box w) w eq_refl), Ht.
  unfold isNaN. cbn [num_of_val]. rewrite !str_not_empty, !to_number_str_of_Z by lia. cbn [is_nan].
  rewrite !int_of_str by lia. unfold num_sub. cbn [num_neg].
  rewrite !num_add_exact by lia. unfold num_le, num_lt, num_eq.
  replace (total - raise <=? 0) with ((total + - raise <? 0) || bool_decide (JInt (total + - raise) = JInt 0)).
  2: { destruct (Z.ltb_spec (total + - raise) 0), (Z.leb_spec (total - raise) 0); cbn; try lia; try done;
       [apply bool_decide_eq_true|apply bool_decide_eq_false]; [f_equal; lia|intros [=]; lia]. }
  done.
Qed.
End facts.

(** Giving a user more mails: the amount goes from what is left to the user's
    total and surplus, nothing is lost, and something must be left; a request
    for more changes nothing. *)
Theorem addSum_moves {G} assign raise sur total (w : world G) :
  sums assign raise sur total w → sums_page w →
  ∃ w', addSum w = (Ok tt, w') ∧
    if 0 <? total - raise
    then val_of total_field w' = VStr (str_of_Z (assign + raise))
         ∧ html_of surplus_box w' = VStr (str_of_Z (sur + raise))
         ∧ html_of sum_box w' = VStr (str_of_Z (total - raise))
         ∧ (assign + raise) + (total - raise) = assign + total
    else w_elt w' = w_elt w ∧ ∃ b, u_banner (w_ui w') = Some b ∧ bn_text b = js "不足以分配".
Proof.
  intros Hs [H1 H2 H3 H4]. rewrite (addSum_reads _ _ _ _ _ Hs). destruct Hs as [_ _ _ _ Hb].
  repeat (apply Forall_cons in Hb as [? Hb]). assert (2 ^ 52 + 2 ^ 52 = pow2_53) as Hp by done.
  replace (total - raise <=? 0) with (negb (0 <? total - raise)) by lia.
  destruct (Z.ltb_spec 0 (total - raise)) as [Hlt|Hlt]; cbn [negb].
  - rewrite !str_of_int by lia.
    set (a := str_of_Z (assign + raise)). set (b := str_of_Z (sur + raise)). set (c := str_of_Z (total - raise)).
    set (w1 := upd (with_val a) (found total_field w) w).
    set (w2 := upd (with_html b) (found surplus_box w1) w1).
    exists (upd (with_html c) (found sum_box w2) w2). split; [reflexivity|].
    repeat split.
    + rewrite val_html. unfold w2. rewrite val_html. unfold val_of, w1. rewrite on_first by done. by destruct (single_first _ _ H1) as [e ->].
    + unfold html_of. rewrite first_upd_ne by exact H4. unfold w2.
      rewrite on_first by (by apply upd_single).
      by destruct (single_first surplus_box w1) as [e ->]; [by apply upd_single|].
    + unfold html_of. rewrite on_first by (by repeat apply upd_single).
      by destruct (single_first sum_box w2) as [e ->]; [by repeat apply upd_single|].
    + lia.
  - destruct (error_message_runs (VStr (js "不足以分配")) (num 1) VUndef VUndef VUndef w)
      as (w' & E & He & _ & _ & _ & _ & _ & _ & (b & Hbn & _ & Ht & _) & _).
    exists w'. split; [done|]. split; [done|]. by exists b.
Qed.

(** Spaces pass for a number: the totals become the text NaN. *)
Theorem addSum_blank {G} (w : world G) a s t :
  val_of total_field w = VStr (str_of_Z a) → 0 <= a <= pow2_53 → val_of raise_field w = VStr (js " ") →
  html_of surplus_box w = VStr s → html_of sum_box w = VStr t → single total_field w →
  ∃ w', addSum w = (Ok tt, w') ∧ val_of total_field w' = VStr (js "NaN").
Proof.
  intros Ha Hr Hb Hs Ht H1. unfold addSum.
  rewrite (bind_ok (val raise_field) _ w (val_of raise_field w) w eq_refl), Hb.
  rewrite (bind_ok (val total_field) _ w (val_of total_field w) w eq_refl), Ha.
  rewrite (bind_ok (html surplus_box) _ w (html_of surplus_box w) w eq_refl), Hs.
  rewrite (bind_ok (html sum_box) _ w (html_of sum_box w) w eq_refl), Ht.
  unfold isNaN. cbn [num_of_val]. rewrite !str_not_empty, !to_number_str_of_Z by lia. cbn [is_nan].
  rewrite !int_of_str by lia.
  change (is_str (VStr (js " ")) "") with false. change (is_nan (Js.to_number (js " "))) with false.
  change (int_of (VStr (js " "))) with JNaN. cbv iota.
  assert (∀ n, num_add n JNaN = JNaN) as Hn by (by intros [| | |]). unfold num_sub. cbn [num_neg]. rewrite !Hn.
  cbn [num_le num_lt num_eq orb].
  set (w1 := upd (with_val (str_of_num JNaN)) (found total_field w) w).
  set (w2 := upd (with_html (str_of_num JNaN)) (found surplus_box w1) w1).
  exists (upd (with_html (str_of_num JNaN)) (found sum_box w2) w2). split; [reflexivity|].
  assert (val_of total_field w1 = VStr (js "NaN")) as <-.
  { unfold val_of, w1. rewrite on_first by done. by destruct (single_first _ _ H1) as [e ->]. }
  rewrite val_html. unfold w2. by rewrite val_html.
Qed.

(** *** The log-in fields *)

#[local] Opaque user_name password kaptcha.
Section login_facts.
Context {G : Type}.
Implicit Types w : world G.

Record login_page w : Prop := {
  lp_user : single user_name w;
  lp_password : single password w;
  lp_code : single kaptcha w;
  lp_up : apart user_name password w;
  lp_uk : apart user_name kaptcha w;
  lp_pk : apart password kaptcha w
}.
(** The page shows these three values, under the same widgets as [w0]. *)
Record typed (u p k : jval) (v : ui) w : Prop := {
  ty_page : login_page w;
  ty_user : val_of user_name w = u;
  ty_password : val_of password w = p;
  ty_code : val_of kaptcha w = k;
  ty_ui : w_ui w = v
}.

Lemma apart_sym s t w : apart s t w → apart t s w.
Proof. intros H i Ht Hs. by apply (H i). Qed.

Lemma set_val_ok sel x w :
  single sel w → ∃ w', set_val sel x w = (Ok tt, w') ∧ w_sel w' = w_sel w ∧ w_ui w' = w_ui w
    ∧ (∀ s, single s w → single s w') ∧ val_of sel w' = VStr x
    ∧ (∀ s, apart s sel w → val_of s w' = val_of s w).
Proof.
  intros H. destruct (set_val_field sel x w H) as (w' & E & S & _ & D & V & F).
  exists w'. repeat split; try done. injection E as <-. done.
Qed.

Lemma page_after w w' :
  w_sel w' = w_sel w → (∀ s, single s w → single s w') → login_page w → login_page w'.
Proof.
  intros S D [H1 H2 H3 H4 H5 H6].
  constructor; [exact (D _ H1)|exact (D _ H2)|exact (D _ H3)|..]; intros i; unfold found; rewrite S;
    [apply H4|apply H5|apply H6].
Qed.

Lemma clear_user u p k v w :
  typed u p k v w → ∃ w', set_val user_name [] w = (Ok tt, w') ∧ typed (VStr []) p k v w'.
Proof.
  intros [Hpg Hu Hp Hk Hv]. pose proof Hpg as [H1 H2 H3 H4 H5 H6].
  destruct (set_val_ok user_name [] w H1) as (w' & E & S & U & D & V & F).
  exists w'. split; [done|]. constructor.
  - exact (page_after w w' S D Hpg).
  - exact V.
  - rewrite F; [exact Hp|]. exact (apart_sym _ _ _ H4).
  - rewrite F; [exact Hk|]. exact (apart_sym _ _ _ H5).
  - by rewrite U.
Qed.
Lemma clear_password u p k v w :
  typed u p k v w → ∃ w', set_val password [] w = (Ok tt, w') ∧ typed u (VStr []) k v w'.
Proof.
  intros [Hpg Hu Hp Hk Hv]. pose proof Hpg as [H1 H2 H3 H4 H5 H6].
  destruct (set_val_ok password [] w H2) as (w' & E & S & U & D & V & F).
  exists w'. split; [done|]. constructor.
  - exact (page_after w w' S D Hpg).
  - rewrite F; [exact Hu|exact H4].
  - exact V.
  - rewrite F; [exact Hk|]. exact (apart_sym _ _ _ H6).
  - by rewrite U.
Qed.
Lemma clear_code u p k v w :
  typed u p k v w → ∃ w', set_val kaptcha [] w = (Ok tt, w') ∧ typed u p (VStr []) v w'.
Proof.
  intros [Hpg Hu Hp Hk Hv]. pose proof Hpg as [H1 H2 H3 H4 H5 H6].
  destruct (set_val_ok kaptcha [] w H3) as (w' & E & S & U & D & V & F).
  exists w'. split; [done|]. constructor.
  - exact (page_after w w' S D Hpg).
  - rewrite F; [exact Hu|exact H5].
  - rewrite F; [exact Hp|exact H6].
  - exact V.
  - by rewrite U.
Qed.

Lemma typed_style u p k v w w' : typed u p k v w → style_only w w' → w_ui w' = w_ui w → typed u p k v w'.
Proof.
  intros [[H1 H2 H3 H4 H5 H6] Hu Hp Hk Hv] St U. constructor; [|by rewrite (style_val _ _ _ St)..|by rewrite U].
  constructor.
  - exact (style_single _ _ _ St H1).
  - exact (style_single _ _ _ St H2).
  - exact (style_single _ _ _ St H3).
  - exact (style_apart _ _ _ _ St H4).
  - exact (style_apart _ _ _ _ St H5).
  - exact (style_apart _ _ _ _ St H6).
Qed.
Lemma typed_emit e u p k v w : typed u p k v w → typed u p k v (set_ev (w_ev w ++ [e]) w).
Proof. intros H. eapply typed_style; [exact H|by constructor|done]. Qed.

(** What the message makes the user type again. *)
Definition after_message (message : jstr) : J G unit :=
  if bad_account message
  then set_val user_name [] ;; emit (EvFocus user_name) ;; set_val password [] ;; set_val kaptcha []
  else if bad_password message then set_val password [] ;; emit (EvFocus password)
  else if bad_code message then set_val kaptcha [] ;; emit (EvFocus kaptcha)
  else emit (EvFocus user_name).
Lemma after_message_ok message u p k v w :
  typed u p k v w →
  ∃ k' w', after_message message w = (Ok tt, w') ∧
    typed (if bad_account message then VStr [] else u)
          (if bad_account message || bad_password message then VStr [] else p) k' v w'.
Proof.
  intros H. unfold after_message. destruct (bad_account message); cbn [orb].
  - destruct (clear_user _ _ _ _ _ H) as (w1 & E1 & T1). rewrite (bind_ok _ _ _ _ _ E1).
    destruct (clear_password _ _ _ _ _ (typed_emit (EvFocus user_name) _ _ _ _ _ T1)) as (w2 & E2 & T2).
    destruct (clear_code _ _ _ _ _ T2) as (w3 & E3 & T3).
    exists (VStr []), w3. split; [|done].
    rewrite (bind_ok (emit _) _ w1 tt (set_ev (w_ev w1 ++ [EvFocus user_name]) w1) eq_refl).
    by rewrite (bind_ok _ _ _ _ _ E2).
  - destruct (bad_password message).
    { destruct (clear_password _ _ _ _ _ H) as (w1 & E1 & T1). rewrite (bind_ok _ _ _ _ _ E1).
      exists k. eexists. split; [reflexivity|]. by apply typed_emit. }
    destruct (bad_code message).
    + destruct (clear_code _ _ _ _ _ H) as (w1 & E1 & T1). rewrite (bind_ok _ _ _ _ _ E1).
      exists (VStr []). eexists. split; [reflexivity|]. by apply typed_emit.
    + exists k. eexists. split; [reflexivity|]. by apply typed_emit.
Qed.

(** The end of a refusal touches no field. *)
Lemma login_tail_ok message count w :
  ∃ w', ((emit (EvFocus kaptcha) ;; now ← gets w_now;
          set_attr (js "#kaptcha") (js "src") (js "/kaptcha.jpg?" ++ str_of_Z now)) ;;
         when (gt_num count 4) (show (js "#code_li")) ;; set_html login_err message) w = (Ok tt, w')
    ∧ style_only w w' ∧ w_ui w' = w_ui w.
Proof.
  match goal with |- ∃ w', ?m w = _ ∧ _ => assert (quiet m) as Hq end.
  { unfold set_attr, show, set_html. quiet. }
  destruct (Hq w) as ([] & w' & E & S). exists w'. split; [done|]. split; [done|].
  revert E. unfold set_attr, show, set_html, on. jrun. by destruct (gt_num count 4); intros [= <-].
Qed.
End login_facts.

(** A log-in that is refused asks for a new code, clears what must be typed
    again and nothing else; one that succeeds leaves for the front page. *)
Theorem login_success_spec {G} code assign message count (w : world G) :
  login_page w →
  ∃ w', login_success code assign message count w = (Ok tt, w') ∧
    if is_str code "1"
    then last (w_ev w') = Some (EvAssign (js "/")) ∧ w_elt w' = w_elt w
    else typed (if bad_account message then VStr [] else val_of user_name w)
           (if bad_account message || bad_password message then VStr [] else val_of password w)
           (VStr []) (w_ui w) w'.
Proof.
  intros Hw. unfold login_success. destruct (is_str code "1").
  { destruct (_ || is_str assign "NOTNOW"); eexists; (split; [reflexivity|]); cbn;
      (split; [|done]); by rewrite last_snoc. }
  fold (after_message (G := G) message).
  assert (typed (val_of user_name w) (val_of password w) (val_of kaptcha w) (w_ui w) w) as T0 by done.
  set (w1 := upd (remove_class (js "submit_load")) (found submit_button w) w).
  rewrite (bind_ok loginEnd _ w tt w1 eq_refl).
  assert (typed (val_of user_name w) (val_of password w) (val_of kaptcha w) (w_ui w) w1) as T1.
  { eapply typed_style; [exact T0|by apply upd_style|done]. }
  destruct (after_message_ok message _ _ _ _ _ T1) as (k' & w2 & E2 & T2).
  rewrite (bind_ok _ _ _ _ _ E2). unfold refresh. rewrite bind_assoc.
  destruct (clear_code _ _ _ _ _ T2) as (w3 & E3 & T3). rewrite (bind_ok _ _ _ _ _ E3).
  destruct (login_tail_ok message count w3) as (w4 & E4 & St & U). exists w4. split; [exact E4|].
  by eapply typed_style.
Qed.

(** ** Pages to try them on *)

Definition demo_sums : world unit :=
  page_with [(total_field, with_val (js "100") blank); (raise_field, with_val (js "20") blank);
             (surplus_box, with_html (js "60") blank); (sum_box, with_html (js "500") blank)] tt.
Lemma addSum_moves_witness :
  ∃ w', addSum demo_sums = (Ok tt, w') ∧ val_of total_field w' = VStr (js "120")
    ∧ html_of sum_box w' = VStr (js "480").
Proof.
  destruct (addSum_moves 100 20 60 500 demo_sums) as (w' & E & H).
  - constructor; [on_page..|]. repeat constructor; lia.
  - constructor; on_page.
  - change (0 <? 500 - 20) with true in H. destruct H as (T & _ & S & _).
    exists w'. split; [exact E|]. split; [exact T|exact S].
Defined.

#[local] Transparent user_name password kaptcha.
Definition demo_login : world unit :=
  page_with [(user_name, with_val (js "u") blank); (password, with_val (js "p") blank);
             (kaptcha, with_val (js "k") blank)] tt.
Lemma login_success_spec_witness :
  ∃ w', login_success (VStr (js "0")) VUndef (js "密码输入有误") (num 5) demo_login = (Ok tt, w')
    ∧ val_of user_name w' = VStr (js "u") ∧ val_of password w' = VStr [] ∧ val_of kaptcha w' = VStr [].
Proof.
  destruct (login_success_spec (VStr (js "0")) VUndef (js "密码输入有误") (num 5) demo_login) as (w' & E & H).
  - constructor; on_page.
  - change (is_str (VStr (js "0")) "1") with false in H. destruct H as [_ U P K _].
    exists w'. split; [exact E|]. split; [exact U|]. split; [exact P|exact K].
Defined.
