(* ===== verification/Tips.v ===== *)
(** * The bubbles of [gtips] -- [common/jquery.edm.search.js]

    [$(..).gtips(..)] gives each element it is called on a bubble.  The
    bubbles of elements that are hovered or focused share one node [#G_tips],
    put into the page and taken out of it; those of elements that are clicked
    share [#G_info], which stays.  A step is an event of the browser. *)

From S2P Require Import Prelude Js.
#[local] Open Scope nat_scope.

(** The elements (and the node [divStr] each one made for itself) have a
    number; [content] is what the options give as the text of each. *)
Section gtips.
Context (content : nat → jstr).

(** ** Hovering and focusing *)

Record hover := Hover {
  body : option nat;            (* the node in the page as [#G_tips] *)
  boxId : gmap nat nat;         (* [_this.$boxId], where it is no more the own node *)
  timers : gset nat;            (* the elements whose [_this.timer] is pending *)
  shown : gset nat;             (* the nodes that are not hidden *)
  dropped : gset nat;           (* the nodes removed once: their handlers are gone *)
  html : gmap nat jstr
}.
Definition box_of (h : hover) (i : nat) : nat := default i (boxId h !! i).

Inductive hover_event :=
| Over (i : nat)        (* [mouseover] or [focus] on the element *)
| Out (i : nat)         (* [mouseout] or [blur] on the element *)
| Fire (i : nat)        (* its timer *)
| BoxOver (d : nat)     (* [mouseover] on a node *)
| BoxOut (d : nat).

(** [$box.hide(); $box.remove();] *)
Definition take_away (i d : nat) (h : hover) : hover :=
  Hover (if bool_decide (body h = Some d) then None else body h) (boxId h) (timers h ∖ {[i]})
    (shown h ∖ {[d]}) (dropped h ∪ {[d]}) (html h).

Definition on_over (i : nat) (h : hover) : hover :=
  match body h with
  | None => Hover (Some (box_of h i)) (boxId h) (timers h ∪ {[i]}) (shown h) (dropped h) (html h)
  | Some d => Hover (body h) (<[i := d]> (boxId h)) (timers h ∪ {[i]}) (shown h) (dropped h) (html h)
  end.
Definition on_out (i : nat) (h : hover) : hover := take_away i (box_of h i) h.
(** [$.openTips] puts the text in and shows the node. *)
Definition on_fire (i : nat) (h : hover) : hover :=
  if bool_decide (i ∈ timers h)
  then Hover (body h) (boxId h) (timers h ∖ {[i]}) (shown h ∪ {[box_of h i]}) (dropped h)
         (if bool_decide (content i = []) then html h else <[box_of h i := content i]> (html h))
  else h.
(** The handlers each element bound on its own node. *)
Definition on_box_over (d : nat) (h : hover) : hover :=
  if bool_decide (d ∈ dropped h) then h
  else Hover (body h) (boxId h) (timers h ∖ {[d]}) (shown h ∪ {[d]}) (dropped h) (html h).
Definition on_box_out (d : nat) (h : hover) : hover :=
  if bool_decide (d ∈ dropped h) then h else take_away d d h.

Definition hover_step (h : hover) (e : hover_event) : hover :=
  match e with
  | Over i => on_over i h
  | Out i => on_out i h
  | Fire i => on_fire i h
  | BoxOver d => on_box_over d h
  | BoxOut d => on_box_out d h
  end.
Definition hover_run (h : hover) (es : list hover_event) : hover := List.fold_left hover_step es h.

(** The bubble one sees, and its text. *)
Definition seen (h : hover) : option jstr :=
  match body h with
  | Some d => if bool_decide (d ∈ shown h) then Some (default [] (html h !! d)) else None
  | None => None
  end.

(** ** Clicking *)

(** What a press of the mouse hits. *)
Inductive place := InBubble | OnElement (i : nat) | Elsewhere.
(** The state of [#G_info]: [joined] are the elements whose [$boxId] it is,
    [uuid] the one it was opened for, [pending] the handlers of
    [mousedown.tips]. *)
Record info := Info {
  joined : gset nat;
  uuid : option nat;
  open : bool;
  text : jstr;
  pending : list nat
}.

(** The [click] of an element. *)
Definition on_click (i : nat) (s : info) : info :=
  if bool_decide (i ∈ joined s) && bool_decide (uuid s = Some i) && open s
  then Info (joined s) None false (text s) (pending s)
  else Info (joined s ∪ {[i]}) (Some i) true
         (if bool_decide (content i = []) then text s else content i) (pending s ++ [i]).

(** One of the handlers, bound by [one]: it is gone once it ran, and hides the
    bubble when the press is outside. *)
Definition outside (i : nat) (p : place) : bool :=
  match p with InBubble => false | OnElement k => negb (k =? i) | Elsewhere => true end.
Definition on_press (p : place) (s : info) : info :=
  Info (joined s) (uuid s) (open s && negb (existsb (λ i, outside i p) (pending s))) (text s) [].

Inductive click_event := Press (p : place) | Click (i : nat).
Definition click_step (s : info) (e : click_event) : info :=
  match e with Press p => on_press p s | Click i => on_click i s end.
Definition click_run (s : info) (es : list click_event) : info := List.fold_left click_step es s.
(** The user's click on an element presses there first. *)
Definition user_click (i : nat) : list click_event := [Press (OnElement i); Click i].

(** ** Facts *)

Lemma box_of_over i h : body (on_over i h) = Some (box_of (on_over i h) i).
Proof.
  unfold on_over, box_of. destruct (body h); cbn; [by rewrite lookup_insert_eq|done].
Qed.

Definition entering (e : hover_event) : bool := match e with Over _ => true | _ => false end.

Lemma stays_away h es : body h = None → forallb (λ e, negb (entering e)) es = true → body (hover_run h es) = None.
Proof.
  revert h. induction es as [|e es IH]; intros h Hb Hf; [done|]. cbn in *. bool_simp.
  apply IH; [|done]. destruct e; cbn in *; try done.
  - unfold on_out, take_away. cbn. by rewrite Hb.
  - unfold on_fire. by case_bool_decide.
  - unfold on_box_over. by case_bool_decide.
  - unfold on_box_out, take_away. case_bool_decide; [done|]. cbn. by rewrite Hb.
Qed.

(** The opened bubble is the one of an element that has joined. *)
Definition info_ok (s : info) : Prop := ∀ i, uuid s = Some i → i ∈ joined s.
Lemma click_ok s e : info_ok s → info_ok (click_step s e).
Proof.
  intros H. destruct e as [p|i]; [exact H|]. cbn. unfold on_click, info_ok.
  destruct (_ && _); cbn; [done|]. intros k [= <-]. set_solver.
Qed.
End gtips.

(** Entering an element and waiting shows its text, whatever was shown or
    pending before. *)
Theorem hover_shows content i h :
  content i ≠ [] → seen (hover_run content h [Over i; Fire i]) = Some (content i).
Proof.
  intros Hc. cbn. set (h1 := on_over i h). pose proof (box_of_over i h) as Hb. fold h1 in Hb.
  assert (i ∈ timers h1) as Ht by (unfold h1, on_over; destruct (body h); cbn; set_solver).
  unfold on_fire. rewrite bool_decide_eq_true_2 by done. unfold seen. cbn [body shown html].
  rewrite Hb, bool_decide_eq_true_2 by set_solver. rewrite bool_decide_eq_false_2 by done.
  by rewrite lookup_insert_eq.
Qed.

(** Leaving an element takes its bubble out of the page, and no timer and no
    move over the bubble brings it back before an element is entered. *)
Theorem leaving_hides content i h es :
  body h = Some (box_of h i) → forallb (λ e, negb (entering e)) es = true →
  seen (hover_run content h (Out i :: es)) = None.
Proof.
  intros Hb Hf. change (hover_run content h (Out i :: es)) with (hover_run content (on_out i h) es).
  unfold seen. rewrite (stays_away content (on_out i h) es); [done| |done].
  unfold on_out, take_away. cbn. by rewrite bool_decide_eq_true_2.
Qed.

(** C38 -- Whatever was entered, left, shown or pending before, entering an element and
    waiting shows its text; and once the element is left its bubble is gone and
    stays away until some element is entered, whatever timers are still pending
    and wherever the mouse goes. *)
Theorem hover_session content i h es es' :
  content i ≠ [] → forallb (λ e, negb (entering e)) es' = true →
  let h1 := hover_run content h (es ++ [Over i; Fire i]) in
  seen h1 = Some (content i) ∧ seen (hover_run content h1 (Out i :: es')) = None.
Proof.
  intros Hc Hf h1. assert (h1 = hover_run content (hover_run content h es) [Over i; Fire i]) as E.
  { unfold h1, hover_run. by rewrite List.fold_left_app. }
  rewrite E. split; [by apply hover_shows|]. apply leaving_hides; [|done].
  cbn. set (h2 := hover_run content h es). unfold on_fire.
  case_bool_decide; cbn; apply box_of_over.
Qed.

Lemma hover_session_witness :
  seen (hover_run (λ _, js "x") (Hover None ∅ ∅ ∅ ∅ ∅) ([Over 1; Out 1] ++ [Over 2; Fire 2])) = Some (js "x").
Proof.
  exact (proj1 (hover_session (λ _, js "x") 2 (Hover None ∅ ∅ ∅ ∅ ∅) [Over 1; Out 1] [Fire 1; BoxOver 2]
                  ltac:(discriminate) eq_refl)).
Defined.

(** A user's click on an element closes its bubble when that is what is open,
    and opens it otherwise, whatever other bubble is open. *)
Theorem click_toggles content i s :
  info_ok s → content i ≠ [] →
  let s' := click_run content s (user_click i) in
  let was := open s && bool_decide (uuid s = Some i) && forallb (Nat.eqb i) (pending s) in
  info_ok s' ∧ open s' = negb was ∧ (was = false → text s' = content i ∧ uuid s' = Some i).
Proof.
  intros Ho Hc s' was. split.
  { apply (click_ok content _ (Click i)), (click_ok content _ (Press _)), Ho. }
  unfold s', was. cbn. unfold on_click, on_press. cbn [joined uuid open text pending].
  assert (existsb (λ k, outside k (OnElement i)) (pending s) = negb (forallb (Nat.eqb i) (pending s))) as ->.
  { induction (pending s) as [|k l IH]; [done|]. cbn [existsb forallb]. rewrite IH.
    cbn [outside]. by destruct (i =? k). }
  rewrite negb_involutive.
  destruct (open s); cbn [andb]; [|by rewrite andb_false_r, (bool_decide_eq_false_2 (content i = []))].
  destruct (bool_decide (uuid s = Some i)) eqn:E; cbn [andb].
  - bool_simp. rewrite (bool_decide_eq_true_2 (i ∈ joined s)) by (by apply Ho). cbn [andb].
    destruct (forallb _ _); cbn; [done|]. by rewrite (bool_decide_eq_false_2 (content i = [])).
  - rewrite andb_false_r. cbn. by rewrite (bool_decide_eq_false_2 (content i = [])).
Qed.

(** A press in the bubble uses up the handler: a later press outside does not
    close it any more. *)
Theorem press_inside_keeps_open content i s :
  info_ok s → open s = false → pending s = [] →
  open (click_run content s [Click i; Press Elsewhere]) = false
  ∧ open (click_run content s [Click i; Press InBubble; Press Elsewhere]) = true.
Proof.
  intros _ Ho Hp. cbn. unfold on_click. rewrite Ho, andb_false_r. cbn. by rewrite Hp.
Qed.

Lemma click_toggles_witness :
  let s := Info ∅ None false [] [] in
  let s1 := click_run (λ _, js "x") s (user_click 3) in
  info_ok s ∧ open s1 = true ∧ open (click_run (λ _, js "x") s1 (user_click 3)) = false.
Proof.
  intros s s1. assert (info_ok s) as H by (by intros i). split; [exact H|].
  destruct (click_toggles (λ _, js "x") 3 s H) as (H1 & O1 & _); [discriminate|].
  destruct (click_toggles (λ _, js "x") 3 s1 H1) as (_ & O2 & _); [discriminate|].
  split; [exact O1|]. fold s1. rewrite O2. vm_compute. reflexivity.
Defined.
