(* ===== verification/Operator.v ===== *)
(** * The operators' site: what its pages share

    [common/common.js] and [common/pagination.js] of the second web site
    ([src/webmaster/A001/WebRoot/resources/script/]), and the form of an
    account, [account/accountOperateEdit.js].  The operations on arrays of
    that file are copies of those of [base.js] (see [TagList] and [Base]). *)

From S2P Require Import Prelude Js JsFacts Regex Page Base.
From Stdlib Require Import Sorting.Permutation.
#[local] Open Scope Z_scope.

Section scripts.
Context {G : Type}.

(** ** Messages, overlays, boxes *)

(** [error_message(mess,bg,top_num,time,url)]: this one sets no layer. *)
Definition error_message (mess bg top_num time url : jval) : J G unit :=
  mod_ui (with_timer None) ;;
  mod_ui (with_banner None) ;;
  let kind := if is_num bg 1 then js "err2" else if is_num bg 10 then js "err10" else js "err1" in
  w ← win;
  b ← measure (js "#err_mess");
  let middle := (centre (win_h w) (b_h b) + win_top w)%Q in
  let top := if gt_num top_num 0 then default middle (num_Q (num_of_val top_num)) else middle in
  let left := (centre (win_w w) (b_w b) + win_left w)%Q in
  mod_ui (with_banner (Some (Banner (str_of_val mess) kind top left 0))) ;;
  if gt_num time 0
  then mod_ui (with_timer (Some (Timer (js "location.assign('" ++ str_of_val url ++ js "')") time)))
  else if is_num bg 10
  then skip
  else mod_ui (with_timer (Some (Timer (js "err_mess_div('#err_mess',800)") (num 2500)))).

(** [error_message(mess,bg)] *)
Definition message (mess : jval) (bg : Z) : J G unit :=
  error_message mess (num bg) VUndef VUndef VUndef.

(** [loading(append_id,show_id)]; no [append_id] stands for the body. *)
Definition loading (append_id show_id : option jstr) : J G unit :=
  match show_id with
  | Some s => show s
  | None => n ← match append_id with
                | Some s => gets (λ w, length (found s w))
                | None => mret 1%nat
                end;
            mod_ui (λ u, with_overlays (u_overlays u ++ repeat None n) u)
  end.
Definition del_loading (hide_id : option jstr) : J G unit :=
  match hide_id with
  | Some s => hide s
  | None => mod_ui (with_overlays [])
  end.

Definition openCover : J G unit :=
  w ← win;
  mod_ui (with_cover (Some (true, Some (win_w w, win_h w)))).
Definition closeDialog : J G unit :=
  hide (js ".popBox") ;;
  mod_ui (with_cover None).

(** [categoryId_fun(id1,tit1,id2,tit2,ho_fun)] *)
Definition categoryId_fun (id1 tit1 id2 tit2 ho_fun : jstr) : J G unit :=
  set_val id1 tit1 ;;
  set_html id2 tit2 ;;
  mod_ui (with_select [] false) ;;
  emit (EvEval ho_fun).

(** The enter key of a page that has the list form. *)
Definition enter_key (keyCode : Z) : J G unit :=
  n ← size_of (js "#ListForm");
  when (negb (n =? 0) && (keyCode =? 13))
    (set_val (js "#currentPage") (js "1") ;; submit (js "#ListForm")).

(** ** Checks of a text *)

Definition isEmpty (value : jstr) : bool := bool_decide (strip_spaces value = []).

Definition is_alnum (c : N) : bool := is_alpha c || is_digit c.
(** [/^\w+((-\w+)|(\.\w+))*\@[A-Za-z0-9]+((\.|-)[A-Za-z0-9]+)*\.[A-Za-z0-9]+$/] *)
Definition email_body : re :=
  let word := RPlus (RSet is_word) in
  let label := RPlus (RSet is_alnum) in
  RSeqs
    [word;
     RStar true (RCap (RAlt (RCap (RSeq (RStr [45%N]) word)) (RCap (RSeq (RStr [46%N]) word))));
     RStr [64%N];
     label;
     RStar true (RCap (RSeq (RCap (RAlt (RStr [46%N]) (RStr [45%N]))) label));
     RStr [46%N];
     label].
Definition email_re : re := RSeq RBol (RSeq email_body REol).
Definition isEmail (strEmail : jstr) : bool := test email_re strEmail.

(** [textCounter(field,maxlimit)]: the loop reads the value again at each turn.
    A loop that would not end throws here. *)
Definition too_long : jstr := js "输入字符超长,不可再输入".
Fixpoint counter_loop (fuel i : nat) (len : Z) (field : jstr) : J G unit :=
  match fuel with
  | O => throw (js "no end")
  | S fuel' =>
      v ← val field;
      match or_empty v !! i with
      | None => skip
      | Some c =>
          let len' := if (50 <? c)%N then len - 2 else len - 1 in
          when (len' <? 0)
            (set_val field (substring 0 (Z.of_nat i) (or_empty v)) ;;
             emit (EvAlert too_long)) ;;
          counter_loop fuel' (S i) len' field
      end
  end.
Definition textCounter (field : jstr) (maxlimit : Z) : J G unit :=
  v ← val field;
  counter_loop (S (length (or_empty v))) 0 maxlimit field.

(** ** Pages of a list ([pagination.js]) *)

Definition cur_page : jstr := js "#currentPage".
Definition page_count : jstr := js "#totalPageCount".
Definition jump_page : jstr := js "#jumpPageNo".
Definition list_form : jstr := js "#ListForm".
Definition int_at (sel : jstr) : J G jnum := v ← val sel; mret (parseInt (str_of_val v)).

(** The page number that is typed, kept within the pages. *)
Definition jump : J G bool :=
  jumpPageNo ← val jump_page;
  if is_str jumpPageNo ""
  then emit (EvAlert (js "请输入页码!")) ;; emit (EvFocus jump_page) ;; mret false
  else total ← int_at page_count;
       set_val cur_page
         (if num_lt total (num_of_val jumpPageNo) then str_of_num total
          else if num_le (num_of_val jumpPageNo) (JInt 0) then js "1"
          else or_empty jumpPageNo) ;;
       mret true.

Definition paginationQuery (flag : jstr) : J G unit :=
  value ← int_at cur_page;
  go ← (if bool_decide (flag = js "First") then set_val cur_page (js "1") ;; mret true
        else if bool_decide (flag = js "Previous")
        then set_val cur_page (str_of_num (num_sub value (JInt 1))) ;; mret true
        else if bool_decide (flag = js "Next")
        then set_val cur_page (str_of_num (num_add value (JInt 1))) ;; mret true
        else if bool_decide (flag = js "Last")
        then total ← val page_count; set_val cur_page (or_empty total) ;; mret true
        else if bool_decide (flag = js "go") then jump else mret true);
  when go (submit list_form).

(** ** The form of an account ([accountOperateEdit.js]) *)

Definition robots : jstr := js "input[name='robots']".
Definition robot_at (i : nat) : jstr := robots ++ js ":eq(" ++ str_of_Z (Z.of_nat i) ++ js ")".
Definition password : jstr := js "#password".

(** The second [each]: the first address that is not one stops it. *)
Fixpoint bad_robot (i : nat) (l : list elt) : option nat :=
  match l with
  | [] => None
  | e :: l' => if negb (bool_decide (e_val e = [])) && negb (isEmail (e_val e)) then Some i
               else bad_robot (S i) l'
  end.

Definition checkRobots : J G bool :=
  l ← elts_of robots;
  if forallb (λ e, bool_decide (e_val e = [])) l
  then emit (EvBox (js "请输入网络发件人！") 0 2000) ;; emit (EvFocus (js "#robot_0")) ;; mret false
  else match bad_robot 0 l with
       | Some i => emit (EvBox (js "网络发件人格式不正确！") 0 2000) ;; emit (EvFocus (robot_at i)) ;;
                   mret false
       | None => mret true
       end.

Definition pass : J G bool :=
  p ← val password;
  match p with
  | VStr s =>
      if negb (bool_decide (s = [])) && bool_decide (strip_spaces s = [])
      then emit (EvBox (js "密码不能为空格") 0 3000) ;; emit (EvFocus password) ;; mret false
      else mret true
  | _ => mret true
  end.

(** [submitHandler]; [params] is what the browser serialises of the form. *)
Definition submitHandler (params : list (jstr * jstr)) : J G unit :=
  ok ← checkRobots;
  if ok : bool
  then ok' ← pass;
       if ok' : bool
       then action ← attr (js "#DetailForm") (js "action");
            set_disabled (js "#btn_submit") true ;;
            show (js "#prompt") ;;
            emit (EvPost (str_of_val action) params)
       else skip
  else skip.

(** The answer, when there is one. *)
Definition submit_answer (result mess : jval) : J G unit :=
  if is_str result "success"
  then emit (EvBox (str_of_val mess) 1 2000) ;; emit (EvTimeout 2000)
  else hide (js "#prompt") ;;
       set_disabled (js "#btn_submit") false ;;
       emit (EvBox (match mess with VUndef => js "无法获取响应，有可能账号已在别处登录"
                    | m => str_of_val m end) 0 3000).

Definition saveAccount (url : jstr) : J G unit :=
  set_attr (js "#DetailForm") (js "action") url ;;
  emit (EvSubmit (js "#DetailForm")).
Definition success : J G unit :=
  url ← val (js "#successUrl"); emit (EvAssign (str_of_val url)).
Definition back : J G unit := emit (EvAssign (js "/account/accountList")).
End scripts.

(** ** Rows of network senders ([addRobot], [delRobot])

    A row, from top to bottom: the index its field and its button are named
    after, and the address typed. *)

Abbreviation robot := (nat * jstr)%type.

Definition addRobot : J (list robot) unit :=
  rows ← get_glob;
  if 10 <=? Z.of_nat (length rows)
  then emit (EvBox (js "网络发件人不能超过10个") 0 2000)
  else match rows with
       | [] => skip
       | _ => put_glob (rows ++ [(length rows, [])])
       end.
(** [$("#robot_" + id)] finds the first field of that name. *)
Definition delRobot (id : nat) : J (list robot) unit :=
  mod_glob (remove_first (λ r, bool_decide (r.1 = id))).

(** The buttons: [+] beside the first row, [-] beside each of the others. *)
Inductive robot_click := Plus | Minus (row : nat).
Definition robot_click_fn (c : robot_click) : J (list robot) unit :=
  match c with
  | Plus => addRobot
  | Minus i => rows ← get_glob;
               match rows !! i with Some (id, _) => delRobot id | None => skip end
  end.

(** * Facts *)

(** ** Addresses *)

Definition is_sep (c : N) : bool := (c =? 45)%N || (c =? 46)%N.
Definition label_of (P : N → bool) (w : jstr) : Prop := w ≠ [] ∧ Forall (λ c, P c = true) w.
(** A separator and the label after it. *)
Definition tail_of (P : N → bool) (p : N * jstr) : Prop := is_sep p.1 = true ∧ label_of P p.2.
Definition flat (l : list (N * jstr)) : jstr := List.flat_map (λ p, p.1 :: p.2) l.

(** The reference: the text is cut at the [@] and the parts at their [-] and [.];
    every piece is a label, and the last separator is a dot. *)
Fixpoint pieces (s : jstr) : list jstr :=
  match s with
  | [] => [[]]
  | d :: s' =>
      if is_sep d then [] :: pieces s'
      else match pieces s' with
           | [] => [[d]]
           | w :: ws => (d :: w) :: ws
           end
  end.
Definition labels (P : N → bool) (s : jstr) : bool :=
  forallb (λ w, negb (bool_decide (w = [])) && forallb P w) (pieces s).
Definition ends_dot (s : jstr) : bool :=
  match last (List.filter is_sep s) with Some c => (c =? 46)%N | None => false end.
Definition email_ref (s : jstr) : bool :=
  match splitc 64 s with
  | [l; d] => labels is_word l && labels is_alnum d && ends_dot d
  | _ => false
  end.

Example email_ref_1 : List.map (λ s, (isEmail s, email_ref s))
  [js "ann-b.c@mail.example-x.com"; js "ann@mail.example-com"; js "ann@mail-com"; js "a@b@c.d";
   js "a..b@c.d"; js "@c.d"; js "a@c.d "; js "a@c."; js ""; js "a_1@0.0"] = (true, true) :: repeat (false, false) 8 ++ [(true, true)].
Proof. by vm_compute. Qed.

Lemma pieces_inv s : ∃ w l, s = w ++ flat l ∧ pieces s = w :: List.map snd l
  ∧ Forall (λ p, is_sep p.1 = true) l.
Proof.
  induction s as [|d s (w & l & -> & E & Hl)]; [by exists [], []|]. cbn [pieces].
  destruct (is_sep d) eqn:Hd.
  - exists [], ((d, w) :: l). split; [done|]. rewrite E. split; [done|by constructor].
  - exists (d :: w), l. by rewrite E.
Qed.

Section labels.
Context (P : N → bool) (HP : ∀ c, P c = true → is_sep c = false).

Lemma pieces_run w k : Forall (λ c, P c = true) w →
  pieces (w ++ k) = match pieces k with x :: r => (w ++ x) :: r | [] => [w] end.
Proof.
  destruct (pieces_inv k) as (x & l & _ & Ek & _). rewrite Ek.
  induction 1 as [|c w Hc _ IH]; [done|]. cbn [app pieces]. by rewrite (HP _ Hc), IH.
Qed.

Lemma pieces_flat w l : Forall (λ c, P c = true) w → Forall (tail_of P) l →
  pieces (w ++ flat l) = w :: List.map snd l.
Proof.
  intros Hw Hl. revert w Hw. induction Hl as [|[c u] l [Hc [_ Hu]] _ IH]; intros w Hw.
  - rewrite pieces_run by done. simpl. by rewrite app_nil_r.
  - rewrite pieces_run by done. cbn [flat List.flat_map fst snd List.map app pieces].
    cbn [fst] in Hc. rewrite Hc. change (List.flat_map _ l) with (flat l).
    rewrite IH by done. by rewrite app_nil_r.
Qed.

Lemma label_dec w : negb (bool_decide (w = [])) && forallb P w = true ↔ label_of P w.
Proof.
  unfold label_of. rewrite andb_true_iff, negb_true_iff, bool_decide_eq_false, forallb_forall, Forall_forall.
  split; intros [H1 H2]; split; try done; intros c Hc; apply H2; by apply list_elem_of_In.
Qed.

Lemma labels_spec s : labels P s = true ↔
  ∃ w l, s = w ++ flat l ∧ label_of P w ∧ Forall (tail_of P) l.
Proof.
  unfold labels. split.
  - destruct (pieces_inv s) as (w & l & -> & -> & Hl). cbn [forallb]. intros [Hw Hr]%andb_true_iff.
    exists w, l. split; [done|]. split; [by apply label_dec|].
    clear Hw. induction Hl as [|p l Hp _ IH]; [constructor|].
    cbn [List.map forallb] in Hr. apply andb_true_iff in Hr as [H1 H2].
    constructor; [split; [done|by apply label_dec]|by apply IH].
  - intros (w & l & -> & [Hne Hw] & Hl). rewrite pieces_flat by done. cbn [forallb].
    rewrite (proj2 (label_dec w)) by done. clear Hne Hw.
    induction Hl as [|p l [_ Hp] _ IH]; [done|]. cbn [List.map forallb].
    by rewrite (proj2 (label_dec _) Hp).
Qed.

Lemma seps_flat w l : Forall (λ c, P c = true) w → Forall (tail_of P) l →
  List.filter is_sep (w ++ flat l) = List.map fst l.
Proof.
  assert (∀ u, Forall (λ c, P c = true) u → List.filter is_sep u = []) as Hf.
  { induction 1 as [|c u Hc _ IH]; [done|]. cbn [List.filter]. by rewrite (HP _ Hc). }
  intros Hw Hl. rewrite List.filter_app, (Hf w Hw). cbn [app].
  induction Hl as [|[c u] l [Hc [_ Hu]] _ IH]; [done|].
  cbn [flat List.flat_map fst snd List.map app List.filter]. cbn [fst] in Hc. rewrite Hc.
  rewrite List.filter_app, (Hf u Hu). by f_equal.
Qed.

Lemma no_at_flat w l : (∀ c, P c = true → c ≠ 64%N) →
  Forall (λ c, P c = true) w → Forall (tail_of P) l → sep_free 64 (w ++ flat l).
Proof.
  intros H64 Hw Hl. unfold sep_free. rewrite elem_of_app.
  assert (∀ u, Forall (λ c, P c = true) u → 64%N ∉ u) as Hf.
  { intros u Hu Hin. rewrite Forall_forall in Hu. by apply (H64 64%N (Hu _ Hin)). }
  intros [Hin|Hin]; [by apply (Hf w)|]. clear Hw.
  induction Hl as [|[c u] l [Hc [_ Hu]] _ IH]; [by apply elem_of_nil in Hin|].
  cbn [flat List.flat_map fst snd app] in Hin. apply elem_of_cons in Hin as [<-|Hin]; [done|].
  apply elem_of_app in Hin as [Hin|Hin]; [by apply (Hf u)|by apply IH].
Qed.
End labels.

Lemma lang_label P s t : lang (RPlus (RSet P)) s t ↔ ∃ w, s = w ++ t ∧ label_of P w.
Proof.
  unfold RPlus. cbn [lang]. split.
  - intros (u & (c & -> & Hc) & (w & -> & Hw)%(runs_of_set P)). exists (c :: w).
    split; [done|]. split; [done|by constructor].
  - intros (w & -> & Hne & Hw). destruct Hw as [|c w Hc Hw]; [done|].
    exists (w ++ t). split; [by exists c|]. apply (runs_of_set P). by exists w.
Qed.

Lemma lang_char c s t : lang (RStr [c]) s t ↔ s = c :: t.
Proof.
  cbn. split; [by intros (u & (d & -> & ->%N.eqb_eq) & <-)|].
  intros ->. exists t. split; [|done]. exists c. by rewrite N.eqb_refl.
Qed.

Lemma lang_tails P R : (∀ s t, R s t ↔ ∃ p, tail_of P p ∧ s = p.1 :: p.2 ++ t) →
  ∀ s t, runs_of R s t ↔ ∃ l, s = flat l ++ t ∧ Forall (tail_of P) l.
Proof.
  intros HR s t. split.
  - induction 1 as [s|s t u Hst _ _ (l & -> & Hl)]; [by exists []|].
    apply HR in Hst as (p & Hp & ->). exists (p :: l). split; [|by constructor].
    cbn [flat List.flat_map app]. by rewrite <-app_assoc.
  - intros (l & -> & Hl). induction Hl as [|p l Hp _ IH]; [constructor|].
    apply (runs_more _ _ (flat l ++ t)); [| |done].
    + apply HR. exists p. split; [done|]. cbn [flat List.flat_map app]. by rewrite <-app_assoc.
    + cbn [flat List.flat_map app length]. rewrite !length_app. change (List.flat_map _ l) with (flat l). lia.
Qed.

Lemma lang_email s : lang email_body s [] ↔
  ∃ w l d m x, s = (w ++ flat l) ++ 64%N :: (d ++ flat (m ++ [(46%N, x)]))
    ∧ label_of is_word w ∧ Forall (tail_of is_word) l
    ∧ label_of is_alnum d ∧ Forall (tail_of is_alnum) m ∧ label_of is_alnum x.
Proof.
  assert (∀ P s t, lang (RCap (RAlt (RCap (RSeq (RStr [45%N]) (RPlus (RSet P))))
      (RCap (RSeq (RStr [46%N]) (RPlus (RSet P)))))) s t ↔ ∃ p, tail_of P p ∧ s = p.1 :: p.2 ++ t) as Hloc.
  { intros P a t. cbn [lang]. unfold tail_of. split.
    - intros [(u & ->%lang_char & (w & -> & Hw)%lang_label)|(u & ->%lang_char & (w & -> & Hw)%lang_label)];
        [by exists (45%N, w)|by exists (46%N, w)].
    - intros ([c w] & [Hc Hw] & ->). cbn [fst snd] in *. unfold is_sep in Hc.
      apply orb_true_iff in Hc as [->%N.eqb_eq| ->%N.eqb_eq]; [left|right]; exists (w ++ t);
        (split; [by apply lang_char|]); apply lang_label; by exists w. }
  assert (∀ P s t, lang (RCap (RSeq (RCap (RAlt (RStr [46%N]) (RStr [45%N]))) (RPlus (RSet P)))) s t
      ↔ ∃ p, tail_of P p ∧ s = p.1 :: p.2 ++ t) as Hdom.
  { intros P a t. cbn [lang]. unfold tail_of. split.
    - intros (u & [->%lang_char| ->%lang_char] & (w & -> & Hw)%lang_label);
        [by exists (46%N, w)|by exists (45%N, w)].
    - intros ([c w] & [Hc Hw] & ->). cbn [fst snd] in *. unfold is_sep in Hc. exists (w ++ t).
      split; [|apply lang_label; by exists w].
      apply orb_true_iff in Hc as [->%N.eqb_eq| ->%N.eqb_eq]; [right|left]; by apply lang_char. }
  assert (∀ m x, flat (m ++ [(46%N, x)]) = flat m ++ 46%N :: x) as Hflat.
  { intros m x. unfold flat. rewrite List.flat_map_app. simpl. by rewrite app_nil_r. }
  unfold email_body. cbn [RSeqs List.fold_right lang]. split.
  - intros (s1 & (w & -> & Hw)%lang_label & s2 & H2 & s3 & ->%lang_char & s4 & (d & -> & Hd)%lang_label
      & s5 & H5 & s6 & ->%lang_char & s7 & (x & -> & Hx)%lang_label & ->).
    apply (lang_tails is_word _ (Hloc is_word)) in H2 as (l & -> & Hl).
    apply (lang_tails is_alnum _ (Hdom is_alnum)) in H5 as (m & -> & Hm).
    exists w, l, d, m, x. rewrite app_nil_r, Hflat, <-app_assoc. done.
  - intros (w & l & d & m & x & -> & Hw & Hl & Hd & Hm & Hx). rewrite Hflat, <-app_assoc.
    exists (flat l ++ 64%N :: d ++ flat m ++ 46%N :: x). split; [apply lang_label; by exists w|].
    exists (64%N :: d ++ flat m ++ 46%N :: x).
    split; [apply (lang_tails is_word _ (Hloc is_word)); by exists l|].
    exists (d ++ flat m ++ 46%N :: x). split; [by apply lang_char|].
    exists (flat m ++ 46%N :: x). split; [apply lang_label; by exists d|].
    exists (46%N :: x). split; [apply (lang_tails is_alnum _ (Hdom is_alnum)); by exists m|].
    exists x. split; [by apply lang_char|]. exists []. split; [|done].
    apply lang_label. exists x. by rewrite app_nil_r.
Qed.

Lemma word_not_sep c : is_word c = true → is_sep c = false ∧ c ≠ 64%N.
Proof.
  unfold is_word, is_digit, is_alpha, is_sep. intros H. split; [|intros ->; done].
  apply orb_false_iff. split; apply N.eqb_neq; intros ->; done.
Qed.
Lemma alnum_not_sep c : is_alnum c = true → is_sep c = false ∧ c ≠ 64%N.
Proof. unfold is_alnum. intros H. apply word_not_sep. unfold is_word. apply orb_true_iff in H as [->| ->]; by rewrite ?orb_true_r. Qed.

Lemma splitc_two c s a b : splitc c s = [a; b] ↔ s = a ++ c :: b ∧ sep_free c a ∧ sep_free c b.
Proof.
  split.
  - intros E. pose proof (join_splitc c s) as Hj. pose proof (splitc_sep_free c s) as Hf.
    rewrite E in Hj, Hf. inversion Hf as [|? ? Ha Hf']; subst. inversion Hf' as [|? ? Hb _]; subst.
    done.
  - intros (-> & Ha & Hb). by rewrite splitc_app, splitc_word.
Qed.

(** C28 -- An address is accepted exactly when it is a local part of words
    and a domain of labels, joined by single dots and hyphens, the last of
    them a dot. *)
Theorem isEmail_reference s : isEmail s = email_ref s.
Proof.
  apply eq_true_iff_eq. unfold isEmail, email_re. rewrite test_lang by done. rewrite lang_email.
  assert (∀ c, is_word c = true → is_sep c = false) as Hw1 by (intros c H; by apply word_not_sep).
  assert (∀ c, is_alnum c = true → is_sep c = false) as Ha1 by (intros c H; by apply alnum_not_sep).
  assert (∀ c, is_word c = true → c ≠ 64%N) as Hw2 by (intros c H; by apply word_not_sep).
  assert (∀ c, is_alnum c = true → c ≠ 64%N) as Ha2 by (intros c H; by apply alnum_not_sep).
  unfold email_ref. split.
  - intros (w & l & d & m & x & -> & [Hwn Hw] & Hl & [Hdn Hd] & Hm & Hx).
    assert (Forall (tail_of is_alnum) (m ++ [(46%N, x)])) as Hm'
      by (apply Forall_app; split; [done|by repeat constructor; apply Hx]).
    rewrite (proj2 (splitc_two 64 _ (w ++ flat l) (d ++ flat (m ++ [(46%N, x)])))).
    2: { split; [done|]. split; [by apply (no_at_flat is_word)|by apply (no_at_flat is_alnum)]. }
    rewrite (proj2 (labels_spec is_word Hw1 _)) by (by exists w, l).
    rewrite (proj2 (labels_spec is_alnum Ha1 _)) by (by exists d, (m ++ [(46%N, x)])).
    unfold ends_dot. rewrite (seps_flat is_alnum Ha1) by done. rewrite List.map_app. simpl. by rewrite last_snoc.
  - destruct (splitc 64 s) as [|a [|b [|]]] eqn:E; try done. apply splitc_two in E as (-> & _ & _).
    intros [[Ha Hb]%andb_true_iff Hdot]%andb_true_iff.
    apply (labels_spec is_word Hw1) in Ha as (w & l & -> & Hw & Hl).
    apply (labels_spec is_alnum Ha1) in Hb as (d & k & -> & Hd & Hk).
    unfold ends_dot in Hdot. rewrite (seps_flat is_alnum Ha1) in Hdot by (done || apply Hd).
    destruct k as [|[c x] m _] using rev_ind; [done|].
    rewrite List.map_app in Hdot. simpl in Hdot. rewrite last_snoc in Hdot. apply N.eqb_eq in Hdot as ->.
    apply Forall_app in Hk as [Hm [[_ Hx] _]%Forall_cons]. exists w, l, d, m, x. done.
Qed.

(** ** Messages *)

Lemma message_shows {G} m b (w : world G) : ∃ w', message m b w = (Ok tt, w')
  ∧ w_elt w' = w_elt w ∧ w_glob w' = w_glob w ∧ w_ev w' = w_ev w
  ∧ bn_text <$> u_banner (w_ui w') = Some (str_of_val m).
Proof.
  unfold message, error_message, measure, win. jrun.
  destruct (gt_num VUndef 0), (is_num (num b) 10); by eexists.
Qed.

(** ** The counter of a text *)

(** A code unit above 50 counts twice. *)
Definition weight (v : jstr) : Z := List.fold_right (λ c a, (if (50 <? c)%N then 2 else 1) + a) 0 v.

Lemma weight_app a b : weight (a ++ b) = weight a + weight b.
Proof. induction a as [|c a IH]; [done|]. simpl. rewrite IH. lia. Qed.

Section counter.
Context {G : Type}.
Implicit Types w : world G.

Lemma val_field sel w : val sel w = (Ok (val_of sel w), w).
Proof. done. Qed.

Lemma counter_loop_ok field p r fuel maxlimit w :
  single field w → val_of field w = VStr (p ++ r) → weight p ≤ maxlimit → (length r < fuel)%nat →
  ∃ w' q, counter_loop fuel (length p) (maxlimit - weight p) field w = (Ok tt, w')
    ∧ val_of field w' = VStr (p ++ q) ∧ weight (p ++ q) ≤ maxlimit
    ∧ (q = r ∧ w_ev w' = w_ev w
       ∨ ∃ c s, r = q ++ c :: s ∧ maxlimit < weight (p ++ q ++ [c])
           ∧ w_ev w' = w_ev w ++ [EvAlert too_long]).
Proof.
  revert p fuel. induction r as [|c r IH]; intros p fuel H V Hp Hf;
    (destruct fuel as [|fuel]; [simpl in Hf; lia|]); cbn [counter_loop];
    rewrite (bind_ok _ _ w _ w (val_field field w)), V; cbn [or_empty].
  - rewrite app_nil_r, lookup_ge_None_2 by lia. exists w, []. rewrite app_nil_r in *. split; [done|]. split; [done|]. split; [done|]. by left.
  - rewrite list_lookup_middle by done. cbv zeta. set (d := if (50 <? c)%N then 2 else 1).
    assert (weight (p ++ [c]) = weight p + d) as Hd by (rewrite weight_app; simpl; unfold d; case_match; lia).
    replace (if (50 <? c)%N then maxlimit - weight p - 2 else maxlimit - weight p - 1)
      with (maxlimit - weight (p ++ [c])) by (rewrite Hd; unfold d; case_match; lia).
    replace (S (length p)) with (length (p ++ [c])) by (rewrite length_app; simpl; lia).
    destruct (Z.ltb_spec (maxlimit - weight (p ++ [c])) 0) as [Hlt|Hge].
    + set (w1 := upd (with_val p) (found field w) w).
      destruct (set_val_field field p w H) as (w2 & [= <-] & S & _ & D & V1 & _).
      fold w1 in S, D, V1.
      rewrite substring_prefix.
      set (w3 := set_ev (w_ev w1 ++ [EvAlert too_long]) w1).
      cbn [when]. rewrite (bind_ok _ _ w tt w3) by done.
      simpl in Hf. destruct fuel as [|fuel]; [lia|]. cbn [counter_loop].
      rewrite (bind_ok _ _ w3 _ w3 (val_field field w3)).
      change (val_of field w3) with (val_of field w1). rewrite V1. cbn [or_empty].
      rewrite lookup_ge_None_2 by (rewrite length_app; simpl; lia).
      exists w3, []. rewrite app_nil_r. repeat split; [done|done|].
      right. exists c, r. split; [done|]. split; [simpl; lia|done].
    + cbn [when]. rewrite (bind_ok skip _ w tt w) by done.
      destruct (IH (p ++ [c]) fuel H) as (w' & q & E & V' & Hq & Hcase);
        [by rewrite <-app_assoc|lia|simpl in Hf; lia|].
      assert (∀ k, (p ++ [c]) ++ k = p ++ c :: k) as Ha by (intros; by rewrite <-app_assoc).
      rewrite Ha in V', Hq. exists w', (c :: q). split; [exact E|]. split; [done|]. split; [done|].
      destruct Hcase as [[-> Hev]|(c' & s & -> & Hc & Hev)]; [by left|].
      right. exists c', s. rewrite Ha in Hc. done.
Qed.
End counter.


(** ** Pages *)

(** The actions the page offers: no way back from the first page, none forward
    from the last. *)
Inductive turn := First | Previous | Next | Last | Go (j : Z).
Definition flag_of (t : turn) : jstr :=
  match t with
  | First => js "First" | Previous => js "Previous" | Next => js "Next" | Last => js "Last"
  | Go _ => js "go"
  end.
Definition offered (t : turn) (cur total : Z) : Prop :=
  match t with
  | Previous => 1 < cur
  | Next => cur < total
  | Go j => 0 ≤ j ≤ pow2_53
  | _ => True
  end.
Definition goal_page (t : turn) (cur total : Z) : Z :=
  match t with
  | First => 1 | Previous => cur - 1 | Next => cur + 1 | Last => total
  | Go j => Z.max 1 (Z.min j total)
  end.

Section pages.
Context {G : Type}.
Implicit Types w : world G.

Lemma int_at_str sel z w : val_of sel w = VStr (str_of_Z z) → 0 ≤ z ≤ pow2_53 →
  int_at sel w = (Ok (JInt z), w).
Proof.
  intros V Hz. unfold int_at. rewrite (bind_ok _ _ w _ w (val_field sel w)), V. cbn [str_of_val].
  rewrite parseInt_str_of_Z, round53_exact by lia. done.
Qed.

(** The request of the list form as it stands. *)
Definition form_goes w : event := EvSubmitTo list_form (attr_of list_form (js "action") w).
Lemma attr_frame sel k w w' : frame_step e_attr w w' → attr_of sel k w' = attr_of sel k w.
Proof.
  intros F. unfold attr_of. pose proof (frame_first e_attr sel _ _ F) as E.
  assert (∀ o : option elt, (o ≫= λ e, e_attr e !! k) = ((e_attr <$> o) ≫= λ a, a !! k)) as K by by intros [].
  by rewrite !K, E.
Qed.
Lemma turn_to {A} (m : J G A) (b : A → bool) x a w :
  single cur_page w →
  (∀ w', set_val cur_page x w = (Ok tt, w') → m w = (Ok a, w')) → b a = true →
  ∃ w', (go ← m; when (b go) (submit list_form)) w = (Ok tt, w')
    ∧ val_of cur_page w' = VStr x ∧ w_ev w' = w_ev w ++ [form_goes w] ∧ frame_step e_attr w w'.
Proof.
  intros H Hm Hb. destruct (set_val_field cur_page x w H) as (w1 & E & _ & _ & _ & V & _).
  assert (frame_step e_attr w w1) as F by (apply (frame_of e_attr (set_val cur_page x) _ (Ok tt)); [by apply frames_on|exact E]).
  exists (set_ev (w_ev w1 ++ [form_goes w]) w1). rewrite (bind_ok _ _ _ _ _ (Hm _ E)), Hb.
  split; [|split; [done|split; [by injection E as <-|]]].
  - unfold form_goes. by rewrite <-(attr_frame _ _ _ _ F).
  - destruct F. by constructor.
Qed.

Lemma jump_ok j total w : single cur_page w →
  val_of page_count w = VStr (str_of_Z total) → val_of jump_page w = VStr (str_of_Z j) →
  1 ≤ total ≤ pow2_53 → 0 ≤ j ≤ pow2_53 →
  ∀ w', set_val cur_page (str_of_Z (Z.max 1 (Z.min j total))) w = (Ok tt, w') →
    jump w = (Ok true, w').
Proof.
  intros H Vt Vj Ht Hj w' E. unfold jump. rewrite (bind_ok _ _ w _ w (val_field jump_page w)), Vj.
  rewrite str_not_empty by lia. rewrite (bind_ok _ _ _ _ _ (int_at_str _ _ _ Vt ltac:(lia))).
  cbn [num_of_val or_empty]. rewrite to_number_str_of_Z, str_of_int by lia.
  unfold num_le, num_lt, num_eq.
  assert ((if total <? j then str_of_Z total
           else if (j <? 0) || bool_decide (JInt j = JInt 0) then js "1" else str_of_Z j)
          = str_of_Z (Z.max 1 (Z.min j total))) as ->.
  { destruct (Z.ltb_spec total j); [by rewrite Z.min_r, Z.max_r by lia|].
    rewrite (proj2 (Z.ltb_ge j 0)) by lia. cbn [orb].
    case_bool_decide as Hz; [by injection Hz as ->; rewrite Z.min_l, Z.max_l by lia|].
    rewrite Z.min_l, Z.max_r; [done| |lia]. destruct (decide (j = 0)) as [->|]; [done|lia]. }
  by rewrite (bind_ok _ _ _ _ _ E).
Qed.
End pages.

Lemma turn_page {G} t cur total (w : world G) :
  single cur_page w → val_of cur_page w = VStr (str_of_Z cur) →
  val_of page_count w = VStr (str_of_Z total) →
  1 ≤ cur ≤ total → total ≤ pow2_53 → offered t cur total →
  (∀ j, t = Go j → val_of jump_page w = VStr (str_of_Z j)) →
  ∃ w', paginationQuery (flag_of t) w = (Ok tt, w')
    ∧ val_of cur_page w' = VStr (str_of_Z (goal_page t cur total))
    ∧ 1 ≤ goal_page t cur total ≤ total
    ∧ w_ev w' = w_ev w ++ [form_goes w] ∧ frame_step e_attr w w'.
Proof.
  intros H Vc Vt Hc Ht Ho Hj. unfold paginationQuery.
  rewrite (bind_ok _ _ _ _ _ (int_at_str _ _ _ Vc ltac:(lia))).
  assert (1 ≤ goal_page t cur total ≤ total) as Hgoal by (destruct t; simpl in *; lia).
  cut (∃ w', (go ← (if bool_decide (flag_of t = js "First") then set_val cur_page (js "1") ;; mret true
        else if bool_decide (flag_of t = js "Previous")
        then set_val cur_page (str_of_num (num_sub (JInt cur) (JInt 1))) ;; mret true
        else if bool_decide (flag_of t = js "Next")
        then set_val cur_page (str_of_num (num_add (JInt cur) (JInt 1))) ;; mret true
        else if bool_decide (flag_of t = js "Last")
        then total ← val page_count; set_val cur_page (or_empty total) ;; mret true
        else if bool_decide (flag_of t = js "go") then jump else mret true);
      when go (submit list_form)) w = (Ok tt, w')
    ∧ val_of cur_page w' = VStr (str_of_Z (goal_page t cur total))
    ∧ w_ev w' = w_ev w ++ [form_goes w] ∧ frame_step e_attr w w');
    [intros (w' & E & V & Ev & F); by exists w'|].
  apply (turn_to _ (λ b, b) _ true); [done| |done]. intros w' E.
  destruct t as [| | | |j]; cbn [flag_of goal_page offered] in *.
  - change (bool_decide (js "First" = js "First")) with true. change (str_of_Z 1) with (js "1") in E. cbv iota. by rewrite (bind_ok _ _ _ _ _ E).
  - change (bool_decide (js "Previous" = js "First")) with false.
    change (bool_decide (js "Previous" = js "Previous")) with true. unfold num_sub. cbn [num_neg].
    change (cur - 1) with (cur + -1) in E.
    rewrite num_add_exact, str_of_int by lia. cbv iota. by rewrite (bind_ok _ _ _ _ _ E).
  - change (bool_decide (js "Next" = js "First")) with false.
    change (bool_decide (js "Next" = js "Previous")) with false.
    change (bool_decide (js "Next" = js "Next")) with true.
    rewrite num_add_exact, str_of_int by lia. cbv iota. by rewrite (bind_ok _ _ _ _ _ E).
  - change (bool_decide (js "Last" = js "First")) with false.
    change (bool_decide (js "Last" = js "Previous")) with false.
    change (bool_decide (js "Last" = js "Next")) with false.
    change (bool_decide (js "Last" = js "Last")) with true.
    cbv iota. rewrite (bind_ok _ _ w _ w (val_field page_count w)), Vt. cbv iota. by rewrite (bind_ok _ _ _ _ _ E).
  - change (bool_decide (js "go" = js "First")) with false.
    change (bool_decide (js "go" = js "Previous")) with false.
    change (bool_decide (js "go" = js "Next")) with false.
    change (bool_decide (js "go" = js "Last")) with false.
    change (bool_decide (js "go" = js "go")) with true.
    cbv iota. apply (jump_ok j total); try done; [by apply Hj|lia].
Qed.

(** C40 -- From a page of the list, every action the page offers, and every
    number typed, submits the list form, to the address it has, with a page of
    the list, and leaves the attributes of the page alone. *)
Theorem paginationQuery_in_range {G} t cur total (w : world G) :
  single cur_page w → val_of cur_page w = VStr (str_of_Z cur) →
  val_of page_count w = VStr (str_of_Z total) →
  1 ≤ cur ≤ total → total ≤ pow2_53 → offered t cur total →
  (∀ j, t = Go j → val_of jump_page w = VStr (str_of_Z j)) →
  ∃ w', paginationQuery (flag_of t) w = (Ok tt, w')
    ∧ val_of cur_page w' = VStr (str_of_Z (goal_page t cur total))
    ∧ 1 ≤ goal_page t cur total ≤ total
    ∧ w_ev w' = w_ev w ++ [form_goes w] ∧ frame_step e_attr w w'.
Proof. apply turn_page. Qed.

(** ** Rows of network senders *)

Record rows_ok (rows : list robot) : Prop := {
  ro_first : ∃ a r, rows = (0%nat, a) :: r ∧ Forall (λ p, p.1 ≠ 0%nat) r;
  ro_length : (length rows ≤ 10)%nat
}.
(** How many rows a click leaves. *)
Definition rows_after (n : nat) (c : robot_click) : nat :=
  match c with
  | Plus => Nat.min 10 (S n)
  | Minus i => if (i <? n)%nat then pred n else n
  end.

Lemma robot_click_ok c w : rows_ok (w_glob w) → c ≠ Minus 0 →
  ∃ w', robot_click_fn c w = (Ok tt, w') ∧ rows_ok (w_glob w')
    ∧ length (w_glob w') = rows_after (length (w_glob w)) c.
Proof.
  intros [(a & r & E & Hr) Hl] Hc. destruct c as [|i]; cbn [robot_click_fn rows_after].
  - unfold addRobot. rewrite (bind_ok get_glob _ w (w_glob w) w) by done.
    destruct (Z.leb_spec 10 (Z.of_nat (length (w_glob w)))).
    + eexists. split; [done|]. cbn [w_glob set_ev]. split; [|lia]. constructor; [by exists a, r|done].
    + rewrite E in *. eexists. split; [done|]. cbn [w_glob set_glob]. rewrite length_app. cbn [length] in *.
      split; [|lia]. constructor; [|cbn [app length]; rewrite length_app; simpl; lia].
      exists a, (r ++ [(S (length r), [])]). split; [done|]. apply Forall_app. split; [done|by constructor].
  - rewrite (bind_ok get_glob _ w (w_glob w) w) by done. rewrite E in *.
    destruct (((0%nat, a) :: r) !! i) as [[id t]|] eqn:Hi.
    + apply lookup_lt_Some in Hi as Hlt. rewrite (proj2 (Nat.ltb_lt _ _)) by done.
      destruct i as [|i]; [done|]. cbn [lookup list_lookup] in Hi.
      assert (id ≠ 0%nat) as Hid by (rewrite Forall_forall in Hr; exact (Hr _ (list_elem_of_lookup_2 _ _ _ Hi))).
      eexists. split; [done|]. cbn [w_glob set_glob]. rewrite E. cbn [remove_first fst].
      rewrite bool_decide_eq_false_2 by done.
      assert (existsb (λ p : robot, bool_decide (p.1 = id)) r = true) as He.
      { apply existsb_exists. exists (id, t). split; [|by apply bool_decide_eq_true].
        apply list_elem_of_In. exact (list_elem_of_lookup_2 _ _ _ Hi). }
      pose proof (remove_first_length _ _ He). cbn [length] in *. split; [|lia].
      constructor; [|simpl; lia]. exists a. eexists. split; [done|].
      eapply Forall_sublist; [exact Hr|]. apply remove_first_sublist.
    + apply lookup_ge_None in Hi. rewrite (proj2 (Nat.ltb_ge _ _)) by done.
      exists w. rewrite E. split; [done|]. split; [|done]. constructor; [by exists a, r|done].
Qed.

(** Whatever is clicked, the first row of network senders stays, there are
    never more than ten, a click on [+] adds a row up to the tenth and a click
    on [-] removes exactly one. *)
Theorem robots_session clicks (w : world (list robot)) :
  rows_ok (w_glob w) → Forall (λ c, c ≠ Minus 0) clicks →
  ∃ w', for_each clicks robot_click_fn w = (Ok tt, w') ∧ rows_ok (w_glob w')
    ∧ length (w_glob w') = List.fold_left rows_after clicks (length (w_glob w)).
Proof.
  intros H Hc. revert w H. induction Hc as [|c l Hc _ IH]; intros w H; [by exists w|].
  destruct (robot_click_ok c w H Hc) as (w1 & E1 & H1 & L1). destruct (IH w1 H1) as (w' & E & Hw & L).
  exists w'. cbn [for_each List.fold_left]. rewrite (bind_ok _ _ _ _ _ E1), <-L1. done.
Qed.

(** Two rows may come to have one name, and the button of the second then
    removes the first. *)
Example wrong_row_removed :
  let w := page [] [] [(0%nat, js "a"); (1%nat, js "b"); (2%nat, js "c")] in
  w_glob (for_each [Minus 1; Plus; Minus 2] robot_click_fn w).2 = [(0%nat, js "a"); (2%nat, [])].
Proof. by vm_compute. Qed.

(** * Witnesses *)

Definition with_value (v : jstr) : elt := with_val v blank.
Definition demo_field (v : string) : world unit := page_with [(js "#labelDesc", with_value (js v))] tt.


Definition demo_list : world unit :=
  page_with [(cur_page, with_value (js "3")); (page_count, with_value (js "7"));
             (jump_page, with_value (js "12"))] tt.
Lemma paginationQuery_in_range_witness :
  ∃ w', paginationQuery (flag_of (Go 12)) demo_list = (Ok tt, w')
    ∧ val_of cur_page w' = VStr (str_of_Z 7) ∧ 1 ≤ 7 ≤ 7
    ∧ w_ev w' = w_ev demo_list ++ [form_goes demo_list] ∧ frame_step e_attr demo_list w'.
Proof.
  apply (paginationQuery_in_range (Go 12) 3 7 demo_list); [on_page|on_page|on_page|lia|done|done|].
  intros j [= <-]. on_page.
Defined.

Lemma robots_session_witness :
  let w := page [] [] [(0%nat, js "a@b.cn")] in
  ∃ w', for_each [Plus; Plus; Minus 1; Plus] robot_click_fn w = (Ok tt, w') ∧ rows_ok (w_glob w')
    ∧ length (w_glob w') = 3%nat.
Proof.
  intros w. apply (robots_session [Plus; Plus; Minus 1; Plus] w).
  - constructor; [by exists (js "a@b.cn"), []|simpl; lia].
  - by repeat constructor.
Defined.
