(* ===== verification/Roles.v ===== *)
(** * The functions a role may use ([role/roleEdit.js])

    The page of a role has a box for each function of the product.  A function
    may need others ([modelList]); ticking a box ticks what it needs, unticking
    it unticks what it needs, and the form is sent only when every ticked
    function has what it needs. *)

From S2P Require Import Prelude Js JsFacts Page Base Operator.
#[local] Open Scope Z_scope.
#[local] Set Warnings "-clear-no-such-hyp".

(** ** What a function needs *)

Definition modelList : list (jstr * list jstr) :=
  [(js "M_1", [js "M_2"]);
   (js "M_4", [js "M_3"; js "M_1"; js "M_2"]);
   (js "M_5", [js "M_1"; js "M_2"]);
   (js "M_8", [js "M_7"]);
   (js "M_6", [js "M_7"]);
   (js "M_9", [js "M_7"]);
   (js "M_10", [js "M_7"; js "M_12"]);
   (js "M_11", [js "M_7"; js "M_12"]);
   (js "M_12", [js "M_7"]);
   (js "M_13", [js "M_7"; js "M_12"])].

(** [modelList[id] || []] *)
Fixpoint assoc (id : jstr) (l : list (jstr * list jstr)) : list jstr :=
  match l with
  | [] => []
  | (k, v) :: l' => if bool_decide (k = id) then v else assoc id l'
  end.
Definition needs (id : jstr) : list jstr := assoc id modelList.

(** The message of [testRelation] for a function. *)
Definition relation_text (key : jstr) : option jstr :=
  snd <$> List.find (λ p, bool_decide (fst p = key))
    [(js "M_1", js "提示：选择【收件人管理】，请关联选择【属性管理】");
     (js "M_4", js "提示：选择【收件人筛选与导出】，请关联选择【过滤器管理、收件人管理、属性管理】");
     (js "M_5", js "提示：选择【表单管理】，请关联选择【收件人管理、属性管理】");
     (js "M_8", js "提示：选择【任务创建】，请关联选择【模板预览】");
     (js "M_6", js "提示：选择【模板设计与管理】，请关联选择【模板预览】");
     (js "M_9", js "提示：选择【任务审核】，请关联选择【模板预览】");
     (js "M_10", js "提示：选择【任务投递监控管理】，请关联选择【模板预览、报告查阅】");
     (js "M_11", js "提示：选择【活动创建与管理】，请关联选择【模板预览、报告查阅】");
     (js "M_12", js "提示：选择【报告查阅】，请关联选择【模板预览】");
     (js "M_13", js "提示：选择【报告导出】，请关联选择【报告查阅】")].

Definition box (id : jstr) : jstr := js "#" ++ id.
Definition all_boxes : jstr := js "#addRole input[type=checkbox]".
Definition roleName : jstr := js "#addRole [name=roleName]".
Definition err : jstr := js ".err".

(** ** The scripts *)

Section scripts.
Context {G : Type}.

Definition checkRole (id : jstr) : J G unit :=
  isChecked ← checked0 (box id);
  let arr := needs id in
  if isChecked : bool
  then for_each arr (λ r, set_checked0 (box r) true)
  else for_each arr (λ r, set_checked0 (box r) false).

(** A click on a box: the browser flips it, then the handler runs. *)
Definition change_box (id : jstr) : J G unit :=
  b ← checked0 (box id);
  set_checked0 (box id) (negb b) ;;
  checkRole id.

(** The inner loop: whether something needed is not ticked. *)
Fixpoint missing_need (key : jstr) (arr : list jstr) : J G bool :=
  match arr with
  | [] => mret false
  | r :: arr' =>
      flag ← checked0 (box r);
      if negb flag
      then match relation_text key with
           | Some t => set_html err t ;; mret true
           | None => missing_need key arr'
           end
      else missing_need key arr'
  end.
(** The outer loop; the function returns [false] or nothing. *)
Fixpoint test_keys (l : list (jstr * list jstr)) : J G jval :=
  match l with
  | [] => mret VUndef
  | (key, arr) :: l' =>
      isChecked ← checked0 (box key);
      bad ← (if isChecked : bool then missing_need key arr else mret false);
      if bad : bool then mret (VBool false) else test_keys l'
  end.
Definition testRelation : J G jval := test_keys modelList.

Definition beforeSubmit : J G jval :=
  name ← val roleName;
  if bool_decide (trim (field name) = [])
  then set_html err (js "提示：角色名称不能为空！") ;; mret (VBool false)
  else l ← elts_of all_boxes;
       if Z.of_nat (length (List.filter e_checked l)) =? 0
       then set_html err (js "提示：请选择功能权限！") ;; mret (VBool false)
       else testRelation.

(** The answer to the form, when there is one. *)
Definition saveRole_success (result mess : jval) : J G unit :=
  if is_str result "success"
  then message mess 0 ;; emit (EvTimeout 2000)
  else match result with
       | VUndef => set_html err (js "提示：提交失败！")
       | _ => set_html err (str_of_val mess)
       end.
Definition success : J G unit :=
  url ← val (js "#successUrl"); emit (EvAssign (str_of_val url)).
Definition back : J G unit :=
  url ← val (js "#backUrl"); emit (EvAssign (str_of_val url)).

(** The functions the role has are ticked when the page opens. *)
Definition tick_saved : J G unit :=
  v ← val (js "#funcList");
  match v with
  | VStr [] => skip
  | VStr s => for_each (splitc c_comma s) (λ f, when (negb (bool_decide (f = [])))
                (set_checked0 (box f) true))
  | _ => throw (js "TypeError")
  end.
End scripts.

(** ** The abstract role: the set of its functions *)

Definition funcs : list jstr :=
  [js "M_1"; js "M_2"; js "M_3"; js "M_4"; js "M_5"; js "M_6"; js "M_7"; js "M_8"; js "M_9";
   js "M_10"; js "M_11"; js "M_12"; js "M_13"; js "M_14"].

Definition toggle_func (S : gset jstr) (f : jstr) : gset jstr :=
  if bool_decide (f ∈ S)
  then S ∖ ({[f]} ∪ list_to_set (needs f))
  else {[f]} ∪ list_to_set (needs f) ∪ S.

(** Every function of the role has what it needs. *)
Definition has_needs (S : gset jstr) (f : jstr) : bool := forallb (λ r, bool_decide (r ∈ S)) (needs f).
Definition closed (S : gset jstr) : Prop := ∀ f, f ∈ S → has_needs S f = true.
(** The first function, in the order of [modelList], that does not. *)
Definition first_short (S : gset jstr) : option jstr :=
  List.find (λ f, bool_decide (f ∈ S) && negb (has_needs S f)) (List.map fst modelList).

(** * Facts *)

Section facts.
Context {G : Type}.
Implicit Types w : world G.

(** The page has one box for each function, and the form finds them all. *)
Definition role_page w : Prop :=
  NoDup (found all_boxes w) ∧
  Forall2 (λ f i, found (box f) w = [i] ∧ is_Some (w_elt w !! i)) funcs (found all_boxes w).
(** The boxes show the set. *)
Definition ticks w (S : gset jstr) : Prop :=
  ∀ f, f ∈ funcs → checked_of (box f) w = Some (bool_decide (f ∈ S)).
(** Only boxes, the banner and contents differ. *)
Definition same_fields w w' : Prop := frame_step e_val w w' ∧ w_ev w' = w_ev w.

Lemma same_fields_refl w : same_fields w w.
Proof. by repeat constructor. Qed.
Lemma same_fields_trans w1 w2 w3 : same_fields w1 w2 → same_fields w2 w3 → same_fields w1 w3.
Proof. intros [F1 E1] [F2 E2]. split; [by eapply frame_trans|congruence]. Qed.

Lemma role_page_frame w w' : same_fields w w' → role_page w → role_page w'.
Proof.
  intros [[S D _] _] [Hn Hf]. unfold role_page, found in *. rewrite S. split; [done|].
  eapply Forall2_impl; [exact Hf|]. intros f i [Hi He]. auto.
Qed.

Lemma funcs_box w f : role_page w → f ∈ funcs → ∃ k i, funcs !! k = Some f
  ∧ found all_boxes w !! k = Some i ∧ found (box f) w = [i] ∧ is_Some (w_elt w !! i).
Proof.
  intros [_ Hf] [k Hk]%list_elem_of_lookup_1.
  destruct (Forall2_lookup_l _ _ _ _ _ Hf Hk) as (i & Hi & E & He). exists k, i. auto.
Qed.

Lemma box_single w f : role_page w → f ∈ funcs → single (box f) w.
Proof. intros Hp Hf. destruct (funcs_box w f Hp Hf) as (_ & i & _ & _ & E & e & He). by exists i, e. Qed.

Lemma box_apart w f g : role_page w → f ∈ funcs → g ∈ funcs → f ≠ g → apart (box f) (box g) w.
Proof.
  intros Hp Hf Hg Hne. destruct (funcs_box w f Hp Hf) as (k & i & Kf & Ki & Ei & _).
  destruct (funcs_box w g Hp Hg) as (l & j & Lg & Lj & Ej & _).
  intros x. rewrite Ei, Ej, !list_elem_of_singleton. intros -> ->.
  apply Hne. destruct Hp as [Hn _]. assert (k = l) as -> by (by eapply NoDup_lookup). congruence.
Qed.

Lemma set_checked0_ok f b w : role_page w → f ∈ funcs → ∃ w',
  set_checked0 (box f) b w = (Ok tt, w') ∧ same_fields w w'
  ∧ checked_of (box f) w' = Some b
  ∧ ∀ g, g ∈ funcs → g ≠ f → checked_of (box g) w' = checked_of (box g) w.
Proof.
  intros Hp Hf. destruct (box_single w f Hp Hf) as (i & e & Hi & He).
  exists (upd (with_checked b) [i] w). unfold set_checked0.
  rewrite (bind_ok (gets (found (box f))) _ w [i] w) by (unfold gets; by rewrite Hi).
  split; [done|]. split; [split; [|done]; constructor; [done| |]; intros j;
    [by apply upd_is_some|by apply (upd_proj e_val)]|]. unfold checked_of. split.
  - rewrite <-Hi. rewrite on_first by (by exists i, e). unfold first, nth_elt. by rewrite Hi, He.
  - intros g Hg Hne. rewrite first_upd_ne; [done|]. rewrite <-Hi. by apply box_apart.
Qed.

Lemma set_tick f b w S : role_page w → f ∈ funcs → ticks w S → ∃ w',
  set_checked0 (box f) b w = (Ok tt, w') ∧ same_fields w w'
  ∧ ticks w' (if b then {[f]} ∪ S else S ∖ {[f]}).
Proof.
  intros Hp Hf Ht. destruct (set_checked0_ok f b w Hp Hf) as (w' & E & Hs & Hb & Ho).
  exists w'. split; [done|]. split; [done|]. intros g Hg. destruct (decide (g = f)) as [->|Hne].
  - rewrite Hb. f_equal. clear. destruct b; symmetry; [apply bool_decide_eq_true|apply bool_decide_eq_false]; set_solver.
  - rewrite Ho, Ht by done. f_equal. apply bool_decide_ext. clear -Hne. destruct b; set_solver.
Qed.

Lemma set_ticks b l w S : role_page w → Forall (.∈ funcs) l → ticks w S → ∃ w',
  for_each l (λ r, set_checked0 (box r) b) w = (Ok tt, w') ∧ same_fields w w'
  ∧ ticks w' (if b then list_to_set l ∪ S else S ∖ list_to_set l).
Proof.
  intros Hp Hl. revert w S Hp. induction Hl as [|f l Hf _ IH]; intros w S Hp Ht.
  - exists w. split; [done|]. split; [apply same_fields_refl|]. intros g Hg. rewrite Ht by done.
    f_equal. apply bool_decide_ext. clear. destruct b; set_solver.
  - destruct (set_tick f b w S Hp Hf Ht) as (w1 & E1 & S1 & T1).
    destruct (IH w1 _ (role_page_frame _ _ S1 Hp) T1) as (w2 & E2 & S2 & T2).
    exists w2. cbn [for_each]. rewrite (bind_ok _ _ _ _ _ E1). split; [done|].
    split; [by eapply same_fields_trans|]. intros g Hg. rewrite T2 by done.
    f_equal. apply bool_decide_ext. clear. destruct b; set_solver.
Qed.

Lemma needs_funcs f : Forall (.∈ funcs) (needs f).
Proof.
  unfold needs. assert (Forall (λ p, Forall (.∈ funcs) p.2) modelList) as H.
  { refine (proj1 (bool_decide_eq_true _) _). vm_compute. reflexivity. }
  induction H as [|[k v] l Hv _ IH]; cbn [assoc]; [constructor|]. by case_bool_decide.
Qed.
Lemma needs_irrefl f : f ∉ needs f.
Proof.
  unfold needs. assert (Forall (λ p, p.1 ∉ p.2) modelList) as H.
  { refine (proj1 (bool_decide_eq_true _) _). vm_compute. reflexivity. }
  induction H as [|[k v] l Hv _ IH]; cbn [assoc]; [apply not_elem_of_nil|].
  case_bool_decide as E; [by subst|done].
Qed.
(** What is needed needs no more than what needs it. *)
Lemma needs_closed f r : r ∈ needs f → Forall (.∈ needs f) (needs r).
Proof.
  assert (Forall (λ p, Forall (λ r, Forall (.∈ p.2) (needs r)) p.2) modelList) as H.
  { refine (proj1 (bool_decide_eq_true _) _). vm_compute. reflexivity. }
  unfold needs at 1 2. induction H as [|[k v] l Hv _ IH]; cbn [assoc]; [by intros ?%elem_of_nil|].
  case_bool_decide; [|done]. rewrite Forall_forall in Hv. auto.
Qed.

(** *** A click *)

Lemma change_box_ok f w S : role_page w → f ∈ funcs → ticks w S → ∃ w',
  change_box f w = (Ok tt, w') ∧ same_fields w w' ∧ ticks w' (toggle_func S f).
Proof.
  intros Hp Hf Ht. unfold change_box. rewrite (bind_ok _ _ _ _ _ (checked0_of _ _ _ (Ht f Hf))).
  destruct (set_tick f (negb (bool_decide (f ∈ S))) w S Hp Hf Ht) as (w1 & E1 & S1 & T1).
  rewrite (bind_ok _ _ _ _ _ E1). unfold checkRole.
  rewrite (bind_ok _ _ _ _ _ (checked0_of _ _ _ (T1 f Hf))). cbv zeta. unfold toggle_func.
  pose proof (role_page_frame _ _ S1 Hp) as Hp1.
  case_bool_decide as Hin; cbn [negb] in *.
  - rewrite bool_decide_eq_false_2 by set_solver.
    destruct (set_ticks false (needs f) w1 _ Hp1 (needs_funcs f) T1) as (w2 & E2 & S2 & T2).
    exists w2. split; [done|]. split; [by eapply same_fields_trans|]. intros g Hg. rewrite T2 by done.
    f_equal. apply bool_decide_ext. clear. set_solver.
  - rewrite bool_decide_eq_true_2 by set_solver.
    destruct (set_ticks true (needs f) w1 _ Hp1 (needs_funcs f) T1) as (w2 & E2 & S2 & T2).
    exists w2. split; [done|]. split; [by eapply same_fields_trans|]. intros g Hg. rewrite T2 by done.
    f_equal. apply bool_decide_ext. clear. set_solver.
Qed.

(** *** The check of the form *)

Lemma missing_need_ok key arr w S : role_page w → Forall (.∈ funcs) arr → ticks w S →
  is_Some (relation_text key) →
  missing_need key arr w =
    if forallb (λ r, bool_decide (r ∈ S)) arr then (Ok false, w)
    else (Ok true, upd (with_html (default [] (relation_text key))) (found err w) w).
Proof.
  intros Hp Hl Ht [t Hk]. induction Hl as [|r arr Hr _ IH]; [done|]. cbn [missing_need forallb].
  rewrite (bind_ok _ _ _ _ _ (checked0_of _ _ _ (Ht r Hr))).
  case_bool_decide; cbn [negb andb]; [apply IH|]. by rewrite Hk.
Qed.

Definition model_ok (l : list (jstr * list jstr)) : Prop :=
  Forall (λ p, p.1 ∈ funcs ∧ Forall (.∈ funcs) p.2 ∧ is_Some (relation_text p.1) ∧ needs p.1 = p.2) l.

Lemma test_keys_ok l w S : role_page w → ticks w S → model_ok l →
  test_keys l w =
    match List.find (λ f, bool_decide (f ∈ S) && negb (has_needs S f)) (List.map fst l) with
    | Some f => (Ok (VBool false), upd (with_html (default [] (relation_text f))) (found err w) w)
    | None => (Ok VUndef, w)
    end.
Proof.
  intros Hp Ht Hl. induction Hl as [|[key arr] l (Hk & Ha & Hr & Hn) _ IH]; [done|].
  cbn [test_keys List.map fst List.find]. cbn [fst snd] in *.
  rewrite (bind_ok _ _ _ _ _ (checked0_of _ _ _ (Ht key Hk))). unfold has_needs at 1. rewrite Hn.
  destruct (bool_decide (key ∈ S)); cbn [andb].
  - pose proof (missing_need_ok key arr w S Hp Ha Ht Hr) as E.
    destruct (forallb _ arr); cbn [negb]; by rewrite (bind_ok _ _ _ _ _ E).
  - by rewrite (bind_ok (mret false) _ w false w).
Qed.

Lemma model_list_ok : model_ok modelList.
Proof.
  assert (forallb (λ p, bool_decide (p.1 ∈ funcs) && bool_decide (Forall (.∈ funcs) p.2)
    && bool_decide (is_Some (relation_text p.1)) && bool_decide (needs p.1 = p.2)) modelList = true) as H
    by (vm_compute; reflexivity).
  rewrite forallb_forall in H. apply Forall_forall. intros p Hp. apply list_elem_of_In, H in Hp.
  by bool_simp.
Qed.

Lemma first_short_closed S : first_short S = None ↔ closed S.
Proof.
  unfold first_short, closed. split.
  - intros Hf f Hin. destruct (decide (f ∈ List.map fst modelList)) as [Hk|Hk].
    + apply list_elem_of_In in Hk. pose proof (List.find_none _ _ Hf f Hk) as H. cbv beta in H.
      rewrite bool_decide_eq_true_2 in H by done. by apply negb_false_iff in H.
    + unfold has_needs, needs. clear Hf. induction modelList as [|[k v] l IH]; [done|].
      cbn [assoc]. cbn [List.map fst] in Hk. apply not_elem_of_cons in Hk as [Hk Hl].
      rewrite bool_decide_eq_false_2 by done. auto.
  - intros Hc. destruct (List.find _ _) as [f|] eqn:Hf; [|done].
    apply List.find_some in Hf as [_ Hf]. bool_simp. rewrite Hc in * by done. done.
Qed.

Lemma some_ticked w S : role_page w → ticks w S →
  (Z.of_nat (length (List.filter e_checked (List.map (nth_elt w) (found all_boxes w)))) =? 0)
  = negb (existsb (λ f, bool_decide (f ∈ S)) funcs).
Proof.
  intros [_ Hf] Ht. unfold ticks in Ht. revert Ht.
  induction Hf as [|f i fs ids [Hi [e He]] _ IH]; intros Ht; [done|]. cbn [List.map List.filter existsb].
  pose proof (Ht f (list_elem_of_here _ _)) as Hc. unfold checked_of, first in Hc. rewrite Hi in Hc.
  injection Hc as ->. destruct (bool_decide (f ∈ S)); [done|]. cbn [orb]. apply IH.
  intros g Hg. apply Ht. by right.
Qed.

Lemma session_ok ids w S : role_page w → ticks w S → Forall (.∈ funcs) ids → ∃ w',
  for_each ids change_box w = (Ok tt, w') ∧ same_fields w w'
  ∧ ticks w' (List.fold_left toggle_func ids S).
Proof.
  intros Hp Ht Hi. revert w S Hp Ht. induction Hi as [|f ids Hf _ IH]; intros w S Hp Ht.
  - exists w. split; [done|]. by split; [apply same_fields_refl|].
  - destruct (change_box_ok f w S Hp Hf Ht) as (w1 & E1 & S1 & T1).
    destruct (IH w1 _ (role_page_frame _ _ S1 Hp) T1) as (w2 & E2 & S2 & T2).
    exists w2. cbn [for_each]. rewrite (bind_ok _ _ _ _ _ E1). split; [done|].
    split; [by eapply same_fields_trans|done].
Qed.

(** *** What stops the form *)

Definition role_problem (name : jstr) (S : gset jstr) : option jstr :=
  if bool_decide (trim name = []) then Some (js "提示：角色名称不能为空！")
  else if negb (existsb (λ f, bool_decide (f ∈ S)) funcs) then Some (js "提示：请选择功能权限！")
  else f ← first_short S; relation_text f.

Lemma beforeSubmit_ok name w S : role_page w → ticks w S → val_of roleName w = VStr name →
  beforeSubmit w = match role_problem name S with
                   | Some t => (Ok (VBool false), upd (with_html t) (found err w) w)
                   | None => (Ok VUndef, w)
                   end.
Proof.
  intros Hp Ht Hn. unfold beforeSubmit, role_problem. rewrite (bind_ok _ _ w _ w (val_field roleName w)), Hn.
  cbn [field or_empty]. case_bool_decide; [done|].
  rewrite (bind_ok (elts_of all_boxes) _ w _ w eq_refl), (some_ticked w S) by done.
  destruct (existsb _ funcs); cbn [negb]; [|done].
  unfold testRelation. rewrite (test_keys_ok _ w S) by (done || apply model_list_ok).
  fold (first_short S). destruct (first_short S) as [f|] eqn:Hf; [|done].
  apply List.find_some in Hf as [(p & <- & Hk)%in_map_iff _].
  pose proof model_list_ok as Hm. unfold model_ok in Hm. rewrite Forall_forall in Hm.
  destruct (Hm p ltac:(by apply list_elem_of_In)) as (_ & _ & [t Hr] & _). cbn [mbind option_bind]. by rewrite Hr.
Qed.

Lemma role_problem_none name S : role_problem name S = None ↔
  trim name ≠ [] ∧ (∃ f, f ∈ funcs ∧ f ∈ S) ∧ closed S.
Proof.
  unfold role_problem. rewrite <-first_short_closed.
  assert (existsb (λ f, bool_decide (f ∈ S)) funcs = true ↔ ∃ f, f ∈ funcs ∧ f ∈ S) as Hex.
  { rewrite existsb_exists. setoid_rewrite bool_decide_eq_true. by setoid_rewrite list_elem_of_In. }
  case_bool_decide as Hb; [split; [done|by intros [? _]]|].
  destruct (existsb _ funcs); cbn [negb].
  - destruct (first_short S) as [f|] eqn:Hf; [|split; [|done]; intros _; split; [done|]; split; [by apply Hex|done]].
    split; [|by intros (_ & _ & ?)]. intros Hr. exfalso.
    apply List.find_some in Hf as [(p & <- & Hk)%in_map_iff _].
    pose proof model_list_ok as Hm. unfold model_ok in Hm. rewrite Forall_forall in Hm.
    destruct (Hm p ltac:(by apply list_elem_of_In)) as (_ & _ & [t Ht] & _). cbn [mbind option_bind] in Hr. congruence.
  - split; [done|]. intros (_ & H & _). by apply Hex in H.
Qed.

(** *** Sets of functions *)

Lemma has_needs_spec S f : has_needs S f = true ↔ ∀ r, r ∈ needs f → r ∈ S.
Proof.
  unfold has_needs. rewrite forallb_forall. setoid_rewrite bool_decide_eq_true.
  by setoid_rewrite <-list_elem_of_In.
Qed.

Lemma add_needs_closed S f r : r ∈ ({[f]} ∪ list_to_set (needs f) : gset jstr) →
  has_needs ({[f]} ∪ list_to_set (needs f) ∪ S) r = true.
Proof.
  rewrite has_needs_spec. intros [->%elem_of_singleton|Hr%elem_of_list_to_set]%elem_of_union x Hx.
  - apply elem_of_union_l, elem_of_union_r. by apply elem_of_list_to_set.
  - pose proof (needs_closed f r Hr) as H. rewrite Forall_forall in H.
    apply elem_of_union_l, elem_of_union_r, elem_of_list_to_set. by apply H.
Qed.

Lemma has_needs_mono S T f : S ⊆ T → has_needs S f = true → has_needs T f = true.
Proof. rewrite !has_needs_spec. auto. Qed.

Lemma toggle_closed S f : closed S → f ∉ S → closed (toggle_func S f).
Proof.
  intros Hc Hf r. unfold toggle_func. rewrite bool_decide_eq_false_2 by done.
  intros [Hr|Hr]%elem_of_union; [by apply add_needs_closed|].
  eapply has_needs_mono; [|by apply Hc]. apply union_subseteq_r.
Qed.

(** Two clicks on a ticked function tick what it needs. *)
Lemma toggle_twice S f : f ∈ S → toggle_func (toggle_func S f) f = S ∪ list_to_set (needs f).
Proof.
  intros Hf. unfold toggle_func at 2. rewrite bool_decide_eq_true_2 by done.
  unfold toggle_func. rewrite bool_decide_eq_false_2 by set_solver.
  apply set_eq. intros x. destruct (decide (x ∈ ({[f]} ∪ list_to_set (needs f) : gset jstr))); set_solver.
Qed.

Lemma toggle_all_twice l S : (∀ f, f ∈ l → f ∈ S) →
  let S' := List.fold_left toggle_func (List.flat_map (λ f, [f; f]) l) S in
  S ⊆ S' ∧ (∀ f, f ∈ l → has_needs S' f = true) ∧ (∀ x, x ∈ S' → x ∈ S ∨ ∃ f, f ∈ l ∧ x ∈ needs f).
Proof.
  revert S. induction l as [|f l IH]; intros S Hl; cbn [List.flat_map app List.fold_left].
  - split; [done|]. split; [by intros f ?%elem_of_nil|by left].
  - rewrite toggle_twice by (apply Hl; by left).
    destruct (IH (S ∪ list_to_set (needs f))) as (H1 & H2 & H3).
    { intros g Hg. apply elem_of_union_l, Hl. by right. }
    cbv zeta in *. split; [set_solver|]. split.
    + intros g [->|Hg]%elem_of_cons; [|by apply H2]. apply has_needs_spec. intros r Hr. set_solver.
    + intros x [[Hx|Hx%elem_of_list_to_set]%elem_of_union|(g & Hg & Hx)]%H3; [by left| |].
      * right. exists f. split; [by left|done].
      * right. exists g. split; [by right|done].
Qed.
End facts.

(** C15 -- Any session of clicks on the boxes of a role implements the abstract role:
    ticking a function adds it and what it needs, unticking it removes both,
    and nothing else of the form changes. *)
Theorem roles_session {G} ids (w : world G) S :
  role_page w → ticks w S → Forall (.∈ funcs) ids →
  ∃ w', for_each ids change_box w = (Ok tt, w')
    ∧ role_page w' ∧ ticks w' (List.fold_left toggle_func ids S)
    ∧ (∀ sel, val_of sel w' = val_of sel w) ∧ w_ev w' = w_ev w.
Proof.
  intros Hp Ht Hi. destruct (session_ok ids w S Hp Ht Hi) as (w' & E & Hs & T).
  exists w'. split; [done|]. split; [by eapply role_page_frame|]. split; [done|].
  destruct Hs as [F Hev]. split; [|done]. intros sel. unfold val_of.
  pose proof (frame_first e_val sel _ _ F) as Hv. destruct (first sel w'), (first sel w); simpl in Hv; congruence.
Qed.

(** C16 -- The form of a role is sent exactly when it has a name, some function is
    ticked and every ticked function has what it needs; otherwise the first
    problem is shown and nothing else changes. *)
Theorem saveRole_gate {G} name (w : world G) S :
  role_page w → ticks w S → val_of roleName w = VStr name →
  (role_problem name S = None ↔ trim name ≠ [] ∧ (∃ f, f ∈ funcs ∧ f ∈ S) ∧ closed S)
  ∧ beforeSubmit w = match role_problem name S with
                     | Some t => (Ok (VBool false), upd (with_html t) (found err w) w)
                     | None => (Ok VUndef, w)
                     end.
Proof. intros Hp Ht Hn. split; [apply role_problem_none|by apply beforeSubmit_ok]. Qed.

(** C19 -- A role that is refused for what its functions need can always be repaired
    on the page: two clicks on each ticked function leave a role that has all
    its functions and is accepted. *)
Theorem roles_repairable {G} name (w : world G) S :
  role_page w → ticks w S → val_of roleName w = VStr name → trim name ≠ [] →
  (∀ f, f ∈ S → f ∈ funcs) → S ≠ ∅ →
  ∃ w' S', for_each (List.flat_map (λ f, [f; f]) (elements S)) change_box w = (Ok tt, w')
    ∧ ticks w' S' ∧ S ⊆ S' ∧ beforeSubmit w' = (Ok VUndef, w').
Proof.
  intros Hp Ht Hn Hname Hsub Hne.
  set (ids := List.flat_map (λ f, [f; f]) (elements S)).
  assert (Forall (.∈ funcs) ids) as Hids.
  { apply Forall_forall. intros f (g & Hg & Hf)%list_elem_of_In%in_flat_map.
    apply list_elem_of_In, elem_of_elements in Hg. apply Hsub. destruct Hf as [<-|[<-|[]]]; done. }
  destruct (session_ok ids w S Hp Ht Hids) as (w' & E & Hs & T).
  destruct (toggle_all_twice (elements S) S) as (H1 & H2 & H3); [by intros f ?%elem_of_elements|].
  fold ids in H1, H2, H3. set (S' := List.fold_left toggle_func ids S) in *. cbv zeta in *.
  exists w', S'. split; [done|]. split; [done|]. split; [done|].
  assert (val_of roleName w' = VStr name) as Hn'.
  { rewrite <-Hn. unfold val_of. pose proof (frame_first e_val roleName _ _ (proj1 Hs)) as Hv.
    destruct (first roleName w'), (first roleName w); simpl in Hv; congruence. }
  rewrite (beforeSubmit_ok name w' S') by (done || by eapply role_page_frame).
  rewrite (proj2 (role_problem_none name S')); [done|]. split; [done|]. split.
  - apply set_choose_L in Hne as [f Hf]. exists f. auto.
  - intros x Hx. apply H3 in Hx as [Hx|(f & Hf & Hx)]; [by apply H2, elem_of_elements|].
    apply has_needs_spec. intros r Hr. pose proof (needs_closed f x Hx) as Hc.
    rewrite Forall_forall in Hc. specialize (Hc r Hr).
    specialize (H2 f Hf). rewrite has_needs_spec in H2. auto.
Qed.

(** Clicks on boxes that are not ticked when they are clicked. *)
Fixpoint only_ticks (ids : list jstr) (S : gset jstr) : Prop :=
  match ids with
  | [] => True
  | f :: ids' => f ∈ funcs ∧ (f ∉ S) ∧ only_ticks ids' (toggle_func S f)
  end.

Lemma only_ticks_closed ids S : closed S → only_ticks ids S →
  closed (List.fold_left toggle_func ids S) ∧ Forall (.∈ funcs) ids
  ∧ S ⊆ List.fold_left toggle_func ids S ∧ ∀ f, f ∈ ids → f ∈ List.fold_left toggle_func ids S.
Proof.
  revert S. induction ids as [|f ids IH]; intros S Hc Ho; cbn [List.fold_left].
  - split; [done|]. split; [constructor|]. split; [done|]. by intros ? ?%elem_of_nil.
  - destruct Ho as (Hf & Hin & Ho). destruct (IH _ (toggle_closed S f Hc Hin) Ho) as (H1 & H2 & H3 & H4).
    assert ({[f]} ∪ S ⊆ toggle_func S f) as Hs.
    { unfold toggle_func. rewrite bool_decide_eq_false_2 by done. set_solver. }
    split; [done|]. split; [by constructor|]. split; [set_solver|].
    intros g [->|Hg]%elem_of_cons; [set_solver|by apply H4].
Qed.

(** Ticking keeps a role acceptable: from boxes that have what they need,
    any session that only ticks leaves a role the form accepts. *)
Theorem ticking_accepted {G} ids name (w : world G) S :
  role_page w → ticks w S → val_of roleName w = VStr name → trim name ≠ [] →
  closed S → only_ticks ids S → ids ≠ [] →
  ∃ w', for_each ids change_box w = (Ok tt, w') ∧ beforeSubmit w' = (Ok VUndef, w').
Proof.
  intros Hp Ht Hn Hname Hc Ho Hne. destruct (only_ticks_closed ids S Hc Ho) as (H1 & H2 & H3 & H4).
  destruct (session_ok ids w S Hp Ht H2) as (w' & E & Hs & T). exists w'. split; [done|].
  assert (val_of roleName w' = VStr name) as Hn'.
  { rewrite <-Hn. unfold val_of. pose proof (frame_first e_val roleName _ _ (proj1 Hs)) as Hv.
    destruct (first roleName w'), (first roleName w); simpl in Hv; congruence. }
  rewrite (beforeSubmit_ok name w' _ (role_page_frame _ _ Hs Hp) T Hn').
  rewrite (proj2 (role_problem_none name _)); [done|]. split; [done|]. split; [|done].
  destruct ids as [|f ids]; [done|]. exists f. rewrite Forall_cons in H2. split; [apply H2|apply H4; by left].
Qed.

(** * Witnesses *)

(** The page of a role with [M_10] and what it needs. *)
Definition demo_set : gset jstr := {[js "M_10"; js "M_7"; js "M_12"]}.
Definition demo_role : world unit :=
  let ids := seq 0 (length funcs) in
  page ((all_boxes, ids) :: (roleName, [100%nat]) :: (err, [101%nat])
        :: List.map (λ p, (box p.1, [p.2])) (combine funcs ids))
       ((100%nat, with_val (js "audit") blank) :: (101%nat, blank)
        :: List.map (λ p, (p.2, with_checked (bool_decide (p.1 ∈ demo_set)) blank)) (combine funcs ids)) tt.

Lemma demo_role_page : role_page demo_role.
Proof.
  split; [refine (proj1 (bool_decide_eq_true _) _); vm_compute; reflexivity|].
  change (found all_boxes demo_role) with (seq 0 (length funcs)).
  repeat (constructor; [split; [vm_compute; reflexivity|eexists; vm_compute; reflexivity]|]).
  constructor.
Qed.

Lemma demo_ticks : ticks demo_role demo_set.
Proof.
  assert (Forall (λ f, checked_of (box f) demo_role = Some (bool_decide (f ∈ demo_set))) funcs) as H.
  { refine (proj1 (bool_decide_eq_true _) _). vm_compute. reflexivity. }
  by rewrite Forall_forall in H.
Qed.

(** Unticking [M_8] takes away what [M_10] needs. *)
Example untick_takes_away :
  let w := (for_each [js "M_8"; js "M_8"] change_box demo_role).2 in
  match beforeSubmit w with
  | (Ok v, w') => v = VBool false ∧ (e_html <$> first err w') = relation_text (js "M_10")
  | _ => False
  end.
Proof. by vm_compute. Qed.

Lemma roles_session_witness : ∃ w',
  for_each [js "M_8"; js "M_4"; js "M_8"] change_box demo_role = (Ok tt, w')
  ∧ role_page w'
  ∧ ticks w' (List.fold_left toggle_func [js "M_8"; js "M_4"; js "M_8"] demo_set)
  ∧ (∀ sel, val_of sel w' = val_of sel demo_role) ∧ w_ev w' = w_ev demo_role.
Proof.
  apply (roles_session [js "M_8"; js "M_4"; js "M_8"] demo_role demo_set demo_role_page demo_ticks).
  refine (proj1 (bool_decide_eq_true _) _). vm_compute. reflexivity.
Defined.

Lemma saveRole_gate_witness :
  (role_problem (js "audit") demo_set = None
     ↔ trim (js "audit") ≠ [] ∧ (∃ f, f ∈ funcs ∧ f ∈ demo_set) ∧ closed demo_set)
  ∧ beforeSubmit demo_role = (Ok VUndef, demo_role).
Proof.
  exact (saveRole_gate (js "audit") demo_role demo_set demo_role_page demo_ticks
           ltac:(vm_compute; reflexivity)).
Defined.

(** The boxes after [M_8] was ticked and unticked: [M_7] is missing. *)
Definition short_set : gset jstr := {[js "M_10"; js "M_12"]}.
Definition short_role : world unit := (for_each [js "M_8"; js "M_8"] change_box demo_role).2.
Lemma short_role_page : role_page short_role ∧ ticks short_role short_set.
Proof.
  assert (Forall (.∈ funcs) [js "M_8"; js "M_8"]) as Hf
    by (refine (proj1 (bool_decide_eq_true _) _); vm_compute; reflexivity).
  destruct (session_ok [js "M_8"; js "M_8"] demo_role demo_set demo_role_page demo_ticks Hf)
    as (w' & E & Hs & T).
  assert (short_role = w') as -> by (unfold short_role; by rewrite E).
  split; [by eapply role_page_frame, demo_role_page|].
  assert (List.fold_left toggle_func [js "M_8"; js "M_8"] demo_set = short_set) as <-; [|done].
  vm_compute. reflexivity.
Qed.

Lemma roles_repairable_witness :
  ∃ w' S', for_each (List.flat_map (λ f, [f; f]) (elements short_set)) change_box short_role = (Ok tt, w')
    ∧ ticks w' S' ∧ short_set ⊆ S' ∧ beforeSubmit w' = (Ok VUndef, w').
Proof.
  apply (roles_repairable (js "audit") short_role short_set (proj1 short_role_page) (proj2 short_role_page)).
  - vm_compute. reflexivity.
  - intros E. vm_compute in E. discriminate.
  - intros f. unfold short_set. intros [->%elem_of_singleton| ->%elem_of_singleton]%elem_of_union;
      refine (proj1 (bool_decide_eq_true _) _); vm_compute; reflexivity.
  - intros E. apply (f_equal elements) in E. vm_compute in E. discriminate.
Defined.

Lemma ticking_accepted_witness : ∃ w',
  for_each [js "M_8"; js "M_4"] change_box demo_role = (Ok tt, w') ∧ beforeSubmit w' = (Ok VUndef, w').
Proof.
  apply (ticking_accepted [js "M_8"; js "M_4"] (js "audit") demo_role demo_set demo_role_page demo_ticks).
  - vm_compute. reflexivity.
  - intros E. vm_compute in E. discriminate.
  - apply first_short_closed. vm_compute. reflexivity.
  - repeat split; refine (proj1 (bool_decide_eq_true _) _); vm_compute; reflexivity.
  - done.
Defined.
