(* ===== verification/Corp.v ===== *)
(** * The tree of corporations ([corp/corpList.js])

    The page shows the corporations as a tree of the zTree plugin; the scripts
    decide what may be added, renamed and removed.  A node of the tree is kept
    with the fields of the plugin the scripts read: [tId], the identity the
    plugin gives it, [level], and [children], which a leaf that never had a
    child does not have.  What the plugin does when nodes are added, renamed
    and removed is taken from [zTree/js/jquery.ztree.all-3.5.js]. *)

From S2P Require Import Prelude Js JsFacts Page Base Operator.
#[local] Open Scope Z_scope.
#[local] Set Warnings "-register-all".

(** ** The tree *)

Inductive corp := Corp (tId : nat) (level : nat) (id : Z) (name : jstr) (children : option (list corp)).
Definition c_tId (c : corp) : nat := let '(Corp t _ _ _ _) := c in t.
Definition c_level (c : corp) : nat := let '(Corp _ l _ _ _) := c in l.
Definition c_id (c : corp) : Z := let '(Corp _ _ i _ _) := c in i.
Definition c_name (c : corp) : jstr := let '(Corp _ _ _ n _) := c in n.
Definition c_children (c : corp) : option (list corp) := let '(Corp _ _ _ _ k) := c in k.
Definition kids (c : corp) : list corp := default [] (c_children c).
Definition is_tId (t : nat) (c : corp) : bool := bool_decide (c_tId c = t).

Section search.
Context {A : Type} (f : corp → option A).
(** The first node, from top to bottom, [f] answers for. *)
Fixpoint search (c : corp) : option A :=
  match f c with
  | Some x => Some x
  | None =>
      match c with
      | Corp _ _ _ _ (Some l) =>
          (fix among (l : list corp) : option A :=
             match l with
             | [] => None
             | d :: l' => match search d with Some x => Some x | None => among l' end
             end) l
      | Corp _ _ _ _ None => None
      end
  end.
Fixpoint search_all (l : list corp) : option A :=
  match l with
  | [] => None
  | d :: l' => match search d with Some x => Some x | None => search_all l' end
  end.
End search.
Definition find_tId (t : nat) : list corp → option corp :=
  search_all (λ c, if is_tId t c then Some c else None).
(** [getNodeByParam("id",id)] *)
Definition find_id (i : Z) : list corp → option corp :=
  search_all (λ c, if c_id c =? i then Some c else None).
(** The [pId] of a node: the id of its parent. *)
Definition parent_id (t : nat) : list corp → option Z :=
  search_all (λ c, if existsb (is_tId t) (kids c) then Some (c_id c) else None).

(** [addNodes(parent,node)]: at the end of the children, which begin to exist. *)
Fixpoint add_under (t : nat) (x : nat → corp) (c : corp) : corp :=
  let '(Corp t' l i n k) := c in
  let k' := match k with Some cs => Some (List.map (add_under t x) cs) | None => None end in
  if bool_decide (t' = t) then Corp t' l i n (Some (default [] k' ++ [x (S l)]))
  else Corp t' l i n k'.
(** [removeNode(node)]: the children of the parent go on existing. *)
Fixpoint remove_under (t : nat) (c : corp) : corp :=
  let '(Corp t' l i n k) := c in
  Corp t' l i n
    match k with
    | Some cs => Some (remove_first (is_tId t) (List.map (remove_under t) cs))
    | None => None
    end.
Fixpoint rename_under (t : nat) (m : jstr) (c : corp) : corp :=
  let '(Corp t' l i n k) := c in
  Corp t' l i (if bool_decide (t' = t) then m else n)
    match k with Some cs => Some (List.map (rename_under t m) cs) | None => None end.

(** ** The variables of the page *)

(** [glb.fun], with [glb.node] where it has one. *)
Inductive pending := PNone | PAddPrt | PAddSub (node : nat) | PUpdate (node : nat).
Record corps := Corps {
  g_roots : list corp;
  g_next : nat;             (* the next [tId] *)
  g_glb : pending;
  g_dark : bool             (* [className] *)
}.
Definition with_roots (l : list corp) (g : corps) : corps := Corps l (g_next g) (g_glb g) (g_dark g).
Definition with_glb (p : pending) (g : corps) : corps := Corps (g_roots g) (g_next g) p (g_dark g).
Definition with_dark (b : bool) (g : corps) : corps := Corps (g_roots g) (g_next g) (g_glb g) b.
Definition with_new (l : list corp) (g : corps) : corps := Corps l (S (g_next g)) (g_glb g) (g_dark g).

Abbreviation M := (J corps).

(** ** Handlers *)

Definition node_a (t : nat) : jstr := js "#treeDemo_" ++ str_of_Z (Z.of_nat t) ++ js "_a".

(** [getCorpHtml(boxId,url,data)]; the box fades in when the answer comes. *)
Definition getCorpHtml (boxId url : jstr) (data : list (jstr * jstr)) : M unit :=
  hide boxId ;;
  now ← gets w_now;
  emit (EvLoadWith boxId
    (url ++ (if 0 <? indexOf (js "?") url then js "&rnd=" else js "?rnd=") ++ str_of_Z now) data).
(** [treeNode.pId ? treeNode.pId : 0] *)
Definition pId_of (c : corp) : M Z :=
  g ← get_glob;
  mret (default 0 (parent_id (c_tId c) (g_roots g))).
Definition corp_data (pId id : Z) (type : string) : list (jstr * jstr) :=
  [(js "pId", str_of_Z pId); (js "id", str_of_Z id); (js "type", js type)].

Definition zTreeOnClick (c : corp) : M unit :=
  removeClass (node_a (c_tId c)) (js "hide_edit") ;;
  pId ← pId_of c;
  getCorpHtml (js "#corpPad") (js "/corp/corpView") (corp_data pId (c_id c) "show").

(** [beforeEditName]: it always answers [false], so the plugin edits nothing. *)
Definition beforeEditName (confirmed : bool) (c : corp) : M bool :=
  mod_glob (λ g, with_dark (negb (g_dark g)) g) ;;
  if confirmed
  then mod_glob (with_glb (PUpdate (c_tId c))) ;;
       pId ← pId_of c;
       getCorpHtml (js "#corpPad") (js "/corp/corpEdit") (corp_data pId (c_id c) "update") ;;
       mret false
  else mret false.

(** What the server answers: a code and a message, or nothing usable. *)
Abbreviation answer := (option (jval * jval)).

(** [crud(url,info,fn)]: the request blocks until it is answered. *)
Definition crud (url : jstr) (info : list (jstr * jstr)) (a : answer) : M bool :=
  emit (EvAjax url info) ;;
  match a with
  | Some (code, mess) =>
      del_loading None ;;
      (if is_num code 1
       then set_html (js "#corpPad") [] ;; message mess 0
       else message mess 1) ;;
      mret true
  | None =>
      del_loading None ;;
      emit (EvAlert (js "请求失败！")) ;;
      mret false
  end.

Definition default_corp : jstr := js "默认机构".
Definition beforeRemove (confirmed : bool) (a : answer) (c : corp) : M bool :=
  mod_glob (λ g, with_dark (negb (g_dark g)) g) ;;
  if confirmed then
    g ← get_glob;
    match c_children c with
    | Some _ => emit (EvAlert (js "当前机构下有子机构,不能删除！")) ;; mret false
    | None =>
        if bool_decide (c_name c = default_corp)
        then emit (EvAlert (js "不能删除默认机构！")) ;; mret false
        else if Z.of_nat (length (g_roots g)) <=? 1
        then emit (EvAlert (js "必须保留一个机构")) ;; mret false
        else loading None None ;;
             crud (js "/corp/delete") [(js "id", str_of_Z (c_id c)); (js "type", js "delete")] a
    end
  else mret false.

(** The button [remove] of the plugin. *)
Definition remove_click (confirmed : bool) (a : answer) (c : corp) : M unit :=
  ok ← beforeRemove confirmed a c;
  when ok (mod_glob (λ g, with_roots
    (remove_first (is_tId (c_tId c)) (List.map (remove_under (c_tId c)) (g_roots g))) g)).

(** The button [addHoverDom] puts beside a node. *)
Definition add_click (confirmed : bool) (c : corp) : M unit :=
  if confirmed
  then if (5 <=? c_level c)%nat
       then emit (EvAlert (js "机构最大层级为6级"))
       else mod_glob (with_glb (PAddSub (c_tId c))) ;;
            getCorpHtml (js "#corpPad") (js "/corp/createCorp")
              [(js "pId", str_of_Z (c_id c)); (js "type", js "add")]
  else skip.

Definition addItem : M unit :=
  mod_glob (with_glb PAddPrt) ;;
  getCorpHtml (js "#corpPad") (js "/corp/createCorp") [(js "pId", js "0"); (js "type", js "add")].

(** [fnlist]: what the page does when a corporation is saved. *)
Definition click_new (id : Z) : M unit :=
  g ← get_glob;
  match find_id id (g_roots g) with
  | Some c => emit (EvClick (node_a (c_tId c)))
  | None => throw (js "TypeError")
  end.
Definition addPrt (id : Z) (name : jstr) : M unit :=
  mod_glob (λ g, with_new (g_roots g ++ [Corp (g_next g) 0 id name None]) g) ;;
  click_new id.
Definition addSub (node : nat) (id : Z) (name : jstr) : M unit :=
  mod_glob (λ g, with_new
    (List.map (add_under node (λ l, Corp (g_next g) l id name None)) (g_roots g)) g) ;;
  click_new id.
Definition update (node : nat) (name : jstr) : M unit :=
  mod_glob (λ g, with_roots (List.map (rename_under node name) (g_roots g)) g).

(** The answer to the form of a corporation ([corp/corpEdit.jsp]). *)
Definition saved (code mess : jval) (id : Z) (name : jstr) : M unit :=
  if is_num code 1
  then g ← get_glob;
       match g_glb g with
       | PAddPrt => addPrt id name
       | PAddSub t => addSub t id name
       | PUpdate t => update t name
       | PNone => throw (js "TypeError")
       end ;;
       message mess 0
  else message mess 1.

(** ** Sessions *)

Inductive deed :=
| DShow (t : nat) | DEdit (t : nat) (confirmed : bool) | DRemove (t : nat) (confirmed : bool) (a : answer)
| DAddSub (t : nat) (confirmed : bool) | DAddRoot | DSaved (code mess : jval) (id : Z) (name : jstr).
(** Buttons exist for the nodes of the tree. *)
Definition on_node (t : nat) (h : corp → M unit) : M unit :=
  g ← get_glob;
  match find_tId t (g_roots g) with Some c => h c | None => skip end.
Definition handle (d : deed) : M unit :=
  match d with
  | DShow t => on_node t zTreeOnClick
  | DEdit t b => on_node t (λ c, beforeEditName b c ;; skip)
  | DRemove t b a => on_node t (remove_click b a)
  | DAddSub t b => on_node t (add_click b)
  | DAddRoot => addItem
  | DSaved code mess id name => saved code mess id name
  end.
(** A handler that throws ends; the page goes on. *)
Definition session (l : list deed) (w : world corps) : world corps :=
  List.fold_left (λ w d, (handle d w).2) l w.

(** * Facts *)

(** A node at most [n] levels above the lowest one allowed: the levels go down
    by one, [f] tells the level of an identity, and identities are below [nx]. *)
Fixpoint good (n : nat) (f : nat → nat) (nx : nat) (c : corp) : Prop :=
  match n with
  | O => False
  | S n' => (c_level c + n' = 5)%nat ∧ f (c_tId c) = c_level c ∧ (c_tId c < nx)%nat
            ∧ Forall (good n' f nx) (kids c)
  end.
Definition pending_ok (f : nat → nat) (nx : nat) (p : pending) : Prop :=
  match p with PAddSub t => (f t < 5)%nat ∧ (t < nx)%nat | _ => True end.
(** The invariant: six levels, and at least one corporation. *)
Record corps_ok (g : corps) : Prop := {
  co_some : g_roots g ≠ [];
  co_tree : ∃ f, Forall (good 6 f (g_next g)) (g_roots g) ∧ pending_ok f (g_next g) (g_glb g)
}.

Lemma kids_add t x c : kids (add_under t x c) =
  if is_tId t c then List.map (add_under t x) (kids c) ++ [x (S (c_level c))]
  else List.map (add_under t x) (kids c).
Proof. destruct c as [t' l i n [k|]]; unfold is_tId; simpl; by case_bool_decide. Qed.

Lemma same_add t x c : c_tId (add_under t x c) = c_tId c ∧ c_level (add_under t x c) = c_level c.
Proof. destruct c as [t' l i n k]. simpl. by case_bool_decide. Qed.

Lemma kids_remove t c : kids (remove_under t c) = remove_first (is_tId t) (List.map (remove_under t) (kids c)).
Proof. by destruct c as [t' l i n [k|]]. Qed.

Lemma kids_rename t m c : kids (rename_under t m c) = List.map (rename_under t m) (kids c).
Proof. by destruct c as [t' l i n [k|]]. Qed.

Section invariant.
Context (f : nat → nat) (nx : nat).

(** A new identity of the level [l]. *)
Definition know (l : nat) : nat → nat := λ t, if bool_decide (t = nx) then l else f t.

Lemma good_know n l c : good n f nx c → good n (know l) (S nx) c.
Proof.
  revert c. induction n as [|n IH]; intros c; [done|]. intros (H1 & H2 & H3 & H4).
  split; [done|]. split; [unfold know; by rewrite bool_decide_eq_false_2 by lia|]. split; [lia|].
  eapply Forall_impl; [exact H4|]. apply IH.
Qed.

Lemma good_add n t i m c : (f t < 5)%nat → good n f nx c →
  good n (know (S (f t))) (S nx) (add_under t (λ l, Corp nx l i m None) c).
Proof.
  intros Ht. revert c. induction n as [|n IH]; intros c; [done|]. intros (H1 & H2 & H3 & H4).
  destruct (same_add t (λ l, Corp nx l i m None) c) as [E1 E2].
  split; [by rewrite E2|]. split; [rewrite E1, E2; unfold know; by rewrite bool_decide_eq_false_2 by lia|].
  split; [rewrite E1; lia|]. rewrite kids_add.
  assert (Forall (good n (know (S (f t))) (S nx)) (List.map (add_under t (λ l, Corp nx l i m None)) (kids c))) as Hk.
  { apply Forall_fmap. eapply Forall_impl; [exact H4|]. intros d. apply IH. }
  destruct (is_tId t c) eqn:Hc; [|done]. apply Forall_app. split; [done|].
  apply bool_decide_eq_true in Hc. rewrite Hc in H2. constructor; [|constructor].
  destruct n as [|n]; [lia|]. split; [cbn [c_level]; lia|].
  split; [cbn [c_tId c_level]; unfold know; rewrite bool_decide_eq_true_2 by done; lia|].
  split; [cbn; lia|constructor].
Qed.

Lemma good_remove n t c : good n f nx c → good n f nx (remove_under t c).
Proof.
  revert c. induction n as [|n IH]; intros c; [done|]. intros (H1 & H2 & H3 & H4).
  assert (c_tId (remove_under t c) = c_tId c ∧ c_level (remove_under t c) = c_level c) as [E1 E2]
    by (by destruct c).
  split; [by rewrite E2|]. split; [by rewrite E1, E2|]. split; [by rewrite E1|]. rewrite kids_remove.
  eapply Forall_sublist; [|apply remove_first_sublist]. apply Forall_fmap.
  eapply Forall_impl; [exact H4|]. apply IH.
Qed.

Lemma good_rename n t m c : good n f nx c → good n f nx (rename_under t m c).
Proof.
  revert c. induction n as [|n IH]; intros c; [done|]. intros (H1 & H2 & H3 & H4).
  assert (c_tId (rename_under t m c) = c_tId c ∧ c_level (rename_under t m c) = c_level c) as [E1 E2]
    by (by destruct c).
  split; [by rewrite E2|]. split; [by rewrite E1, E2|]. split; [by rewrite E1|]. rewrite kids_rename.
  apply Forall_fmap. eapply Forall_impl; [exact H4|]. apply IH.
Qed.

(** The nodes found are nodes of the tree. *)
Lemma search_good {A} (h : corp → option A) n c x : good n f nx c → search h c = Some x →
  ∃ d k, good k f nx d ∧ h d = Some x.
Proof.
  revert c. induction n as [|n IH]; intros c; [done|]. intros Hc. pose proof Hc as (_ & _ & _ & Hk).
  destruct c as [t l i m k]. cbn [search]. destruct (h _) eqn:E; [intros [= ->]; eauto|].
  destruct k as [k|]; [|done]. unfold kids in Hk. cbn in Hk. clear Hc E.
  induction Hk as [|d k Hd _ IHk]; [done|].
  destruct (search h d) eqn:Ed; [intros [= ->]; by eapply IH|].
  apply IHk.
Qed.

Lemma search_all_good {A} (h : corp → option A) n l x : Forall (good n f nx) l → search_all h l = Some x →
  ∃ d k, good k f nx d ∧ h d = Some x.
Proof.
  induction 1 as [|c l Hc _ IH]; [done|]. cbn [search_all].
  destruct (search h c) eqn:E; [intros [= ->]; by eapply search_good|done].
Qed.

Lemma find_tId_level t l c : Forall (good 6 f nx) l → find_tId t l = Some c →
  c_tId c = t ∧ f t = c_level c ∧ (t < nx)%nat.
Proof.
  intros Hl H. apply (search_all_good _ 6) in H as (d & [|k] & Hd & E); [done| |done].
  unfold is_tId in E. case_bool_decide as Ht; [|done]. injection E as ->.
  destruct Hd as (_ & H2 & H3 & _). rewrite Ht in *. done.
Qed.
End invariant.

(** *** What the handlers leave alone *)

Definition keeps {A} (m : M A) : Prop := ∀ w, corps_ok (w_glob w) → corps_ok (w_glob (m w).2).

Lemma keeps_inert {A} (m : M A) : inert m → keeps m.
Proof. intros H w Hw. destruct (H w) as (a & w' & -> & _ & E). cbn [snd]. by rewrite E. Qed.
Lemma corps_bind {A B} (m : M A) (h : A → M B) : keeps m → (∀ a, keeps (h a)) → keeps (m ≫= h).
Proof.
  intros Hm Hh w Hw. specialize (Hm w Hw). unfold mbind, J_bind.
  destruct (m w) as [[a|e] w']; [by apply Hh|done].
Qed.
Lemma keeps_mod (h : corps → corps) : (∀ g, corps_ok g → corps_ok (h g)) → keeps (mod_glob h).
Proof. intros H w Hw. by apply H. Qed.
Lemma keeps_throw {A} e : keeps (throw (A := A) e).
Proof. by intros w Hw. Qed.

Lemma corps_dark b g : corps_ok g → corps_ok (with_dark b g).
Proof. intros [H1 H2]. by constructor. Qed.
Lemma corps_glb p g : match p with PAddSub _ => False | _ => True end → corps_ok g → corps_ok (with_glb p g).
Proof. intros Hp [H1 (f & H2 & H3)]. constructor; [done|]. exists f. split; [done|]. by destruct p. Qed.

Lemma getCorpHtml_inert b u d : inert (getCorpHtml b u d).
Proof. unfold getCorpHtml. inert. Qed.
Lemma message_inert m b : inert (message (G := corps) m b).
Proof. unfold message, error_message. inert. Qed.

Lemma keeps_edit b c : keeps (beforeEditName b c).
Proof.
  unfold beforeEditName. apply corps_bind; [apply keeps_mod; intros; by apply corps_dark|intros []].
  destruct b; [|apply keeps_inert; inert].
  apply corps_bind; [apply keeps_mod; intros; by apply corps_glb|intros []].
  apply keeps_inert. unfold pId_of, getCorpHtml. inert.
Qed.

Lemma keeps_add_root : keeps addItem.
Proof.
  unfold addItem. apply corps_bind; [apply keeps_mod; intros; by apply corps_glb|intros []].
  apply keeps_inert, getCorpHtml_inert.
Qed.

Lemma keeps_add_sub t b : keeps (on_node t (add_click b)).
Proof.
  intros w Hw. unfold on_node. rewrite (bind_ok get_glob _ w (w_glob w) w) by done.
  destruct (find_tId t (g_roots (w_glob w))) as [c|] eqn:E; [|done]. unfold add_click.
  destruct b; [|done]. destruct (Nat.leb_spec 5 (c_level c)) as [|Hl]; [done|].
  destruct Hw as [H1 (f & H2 & H3)]. destruct (find_tId_level f _ _ _ _ H2 E) as (Ht & Hf & Hx).
  rewrite (bind_ok (mod_glob _) _ w tt (set_glob (with_glb (PAddSub (c_tId c)) (w_glob w)) w)) by done.
  apply keeps_inert; [apply getCorpHtml_inert|]. constructor; [done|]. exists f. split; [done|].
  cbn [g_glb with_glb pending_ok w_glob set_glob]. rewrite Ht. split; [lia|done].
Qed.

Lemma keeps_addPrt i m : keeps (addPrt i m).
Proof.
  unfold addPrt. apply corps_bind.
  - apply keeps_mod. intros g [H1 (f & H2 & H3)]. constructor; [by destruct (g_roots g)|].
    exists (know f (g_next g) 0). split.
    + apply Forall_app. split; [eapply Forall_impl; [exact H2|]; intros; by apply good_know|].
      constructor; [|constructor]. split; [done|]. split; [cbn; unfold know; by rewrite bool_decide_eq_true_2|].
      split; [cbn; lia|constructor].
    + destruct (g_glb g) eqn:E; cbn [with_new g_glb] in *; rewrite E in *; try done. cbn in *.
      unfold know. rewrite bool_decide_eq_false_2 by lia. lia.
  - intros []. intros w Hw. unfold click_new. rewrite (bind_ok get_glob _ w (w_glob w) w) by done.
    by destruct (find_id _ _).
Qed.

Lemma keeps_addSub t i m w : (∃ f, (f t < 5)%nat ∧ Forall (good 6 f (g_next (w_glob w))) (g_roots (w_glob w))
    ∧ pending_ok f (g_next (w_glob w)) (g_glb (w_glob w))) → g_roots (w_glob w) ≠ [] →
  corps_ok (w_glob (addSub t i m w).2).
Proof.
  intros (f & Ht & H2 & H3) H1. set (g := w_glob w) in *.
  assert (corps_ok (with_new (List.map (add_under t (λ l, Corp (g_next g) l i m None)) (g_roots g)) g)) as Hg.
  { constructor; [by destruct (g_roots g)|]. exists (know f (g_next g) (S (f t))). split.
    - apply Forall_fmap. eapply Forall_impl; [exact H2|]. intros c Hc. by apply good_add.
    - destruct (g_glb g) eqn:E; cbn [with_new g_glb] in *; rewrite E in *; try done. cbn in *.
      unfold know. rewrite bool_decide_eq_false_2 by lia. lia. }
  unfold addSub. rewrite (bind_ok (mod_glob _) _ w tt (set_glob (with_new _ g) w)) by done.
  unfold click_new. rewrite (bind_ok get_glob _ _ _ _ eq_refl). by destruct (find_id _ _).
Qed.

Lemma keeps_update t m : keeps (update t m).
Proof.
  apply keeps_mod. intros g [H1 (f & H2 & H3)]. constructor; [by destruct (g_roots g)|].
  exists f. split; [|done]. apply Forall_fmap. eapply Forall_impl; [exact H2|]. intros c Hc. by apply good_rename.
Qed.

Lemma keeps_saved code mess i m : keeps (saved code mess i m).
Proof.
  unfold saved. destruct (is_num code 1); [|apply keeps_inert, message_inert].
  intros w Hw. rewrite (bind_ok get_glob _ w (w_glob w) w) by done.
  assert (∀ h : M unit, corps_ok (w_glob (h w).2) → corps_ok (w_glob ((h ;; message mess 0) w).2)) as Hm.
  { intros h Hh. unfold mbind, J_bind. destruct (h w) as [[[]|e] w']; [|done].
    by apply (keeps_inert _ (message_inert _ _)). }
  destruct (g_glb (w_glob w)) as [| |t|t] eqn:E; apply Hm.
  - done.
  - by apply keeps_addPrt.
  - destruct Hw as [H1 (f & H2 & H3)]. apply keeps_addSub; [|done]. exists f. rewrite E in *. by destruct H3.
  - by apply keeps_update.
Qed.

(** *** Removing *)

(** What the page asks before it sends the request. *)
Definition may_remove (confirmed : bool) (g : corps) (c : corp) : bool :=
  confirmed && match c_children c with None => true | Some _ => false end && negb (bool_decide (c_name c = default_corp))
  && (1 <? Z.of_nat (length (g_roots g))).
Definition removed (c : corp) (l : list corp) : list corp :=
  remove_first (is_tId (c_tId c)) (List.map (remove_under (c_tId c)) l).
Definition delete_request (c : corp) : event :=
  EvAjax (js "/corp/delete") [(js "id", str_of_Z (c_id c)); (js "type", js "delete")].

Lemma crud_ok url info a w : ∃ w', crud url info a w = (Ok (bool_decide (is_Some a)), w')
  ∧ w_glob w' = w_glob w
  ∧ w_ev w' = w_ev w ++ EvAjax url info :: match a with None => [EvAlert (js "请求失败！")] | _ => [] end.
Proof.
  unfold crud. set (w1 := set_ev (w_ev w ++ [EvAjax url info]) w).
  rewrite (bind_ok (emit _) _ w tt w1) by done.
  set (w2 := set_ui (with_overlays [] (w_ui w1)) w1).
  destruct a as [[code mess]|]; rewrite (bind_ok (del_loading None) _ w1 tt w2) by done.
  - destruct (is_num code 1).
    + set (w3 := upd (with_html []) (found (js "#corpPad") w2) w2).
      destruct (message_shows mess 0 w3) as (w' & E & _ & Gl & Ev & _). exists w'.
      rewrite (bind_ok _ _ w2 tt w') by (by rewrite (bind_ok (set_html _ _) _ w2 tt w3)). done.
    + destruct (message_shows mess 1 w2) as (w' & E & _ & Gl & Ev & _). exists w'.
      rewrite (bind_ok _ _ w2 tt w') by done. done.
  - eexists. split; [reflexivity|]. split; [done|]. cbn. by rewrite <-app_assoc.
Qed.

Lemma beforeRemove_ok confirmed a c w : ∃ w' l,
  beforeRemove confirmed a c w = (Ok (may_remove confirmed (w_glob w) c && bool_decide (is_Some a)), w')
  ∧ w_glob w' = with_dark (negb (g_dark (w_glob w))) (w_glob w)
  ∧ w_ev w' = w_ev w ++ (if may_remove confirmed (w_glob w) c then [delete_request c] else []) ++ l
  ∧ Forall (λ e, ∃ t, e = EvAlert t) l.
Proof.
  unfold beforeRemove, may_remove.
  set (w1 := set_glob (with_dark (negb (g_dark (w_glob w))) (w_glob w)) w).
  rewrite (bind_ok (mod_glob _) _ w tt w1) by done.
  destruct confirmed; cbn [andb]; [|exists w1, []; rewrite app_nil_r; by repeat constructor].
  rewrite (bind_ok get_glob _ w1 (w_glob w1) w1) by done.
  assert (∀ t, ∃ w' l, (emit (EvAlert t) ;; mret false) w1 = (Ok false, w') ∧ w_glob w' = w_glob w1
    ∧ w_ev w' = w_ev w ++ [] ++ l ∧ Forall (λ e, ∃ t, e = EvAlert t) l) as Hstop.
  { intros t. eexists _, [EvAlert t]. repeat split; repeat constructor. by exists t. }
  destruct (c_children c) as [k|]; [apply Hstop|]. cbn [andb].
  case_bool_decide; cbn [negb andb]; [apply Hstop|].
  change (g_roots (w_glob w1)) with (g_roots (w_glob w)).
  destruct (Z.leb_spec (Z.of_nat (length (g_roots (w_glob w)))) 1);
    [rewrite (proj2 (Z.ltb_ge _ _)) by lia; apply Hstop|].
  rewrite (proj2 (Z.ltb_lt _ _)) by lia. cbn [andb].
  destruct (crud_ok (js "/corp/delete") [(js "id", str_of_Z (c_id c)); (js "type", js "delete")] a
    (set_ui (with_overlays (u_overlays (w_ui w1) ++ repeat None 1) (w_ui w1)) w1)) as (w' & E & Gl & Ev).
  exists w', match a with None => [EvAlert (js "请求失败！")] | _ => [] end. split.
  - rewrite (bind_ok (loading None None) _ w1 tt _ eq_refl). exact E.
  - split; [done|]. split; [by rewrite Ev|]. destruct a; repeat constructor. by eexists.
Qed.

Lemma remove_first_some {A} (P : A → bool) l : (1 < length l)%nat → remove_first P l ≠ [].
Proof. destruct l as [|x [|y l]]; simpl; try lia. destruct (P x); [done|by destruct (P y)]. Qed.

Lemma keeps_remove t b a : keeps (on_node t (remove_click b a)).
Proof.
  intros w Hw. unfold on_node. rewrite (bind_ok get_glob _ w (w_glob w) w) by done.
  destruct (find_tId t (g_roots (w_glob w))) as [c|] eqn:E; [|done]. unfold remove_click.
  destruct (beforeRemove_ok b a c w) as (w1 & l & E1 & G1 & _). rewrite (bind_ok _ _ _ _ _ E1).
  destruct (may_remove b (w_glob w) c) eqn:Hm; cbn [andb]; [|cbn; rewrite G1; by apply corps_dark].
  case_bool_decide; cbn [when]; [|cbn; rewrite G1; by apply corps_dark].
  cbn [mod_glob modify snd w_glob set_glob]. rewrite G1. destruct Hw as [H1 (f & H2 & H3)].
  unfold may_remove in Hm. repeat (apply andb_true_iff in Hm as [Hm ?]).
  constructor; cbn [with_roots with_dark g_roots g_next g_glb].
  - apply remove_first_some. rewrite List.length_map. lia.
  - exists f. split; [|done]. eapply Forall_sublist; [|apply remove_first_sublist]. apply Forall_fmap.
    eapply Forall_impl; [exact H2|]. intros d. by apply good_remove.
Qed.

Lemma keeps_handle d : keeps (handle d).
Proof.
  destruct d as [t|t b|t b a|t b| |code mess i m]; cbn [handle].
  - apply keeps_inert. unfold on_node, zTreeOnClick, pId_of, getCorpHtml. inert.
  - unfold on_node. apply corps_bind; [apply keeps_inert; inert|]. intros g.
    case_match; [|apply keeps_inert; inert].
    apply corps_bind; [apply keeps_edit|]. intros _. apply keeps_inert. inert.
  - apply keeps_remove.
  - apply keeps_add_sub.
  - apply keeps_add_root.
  - apply keeps_saved.
Qed.

(** C14 -- Whatever is clicked and however the server answers, the tree of
    corporations keeps at least one corporation and never has more than six
    levels. *)
Theorem corp_session l (w : world corps) : corps_ok (w_glob w) → corps_ok (w_glob (session l w)).
Proof.
  revert w. induction l as [|d l IH]; intros w Hw; [done|]. cbn [session List.fold_left].
  apply IH, keeps_handle, Hw.
Qed.

(** A click on the button that removes a corporation asks the server exactly
    when it is confirmed, the node has no list of children, the corporation is
    not the default one and there are at least two at the top; and the node is
    then taken out of the tree as soon as the server answers, whatever it
    answers. *)
Theorem remove_click_spec t confirmed a c (w : world corps) :
  find_tId t (g_roots (w_glob w)) = Some c →
  let asks := may_remove confirmed (w_glob w) c in
  ∃ w', handle (DRemove t confirmed a) w = (Ok tt, w')
    ∧ (delete_request c ∈ w_ev w' ↔ delete_request c ∈ w_ev w ∨ asks = true)
    ∧ g_roots (w_glob w') =
        (if asks && bool_decide (is_Some a) then removed c (g_roots (w_glob w)) else g_roots (w_glob w)).
Proof.
  intros E asks. cbn [handle]. unfold on_node. rewrite (bind_ok get_glob _ w (w_glob w) w) by done. rewrite E.
  unfold remove_click. destruct (beforeRemove_ok confirmed a c w) as (w1 & l & E1 & G1 & Ev & Hl).
  rewrite (bind_ok _ _ _ _ _ E1). fold asks in Ev |- *.
  assert (delete_request c ∈ w_ev w1 ↔ delete_request c ∈ w_ev w ∨ asks = true) as Hreq.
  { rewrite Ev, !elem_of_app. split; [|intros [H|H]; [by left|rewrite H; right; left; by left]].
    intros [H|[H|H]]; [by left| |].
    - destruct asks; [by right|by apply elem_of_nil in H].
    - rewrite Forall_forall in Hl. by destruct (Hl _ H). }
  destruct (asks && bool_decide (is_Some a)); cbn [when].
  - eexists. split; [done|]. split; [done|]. cbn. by rewrite G1.
  - exists w1. split; [done|]. split; [done|]. by rewrite G1.
Qed.

(** * Witnesses *)

Definition demo_corps : corps :=
  Corps [Corp 0 0 1 default_corp None; Corp 1 0 2 (js "B") (Some [Corp 2 1 3 (js "C") None])] 3 PNone true.
Definition demo_corp_page : world corps := page_with [(js "#corpPad", blank)] demo_corps.

Lemma demo_corps_ok : corps_ok demo_corps.
Proof.
  constructor; [done|]. exists (λ t, if bool_decide (t = 2%nat) then 1%nat else 0%nat).
  split; [|done]. repeat (constructor || (simpl; lia) || done).
Qed.

Lemma corp_session_witness :
  let l := [DAddSub 2 true; DSaved (num 1) (VStr []) 4 (js "D"); DRemove 1 true (Some (num 0, VStr []));
            DAddRoot; DSaved (num 1) (VStr []) 5 (js "E")] in
  corps_ok (w_glob (session l demo_corp_page)).
Proof. intros l. apply (corp_session l demo_corp_page demo_corps_ok). Defined.

(** The server refuses, and the node disappears all the same. *)
Lemma remove_click_spec_witness :
  let c := Corp 2 1 3 (js "C") None in
  ∃ w', handle (DRemove 2 true (Some (num 0, VStr (js "refused")))) demo_corp_page = (Ok tt, w')
    ∧ (delete_request c ∈ w_ev w' ↔ delete_request c ∈ w_ev demo_corp_page ∨ true = true)
    ∧ g_roots (w_glob w') = [Corp 0 0 1 default_corp None; Corp 1 0 2 (js "B") (Some [])].
Proof.
  intros c. apply (remove_click_spec 2 true (Some (num 0, VStr (js "refused"))) c demo_corp_page).
  vm_compute. reflexivity.
Defined.

(** A corporation whose last child was removed can no longer be removed. *)
Example emptied_corp_stays :
  let w := session [DRemove 2 true (Some (num 1, VStr [])); DRemove 1 true (Some (num 1, VStr []))] demo_corp_page in
  g_roots (w_glob w) = [Corp 0 0 1 default_corp None; Corp 1 0 2 (js "B") (Some [])].
Proof. by vm_compute. Qed.
