(* ===== verification/Campaign.v ===== *)
(** * Importing tasks into a campaign ([mailing.campaign.import.js])

    The tasks picked are shown as items in [#taskList]; their ids are joined in
    the hidden field [#taskId], which is what the form sends. *)

From S2P Require Import Prelude Js JsFacts Page Layout Base Search.
#[local] Open Scope Z_scope.

(** An item of [#taskList]: its [data-id] and its text. *)
Abbreviation titem := (jstr * jstr)%type.
Definition taskId : jstr := js "#taskId".
Definition taskList : jstr := js "#taskList".

(** ** Picking tasks; the script's variables are the items of [#taskList] *)

Abbreviation M := (J (list titem)).

(** [$('#taskId').val().split(',')] *)
Definition split_ids : M (list jstr) :=
  v ← val taskId;
  match v with VStr s => mret (splitc c_comma s) | _ => throw (js "TypeError") end.

(** [ctrlTaskItem(id,type)] *)
Definition ctrlTaskItem (id : jstr) (type : string) : M unit :=
  mod_glob (List.filter (λ it : titem, negb (bool_decide (it.1 = id)))) ;;
  v ← val taskId;
  let values := or_empty v in
  let arr := if bool_decide (values = []) then [] else splitc c_comma values in
  let arr1 := splice_scan (λ x, bool_decide (x = id)) arr in
  let arr2 := if bool_decide (js type = js "add") then arr1 ++ [id] else arr1 in
  set_val taskId (join [c_comma] arr2).

(** [text1 + " (" + text2 + ")"] *)
Definition caption (text1 text2 : jstr) : jstr := text1 ++ js " (" ++ text2 ++ js ")".

(** [taskHandle(obj)]: [id], [text1] and [text2] are read from the choice. *)
Definition taskHandle (id text1 text2 : jstr) : M unit :=
  ids ← split_ids;
  if 10 <=? Z.of_nat (length ids)
  then error_text (js "任务数不能超过10个") 1
  else ctrlTaskItem id "add" ;;
       mod_glob (λ l, l ++ [(id, caption text1 text2)]) ;;
       boxId ← attr taskList (js "boxId");
       posfix taskList (field boxId).

(** A click on the cross of an item. *)
Definition close_click (id : jstr) : M unit := ctrlTaskItem id "del".

(** ** The list of tasks *)

Section lists.
Context {G : Type}.

(** One choice: the title, or the title with the word searched for, and the date. *)
Definition task_row (fn : jstr) (o : obj) (title : jstr) : jstr :=
  js "<li>" ++
  jsq "<a href=`javascript:void(0);` onclick=`" ++ fn ++ jsq ";` title=`" ++ title_str o ++ jsq "`" ++
  data_attrs o ++ js "><span class='f_l'>" ++ title ++ js "</span><em class='f_r'>" ++
  str_of_val (prop (js "date") o) ++ js "</em></a>" ++ js "</li>".

(** [taskSearch(json,fn,boxId)] *)
Definition taskSearch (json : list obj) (fn boxId : jstr) : J G unit :=
  set_html (boxId ++ js " .search_result")
    (List.fold_left (λ h o, h ++ task_row fn o (title_str o)) json (js "<ul class='ul_result task_result'>")
     ++ js "</ul>").

(** The rows that match and how many. *)
Definition task_key_row (fn val_txt : jstr) (s : jstr * Z) (o : obj) : jstr * Z :=
  if negb (indexOf val_txt (title_str o) =? -1)
  then (fst s ++ task_row fn o (highlight val_txt (title_str o)), snd s + 1)
  else s.
(** [taskKeySearch(json,fn,boxId,val_txt)] *)
Definition taskKeySearch (json : list obj) (fn boxId val_txt : jstr) : J G unit :=
  let '(html, counter) :=
    List.fold_left (task_key_row fn val_txt) json (js "<ul class='ul_result task_result'>", 0) in
  set_html (boxId ++ js " .search_result")
    (if counter =? 0 then js "<p class='flg' style='padding-left:10px'>没有匹配的结果！</p>"
     else html ++ js "</ul>").

(** ** The form *)

Definition campaignId : jstr := js "#import [name=campaignId]".
Definition checkedIds : jstr := js "#import [name=checkedIds]".

(** [beforeSubmit]: [false] stops the form. *)
Definition beforeSubmit : J G bool :=
  camp ← val campaignId;
  if negb (truthy camp)
  then error_text (js "请选择活动") 1 ;; emit (EvFocus campaignId) ;; del_loading None ;; mret false
  else tasks ← val checkedIds;
       if negb (truthy tasks)
       then error_text (js "请选择任务") 1 ;; emit (EvFocus checkedIds) ;; del_loading None ;; mret false
       else mret true.

Definition import_success (code mess : jval) : J G unit :=
  del_loading None ;;
  if is_num code 1
  then error_message mess (num 0) (num 0) (num 1000) (VStr (js "/mailing/campaign/page"))
  else error_message mess (num 1) VUndef VUndef VUndef.
End lists.

(** * Facts *)

(** What the user does. *)
Inductive pick := Pick (id text1 text2 : jstr) | Cross (id : jstr).
Definition pick_fn (p : pick) : M unit :=
  match p with
  | Pick id t1 t2 => taskHandle id t1 t2
  | Cross id => close_click id
  end.
Definition pick_id (p : pick) : jstr := match p with Pick id _ _ | Cross id => id end.

(** The abstract list: at most ten tasks, the last picked at the end. *)
Definition without (id : jstr) (l : list titem) : list titem :=
  List.filter (λ it, negb (bool_decide (it.1 = id))) l.
Definition pick_items (l : list titem) (p : pick) : list titem :=
  match p with
  | Pick id t1 t2 => if (10 <=? length l)%nat then l else without id l ++ [(id, caption t1 t2)]
  | Cross id => without id l
  end.

Definition id_ok (id : jstr) : Prop := id ≠ [] ∧ sep_free c_comma id.
Record items_ok (l : list titem) : Prop := {
  io_ids : Forall (λ it, id_ok it.1) l;
  io_nodup : NoDup (List.map fst l);
  io_length : (length l ≤ 10)%nat
}.
(** The hidden field holds the ids of the items shown. *)
Record task_page (w : world (list titem)) : Prop := {
  tp_field : single taskId w;
  tp_sync : val_of taskId w = VStr (join [c_comma] (List.map fst (w_glob w)));
  tp_items : items_ok (w_glob w)
}.

Lemma without_ids id l : List.map fst (without id l) =
  List.filter (λ x, negb (bool_decide (x = id))) (List.map fst l).
Proof.
  induction l as [|[i t] l IH]; [done|]. cbn [without List.filter fst List.map].
  destruct (bool_decide (i = id)); cbn [negb List.map fst]; [apply IH|]. by f_equal.
Qed.

(** No two ids are equal, so the scan skips nothing. *)
Lemma scan_ids (id : jstr) l : NoDup l →
  splice_scan (λ x, bool_decide (x = id)) l = List.filter (λ x, negb (bool_decide (x = id))) l.
Proof.
  intros Hn. apply splice_scan_keep. induction Hn as [|x l Hx Hl IH]; [done|].
  destruct l as [|y l]; [done|]. cbn [no_adjacent]. apply andb_true_iff. split; [|done].
  apply negb_true_iff, andb_false_iff. destruct (bool_decide_reflect (x = id)) as [->|]; [|by left].
  right. apply bool_decide_eq_false. intros ->. apply Hx. by left.
Qed.

Lemma ids_split l : items_ok l → l ≠ [] → splitc c_comma (join [c_comma] (List.map fst l)) = List.map fst l.
Proof.
  intros [Hi _ _] Hne. apply splitc_join; [by destruct l|].
  apply Forall_fmap. eapply Forall_impl; [exact Hi|]. intros it [_ H]. exact H.
Qed.

Lemma ids_empty l : items_ok l → join [c_comma] (List.map fst l) = [] ↔ l = [].
Proof.
  intros [Hi _ _]. rewrite join_nil_iff. split; [|by intros ->; left].
  intros [H|H]; [by destruct l|]. destruct l as [|it [|]]; try done. injection H as H.
  inversion Hi as [|? ? [Hne _] _]; done.
Qed.

(** The array behind the field. *)
Lemma ids_array l : items_ok l →
  (let v := join [c_comma] (List.map fst l) in if bool_decide (v = []) then [] else splitc c_comma v)
  = List.map fst l.
Proof.
  intros H. cbv zeta. case_bool_decide as Hv.
  - apply ids_empty in Hv as ->; done.
  - apply ids_split; [done|]. intros ->. done.
Qed.

Lemma without_ok id l : items_ok l → items_ok (without id l).
Proof.
  intros [H1 H2 H3]. pose proof (filter_keeps_sublist (λ it : titem, negb (bool_decide (it.1 = id))) l) as Hs.
  constructor; [by eapply Forall_sublist| |].
  - rewrite without_ids. by apply NoDup_filter_list.
  - apply sublist_length in Hs. unfold without. lia.
Qed.

Lemma pick_items_ok l p : items_ok l → id_ok (pick_id p) → items_ok (pick_items l p).
Proof.
  intros H Hid. destruct p as [id t1 t2|id]; cbn [pick_items pick_id] in *; [|by apply without_ok].
  destruct (Nat.leb_spec 10 (length l)); [done|]. pose proof (without_ok id l H) as [H1 H2 H3]. constructor.
  - apply Forall_app. split; [done|by constructor].
  - rewrite List.map_app. cbn [List.map fst]. apply NoDup_app. split; [done|]. split; [|apply NoDup_singleton].
    intros x Hx ->%list_elem_of_singleton. rewrite without_ids in Hx.
    apply list_elem_of_In, filter_In in Hx as [_ Hx]. by bool_simp.
  - rewrite length_app. pose proof (filter_keeps_sublist (λ it : titem, negb (bool_decide (it.1 = id))) l) as Hs.
    apply sublist_length in Hs. unfold without. cbn [length]. lia.
Qed.

Lemma ctrlTaskItem_ok id type w : task_page w →
  ∃ w', ctrlTaskItem id type w = (Ok tt, w') ∧ single taskId w'
    ∧ w_glob w' = without id (w_glob w)
    ∧ val_of taskId w' = VStr (join [c_comma] (List.map fst (without id (w_glob w))
        ++ if bool_decide (js type = js "add") then [id] else [])).
Proof.
  intros [Hf Hs Hi]. unfold ctrlTaskItem. set (w1 := set_glob (without id (w_glob w)) w).
  rewrite (bind_ok (mod_glob _) _ w tt w1) by done.
  rewrite (bind_ok (val taskId) _ w1 (val_of taskId w1) w1) by done.
  change (val_of taskId w1) with (val_of taskId w). rewrite Hs. cbn [or_empty]. cbv zeta.
  pose proof (ids_array _ Hi) as Ha. cbv zeta in Ha. rewrite Ha, scan_ids by apply Hi.
  rewrite <-without_ids.
  destruct (set_val_field taskId (join [c_comma] (if bool_decide (js type = js "add")
    then List.map fst (without id (w_glob w)) ++ [id] else List.map fst (without id (w_glob w)))) w1 Hf)
    as (w' & E & _ & Gl & D & V & _).
  exists w'. split; [exact E|]. split; [by apply D|]. split; [done|]. rewrite V.
  by destruct (bool_decide (js type = js "add")); rewrite ?app_nil_r.
Qed.

Lemma taskHandle_ids w : task_page w → ∃ ids, split_ids w = (Ok ids, w)
  ∧ (10 <=? Z.of_nat (length ids)) = (10 <=? length (w_glob w))%nat.
Proof.
  intros [Hf Hs Hi]. unfold split_ids. rewrite (bind_ok (val taskId) _ w (val_of taskId w) w) by done.
  rewrite Hs. eexists. split; [reflexivity|]. destruct (w_glob w) as [|it l] eqn:E; [done|].
  rewrite ids_split by done. rewrite List.length_map.
  destruct (Z.leb_spec 10 (Z.of_nat (length (it :: l)))), (Nat.leb_spec 10 (length (it :: l))); lia || done.
Qed.

Lemma pick_ok p w : task_page w → id_ok (pick_id p) →
  ∃ w', pick_fn p w = (Ok tt, w') ∧ task_page w' ∧ w_glob w' = pick_items (w_glob w) p.
Proof.
  intros Hw Hid. pose proof (pick_items_ok (w_glob w) p (tp_items _ Hw) Hid) as Hnew.
  destruct p as [id t1 t2|id]; cbn [pick_fn pick_items pick_id] in *.
  - unfold taskHandle. destruct (taskHandle_ids w Hw) as (ids & E & Hl). rewrite (bind_ok _ _ _ _ _ E), Hl.
    destruct (10 <=? length (w_glob w))%nat.
    + destruct (error_message_runs (VStr (js "任务数不能超过10个")) (num 1) VUndef VUndef VUndef w)
        as (w' & Em & El & _ & Gl & _).
      destruct (error_message_ok (VStr (js "任务数不能超过10个")) (num 1) VUndef VUndef VUndef w)
        as (w2 & Em2 & Se & _). rewrite Em in Em2. injection Em2 as <-. exists w'. split; [exact Em|]. split; [|done].
      destruct Hw as [Hf Hs Hi]. constructor; [|rewrite Gl|by rewrite Gl].
      * destruct Hf as (i & e & Hfi & He). exists i, e. unfold found. by rewrite Se, El.
      * rewrite <-Hs. unfold val_of, first, found, nth_elt. by rewrite Se, El.
    + destruct (ctrlTaskItem_ok id "add" w Hw) as (w1 & E1 & Hf1 & G1 & V1).
      rewrite (bind_ok _ _ _ _ _ E1).
      set (w2 := set_glob (w_glob w1 ++ [(id, caption t1 t2)]) w1).
      rewrite (bind_ok (mod_glob _) _ w1 tt w2) by done.
      rewrite (bind_ok (attr taskList (js "boxId")) _ w2 _ w2 eq_refl).
      match goal with |- context [posfix taskList ?b w2] =>
        destruct (posfix_quiet taskList b w2) as ([] & w' & E' & St) end.
      exists w'. split; [exact E'|]. rewrite (so_glob _ _ St).
      change (w_glob w2) with (w_glob w1 ++ [(id, caption t1 t2)]). rewrite G1. split; [|done].
      constructor.
      * eapply style_single; [exact St|exact Hf1].
      * rewrite (style_val _ _ _ St), (so_glob _ _ St). change (w_glob w2) with (w_glob w1 ++ [(id, caption t1 t2)]).
        change (val_of taskId w2) with (val_of taskId w1). rewrite V1, G1, List.map_app.
        change (bool_decide (js "add" = js "add")) with true. done.
      * rewrite (so_glob _ _ St). change (w_glob w2) with (w_glob w1 ++ [(id, caption t1 t2)]).
        by rewrite G1.
  - destruct (ctrlTaskItem_ok id "del" w Hw) as (w1 & E1 & Hf1 & G1 & V1).
    exists w1. split; [exact E1|]. split; [|done]. constructor; [done| |by rewrite G1].
    rewrite V1, G1. change (bool_decide (js "del" = js "add")) with false. by rewrite app_nil_r.
Qed.

(** C20 -- Any session of picking and removing tasks implements the abstract list of
    at most ten tasks without repetition, and after each action the hidden
    field that is sent holds exactly the ids of the items shown, in their
    order. *)
Theorem campaign_session l (w : world (list titem)) :
  task_page w → Forall (λ p, id_ok (pick_id p)) l →
  ∃ w', for_each l pick_fn w = (Ok tt, w') ∧ task_page w'
    ∧ w_glob w' = List.fold_left pick_items l (w_glob w).
Proof.
  intros Hw Hl. revert w Hw. induction Hl as [|p l Hp _ IH]; intros w Hw; [by exists w|].
  destruct (pick_ok p w Hw Hp) as (w1 & E1 & H1 & G1). destruct (IH w1 H1) as (w' & E & H & Gl).
  exists w'. cbn [for_each List.fold_left]. rewrite (bind_ok _ _ _ _ _ E1). split; [exact E|].
  split; [done|]. by rewrite Gl, G1.
Qed.

(** * Witnesses *)

Definition demo_tasks : world (list titem) :=
  page_with [(taskId, with_val (js "4,7") blank); (taskList, blank)]
    [(js "4", js "a (2014)"); (js "7", js "b (2014)")].

Lemma campaign_session_witness :
  let l := [Pick (js "9") (js "c") (js "2015"); Cross (js "4"); Pick (js "7") (js "b") (js "2014")] in
  ∃ w', for_each l pick_fn demo_tasks = (Ok tt, w') ∧ task_page w'
    ∧ w_glob w' = [(js "9", js "c (2015)"); (js "7", js "b (2014)")].
Proof.
  intros l. apply (campaign_session l demo_tasks).
  - constructor; [on_page|on_page|]. constructor; [|refine (proj1 (bool_decide_eq_true _) _); vm_compute; reflexivity|simpl; lia].
    repeat (constructor; [split; [done|not_in]|]). constructor.
  - repeat (constructor; [split; [done|not_in]|]). constructor.
Defined.
