(* ===== verification/Forms.v ===== *)
(** * The form builder ([datasource.form.add.js], [datasource.form.1.js] to [4])

    A form that collects recipients is made in steps: its kind and where it
    stores, its page with the fields, the page shown after it, the message that
    asks for a confirmation and the one that tells of success. *)

From S2P Require Import Prelude Js JsFacts Regex Page Layout Base Widgets Template.
#[local] Open Scope Z_scope.

(** ** The page with the fields ([datasource.form.1.js]) *)

(** A row of the list of properties [#propWrap li]. *)
Record prow := PRow {
  pr_props : bool;       (* the box [props] is ticked *)
  pr_title : jstr;
  pr_prop : jstr;        (* [data-prop] *)
  pr_cate : jstr;        (* [data-type] *)
  pr_required : bool     (* the box [required] is ticked *)
}.

(** What the script does to the document the editor edits
    ([$(window.frames[0].document.body)]). *)
Class EditorDom (E : Type) := {
  ed_count : jstr → E → nat;          (* [$k.find(sel).length] *)
  ed_fill : jstr → jstr → E → E;      (* [$k.find(sel).html('').append(html)] *)
  ed_remove : jstr → E → E;           (* [$k.find(sel).remove()] *)
  ed_html : jstr → E → jval;          (* [$k.find(sel).html()] *)
  ed_text : jstr → jstr → E → E       (* [$k.find(sel).text(word)] *)
}.

Record forms (E : Type) := FormsVars {
  fm_model : jstr;          (* [eModel] *)
  fm_K : option E;          (* [K] *)
  fm_rows : list prow;
  fm_actionUrl : jstr;
  fm_token : jstr           (* [headers['token']] *)
}.
Arguments FormsVars {E}.
Arguments fm_model {E}.
Arguments fm_K {E}.
Arguments fm_rows {E}.
Arguments fm_actionUrl {E}.
Arguments fm_token {E}.
Definition with_K {E} (k : E) (g : forms E) : forms E :=
  FormsVars (fm_model g) (Some k) (fm_rows g) (fm_actionUrl g) (fm_token g).

(** [/<form[^>]*name[^>]*>([\s\S]*?)<\/form>/i] *)
Definition form_re (name : jstr) : re :=
  RSeqs [RStrI (js "<form"); RStar true (RNotChar 62); RStrI name; RStar true (RNotChar 62);
         RStr [62%N]; RCap (RStar false RAny); RStrI (js "</form>")].
(** [/(<ul[^>]*hook[^>]*>)([\s\S]*?)(<\/ul>)/i] *)
Definition hook_re : re :=
  RSeqs [RCap (RSeqs [RStrI (js "<ul"); RStar true (RNotChar 62); RStrI (js "hook");
                      RStar true (RNotChar 62); RStr [62%N]]);
         RCap (RStar false RAny); RCap (RStrI (js "</ul>"))].
(** [/<form[^>]*>([\s\S]*?)<\/form>/i] *)
Definition any_form_re : re :=
  RSeqs [RStrI (js "<form"); RStar true (RNotChar 62); RStr [62%N]; RCap (RStar false RAny);
         RStrI (js "</form>")].
(** [/(<form[^>]*tempForm[^>]*>)([\s\S]*?)(<\/form>)/i] *)
Definition temp_form_re : re :=
  RSeqs [RCap (RSeqs [RStrI (js "<form"); RStar true (RNotChar 62); RStrI (js "tempForm");
                      RStar true (RNotChar 62); RStr [62%N]]);
         RCap (RStar false RAny); RCap (RStrI (js "</form>"))].

Definition required_mark (r : prow) : jstr := if pr_required r then js "*" else js "&nbsp;".
Definition req_class (r : prow) : jstr := if pr_required r then js "required" else [].

Definition form_row (r : prow) : jstr :=
  js "<tr>" ++
  jsq "<td width=`80` align=`right`>" ++ pr_title r ++ js "</td>" ++
  jsq "<td width=`6` style=`color:red`>" ++ required_mark r ++ js "</td>" ++
  jsq "<td><input type=`text` data-req=`" ++ req_class r ++ jsq "` data-cate=`" ++ pr_cate r ++
  jsq "` name=`" ++ pr_prop r ++ jsq "` style=`width:200px;`/></td>" ++
  js "</tr>".
Definition form_rows (row : prow → jstr) (l : list prow) (html : jstr) : jstr :=
  List.fold_left (λ h r, if pr_props r then h ++ row r else h) l html.
Definition form_head (actionUrl : jstr) : jstr :=
  jsq "<form id=`tempForm` method=`post` action=`" ++ actionUrl ++ jsq "` data-ke-src=`" ++ actionUrl
  ++ jsq "` style=`margin:0;`>".
Definition form_foot : jstr :=
  jsq "<tr><td width=`60`></td><td width=`6`></td><td><input type=`submit` value=`注册` style=`cursor:pointer`></td></tr>" ++
  js "</table>" ++
  jsq "<script src=`http://139edm.com/form/jquery-1.7.1.min.js`></script>" ++
  jsq "<script src=`http://139edm.com/form/menu.js`></script>".
Definition getFormHtml (actionUrl : jstr) (l : list prow) : jstr :=
  form_rows form_row l (form_head actionUrl ++ js "<table border=0 cellspacing=0 cellpadding=5>")
  ++ form_foot ++ js "</form>".

Definition input_row (r : prow) : jstr :=
  js "<li>" ++
  js "<span>" ++ pr_title r ++ js "</span>" ++
  js "<strong>" ++ required_mark r ++ js "</strong>" ++
  jsq "<input type=`text` class=`input_01 CCmingcheng` data-req=`" ++ req_class r ++ jsq "` data-cate=`" ++
  pr_cate r ++ jsq "` name=`" ++ pr_prop r ++ jsq "` title=`" ++ pr_title r ++ jsq "`>" ++
  js "</li>".
Definition getInputHtml (l : list prow) : jstr := form_rows input_row l [].

Section scripts.
Context {E : Type} `{!KindEditor E, !EditorDom E}.
Abbreviation F := (J (forms E)).

Definition content : jstr := js "#templateContent".
Definition visual : F bool := g ← get_glob; mret (bool_decide (fm_model g = WYSIWYG)).
Definition editor : F E :=
  g ← get_glob;
  match fm_K g with Some k => mret k | None => throw (js "TypeError") end.
Definition edit (f : E → E) : F unit := k ← editor; mod_glob (with_K (f k)).
(** The methods of the value of a field that is not there throw. *)
Definition text_at (sel : jstr) : F jstr :=
  v ← val sel;
  match v with VStr t => mret t | _ => throw (js "TypeError") end.

Definition createForm : F unit :=
  g ← get_glob;
  if 10 <? Z.of_nat (length (List.filter pr_props (fm_rows g)))
  then error_text (js "选择属性不能超过10个") 1
  else
    v ← visual;
    (if v : bool
     then k ← editor;
          if (0 <? ed_count (js "form.edm_sys_form") k)%nat
          then edit (ed_fill (js "#hook") (getInputHtml (fm_rows g)))
          else edit (ed_remove (js "form")) ;;
               edit (ke_insertHtml (getFormHtml (fm_actionUrl g) (fm_rows g)))
     else text ← text_at content;
          if test (form_re (js "edm_sys_form")) text
          then set_val content (replace_one hook_re
                 (js "$1" ++ getInputHtml (fm_rows g) ++ js "$3") text)
          else set_val content (replace_one any_form_re [] text) ;;
               insert_at_caret content (getFormHtml (fm_actionUrl g) (fm_rows g))) ;;
    closeDialog.

(** [beforeSerialize]: [K.sync()] puts the document into the text area. *)
Definition beforeSerialize : F unit :=
  v ← visual;
  if v : bool then k ← editor; set_val content (ke_html k) else skip.

Definition no_form : F bool :=
  error_text (js "请插入表单属性") 1 ;; del_loading None ;; mret false.
(** [beforeSubmit]: [false] stops the form. *)
Definition beforeSubmit : F bool :=
  loading None None ;;
  v ← visual;
  if v : bool
  then k ← editor;
       if (ed_count (js "form#tempForm") k =? 0)%nat then no_form else mret true
  else text ← text_at content;
       if test (form_re (js "tempForm")) text then mret true else no_form.

(** The answers of the steps: where to go next. *)
Definition form_url (step formId : jval) : jval :=
  VStr (js "/datasource/form/" ++ str_of_val step ++ js "?formId=" ++ str_of_val formId).
Definition answered (next code mess formId : jval) : F unit :=
  if is_num code 1
  then del_loading None ;; error_message mess (num 0) (num 0) (num 1000) (form_url next formId)
  else error_message mess (num 1) VUndef VUndef VUndef ;; del_loading None.
Definition form1_success (code mess formId : jval) : F unit := answered (num 2) code mess formId.

Definition insertForm_click : F unit :=
  openSlideBox (js "#insertForm") (js "#propWrap") 0 [] ;;
  bind_doc (js "mousedown.insertForm") (js "#propWrap").
(** [outside]: the press is neither in the box nor on the button. *)
Definition insertForm_mousedown (outside : bool) : F unit :=
  when outside (hide (js "#propWrap") ;; unbind_doc (js "mousedown.insertForm")).

Definition preview : F unit :=
  g ← get_glob;
  v ← visual;
  c ← (if v : bool then k ← editor; mret (ke_html k) else x ← val content; mret (str_of_val x));
  emit (EvPost (js "/datasource/form/preview?token=" ++ fm_token g) [(js "content", c)]).

(** [getDom()]; [rename] is what the browser makes of the form: its contents
    with the field [email] renamed. *)
Definition getDom (rename : jstr → jstr) : F unit :=
  str ← text_at content;
  set_val content (replace_one temp_form_re (js "$1" ++ rename str ++ js "$3") str).

(** ** The other steps *)

(** The step after the page of the form ([datasource.form.2.js]) and after the
    confirmation ([datasource.form.3.js]). *)
Definition step_after_2 (emailConfirm emailPrompt : jval) : jval :=
  if is_num emailConfirm 1 then VStr (js "3")
  else if is_num emailPrompt 1 then VStr (js "4") else VStr (js "5").
Definition form2_success (code mess formId emailConfirm emailPrompt : jval) : F unit :=
  answered (step_after_2 emailConfirm emailPrompt) code mess formId.
Definition step_after_3 (emailPrompt : jval) : jval :=
  if is_num emailPrompt 1 then VStr (js "4") else VStr (js "5").
Definition form3_success (code mess formId emailPrompt : jval) : F unit :=
  answered (step_after_3 emailPrompt) code mess formId.

Definition confirm_subject : jstr := js "#tempConfirmSubject".
Definition red_click : F unit :=
  k ← editor;
  set_val (js "#redText") (or_empty (ed_html (js ".special") k)) ;;
  openPop (num 0) None (Some (js "#modEmail")).
Definition form3_beforeSubmit : F bool :=
  loading None None ;;
  v ← val confirm_subject;
  if negb (truthy v) then error_text (js "主题不能为空") 1 ;; del_loading None ;; mret false else mret true.
Definition appendText : F bool :=
  word ← val (js "#redText");
  if bool_decide (trim (field word) = [])
  then error_text (js "主题不能为空") 1 ;; mret false
  else edit (ed_text (js ".special") (field word)) ;;
       set_val confirm_subject (field word) ;;
       mret true.

Definition form4_beforeSubmit : F bool :=
  loading None None ;;
  v ← val (js "[name=promptSubject]");
  if bool_decide (trim (field v) = [])
  then error_text (js "请输入邮件主题") 1 ;; emit (EvFocus (js "[name=promptSubject]")) ;;
       del_loading None ;; mret false
  else mret true.
Definition form4_success (code mess formId : jval) : F unit :=
  del_loading None ;;
  if is_num code 1 then emit (EvAssign (js "/datasource/form/5?formId=" ++ str_of_val formId))
  else if is_num code 2 then popTips (js "#remindFilter") mess
  else error_message mess (num 1) VUndef VUndef VUndef.

(** The menus of the parameters and of the forms to link to. *)
Definition param_line (p : jstr * jstr) : jstr :=
  jsq "<li><a hidefocus=`true` onclick=`insert('" ++ fst p ++ jsq "')` href=`javascript:void(0)` title=`" ++ snd p
  ++ jsq "`>" ++ snd p ++ js "</a></li>".
Definition param_menu (prop_list : list (jstr * jstr)) : jstr :=
  js "<ul>" ++ List.flat_map param_line prop_list ++ js "</ul>".
Definition link_line (p : jstr * jstr) : jstr :=
  jsq "<li><a hidefocus='true' onclick='insertFormUrl(`" ++ fst p ++ jsq "`,this)' href='javascript:void(0)' title='" ++ snd p
  ++ js "'>" ++ snd p ++ js "</a></li>".
Definition link_menu (form_list : list (jstr * jstr)) : jstr :=
  js "<ul>" ++ List.flat_map link_line form_list ++ js "</ul>".

(** [hasPrama()] of [mailing.template.common.js], on this page. *)
Definition form_prama (prop_list : list (jstr * jstr)) : F bool :=
  v ← visual;
  c ← (if v : bool then k ← editor; mret (ke_html k) else x ← val content; mret (str_of_val x));
  mret (has_prama prop_list c).
(** The click on [#tempSubmit]: the choice of personal links must be the one the
    text needs. *)
Definition form4_submit_click (prop_list : list (jstr * jstr)) : F bool :=
  cusType ← val (checked_radio (js "personal"));
  flag ← form_prama prop_list;
  if flag && is_str cusType "false"
  then popTips (js "#remindParam") (VStr (js "链接含有变量，可能导致链接失常，设置链接个性化？")) ;; mret false
  else if negb flag && is_str cusType "true"
  then popTips (js "#remindParam") (VStr (js "链接没有可替换的变量，链接个性化会失效，取消链接个性化？")) ;; mret false
  else emit (EvSubmit (js "#add")) ;; mret true.

(** ** A new form ([datasource.form.add.js]) *)

Definition showType : F unit :=
  type ← val (js "#formType");
  let texts a b := set_html (js "#confirm_txt") (js a) ;; set_html (js "#prompt_txt") (js b) in
  if is_str type "0"
  then show (js "#confirm") ;; texts "邮件二次确认成功后再收集到标签" "成功注册后发出成功提示邮件"
  else if is_str type "1"
  then show (js "#confirm") ;; texts "对填写的邮箱发出验证邮件，验证成功再收集到标签" "订阅完成后发出成功订阅的提示或感谢邮件"
  else if is_str type "2"
  then hide (js "#confirm") ;; set_html (js "#prompt_txt") (js "退订提交后发出成功退订的提示邮件")
  else hide (js "#confirm") ;; texts "" "".

Definition formMore_click : F unit :=
  on (js "#formMore") (toggle_class (js "swtpand")) ;;
  on (js "#formMore") (toggle_class (js "swtclose")) ;;
  toggle (js "#moreTank") ;;
  showType.

(** The fields a new form must have, with the message for each. *)
Definition add_fields : list (jstr * jstr) :=
  [(js "#formName", js "请输入表单名称"); (js "#formDesc", js "请输入表单用途");
   (js "#formType", js "请选择表单类型"); (js "#dataStoreId", js "请选择数据储存")].
Fixpoint require_fields (l : list (jstr * jstr)) : F bool :=
  match l with
  | [] => mret true
  | (sel, mess) :: l' =>
      v ← val sel;
      if bool_decide (trim (field v) = [])
      then error_text mess 1 ;; emit (EvFocus sel) ;; mret false
      else require_fields l'
  end.
Definition smt_click : F unit :=
  ok ← require_fields add_fields;
  when ok (openPop (num 0) None (Some (js "#confirmCancle"))).
Definition add_success (code mess formId : jval) : F unit :=
  del_loading None ;;
  if is_num code 1 then emit (EvAssign (js "/datasource/form/1?formId=" ++ str_of_val formId))
  else error_message mess (num 1) VUndef VUndef VUndef.
End scripts.

(** * Facts *)

(** ** The page that was inserted is a form *)

Lemma up_to_char (c : N) l : c ∈ l → ∃ a b, l = a ++ c :: b ∧ Forall (λ d, negb (d =? c)%N = true) a.
Proof.
  induction l as [|d l IH]; [by intros ?%elem_of_nil|]. intros H.
  destruct (decide (d = c)) as [->|Hd]; [by exists [], l|].
  apply elem_of_cons in H as [->|(a & b & -> & Ha)%IH]; [done|].
  exists (d :: a), b. split; [done|]. constructor; [|done]. by apply negb_true_iff, N.eqb_neq.
Qed.

(** [<form .. tempForm .. > .. </form>] around anything. *)
Lemma form_found pre name mid inner post : 62%N ∉ pre →
  62%N ∈ mid →
  test (form_re name) (js "<form" ++ pre ++ name ++ mid ++ inner ++ js "</form>" ++ post) = true.
Proof.
  intros Hpre Hmid. apply test_somewhere.
  { unfold form_re. cbn [RSeqs List.fold_right unanchored RStr RStrI RLit].
    assert (∀ i s, unanchored (RLit i s) = true) as Hl by (intros i s; by induction s).
    unfold RStrI. by rewrite !Hl. }
  eexists [], _, post. split; [reflexivity|]. destruct (up_to_char 62 mid Hmid) as (a & b & -> & Ha).
  unfold form_re. cbn [RSeqs List.fold_right lang]. rewrite <-!app_assoc. cbn [app].
  eexists. split; [apply (lang_lit true (js "<form"))|].
  eexists. split. { apply (runs_of_set (λ d, negb (d =? 62)%N)). exists pre. split; [reflexivity|].
    apply Forall_forall. intros c Hc. apply negb_true_iff, N.eqb_neq. by intros ->. }
  eexists. split; [apply (lang_lit true name)|].
  eexists. split. { apply (runs_of_set (λ d, negb (d =? 62)%N)). by exists a. }
  exists (b ++ inner ++ js "</form>" ++ post). split; [by exists (b ++ inner ++ js "</form>" ++ post); split; [exists 62%N|]|].
  exists (js "</form>" ++ post). split. { apply (runs_of_set (λ _, true)). exists (b ++ inner).
    split; [by rewrite <-app_assoc|]. by apply Forall_forall. }
  exists post. split; [apply (lang_lit true (js "</form>"))|done].
Qed.

Lemma form_rows_app row l h : form_rows row l h = h ++ form_rows row l [].
Proof.
  unfold form_rows. revert h. induction l as [|r l IH]; intros h; cbn [List.fold_left].
  - by rewrite app_nil_r.
  - destruct (pr_props r); [|apply IH]. rewrite IH. cbn [app]. rewrite (IH (row r)). by rewrite app_assoc.
Qed.

Definition form_mid (actionUrl : jstr) : jstr :=
  jsq "` method=`post` action=`" ++ actionUrl ++ jsq "` data-ke-src=`" ++ actionUrl ++ jsq "` style=`margin:0;`>".
Definition form_inner (l : list prow) : jstr :=
  js "<table border=0 cellspacing=0 cellpadding=5>" ++ form_rows form_row l [] ++ form_foot.
Lemma getFormHtml_parts url l :
  getFormHtml url l = js "<form" ++ jsq " id=`" ++ js "tempForm" ++ form_mid url ++ form_inner l ++ js "</form>".
Proof.
  unfold getFormHtml, form_inner, form_mid. rewrite form_rows_app. unfold form_head.
  assert (jsq "<form id=`tempForm` method=`post` action=`"
          = js "<form" ++ jsq " id=`" ++ js "tempForm" ++ jsq "` method=`post` action=`") as ->
    by (by vm_compute).
  by rewrite <-!app_assoc.
Qed.

Lemma inserted_form_found url l a b : test (form_re (js "tempForm")) (a ++ getFormHtml url l ++ b) = true.
Proof.
  assert (test (form_re (js "tempForm")) (getFormHtml url l ++ b) = true) as H.
  { rewrite getFormHtml_parts, <-!app_assoc. apply form_found.
    - not_in.
    - unfold form_mid. rewrite !elem_of_app. right. right. right. right.
      refine (proj1 (bool_decide_eq_true _) _). vm_compute. reflexivity. }
  assert (unanchored (form_re (js "tempForm")) = true) as Hu by (by vm_compute).
  apply (test_somewhere _ _ Hu). apply (test_somewhere _ _ Hu) in H as (x & y & t & E & L).
  exists (a ++ x), y, t. rewrite E, <-app_assoc. done.
Qed.

(** ** The text area *)

Lemma insert_at_caret_ok {G} sel ins (w : world G) : single sel w →
  ∃ w' a b, insert_at_caret sel ins w = (Ok tt, w') ∧ w_glob w' = w_glob w ∧ single sel w'
    ∧ val_of sel w' = VStr (a ++ ins ++ b).
Proof.
  intros (i & e & Hi & He). unfold insert_at_caret.
  rewrite (bind_ok (gets (found sel)) _ w [i] w) by (unfold gets; by rewrite Hi).
  rewrite (bind_ok (gets (λ w, nth_elt w i)) _ w e w) by (unfold gets, nth_elt; by rewrite He).
  set (a := insertContent _ _ _). set (f := λ x, with_sel _ (with_val _ x)).
  set (w1 := upd f [i] w).
  exists (set_ev (w_ev w1 ++ [EvFocus sel]) w1), (substring 0 (fst (e_sel e)) (e_val e)),
    (substring (snd (e_sel e)) (Z.of_nat (length (e_val e))) (e_val e)).
  split; [reflexivity|]. split; [done|]. assert (single sel w) as Hs by (by exists i, e).
  split; [exact (upd_single f [i] sel w Hs)|].
  change (val_of sel (set_ev (w_ev w1 ++ [EvFocus sel]) w1)) with (val_of sel w1).
  unfold val_of, w1. rewrite <-Hi, on_first by done. unfold first, nth_elt. by rewrite Hi, He.
Qed.

Lemma text_at_ok {E} sel v (w : world (forms E)) : val_of sel w = VStr v → text_at sel w = (Ok v, w).
Proof. intros V. unfold text_at. by rewrite (bind_ok (val sel) _ w (VStr v) w) by (by rewrite <-V). Qed.

Lemma loading_quiet {G} a b : quiet (loading (G := G) a b).
Proof. unfold loading, win, show. quiet; done. Qed.
Lemma closeDialog_quiet {G} : quiet (closeDialog (G := G)).
Proof. unfold closeDialog, hide. quiet; done. Qed.

(** What the editor's document shows of what is inserted. *)
Class EditorDomLaws (E : Type) `{!KindEditor E, !EditorDom E} := {
  ed_shows_form html e : test (form_re (js "tempForm")) html = true →
    (0 < ed_count (js "form#tempForm") (ke_insertHtml html e))%nat
}.

(** The last step is submitted exactly when links are personal where the text
    has variables in them and only there, or nothing is chosen. *)
Theorem form4_submit_gate {E} `{!KindEditor E, !EditorDom E} prop_list (w : world (forms E)) t c :
  fm_model (w_glob w) ≠ WYSIWYG → val_of content w = VStr t → val_of (checked_radio (js "personal")) w = VStr c →
  ∃ w', form4_submit_click prop_list w
      = (Ok (negb (bool_decide (c = if has_prama prop_list t then js "false" else js "true"))), w')
    ∧ w_ev w' = w_ev w ++
        (if decide (c = if has_prama prop_list t then js "false" else js "true") then [] else [EvSubmit (js "#add")]).
Proof.
  intros Hm Ht Hc. unfold form4_submit_click.
  rewrite (bind_ok (val _) _ w (VStr c) w) by (by rewrite <-Hc).
  rewrite (bind_ok (form_prama prop_list) _ w (has_prama prop_list t) w).
  2: { unfold form_prama. rewrite (bind_ok visual _ w false w); [|unfold visual, get_glob; jrun; by rewrite bool_decide_eq_false_2].
       rewrite (bind_ok _ _ w t w); [done|]. by rewrite (bind_ok (val _) _ w (VStr t) w) by (by rewrite <-Ht). }
  assert (∀ m, ∃ w', popTips (js "#remindParam") (VStr m) w = (Ok tt, w') ∧ w_ev w' = w_ev w) as Hp.
  { intros m. unfold popTips, openPop, openCover, centre_pop, win, measure.
    change (truthy (num 0)) with false. destruct (truthy (VStr m)); jrun; eexists; (split; [reflexivity|done]). }
  assert (∀ s, is_str (VStr c) s = bool_decide (c = js s)) as Hs by (intros s; apply bool_decide_ext; done).
  rewrite !Hs. destruct (has_prama prop_list t); cbn [andb negb].
  - destruct (decide (c = js "false")) as [E1|E1].
    + rewrite bool_decide_eq_true_2 by done.
      match goal with |- context [popTips _ (VStr ?m)] => destruct (Hp m) as (w' & E2 & V2) end.
      exists w'. rewrite (bind_ok _ _ _ _ _ E2). split; [done|]. by rewrite app_nil_r.
    + rewrite bool_decide_eq_false_2 by done. eexists. split; [reflexivity|done].
  - destruct (decide (c = js "true")) as [E1|E1].
    + rewrite bool_decide_eq_true_2 by done.
      match goal with |- context [popTips _ (VStr ?m)] => destruct (Hp m) as (w' & E2 & V2) end.
      exists w'. rewrite (bind_ok _ _ _ _ _ E2). split; [done|]. by rewrite app_nil_r.
    + rewrite bool_decide_eq_false_2 by done. eexists. split; [reflexivity|done].
Qed.

Section create.
Context {E : Type} `{!KindEditor E, !EditorDom E, !EditorDomLaws E}.
Implicit Types w : world (forms E).

(** The page is not one of the forms of the system, which keep their place for
    the fields. *)
Definition own_form w : Prop :=
  let g := w_glob w in
  if bool_decide (fm_model g = WYSIWYG)
  then ∃ k, fm_K g = Some k ∧ ed_count (js "form.edm_sys_form") k = 0%nat
  else single content w ∧ ∃ v, val_of content w = VStr v ∧ test (form_re (js "edm_sys_form")) v = false.
Definition chosen w : nat := length (List.filter pr_props (fm_rows (w_glob w))).

Lemma visual_ok w : visual w = (Ok (bool_decide (fm_model (w_glob w) = WYSIWYG)), w).
Proof. done. Qed.

Lemma createForm_text w v : (chosen w ≤ 10)%nat → fm_model (w_glob w) ≠ WYSIWYG → single content w →
  val_of content w = VStr v → test (form_re (js "edm_sys_form")) v = false →
  ∃ w' t, createForm w = (Ok tt, w') ∧ w_glob w' = w_glob w ∧ val_of content w' = VStr t
    ∧ test (form_re (js "tempForm")) t = true.
Proof.
  intros Hc Hm Hs V Ht. unfold createForm. rewrite (bind_ok get_glob _ w (w_glob w) w) by done.
  unfold chosen in Hc. rewrite (proj2 (Z.ltb_ge _ _)) by lia.
  rewrite (bind_ok _ _ _ _ _ (visual_ok w)), bool_decide_eq_false_2 by done. cbv iota.
  destruct (set_val_field content (replace_one any_form_re [] v) w Hs) as (w1 & E1 & _ & G1 & D1 & _ & _).
  destruct (insert_at_caret_ok content (getFormHtml (fm_actionUrl (w_glob w)) (fm_rows (w_glob w))) w1 (D1 _ Hs))
    as (w2 & a & b & E2 & G2 & S2 & V2).
  destruct (closeDialog_quiet w2) as ([] & w3 & E3 & St). exists w3. eexists. split; [|split; [|split]].
  - rewrite (bind_ok _ _ w tt w2); [exact E3|].
    rewrite (bind_ok _ _ _ _ _ (text_at_ok _ _ _ V)), Ht. by rewrite (bind_ok _ _ _ _ _ E1).
  - by rewrite (so_glob _ _ St), G2.
  - rewrite (style_val _ _ _ St). exact V2.
  - apply inserted_form_found.
Qed.

Lemma createForm_visual w k : (chosen w ≤ 10)%nat → fm_model (w_glob w) = WYSIWYG → fm_K (w_glob w) = Some k →
  ed_count (js "form.edm_sys_form") k = 0%nat →
  ∃ w' k', createForm w = (Ok tt, w') ∧ fm_model (w_glob w') = WYSIWYG ∧ fm_K (w_glob w') = Some k'
    ∧ (0 < ed_count (js "form#tempForm") k')%nat.
Proof.
  intros Hc Hm Hk Hn. unfold createForm. rewrite (bind_ok get_glob _ w (w_glob w) w) by done.
  unfold chosen in Hc. rewrite (proj2 (Z.ltb_ge _ _)) by lia.
  rewrite (bind_ok _ _ _ _ _ (visual_ok w)), bool_decide_eq_true_2 by done. cbv iota.
  assert (∀ (x : world (forms E)) c, fm_K (w_glob x) = Some c → editor x = (Ok c, x)) as Hed.
  { intros x c Hx. unfold editor. rewrite (bind_ok get_glob _ x (w_glob x) x) by done. by rewrite Hx. }
  assert (∀ (f : E → E) (x : world (forms E)) c, fm_K (w_glob x) = Some c →
    edit f x = (Ok tt, set_glob (with_K (f c) (w_glob x)) x)) as Hedit.
  { intros f x c Hx. unfold edit. by rewrite (bind_ok _ _ _ _ _ (Hed x c Hx)). }
  set (html := getFormHtml (fm_actionUrl (w_glob w)) (fm_rows (w_glob w))).
  set (w1 := set_glob (with_K (ed_remove (js "form") k) (w_glob w)) w).
  set (w2 := set_glob (with_K (ke_insertHtml html (ed_remove (js "form") k)) (w_glob w1)) w1).
  destruct (closeDialog_quiet w2) as ([] & w3 & E3 & St).
  exists w3, (ke_insertHtml html (ed_remove (js "form") k)).
  rewrite (so_glob _ _ St). split; [|split; [exact Hm|split; [done|]]].
  - rewrite (bind_ok _ _ w tt w2); [exact E3|]. rewrite (bind_ok _ _ _ _ _ (Hed w k Hk)), Hn. cbn [Nat.ltb Nat.leb].
    rewrite (bind_ok _ _ _ _ _ (Hedit (ed_remove (js "form")) w k Hk)).
    exact (Hedit (ke_insertHtml html) w1 _ eq_refl).
  - pose proof (inserted_form_found (fm_actionUrl (w_glob w)) (fm_rows (w_glob w)) [] []) as H.
    rewrite app_nil_r, app_nil_l in H. exact (ed_shows_form html (ed_remove (js "form") k) H).
Qed.

Lemma createForm_limit w : (10 < chosen w)%nat →
  ∃ w', createForm w = (Ok tt, w') ∧ w_elt w' = w_elt w ∧ w_glob w' = w_glob w.
Proof.
  unfold chosen, createForm. intros Hc. rewrite (bind_ok get_glob _ w (w_glob w) w) by done.
  rewrite (proj2 (Z.ltb_lt _ _)) by lia.
  destruct (error_message_runs (VStr (js "选择属性不能超过10个")) (num 1) VUndef VUndef VUndef w)
    as (w' & E' & El & _ & Gl & _). by exists w'.
Qed.

End create.

(** * Witnesses *)

(** An editor that keeps the text, and finds the forms in it. *)
#[local] Instance text_editor : KindEditor jstr := {
  ke_create s := s; ke_html s := s; ke_set_html s _ := s; ke_insertHtml s e := e ++ s;
  ke_prepend s e := s ++ e; ke_append s e := e ++ s; ke_remove_id _ e := e }.
#[local] Instance text_dom : EditorDom jstr := {
  ed_count s e := if bool_decide (s = js "form#tempForm")
                  then if test (form_re (js "tempForm")) e then 1%nat else 0%nat
                  else if test (form_re (js "edm_sys_form")) e then 1%nat else 0%nat;
  ed_fill _ _ e := e; ed_remove _ e := replace_one any_form_re [] e;
  ed_html _ _ := VNull; ed_text _ _ e := e }.
#[local] Instance text_dom_laws : EditorDomLaws jstr.
Proof.
  constructor. intros html e H. cbn [ed_count text_dom ke_insertHtml text_editor].
  rewrite bool_decide_eq_true_2 by done.
  assert (unanchored (form_re (js "tempForm")) = true) as Hu by (by vm_compute).
  rewrite (proj2 (test_somewhere _ _ Hu)); [lia|]. apply (test_somewhere _ _ Hu) in H as (a & b & t & -> & L).
  exists (e ++ a), b, t. by rewrite <-app_assoc.
Qed.

Definition demo_rows : list prow :=
  [PRow true (js "name") (js "p1") (js "text") true; PRow false (js "age") (js "p2") (js "number") false].
Definition demo_forms (model : jstr) : world (forms jstr) :=
  page_with [(content, with_val (js "<p>join us</p>") blank)]
    (FormsVars model (Some (js "<p>join us</p>")) demo_rows (js "http://a.cn/f") (js "t")).

