(* ===== verification/Steps.v ===== *)
(** * Sending in steps: the template ([step.1.js]) and the task ([step.3.js])

    A mailing may be prepared on three pages.  The first makes or chooses the
    template, with the editors of [Template] and the trigger links of
    [Trigger]; the second the recipients (see [Import]); the third the task,
    with the fields of [Task]. *)

From S2P Require Import Prelude Js JsFacts Page TagList Base Template Trigger Task.
#[local] Open Scope Z_scope.

(** ** The first step *)

(** A template that may be chosen ([templateData]). *)
Record choice := Choice { ch_id : jstr; ch_subject : jstr }.

Section first_step.
Context {E : Type} `{!KindEditor E}.
Context (anchors : jstr → list anchor).
Abbreviation T1 := (J (Trigger.plan E)).

(** [form.name.value] of the forms [#add] and [#user]. *)
Definition step_control (form name : string) : jstr := js form ++ js "." ++ js name.
Definition step_value (form name : string) : T1 jstr := value0 (step_control form name).
Definition step_refuse (mess : jstr) (focus : option jstr) : T1 bool :=
  error_text mess 1 ;;
  match focus with Some s => emit (EvFocus s) | None => skip end ;;
  del_loading None ;;
  mret false.
(** A control that must not be empty. *)
Definition step_require (form name : string) (mess : jstr) (focus : bool) (rest : T1 bool) : T1 bool :=
  v ← step_value form name;
  if bool_decide (v = [])
  then step_refuse mess (if focus then Some (step_control form name) else None)
  else rest.

(** [beforeSubmit] of the form of a new template, and of the one that chooses. *)
Definition step1_add_beforeSubmit : T1 bool :=
  loading None None ;;
  step_require "#add" "templateName" (js "请输入模板名称") true
  (step_require "#add" "categoryId" (js "请选择模板类别") false
  (step_require "#add" "subject" (js "请输入邮件主题") true (mret true))).
Definition step1_user_beforeSubmit (templateData : list choice) : T1 bool :=
  loading None None ;;
  if bool_decide (List.map ch_id templateData = [])
  then popTips (js "#remindCustom") VUndef ;; del_loading None ;; mret false
  else step_require "#user" "templateId" (js "请选择邮件模板") false
       (step_require "#user" "subject" (js "请输入邮件主题") false (mret true)).

Definition next_step : T1 unit :=
  id ← val (js "input[name=id]");
  emit (EvAssign (js "/step/2?id=" ++ str_of_val id)).
Definition step1_add_success (code mess : jval) : T1 unit :=
  del_loading None ;;
  if is_num code 1 then next_step
  else if is_num code 2 then popTips (js "#remindFilter") mess
  else error_message mess (num 1) VUndef VUndef VUndef.
Definition step1_user_success (code mess : jval) : T1 unit :=
  del_loading None ;;
  if is_num code 1 then next_step
  else error_message mess (num 1) VUndef VUndef VUndef.

(** Making a template or choosing one. *)
Definition creating : T1 bool := v ← val (checked_radio (js "action")); mret (is_str v "create").
Definition action_change : T1 unit :=
  c ← creating;
  if c : bool then hide (js ".old_temp") ;; show (js ".new_temp")
  else hide (js ".new_temp") ;; show (js ".old_temp").

(** The click on [#tempSubmit]. *)
Definition step1_tempSubmit (prop_list : list (jstr * jstr)) : T1 bool :=
  c ← creating;
  if c : bool
  then
    cusType ← val (checked_radio (js "personal"));
    flag ← on_template (hasPrama prop_list);
    if flag && is_str cusType "false"
    then popTips (js "#remindParam") (VStr (js "链接含有变量，可能导致链接失常，设置链接个性化？")) ;; mret false
    else if negb flag && is_str cusType "true"
    then popTips (js "#remindParam") (VStr (js "链接没有可替换的变量，链接个性化会失效，取消链接个性化？")) ;; mret false
    else ok ← compareHref anchors false;
         if ok : bool then emit (EvSubmit (js "#add")) ;; mret true else mret false
  else emit (EvSubmit (js "#user")) ;; mret true.

Definition step1_preview (token : jstr) (templateData : list choice) : T1 unit :=
  c ← creating;
  if c : bool
  then g ← get_glob;
       k ← (if bool_decide (eModel (pl_template g) = WYSIWYG)
            then on_template (e ← editor PC; mret (ke_html e))
            else v ← val (area PC); mret (str_of_val v));
       emit (EvPost (js "/mailing/template/preview?token=" ++ token) [(js "content", k)])
  else id ← val (js "#userTempId");
       if truthy id
       then emit (EvOpen (js "/mailing/template/view?templateId=" ++ str_of_val id))
       else if bool_decide (List.map ch_id templateData = [])
       then popTips (js "#remindCustom") VUndef
       else error_text (js "请选择邮件模板") 1.

Definition gotoNewTemp : T1 unit :=
  set_checked (js "input[name=action][value=create]") true ;;
  hide (js ".old_temp") ;;
  show (js ".new_temp") ;;
  closeDialog.

(** [postSubject(obj,inputId)]: the subject of the template chosen. *)
Definition postSubject (templateData : list choice) (obj : node) (inputId : jstr) : T1 unit :=
  pickData obj inputId ;;
  id ← val (js "#userTempId");
  for_each templateData (λ c,
    when (loose_eq (VStr (ch_id c)) id) (set_val (js "#subject2") (ch_subject c))).
End first_step.

(** ** The third step *)

Abbreviation T3 := (J task).

(** What the form and its draft ask for. *)
Definition step3_required (rest : T3 bool) : T3 bool :=
  Task.require "taskName" (js "请输入任务名称") true
  (Task.require_if (js "#bindCorpId") "bindCorpId" (js "请选择所属企业")
  (Task.require "senderEmail" (js "请输入发件人邮箱") false
  (Task.require_if (js "#sms_list") "sms" (js "请选择短信通知")
  (Task.require_industry rest)))).

Definition step3_beforeSubmit : T3 bool :=
  loading None None ;;
  step3_required (mret true).
Definition step3_success (code mess : jval) : T3 unit :=
  del_loading None ;;
  if is_num code 1
  then error_message mess (num 0) (num 0) (num 1000) (VStr (js "/mailing/task/page"))
  else error_message mess (num 1) VUndef VUndef VUndef.

(** [gotoDrafted()]: [false] when it is refused, else nothing. *)
Definition gotoDrafted : T3 bool :=
  step3_required (popTips (js "#draftedRemind") VUndef ;; mret true).

(** [drafted()] and [_2()]: the answers. *)
Definition step3_drafted_success (code taskId planId taskName mess : jval) : T3 unit :=
  (if is_num code 1
   then set_val (js "input[name=taskId]") (str_of_val taskId) ;;
        set_val (js "input[name=planId]") (str_of_val planId) ;;
        set_val (js "input[name=orgTaskName]") (str_of_val taskName) ;;
        error_message mess VUndef VUndef VUndef VUndef
   else error_message mess (num 1) VUndef VUndef VUndef) ;;
  del_loading None ;;
  closeDialog.
Definition step3_drafted_error : T3 unit := del_loading None ;; closeDialog.
Definition step3_back_success (code mess : jval) : T3 unit :=
  if is_num code 1
  then id ← val (js "input[name=id]"); emit (EvAssign (js "/step/2?id=" ++ str_of_val id))
  else error_message mess (num 1) VUndef VUndef VUndef.

(** * Facts *)

Section third_step.
Implicit Types w : world task.

(** The message of the first requirement of the third step that is not met. *)
Definition step3_missing w : option jstr :=
  snd <$> List.find fst
    [(empty_control "taskName" w, js "请输入任务名称");
     (on_page (js "#bindCorpId") w && empty_control "bindCorpId" w, js "请选择所属企业");
     (empty_control "senderEmail" w, js "请输入发件人邮箱");
     (on_page (js "#sms_list") w && empty_control "sms" w, js "请选择短信通知");
     (no_industry w, js "请选择关联属性的行业兴趣")].
Record step3_ready w : Prop := {
  s3_name : present "taskName" w;
  s3_sender : present "senderEmail" w;
  s3_corp : on_page (js "#bindCorpId") w = true → present "bindCorpId" w;
  s3_sms : on_page (js "#sms_list") w = true → present "sms" w;
  s3_prop : on_page assProp w = true → is_Some (sub_get assProp (w_glob w))
}.

Lemma step3_gated rest w : step3_ready w → gated (step3_missing w) w (step3_required rest) rest.
Proof.
  intros [H1 H2 H3 H4 H5].
  replace (step3_missing w) with
    (or_else (empty_control "taskName" w) (js "请输入任务名称")
    (or_else (on_page (js "#bindCorpId") w && empty_control "bindCorpId" w) (js "请选择所属企业")
    (or_else (empty_control "senderEmail" w) (js "请输入发件人邮箱")
    (or_else (on_page (js "#sms_list") w && empty_control "sms" w) (js "请选择短信通知")
    (or_else (no_industry w) (js "请选择关联属性的行业兴趣") None))))).
  2: { unfold step3_missing. by rewrite !find_or_else. }
  repeat first [apply require_gated; [assumption|] | apply require_if_gated; [assumption|]].
  by apply require_industry_gated.
Qed.

Lemma same_step3 w w' : same_form w w' → step3_missing w' = step3_missing w ∧ (step3_ready w → step3_ready w').
Proof.
  intros H. split.
  - unfold step3_missing, no_industry. rewrite !(same_empty _ _ _ H), !(same_on_page _ _ _ H).
    by rewrite (same_val _ _ _ H), (sf_glob _ _ H).
  - intros [H1 H2 H3 H4 H5]. constructor.
    + by eapply same_present.
    + by eapply same_present.
    + rewrite (same_on_page _ _ _ H). intros P. eapply same_present; eauto.
    + rewrite (same_on_page _ _ _ H). intros P. eapply same_present; eauto.
    + by rewrite (same_on_page _ _ _ H), (sf_glob _ _ H).
Qed.
End third_step.

(** C30 -- A draft of the third step is offered exactly when its form would be sent:
    both ask for the same things in the same order and name the same thing
    when one is missing; the form that is sent keeps its overlay. *)
Theorem drafts_like_sent (w : world task) : step3_ready w →
  match step3_missing w with
  | Some mess => (∃ w', step3_beforeSubmit w = (Ok false, w') ∧ refused mess w w')
      ∧ (∃ w', gotoDrafted w = (Ok false, w') ∧ refused mess w w')
  | None => (∃ w', step3_beforeSubmit w = (Ok true, w') ∧ u_overlays (w_ui w') ≠ [] ∧ w_ev w' = w_ev w)
      ∧ (∃ w', gotoDrafted w = (Ok true, w') ∧ u_overlays (w_ui w') = u_overlays (w_ui w) ∧ w_ev w' = w_ev w)
  end.
Proof.
  intros Hw. destruct (loading_same w) as (w0 & E0 & S & O).
  destruct (same_step3 _ _ S) as [Hm Hr].
  pose proof (step3_gated (mret true) w0 (Hr Hw)) as Hg0.
  pose proof (step3_gated (popTips (js "#draftedRemind") VUndef ;; mret true) w Hw) as Hg.
  rewrite Hm in Hg0. unfold step3_beforeSubmit, gotoDrafted. rewrite (bind_ok _ _ _ _ _ E0).
  destruct (step3_missing w) as [mess|]; cbn [gated] in *.
  - split; [|exact Hg]. destruct Hg0 as (w' & E & (Hb & Ho & Gl & Ev)). exists w'. split; [done|].
    split; [done|]. split; [done|]. rewrite (sf_glob _ _ S) in Gl. split; [done|].
    by rewrite (sf_ev _ _ S) in Ev.
  - split; [exists w0; rewrite Hg0; split; [done|]; split; [done|]; apply S|].
    destruct (popTips_runs (js "#draftedRemind") VUndef w) as (w1 & E1 & _ & V1 & O1 & _).
    exists w1. rewrite Hg, (bind_ok _ _ _ _ _ E1). done.
Qed.

(** * Witnesses *)

Definition demo_step3 : world task :=
  page_with [(control "taskName", with_val (js "spring") blank);
             (control "senderEmail", with_val (js "a@b.cn") blank)]
    (w_glob Task.demo).

Lemma drafts_like_sent_witness :
  step3_ready demo_step3 ∧ step3_missing demo_step3 = None ∧
  (∃ w', step3_beforeSubmit demo_step3 = (Ok true, w') ∧ u_overlays (w_ui w') ≠ [] ∧ w_ev w' = w_ev demo_step3)
  ∧ (∃ w', gotoDrafted demo_step3 = (Ok true, w') ∧ u_overlays (w_ui w') = u_overlays (w_ui demo_step3)
       ∧ w_ev w' = w_ev demo_step3).
Proof.
  assert (step3_ready demo_step3) as H.
  { constructor; try (eexists; vm_compute; reflexivity); intros H; vm_compute in H; discriminate. }
  split; [exact H|]. assert (step3_missing demo_step3 = None) as M by on_page. split; [exact M|].
  pose proof (drafts_like_sent demo_step3 H) as Hd. rewrite M in Hd. exact Hd.
Defined.
