(* ===== verification/Lists.v ===== *)
(** * The lists of the site and their small forms

    [datasource.filter.js], [datasource.category.js], [datasource.tag.js],
    [datasource.recipient.js], [datasource.file.js], [mailing.task.js],
    [report.js], [report.sum.js], [report.detail.*.js], [report.touch.detail.js],
    [common/cycle.time.js] and [account.profile.js]: rows that can be added and
    removed, sections that load when they open, the contents of the bubbles, the
    addresses of exports. *)

From S2P Require Import Prelude Js JsFacts Page Base Search.
From Stdlib Require Import Sorting.Sorted.
#[local] Open Scope Z_scope.

(** ** The rows of a filter ([datasource.filter.js])

    [index] numbers the rows; a row is kept as its number. *)

Record filters := Filters { fi_index : Z; fi_rows : list Z }.
Definition add_filter : J filters unit :=
  mod_glob (λ g, Filters (fi_index g + 1) (fi_rows g)) ;;
  g ← get_glob;
  if 8 <=? Z.of_nat (length (fi_rows g))
  then error_text (js "过滤机制不能超过8个") 1
  else mod_glob (λ g, Filters (fi_index g) (fi_rows g ++ [fi_index g])).
(** [$("#key_" + id)] finds one row at most. *)
Definition del_filter (id : Z) : J filters unit :=
  mod_glob (λ g, Filters (fi_index g) (remove_first (Z.eqb id) (fi_rows g))).

(** The form: the filter has a name. *)
Definition filter_beforeSerialize {G} : J G unit := loading None None.
Definition filter_beforeSubmit {G} : J G bool :=
  v ← val (js "#add [name=filterName]");
  if negb (truthy v)
  then error_text (js "请输入过滤器名称") 1 ;; emit (EvFocus (js "#add [name=filterName]")) ;;
       del_loading None ;; mret false
  else mret true.
Definition filter_success {G} (code mess : jval) : J G unit :=
  del_loading None ;;
  if is_num code 1
  then error_message mess (num 0) (num 0) (num 1000) (VStr (js "/datasource/filter/page"))
  else error_message mess (num 1) VUndef VUndef VUndef.
(** The bubble of a filter: its conditions, cut at the Chinese semicolon. *)
Definition no_data : jstr := js "<p>暂无数据！</p>".
Definition filter_tip (filter_list : list (jstr * jstr)) (id : jstr) : jstr :=
  match List.filter (λ p, bool_decide (fst p = id)) filter_list with
  | [] => no_data
  | l => List.fold_left (λ h s, h ++ js "<li>" ++ s ++ js "</li>")
           (splitc 65307 (default [] (snd <$> last l))) (js "<ul>") ++ js "</ul>"
  end.

Section pages.
Context {G : Type}.

(** ** Comparing and summing tasks ([report.js]) *)

Definition ticked_values (l : list elt) : list jstr := List.map e_val (List.filter e_checked l).
Definition action (act mess : jstr) : J G unit :=
  l ← elts_of (js "input[name=checkedIds]");
  let checkedIds := ticked_values l in
  let n := Z.of_nat (length checkedIds) in
  if n <? 2 then error_text (js "请至少选择2个以上需要" ++ mess ++ js "的任务") 1
  else if bool_decide (act = js "compare") && (5 <? n)
  then error_text (js "请至多选择5个以下需要" ++ mess ++ js "的任务") 1
  else
    m ← size_of (js "#m");
    if 0 <? m
    then v ← val (js "#m");
         emit (EvAssign (act ++ js "?m=" ++ str_of_val v ++ js "&checkedIds=" ++ join [c_comma] checkedIds))
    else emit (EvAssign (act ++ js "?checkedIds=" ++ join [c_comma] checkedIds)).

(** ** Exports *)

(** [exports(action)] of [report.sum.js] *)
Definition exports (act : jstr) : J G unit :=
  b ← val (js "input[name=beginTime]");
  e ← val (js "input[name=endTime]");
  emit (EvAssign (js "/report/export/" ++ act ++ js "?beginTime=" ++ str_of_val b
                  ++ js "&endTime=" ++ str_of_val e)).
(** An export of one thing: nothing to export without its id. *)
Definition export_one (nothing url id : jstr) : J G unit :=
  if bool_decide (id = []) then error_text nothing 1 else emit (EvAssign (url ++ id)).
Definition no_cover : jstr := js "没有需要导出的概览报告".
Definition cover_task_exports : jstr → J G unit := export_one no_cover (js "/report/export/task/cover?taskId=").
Definition cover_campaign_exports : jstr → J G unit :=
  export_one no_cover (js "/report/export/campaign/cover?campaignId=").
Definition plan_exports : jstr → J G unit :=
  export_one (js "没有需要导出的周期报告") (js "/report/export/plan?planId=").
Definition client_campaign_exports : jstr → J G unit :=
  export_one (js "没有需要导出的终端报告") (js "/report/export/campaign/client?campaignId=").
Definition send_task_exports : jstr → J G unit :=
  export_one (js "没有需要导出的弹回报告") (js "/report/export/task/send?taskId=").
Definition send_campaign_exports : jstr → J G unit :=
  export_one (js "没有需要导出的发送报告") (js "/report/export/campaign/send?campaignId=").
Definition export_touch (nothing url id templateId : jstr) : J G unit :=
  if bool_decide (id = []) then error_text nothing 1
  else emit (EvAssign (url ++ id ++ js "&templateId=" ++ templateId)).
Definition touch_exports : jstr → jstr → J G unit :=
  export_touch no_cover (js "/report/export/touch/touch?taskId=").
Definition touch_cover_exports : jstr → jstr → J G unit :=
  export_touch no_cover (js "/report/export/touch/cover?touchId=").
Definition recipients_exports : jstr → jstr → J G unit :=
  export_touch (js "没有需要导出的解发计划报告") (js "/report/export/touch/recipients?taskId=").
(** [cover()]: the chart that is shown; drawing it is a call of Highcharts. *)
Definition cover : J G unit :=
  v ← val (js "#cover");
  if is_str v "column" then hide (js "#funnel") ;; show (js "#column")
  else hide (js "#column") ;; show (js "#funnel").

(** ** Other handlers *)

(** [recipient()] and [go()] *)
Definition recipient : J G unit :=
  v ← val (js "#recipient"); emit (EvAssign (js "/datasource" ++ str_of_val v)).
Definition go : J G unit := v ← val (js "#_id"); emit (EvAssign (str_of_val v)).

(** The clean-up of [select_data()] when no period is chosen; otherwise the date
    picker is called: [day_at n] is the text it puts for the day [n] days ago. *)
Definition select_data (day_at : jval → jstr) : J G unit :=
  c ← val (js "#cycle");
  if gt_num c 0
  then set_val (js "#beginTime") (day_at c) ;; set_val (js "#endTime") (day_at (num 0))
  else set_val (js "#beginTime") [] ;; set_val (js "#endTime") [].

(** The form of a profile ([account.profile.js]). *)
Definition profile_beforeSubmit : J G bool :=
  loading None None ;;
  email ← val (js "#add [name=email]");
  if negb (truthy email)
  then error_text (js "请输入邮箱地址") 1 ;; emit (EvFocus (js "#add [name=email]")) ;; del_loading None ;;
       mret false
  else
    n ← size_of (js "input[name=company]");
    company ← val (js "input[name=company]");
    if (0 <? n) && negb (truthy company)
    then error_text (js "请输入公司地址") 1 ;; emit (EvFocus (js "#add [name=company]")) ;; del_loading None ;;
         mret false
    else mret true.
Definition profile_success (code mess : jval) : J G unit :=
  (if is_num code 1 then error_message mess VUndef VUndef VUndef VUndef
   else error_message mess (num 1) VUndef VUndef VUndef) ;;
  del_loading None.
End pages.

(** ** Bubbles ([mailing.task.js], [datasource.file.js], [datasource.recipient.js]) *)

Definition tip_line (label : string) (v : jval) : jstr :=
  js "<li>" ++ js label ++ str_of_val v ++ js "</li>".
(** The bubble of a task: its settings, if the page has them. *)
Definition task_tip (taskData : list (jstr * obj)) (id : jstr) : jstr :=
  match List.find (λ p, bool_decide (fst p = id)) taskData with
  | None => no_data
  | Some (_, t) =>
      js "<h4>邮件设置</h4>" ++ js "<ul>" ++
      tip_line "任务名称：" (prop (js "task") t) ++ tip_line "所属活动：" (prop (js "campaign") t) ++
      tip_line "邮件模板：" (prop (js "template") t) ++ tip_line "邮件主题：" (prop (js "subject") t) ++
      js "</ul>" ++ js "<h4>发件人设置</h4>" ++ js "<ul>" ++
      tip_line "发件人邮箱：" (prop (js "senderEmail") t) ++ tip_line "发件人昵称：" (prop (js "senderName") t) ++
      tip_line "网络发件人：" (prop (js "robot") t) ++ tip_line "回复邮箱：" (prop (js "replier") t) ++
      js "</ul>" ++ js "<h4>收件人设置</h4>" ++ js "<ul>" ++
      tip_line "所属标签：" (prop (js "includes") t) ++ tip_line "排除标签：" (prop (js "excludes") t) ++
      tip_line "收件人昵称：" (prop (js "receiverName") t) ++ tip_line "默认退订：" (prop (js "unsubscribe") t) ++
      js "</ul>" ++ js "<h4>发送设置</h4>" ++ js "<ul>" ++ tip_line "发送方式：" (prop (js "sendCode") t) ++ js "</ul>"
  end.
Definition file_tip (selectionData : list (jstr * obj)) (id : jstr) : jstr :=
  match List.find (λ p, bool_decide (fst p = id)) selectionData with
  | None => no_data
  | Some (_, t) =>
      js "<h4>包含标签：</h4>" ++ js "<ul>" ++ tip_line "" (prop (js "includes") t) ++
      tip_line "选取标签下的收件人：" (prop (js "activeCnd") t) ++
      tip_line "取标签之间的收件人：" (prop (js "inCnd") t) ++ js "</ul>" ++
      js "<h4>排除标签：</h4>" ++ js "<ul>" ++ tip_line "" (prop (js "excludes") t) ++ js "</ul>" ++
      js "<h4>过滤器：</h4>" ++ js "<ul>" ++ tip_line "" (prop (js "filter") t) ++ js "</ul>" ++
      jsq "<h4>当前收件人总数：<span class=`red`>" ++ str_of_val (prop (js "emailCount") t) ++
      jsq "</span><span class=`f666`>（" ++ str_of_val (prop (js "repeat") t) ++ js "）</span></h4>"
  end.
(** The properties of a recipient, as the server answers them: what the bubble
    shows, and what it keeps, if anything. *)
Definition prop_tip (data : list (jstr * jval)) : jstr * option jstr :=
  let newarr := List.map (λ p, fst p ++ js "&nbsp;等于&nbsp;" ++ str_of_val (snd p))
                  (List.filter (λ p, negb (bool_decide (fst p = []))) data) in
  match newarr with
  | [] => (no_data, None)
  | _ => let h := List.fold_left (λ h s, h ++ js "<li>" ++ s ++ js "</li>") newarr (js "<ul>") ++ js "</ul>" in
         (h, Some h)
  end.

(** ** Categories that open ([datasource.category.js]) *)

(** The box of the tags of a category. *)
Record tag_box := TagBox { tb_shown : bool; tb_selected : bool; tb_html : jstr; tb_loaded : bool }.
Abbreviation boxes := (gmap jstr tag_box).
Definition closed_box : tag_box := TagBox false false [] false.
Definition box_at (item : jstr) (m : boxes) : tag_box := default closed_box (m !! item).

(** A click on the label; the row loses its mark when the box has slid up. *)
Definition label_click (token item : jstr) : J boxes unit :=
  m ← get_glob;
  let b := box_at item m in
  if tb_shown b
  then put_glob (<[item := TagBox false (tb_selected b) (tb_html b) (tb_loaded b)]> m)
  else if tb_loaded b
  then put_glob (<[item := TagBox true true (tb_html b) true]> m)
  else put_glob (<[item := TagBox true true (js "<p class='center'>正在加载标签列表...</p>") false]> m) ;;
       emit (EvAjax (js "/datasource/tag/array?categoryId=" ++ item ++ js "&token=" ++ token) []).
Definition slid_up (item : jstr) : J boxes unit :=
  mod_glob (λ m, let b := box_at item m in <[item := TagBox (tb_shown b) false (tb_html b) (tb_loaded b)]> m).

Definition tag_cells (tag : obj) : jstr :=
  let name := str_of_val (prop (js "tagName") tag) in
  js "<tr>" ++ js "<td width='25'></td>" ++
  (if loose_eq (prop (js "categoryName") tag) (VStr (js "临时文件"))
   then js "<td>" ++ name ++ js "</td>"
   else js "<td><a href='/datasource/recipient/page?action=category&tagId=" ++ str_of_val (prop (js "tagId") tag)
        ++ js "'>" ++ name ++ js "</a></td>") ++
  js "<td width='20%'>" ++ str_of_val (prop (js "tagDesc") tag) ++ js "</td>" ++
  js "<td width='10%'>" ++ str_of_val (prop (js "emailCount") tag) ++ js "</td>" ++
  js "<td width='12%'>" ++ str_of_val (prop (js "createTime") tag) ++ js "</td>" ++
  js "<td width='12%'>" ++ str_of_val (prop (js "modifyTime") tag) ++ js "</td>" ++
  js "<td class='edit' width='16%'><ul class='f_ul'></ul></td>" ++ js "</tr>".
Definition tag_table (tags : list obj) : jstr :=
  List.fold_left (λ h t, h ++ tag_cells t) tags
    (js "<table width='100%' cellspacing='0' cellpadding='0' border='0' class='sort_table'>") ++ js "</table>".
(** The answer; [None] stands for a request that failed. *)
Definition tags_answer (item : jstr) (data : option (jval * list obj)) : J boxes unit :=
  mod_glob (λ m, let b := box_at item m in
    <[item := match data with
              | Some (code, tags) =>
                  if is_num code 1 then TagBox (tb_shown b) (tb_selected b) (tag_table tags) true
                  else TagBox (tb_shown b) (tb_selected b) (js "<p class='center'>没有匹配的标签列表</p>") false
              | None => TagBox (tb_shown b) (tb_selected b) (js "<p class='center'>没有匹配的标签列表</p>") false
              end]> m).

(** * Facts *)

(** ** Rows *)

Inductive row_click := Add | Del (id : Z).
Definition row_click_fn (c : row_click) : J filters unit :=
  match c with Add => add_filter | Del id => del_filter id end.

(** The rows are numbered in the order they were added, below the counter. *)
Record rows_numbered (g : filters) : Prop := {
  rn_sorted : StronglySorted Z.lt (fi_rows g);
  rn_below : Forall (λ i, i ≤ fi_index g) (fi_rows g);
  rn_length : (length (fi_rows g) ≤ 8)%nat
}.

Lemma sorted_snoc l x : StronglySorted Z.lt l → Forall (λ i, i < x) l → StronglySorted Z.lt (l ++ [x]).
Proof.
  induction 1 as [|y l Hl IH Hy]; intros Hx; cbn [app]; [by repeat constructor|].
  inversion Hx as [|? ? Hyx Hlx]; subst. constructor; [by apply IH|].
  apply Forall_app. split; [done|by repeat constructor].
Qed.

Lemma sorted_sublist l k : sublist l k → StronglySorted Z.lt k → StronglySorted Z.lt l.
Proof.
  induction 1 as [|x l k Hs IH|x l k Hs IH]; intros H; [done| |]; inversion H; subst; [|by apply IH].
  constructor; [by apply IH|]. by eapply Forall_sublist.
Qed.

(** In such rows, removing the first of a number removes all of it. *)
Lemma sorted_remove l id : StronglySorted Z.lt l →
  remove_first (Z.eqb id) l = List.filter (λ i, negb (id =? i)) l.
Proof.
  induction 1 as [|x l Hl IH Hx]; [done|]. cbn [remove_first List.filter].
  destruct (Z.eqb_spec id x) as [->|]; cbn [negb]; [|by f_equal].
  symmetry. clear IH Hl. induction Hx as [|y l Hy _ IH]; [done|]. cbn [List.filter].
  destruct (Z.eqb_spec x y); [lia|]. cbn [negb]. by f_equal.
Qed.

(** What a click does to the rows. *)
Definition click_rows (g : filters) (c : row_click) : list Z :=
  match c with
  | Add => if (8 <=? length (fi_rows g))%nat then fi_rows g else fi_rows g ++ [fi_index g + 1]
  | Del id => List.filter (λ i, negb (id =? i)) (fi_rows g)
  end.

Lemma row_click_ok c (w : world filters) : rows_numbered (w_glob w) →
  ∃ w', row_click_fn c w = (Ok tt, w') ∧ rows_numbered (w_glob w')
    ∧ fi_rows (w_glob w') = click_rows (w_glob w) c.
Proof.
  intros [H1 H2 H3]. destruct c as [|id]; cbn [row_click_fn click_rows].
  - unfold add_filter. set (w1 := set_glob (Filters (fi_index (w_glob w) + 1) (fi_rows (w_glob w))) w).
    rewrite (bind_ok (mod_glob _) _ w tt w1) by done. rewrite (bind_ok get_glob _ w1 (w_glob w1) w1) by done.
    change (fi_rows (w_glob w1)) with (fi_rows (w_glob w)).
    destruct (Nat.leb_spec 8 (length (fi_rows (w_glob w)))) as [Hge|Hlt].
    + rewrite (proj2 (Z.leb_le _ _)) by lia.
      destruct (error_message_runs (VStr (js "过滤机制不能超过8个")) (num 1) VUndef VUndef VUndef w1)
        as (w' & E & _ & _ & Gl & _). exists w'. split; [exact E|]. rewrite Gl. split; [|done].
      constructor; [done| |done]. eapply Forall_impl; [exact H2|]. cbn. lia.
    + rewrite (proj2 (Z.leb_gt _ _)) by lia. eexists. split; [reflexivity|]. split; [|done].
      constructor; cbn [w_glob set_glob w1 fi_rows fi_index].
      * apply sorted_snoc; [done|]. eapply Forall_impl; [exact H2|]. cbn. lia.
      * apply Forall_app. split; [|constructor; [lia|constructor]]. eapply Forall_impl; [exact H2|]. cbn. lia.
      * rewrite length_app. simpl. lia.
  - eexists. split; [reflexivity|]. cbn [w_glob set_glob fi_rows]. split; [|by apply sorted_remove].
    pose proof (remove_first_sublist (Z.eqb id) (fi_rows (w_glob w))) as Hs.
    constructor; cbn [fi_rows fi_index].
    + by eapply sorted_sublist.
    + by eapply Forall_sublist.
    + apply sublist_length in Hs. lia.
Qed.

(** Any session of adding and removing conditions of a filter keeps at most
    eight rows, numbered in the order they were added and never alike, so the
    button of a row removes that row and no other. *)
Theorem filter_session l (w : world filters) : rows_numbered (w_glob w) →
  ∃ w', for_each l row_click_fn w = (Ok tt, w') ∧ rows_numbered (w_glob w')
    ∧ ∀ c, ∃ w'', row_click_fn c w' = (Ok tt, w'') ∧ fi_rows (w_glob w'') = click_rows (w_glob w') c.
Proof.
  revert w. induction l as [|c l IH]; intros w Hw.
  - exists w. split; [done|]. split; [done|]. intros c.
    destruct (row_click_ok c w Hw) as (w' & E & _ & R). by exists w'.
  - destruct (row_click_ok c w Hw) as (w1 & E1 & H1 & _). destruct (IH w1 H1) as (w' & E & H).
    exists w'. cbn [for_each]. by rewrite (bind_ok _ _ _ _ _ E1).
Qed.

Lemma filter_session_witness :
  let w := page [] [] (Filters 1 [0; 1]) in
  ∃ w', for_each [Add; Del 1; Add; Del 0] row_click_fn w = (Ok tt, w') ∧ rows_numbered (w_glob w')
    ∧ ∀ c, ∃ w'', row_click_fn c w' = (Ok tt, w'') ∧ fi_rows (w_glob w'') = click_rows (w_glob w') c.
Proof.
  intros w. apply (filter_session [Add; Del 1; Add; Del 0] w).
  constructor; [repeat constructor; lia|repeat constructor; simpl; lia|simpl; lia].
Defined.
