(* ===== verification/Smtp.v ===== *)
(** * The delivery machines ([delivery/delivery.smtp.js])

    The form adds machines: a list of addresses, the limits of a quarter of an
    hour, of an hour and of a day, and the largest mail. *)

From S2P Require Import Prelude Js JsFacts Regex Page Base Operator.
#[local] Open Scope Z_scope.
#[local] Set Warnings "-clear-no-such-hyp".

Section smtp.
Context {G : Type}.

(** [error_message(mess,1); ele.focus(); return false;] *)
Definition reject (mess : jstr) (ele : jstr) : J G bool :=
  message (VStr mess) 1 ;; emit (EvFocus ele) ;; mret false.

(** [/^\d+$/] *)
Definition number_re : re := RSeq RBol (RSeq (RPlus (RSet is_digit)) REol).
Definition maxSize : Z := 10240.
(** [testNum(ele)], for the control [ele]. *)
Definition testNum (ele : jstr) : J G bool :=
  value ← value0 ele;
  if negb (truthy (VStr value)) then reject (js "请输入必填项") ele
  else if negb (test number_re value && gt_num (VStr value) 0)
  then reject (js "请输入大于0的整数") ele
  else if gt_num (VStr value) 999999999
  then reject (js "输入的数值不能超过 9 位数字") ele
  else if bool_decide (ele = js "#size") && gt_num (VStr value) maxSize
  then reject (js "邮件大小不超过" ++ str_of_Z maxSize ++ js "KB") ele
  else mret true.

(** The expressions that take the spaces after a semicolon and those at the
    two ends. *)
Definition after_semi_re : re := RSeq (RStr [59%N]) (RCap (RStar true (RSet is_space))).
Definition ends_re : re :=
  RAlt (RCap (RSeq RBol (RStar true (RSet is_space)))) (RCap (RSeq (RStar true (RSet is_space)) REol)).
Definition clean_ips (value : jstr) : jstr :=
  replace_all ends_re [] (replace_all after_semi_re (js ";") value).

(** [25[0-5]|2[0-4][0-9]|[01]?[0-9][0-9]?] *)
Definition between (a b : N) : N → bool := λ c, (a <=? c)%N && (c <=? b)%N.
Definition octet_re : re :=
  RAlt (RAlt (RSeq (RStr [50%N; 53%N]) (RSet (between 48 53)))
             (RSeq (RStr [50%N]) (RSeq (RSet (between 48 52)) (RSet is_digit))))
       (RSeq (ROpt (RSet (between 48 49))) (RSeq (RSet is_digit) (ROpt (RSet is_digit)))).
(** Four octets with dots between them and maybe a semicolon, any number of
    times, between [^] and [$]. *)
Definition ip_body : re :=
  let part := RSeq octet_re (RStr [46%N]) in
  RStar true (RCap (RSeq part (RSeq part (RSeq part (RSeq octet_re (ROpt (RStr [59%N]))))))).
Definition ip_re : re := RSeq RBol (RSeq ip_body REol).

(** [testIP(ele)] *)
Definition testIP (ele : jstr) : J G bool :=
  value ← value0 ele;
  if negb (truthy (VStr value)) then reject (js "请输入ip地址") ele
  else if negb (test ip_re (clean_ips value))
  then reject (js "请输入合法的ip地址,多个用英文分号隔开") ele
  else if 10 <? Z.of_nat (length (splitc 59 value))
  then reject (js "每次提交不能超过10个ip") ele
  else mret true.

(** A check of the form: the next is made only when it holds. *)
Definition and_then (check next : J G bool) : J G bool :=
  b ← check; if b : bool then next else mret false.
(** [parseInt(a.value) <= parseInt(b.value)] and the message it brings *)
Definition in_order (a b : jstr) (mess : jstr) : J G bool :=
  x ← value0 a;
  y ← value0 b;
  if num_le (parseInt x) (parseInt y) then message (VStr mess) 1 ;; mret false else mret true.
(** The checks of [beforeSubmit], in their order *)
Definition addIP_checked : J G bool :=
  and_then (testIP (js "#ip"))
    (and_then (testNum (js "#quarter"))
      (and_then (testNum (js "#hour"))
        (and_then (testNum (js "#day"))
          (and_then (testNum (js "#size"))
            (and_then (in_order (js "#hour") (js "#quarter") (js "15分钟频率数值需小于1小时频率数值！"))
              (in_order (js "#day") (js "#hour") (js "1小时频率数值需小于1天频率数值！"))))))).
Definition addIP_beforeSubmit : J G jval :=
  ok ← addIP_checked;
  mret (if ok : bool then VUndef else VBool false).

(** The answer: [data.result] and [data.message]; [None]: no data. *)
Definition addIP_success (data : option (jval * jval)) : J G unit :=
  match data with
  | None => skip
  | Some (result, mess) =>
      if is_str result "success"
      then message mess 0 ;; emit (EvTimeout 2000)
      else if bool_decide (result = VUndef) then message (VStr (js "提交失败！")) 1
      else message mess 1
  end.
Definition addIP_later : J G unit := emit (EvAssign (js "/delivery/smtp/smtpList")).

Definition updateSmtp (url : jstr) : J G unit := emit (EvAssign url).
(** [confirmed]: what the user answers. *)
Definition deleteSmtp (confirmed : bool) (url : jstr) : J G unit :=
  when confirmed
    (set_attr (js "#ListForm") (js "method") (js "POST") ;;
     set_attr (js "#ListForm") (js "action") url ;;
     emit (EvSubmit (js "#ListForm"))).
Definition smtp_search : J G unit :=
  set_val (js "#currentPage") (js "1") ;; emit (EvSubmit (js "#ListForm")).
End smtp.

Example ip_1 : List.map (λ s, test ip_re (clean_ips s))
  [js "1.2.3.4"; js " 10.0.0.255; 192.168.001.9 "; js "1.2.3.256"; js "1.2.3"; js "1.2.3.4;;5.6.7.8";
   js "1.2.3.4,5.6.7.8"; js "1.2.3.41.2.3.4"; js " "]
  = [true; true; false; false; false; false; true; true].
Proof. by vm_compute. Qed.

(** * Facts *)

(** ** Spaces *)

(** The reference: the spaces after each semicolon and those at the two ends
    are left out. *)
Definition squeeze (v : jstr) : jstr :=
  match splitc 59 v with
  | [] => []
  | w :: ws => join [59%N] (w :: List.map drop_spaces ws)
  end.

Lemma drop_spaces_split s : ∃ w, s = w ++ drop_spaces s ∧ Forall (λ c, is_space c = true) w
  ∧ match drop_spaces s with c :: _ => is_space c = false | [] => True end.
Proof.
  induction s as [|c s (w & E & Hw & Ht)]; [by exists []|]. cbn [drop_spaces].
  destruct (is_space c) eqn:Hc; [|by exists []]. exists (c :: w).
  split; [simpl; congruence|]. by split; [constructor|].
Qed.

Lemma semi_none s k c t : drop k s = c :: t → c ≠ 59%N → match_at after_semi_re s k = None.
Proof.
  intros E Hc. unfold match_at, after_semi_re. rewrite E. cbn [mtch RStr RLit m_rest].
  by rewrite (proj2 (N.eqb_neq _ _)).
Qed.

Lemma semi_some s k0 w t : drop k0 s = 59%N :: w ++ t → Forall (λ c, is_space c = true) w →
  match t with c :: _ => is_space c = false | [] => True end →
  match_at after_semi_re s k0 = Some (MState (S k0 + length w) t [w]).
Proof.
  intros E Hw Ht. unfold match_at, after_semi_re. rewrite E.
  cbn [mtch RStr RLit m_rest]. rewrite N.eqb_refl. cbn [m_pos m_caps m_rest].
  match goal with |- loop _ true ?k _ ?st = _ =>
    change (mtch (RStar true (RSet is_space)) st k = Some (MState (S k0 + length w) t [w]))
  end.
  rewrite mtch_star_set by (done || by eexists). cbn [m_pos m_rest m_caps app].
  replace (S k0 + length w - S k0)%nat with (length w) by lia. by rewrite take_app_length.
Qed.

Lemma semi_from ws : ∀ s i w fuel, drop i s = join [59%N] (w :: ws) →
  sep_free 59 w → Forall (sep_free 59) ws → (length ws < fuel)%nat →
  replace_from fuel after_semi_re (js ";") s i = join [59%N] (w :: List.map drop_spaces ws).
Proof.
  induction ws as [|x ws IH]; intros s i w fuel E Hw Hws Hf; (destruct fuel as [|fuel]; [simpl in Hf; lia|]);
    cbn [replace_from].
  - assert (search_from after_semi_re s (length s - i) i = None) as ->; [|done].
    apply search_from_None. intros k Hk. cbn [join] in E.
    destruct (drop k s) as [|c t] eqn:Ek; [unfold match_at; by rewrite Ek|].
    apply (semi_none _ _ _ _ Ek). intros ->. apply Hw. rewrite <-E.
    replace k with (i + (k - i))%nat in Ek by lia. rewrite <-drop_drop in Ek.
    eapply elem_of_sublist; [|apply (sublist_drop _ (k - i))]. rewrite Ek. by left.
  - rewrite join_cons in E by done. inversion Hws as [|? ? Hx Hws']; subst.
    destruct (drop_spaces_split x) as (sp & Ex & Hsp & Ht).
    set (t := join [59%N] (drop_spaces x :: ws)).
    assert (join [59%N] (x :: ws) = sp ++ t) as Et.
    { unfold t. rewrite Ex at 1. destruct ws; [done|]. cbn [join]. by rewrite <-app_assoc. }
    rewrite Et in E.
    assert (match_at after_semi_re s (i + length w) = Some (MState (S (i + length w) + length sp) t [sp])) as Hm.
    { apply semi_some; [by apply (drop_sub s i w)|done|]. unfold t.
      destruct (drop_spaces x) as [|c y] eqn:Ey; [|by destruct ws].
      destruct ws; [done|]. by cbn. }
    rewrite (search_skip after_semi_re s i w _ _ E Hm).
    { cbn [m_pos m_caps]. rewrite (proj2 (Nat.eqb_neq _ _)) by lia.
      rewrite (take_sub s i w _ E), expand_plain by not_in.
      rewrite (IH s _ (drop_spaces x) fuel); [by rewrite (join_cons 59 w)| | |done|simpl in Hf; lia].
      - replace (S (i + length w) + length sp)%nat with (i + length (w ++ 59%N :: sp))%nat
          by (rewrite length_app; simpl; lia).
        apply drop_sub. rewrite E, <-app_assoc. done.
      - intros Hin. apply Hx. rewrite Ex. apply elem_of_app. by right. }
    intros k Hk. destruct (drop (i + k) s) as [|c y] eqn:Ek; [unfold match_at; by rewrite Ek|].
    apply (semi_none _ _ _ _ Ek). intros ->. apply Hw. rewrite <-drop_drop, E in Ek.
    rewrite drop_app_le in Ek by lia. destruct (drop k w) as [|d z] eqn:Ed.
    + apply (f_equal length) in Ed. rewrite length_drop in Ed. simpl in Ed. lia.
    + injection Ek as -> _. eapply elem_of_sublist; [|apply (sublist_drop w k)]. rewrite Ed. by left.
Qed.

Lemma squeeze_ok v : replace_all after_semi_re (js ";") v = squeeze v.
Proof.
  unfold squeeze. pose proof (join_splitc 59 v) as E. pose proof (splitc_sep_free 59 v) as Hf.
  destruct (splitc 59 v) as [|w ws] eqn:Es; [by destruct (splitc_ne 59 v)|].
  inversion Hf; subst. unfold replace_all. apply semi_from; [by rewrite drop_0|done|done|].
  assert (length (w :: ws) = S (length ws)) as Hl by done.
  assert (∀ l : list jstr, (length l <= S (length (join [59%N] l)))%nat) as Hj; [|specialize (Hj (w :: ws)); lia].
  induction l as [|x l IH]; [simpl; lia|]. destruct l as [|y l]; [simpl; lia|].
  rewrite join_cons by done. rewrite length_app. cbn [length] in *. lia.
Qed.

(** *** The two ends *)

Lemma ends_first a t : Forall (λ c, is_space c = true) a →
  match t with c :: _ => is_space c = false | [] => True end →
  match_at ends_re (a ++ t) 0 = Some (MState (length a) t [a]).
Proof.
  intros Ha Ht. unfold match_at, ends_re. rewrite drop_0. cbn [mtch m_pos Nat.eqb m_rest].
  match goal with |- context [loop _ true ?q _ ?st] =>
    change (loop _ true q _ st) with (mtch (RStar true (RSet is_space)) st q)
  end.
  rewrite mtch_star_set by (done || by eexists). cbn [m_pos m_rest m_caps app Nat.add].
  by rewrite Nat.sub_0_r, take_app_length.
Qed.

Lemma ends_last s k b : (0 < k)%nat → drop k s = b → Forall (λ c, is_space c = true) b →
  match_at ends_re s k = Some (MState (k + length b) [] [b]).
Proof.
  intros Hk E Hb. unfold match_at, ends_re. rewrite E. cbn [mtch m_pos].
  destruct k as [|k]; [lia|]. cbn [Nat.eqb m_rest].
  match goal with |- context [loop _ true ?q _ ?st] =>
    change (loop _ true q _ st) with (mtch (RStar true (RSet is_space)) st q)
  end.
  rewrite <-(app_nil_r b) at 1. rewrite mtch_star_set by (done || by eexists).
  cbn [m_pos m_rest m_caps app]. replace (S k + length b - S k)%nat with (length b) by lia.
  by rewrite take_ge by lia.
Qed.

Lemma ends_none s k c : (0 < k)%nat → c ∈ drop k s → is_space c = false → match_at ends_re s k = None.
Proof.
  intros Hk Hin Hc. apply match_at_None. intros st [(st1 & (st2 & [-> H0] & _) & _)|(st1 & (st2 & D & [-> He]) & _)].
  - simpl in H0. lia.
  - apply den_star_set in D as (w & E & Hw & _). rewrite He, app_nil_r in E. unfold start in E.
    cbn [m_rest] in E. rewrite E in Hin. rewrite Forall_forall in Hw. specialize (Hw _ Hin). simpl in Hw. congruence.
Qed.

Lemma ends_stop fuel s : s ≠ [] → replace_from (S fuel) ends_re [] s (length s) = [].
Proof.
  intros Hs. cbn [replace_from]. assert (0 < length s)%nat as Hl by (destruct s; simpl; [done|lia]).
  assert (match_at ends_re s (length s + length (@nil N)) = Some (MState (length s + 0) [] [[]])) as Hm.
  { rewrite (ends_last s _ []); [by rewrite Nat.add_0_r|simpl; lia|by rewrite Nat.add_0_r, drop_all|done]. }
  rewrite (search_skip ends_re s (length s) [] [] _ (drop_all s) Hm) by (simpl; lia).
  cbn [m_pos length]. rewrite !Nat.add_0_r, Nat.eqb_refl, Nat.ltb_irrefl, Nat.sub_diag, drop_all. done.
Qed.

Lemma ends_from s i m b fuel : (0 < i)%nat → s ≠ [] → drop i s = m ++ b →
  match rev m with c :: _ => is_space c = false | [] => True end →
  Forall (λ c, is_space c = true) b → (Nat.min 1 (length b) < fuel)%nat →
  replace_from fuel ends_re [] s i = m.
Proof.
  intros Hi Hs E Hm Hb Hf. destruct fuel as [|fuel]; [lia|]. cbn [replace_from].
  pose proof (f_equal length E) as Hl. rewrite length_drop, length_app in Hl.
  rewrite (search_skip ends_re s i m b _ E (ends_last s (i + length m) b ltac:(lia) (drop_sub s i m b E) Hb)).
  - cbn [m_pos m_caps]. rewrite (take_sub s i m b E). cbn [expand app].
    destruct b as [|c b].
    + rewrite Nat.add_0_r, Nat.eqb_refl, (drop_sub s i m [] E). cbn [take app].
      rewrite (proj2 (Nat.ltb_ge _ _)) by (simpl in Hl; lia). by rewrite app_nil_r.
    + rewrite (proj2 (Nat.eqb_neq _ _)) by (simpl; lia).
      replace (i + length m + length (c :: b))%nat with (length s) by (cbn [length] in *; lia).
      destruct fuel as [|fuel]; [simpl in Hf; lia|].
      rewrite ends_stop by done. by rewrite app_nil_r.
  - intros k Hk. destruct (rev m) as [|c r] eqn:Er.
    { apply (f_equal length) in Er. rewrite length_rev in Er. simpl in Er. lia. }
    apply (ends_none _ _ c); [lia| |done]. rewrite <-drop_drop, E, drop_app_le by lia.
    apply elem_of_app. left. assert (m = rev r ++ [c]) as -> by (by rewrite <-(rev_involutive m), Er).
    rewrite length_app in Hk. simpl in Hk. rewrite drop_app_le by lia. apply elem_of_app. right. by left.
Qed.

Lemma ends_ok s : replace_all ends_re [] s = trim s.
Proof.
  destruct (drop_spaces_split s) as (a & Es & Ha & Ht). set (t := drop_spaces s) in *.
  destruct (drop_spaces_split (rev t)) as (b & Et & Hb & Hm).
  assert (t = trim s ++ rev b) as Em.
  { unfold trim. fold t. by rewrite <-rev_app_distr, <-Et, rev_involutive. }
  assert (match rev (trim s) with c :: _ => is_space c = false | [] => True end) as Hm'.
  { unfold trim. fold t. by rewrite rev_involutive. }
  assert (Forall (λ c, is_space c = true) (rev b)) as Hb' by (by apply Forall_rev).
  clear Hb Hm Et. generalize dependent (rev b). clear b. intros b Em Hb.
  generalize dependent (trim s). intros m Hm Em. clearbody t. subst t s.
  unfold replace_all. cbn [replace_from].
  set (s := a ++ m ++ b).
  rewrite (search_skip ends_re s 0 [] s _ (drop_0 s) (ends_first a (m ++ b) Ha Ht)) by (simpl; lia).
  cbn [m_pos m_caps length]. rewrite Nat.add_0_r, drop_0. destruct a as [|c a].
  - cbn [length Nat.eqb]. rewrite Nat.sub_diag. cbn [take expand app]. unfold s. cbn [app]. destruct m as [|c m].
    + destruct b as [|c b]; [done|]. inversion Hb; subst. cbn [app] in Ht. congruence.
    + cbn [app length Nat.ltb Nat.leb drop take].
      rewrite (ends_from (c :: m ++ b) 1 m b); [done|lia|done|done| |done|rewrite length_app; lia].
      cbn [rev] in Hm. by destruct (rev m).
  - cbn [Nat.eqb length]. rewrite Nat.sub_diag. cbn [take expand app].
    apply (ends_from s (S (length a)) m b); [lia|done| |done|done|].
    + unfold s. apply (drop_app_length (c :: a) (m ++ b)).
    + unfold s. rewrite !length_app. cbn [length]. lia.
Qed.

Lemma clean_ips_ok v : clean_ips v = trim (squeeze v).
Proof. unfold clean_ips. by rewrite squeeze_ok, ends_ok. Qed.

(** ** Addresses *)

(** A number from 0 to 255 in at most three digits. *)
Definition octet (w : jstr) : Prop :=
  (1 <= length w <= 3)%nat ∧ all_digits w ∧ digits_value w ≤ 255.
Definition address (a : jstr) : Prop :=
  ∃ o1 o2 o3 o4, a = o1 ++ 46%N :: o2 ++ 46%N :: o3 ++ 46%N :: o4
    ∧ octet o1 ∧ octet o2 ∧ octet o3 ∧ octet o4.
(** Addresses, each followed by a semicolon or not. *)
Definition ip_list (s : jstr) : Prop :=
  ∃ l : list (jstr * bool), s = concat (List.map (λ p, p.1 ++ if p.2 : bool then [59%N] else []) l)
    ∧ Forall (λ p, address p.1) l.

Lemma lang_set P s t : lang (RSet P) s t ↔ ∃ c, s = c :: t ∧ P c = true.
Proof. done. Qed.
Lemma lang_opt r s t : lang (ROpt r) s t ↔ lang r s t ∨ s = t.
Proof. done. Qed.

Lemma digit_range c : is_digit c = true ↔ (48 <= c <= 57)%N.
Proof. unfold is_digit. by rewrite andb_true_iff, !N.leb_le. Qed.

Lemma lang_octet s t : lang octet_re s t ↔ ∃ w, s = w ++ t ∧ octet w.
Proof.
  assert (∀ a b c, between a b c = true ↔ (a <= c <= b)%N) as Hb
    by (intros a b c; unfold between; by rewrite andb_true_iff, !N.leb_le).
  unfold octet_re, octet, all_digits. split.
  - assert (∀ w, s = w ++ t → (1 <= length w <= 3)%nat → Forall (λ c, (48 <= c <= 57)%N) w → digits_value w ≤ 255 →
      ∃ w, s = w ++ t ∧ (1 <= length w <= 3)%nat ∧ Forall (λ c, is_digit c = true) w ∧ digits_value w ≤ 255) as Hw.
    { intros w E Hl Hw Hv. exists w. split; [done|]. split; [done|]. split; [|done].
      eapply Forall_impl; [exact Hw|]. intros c Hc. by apply digit_range. }
    intros [[L|L]|L].
    + destruct L as (u & L & c & -> & Hc%Hb). cbn in L.
      destruct L as (u1 & (x & -> & ->%N.eqb_eq) & u2 & (y & -> & ->%N.eqb_eq) & ->).
      apply (Hw [50%N; 53%N; c]); [done|simpl; lia|repeat constructor; lia|unfold digits_value; simpl; lia].
    + destruct L as (u & L & u' & (c & -> & Hc%Hb) & d & -> & Hx%digit_range). cbn in L.
      destruct L as (u1 & (x & -> & ->%N.eqb_eq) & ->).
      apply (Hw [50%N; c; d]); [done|simpl; lia|repeat constructor; lia|unfold digits_value; simpl; lia].
    + destruct L as (u & L1 & u' & (c & -> & Hc%digit_range) & L2).
      destruct L1 as [(x & -> & Hx%Hb)| ->], L2 as [(y & -> & Hy%digit_range)| ->];
        [apply (Hw [x; c; y])|apply (Hw [x; c])|apply (Hw [c; y])|apply (Hw [c])];
        try done; try (simpl; lia); try (repeat constructor; lia); unfold digits_value; simpl; lia.
  - intros (w & -> & Hl & Hd & Hv).
    assert (Forall (λ c, (48 <= c <= 57)%N) w) as Hr by (eapply Forall_impl; [exact Hd|]; intros c; apply digit_range).
    clear Hd. destruct w as [|a [|b [|c [|? ?]]]]; simpl in Hl; try lia; decompose_Forall; cbn [app].
    + right. exists (a :: t). split; [by right|]. exists t. split; [exists a; by rewrite digit_range|by right].
    + right. exists (a :: b :: t). split; [by right|]. exists (b :: t).
      split; [exists a; by rewrite digit_range|]. left. exists b. by rewrite digit_range.
    + unfold digits_value in Hv. cbn [List.fold_left] in Hv.
      destruct (decide (a <= 49)%N); [|destruct (decide (b <= 52)%N)].
      * right. exists (b :: c :: t). split; [left; exists a; rewrite Hb; by split; [|lia]|].
        exists (c :: t). split; [exists b; by rewrite digit_range|]. left. exists c. by rewrite digit_range.
      * left. right. assert (a = 50%N) as -> by lia. exists (b :: c :: t). split; [by apply lang_char|].
        exists (c :: t). split; [exists b; rewrite Hb; by split; [|lia]|]. exists c. by rewrite digit_range.
      * left. left. assert (a = 50%N) as -> by lia. assert (b = 53%N) as -> by lia. exists (c :: t).
        split; [apply (lang_lit false [50%N; 53%N])|]. exists c. rewrite Hb. by split; [|lia].
Qed.

Lemma lang_part s t : lang (RSeq octet_re (RStr [46%N])) s t ↔ ∃ w, s = w ++ 46%N :: t ∧ octet w.
Proof.
  change (lang (RSeq octet_re (RStr [46%N])) s t) with (∃ u, lang octet_re s u ∧ lang (RStr [46%N]) u t). split.
  - intros (u & (w & -> & Hw)%lang_octet & ->%lang_char). by exists w.
  - intros (w & -> & Hw). exists (46%N :: t). split; [apply lang_octet; by exists w|by apply lang_char].
Qed.

Definition ip_item : re :=
  let part := RSeq octet_re (RStr [46%N]) in
  RCap (RSeq part (RSeq part (RSeq part (RSeq octet_re (ROpt (RStr [59%N])))))).

Lemma lang_item s t : lang ip_item s t ↔
  ∃ a (semi : bool), s = a ++ (if semi then [59%N] else []) ++ t ∧ address a.
Proof.
  unfold ip_item. cbv zeta. split.
  - intros (u1 & (o1 & -> & H1)%lang_part & u2 & (o2 & -> & H2)%lang_part & u3 & (o3 & -> & H3)%lang_part
      & u4 & (o4 & -> & H4)%lang_octet & L).
    assert (∃ semi : bool, u4 = (if semi then [59%N] else []) ++ t) as [semi ->].
    { destruct L as [->%lang_char| ->]; [by exists true|by exists false]. }
    exists (o1 ++ 46%N :: o2 ++ 46%N :: o3 ++ 46%N :: o4), semi. split; [|by exists o1, o2, o3, o4].
    repeat (rewrite <-app_assoc; cbn [app]). done.
  - intros (? & semi & -> & o1 & o2 & o3 & o4 & -> & H1 & H2 & H3 & H4). set (e := (if semi then [59%N] else []) ++ t).
    exists (o2 ++ 46%N :: o3 ++ 46%N :: o4 ++ e). split.
    { apply lang_part. exists o1. split; [|done]. repeat (rewrite <-app_assoc; cbn [app]). done. }
    exists (o3 ++ 46%N :: o4 ++ e). split; [apply lang_part; by exists o2|].
    exists (o4 ++ e). split; [apply lang_part; by exists o3|].
    exists e. split; [apply lang_octet; by exists o4|].
    destruct semi; [left; by apply lang_char|by right].
Qed.

Lemma address_ne a : address a → a ≠ [].
Proof. intros (o1 & o2 & o3 & o4 & -> & _) E. by destruct o1. Qed.

Lemma ip_re_ok s : test ip_re s = true ↔ ip_list s.
Proof.
  unfold ip_re. rewrite test_lang by done. change ip_body with (RStar true ip_item).
  change (lang (RStar true ip_item) s []) with (runs_of (lang ip_item) s []).
  generalize (@eq_refl jstr []). generalize (@nil N) at 1 3 as t. intros t Et. split.
  - induction 1 as [s|s u t L _ _ IH]; [exists []; by subst|]. subst t.
    destruct (IH eq_refl) as (l & -> & Hl). apply lang_item in L as (a & semi & -> & Ha).
    exists ((a, semi) :: l). split; [cbn; by rewrite <-app_assoc|by constructor].
  - subst t. intros (l & -> & Hl). induction Hl as [|[a semi] l Ha _ IH]; [constructor|].
    eapply runs_more; [|  |exact IH].
    + apply lang_item. exists a, semi. split; [|done]. cbn. by rewrite <-app_assoc.
    + cbn. rewrite !length_app. pose proof (address_ne _ Ha). destruct a; [done|]. simpl. lia.
Qed.

(** ** Numbers *)

Lemma number_re_ok v : test number_re v = true ↔ v ≠ [] ∧ all_digits v.
Proof.
  unfold number_re. rewrite test_lang by done. rewrite lang_label. unfold label_of, all_digits. split.
  - intros (w & -> & H). by rewrite app_nil_r.
  - intros H. exists v. by rewrite app_nil_r.
Qed.

Lemma round53_below n z : 0 ≤ n → 0 ≤ z < 2 ^ 52 → num_lt (JInt z) (round53 n) = (z <? n).
Proof.
  intros Hn Hz. destruct (Z.leb_spec n pow2_53) as [Hle|Hgt].
  - rewrite round53_exact by lia. done.
  - rewrite (proj2 (Z.ltb_lt z n)) by (unfold pow2_53 in Hgt; lia).
    destruct (round53_large n) as [->|(a & -> & Ha)]; [lia|done|]. cbn. apply Z.ltb_lt. lia.
Qed.

Lemma digits_value_nonneg v : 0 ≤ digits_value v.
Proof.
  unfold digits_value. assert (∀ a, 0 ≤ a → 0 ≤ List.fold_left (λ a c, a * 10 + Z.of_N (c - 48)) v a) as H; [|by apply H].
  induction v as [|c v IH]; intros a Ha; [done|]. cbn [List.fold_left]. apply IH. lia.
Qed.

(** ** The gate *)

Definition numeral (v : jstr) (n : Z) : Prop := v ≠ [] ∧ all_digits v ∧ digits_value v = n.
(** What is wrong with a number, with the largest one allowed. *)
Definition num_problem (size : bool) (v : jstr) : option jstr :=
  if bool_decide (v = []) then Some (js "请输入必填项")
  else if negb (forallb is_digit v && (0 <? digits_value v)) then Some (js "请输入大于0的整数")
  else if 999999999 <? digits_value v then Some (js "输入的数值不能超过 9 位数字")
  else if size && (maxSize <? digits_value v) then Some (js "邮件大小不超过10240KB")
  else None.
Definition ip_problem (v : jstr) : option jstr :=
  if bool_decide (v = []) then Some (js "请输入ip地址")
  else if negb (test ip_re (trim (squeeze v))) then Some (js "请输入合法的ip地址,多个用英文分号隔开")
  else if 10 <? Z.of_nat (length (splitc 59 v)) then Some (js "每次提交不能超过10个ip")
  else None.
(** The first thing wrong with the form, and the control that gets the focus. *)
Definition at_control (sel : jstr) (o : option jstr) : option (jstr * option jstr) := (λ m, (m, Some sel)) <$> o.
Definition or_else {A} (o k : option A) : option A := match o with Some _ => o | None => k end.
Definition order_problem (a b : jstr) (mess : jstr) : option (jstr * option jstr) :=
  if digits_value a <=? digits_value b then Some (mess, None) else None.
Definition smtp_problem (ip q h d k : jstr) : option (jstr * option jstr) :=
  or_else (at_control (js "#ip") (ip_problem ip))
    (or_else (at_control (js "#quarter") (num_problem false q))
      (or_else (at_control (js "#hour") (num_problem false h))
        (or_else (at_control (js "#day") (num_problem false d))
          (or_else (at_control (js "#size") (num_problem true k))
            (or_else (order_problem h q (js "15分钟频率数值需小于1小时频率数值！"))
              (order_problem d h (js "1小时频率数值需小于1天频率数值！"))))))).

(** A check that shows what it finds wrong, and changes nothing else. *)
Definition checks {G} (m : J G bool) (p : option (jstr * option jstr)) (w : world G) : Prop :=
  match p with
  | None => m w = (Ok true, w)
  | Some (mess, focus) => ∃ w', m w = (Ok false, w') ∧ w_elt w' = w_elt w ∧ w_glob w' = w_glob w
      ∧ bn_text <$> u_banner (w_ui w') = Some mess
      ∧ w_ev w' = w_ev w ++ (match focus with Some s => [EvFocus s] | None => [] end)
  end.

Lemma forallb_digits v : forallb is_digit v = true ↔ all_digits v.
Proof. unfold all_digits. rewrite forallb_forall, Forall_forall. by setoid_rewrite list_elem_of_In. Qed.

Lemma gt_num_digits v z : v ≠ [] → all_digits v → 0 ≤ z < 2 ^ 52 → gt_num (VStr v) z = (z <? digits_value v).
Proof.
  intros Hne Hd Hz. unfold gt_num. cbn [num_of_val]. rewrite to_number_digits by done.
  apply round53_below; [apply digits_value_nonneg|done].
Qed.

Lemma num_fine size v : num_problem size v = None →
  (v ≠ [] ∧ all_digits v) ∧ 0 < digits_value v ≤ (if size : bool then maxSize else 999999999).
Proof.
  unfold num_problem. case_bool_decide; [done|]. destruct (forallb is_digit v) eqn:Hd; [|done].
  apply forallb_digits in Hd. cbn [andb].
  destruct (Z.ltb_spec 0 (digits_value v)); cbn [negb]; [|done].
  destruct (Z.ltb_spec 999999999 (digits_value v)); [done|].
  destruct size; cbn [andb]; [destruct (Z.ltb_spec maxSize (digits_value v)); [done|]|]; done.
Qed.

Lemma parseInt_small v : v ≠ [] ∧ all_digits v → 0 ≤ digits_value v ≤ pow2_53 → parseInt v = JInt (digits_value v).
Proof. intros [Hne Hd] Hv. rewrite parseInt_digits by done. apply round53_exact. lia. Qed.

Section gate.
Context {G : Type}.
Implicit Types w : world G.

Lemma reject_checks mess ele w : checks (reject mess ele) (Some (mess, Some ele)) w.
Proof.
  destruct (message_shows (VStr mess) 1 w) as (w1 & E & H1 & H2 & H3 & H4).
  unfold checks, reject. rewrite (bind_ok _ _ _ _ _ E). eexists. split; [reflexivity|].
  cbn. by rewrite H3.
Qed.

Lemma testIP_checks ele v w : val_of ele w = VStr v → checks (testIP ele) (at_control ele (ip_problem v)) w.
Proof.
  intros Hv. unfold testIP, ip_problem. unfold checks at 1.
  rewrite !(bind_ok _ _ _ _ _ (value0_ok _ _ _ Hv)). cbn [truthy]. rewrite negb_involutive, clean_ips_ok.
  case_bool_decide; [apply reject_checks|].
  destruct (test ip_re _); cbn [negb]; [|apply reject_checks].
  destruct (10 <? _); [apply reject_checks|done].
Qed.

Lemma testNum_checks ele v w : val_of ele w = VStr v →
  checks (testNum ele) (at_control ele (num_problem (bool_decide (ele = js "#size")) v)) w.
Proof.
  intros Hv. unfold testNum, num_problem. unfold checks at 1.
  rewrite !(bind_ok _ _ _ _ _ (value0_ok _ _ _ Hv)). cbn [truthy]. rewrite negb_involutive.
  case_bool_decide as Hne; [apply reject_checks|].
  assert (test number_re v = forallb is_digit v) as ->.
  { apply eq_true_iff_eq. rewrite number_re_ok, forallb_digits. tauto. }
  destruct (forallb is_digit v) eqn:Hd; cbn [andb negb]; [|apply reject_checks].
  apply forallb_digits in Hd. rewrite !gt_num_digits by (done || unfold maxSize; lia).
  destruct (0 <? digits_value v); cbn [negb]; [|apply reject_checks].
  destruct (999999999 <? digits_value v); [apply reject_checks|].
  destruct (bool_decide (ele = js "#size") && (maxSize <? digits_value v)); [apply reject_checks|done].
Qed.

Lemma in_order_checks a b x y mess w : val_of a w = VStr x → val_of b w = VStr y →
  num_problem false x = None → num_problem false y = None → checks (in_order a b mess) (order_problem x y mess) w.
Proof.
  intros Ha Hb Hx Hy. unfold in_order, order_problem. unfold checks.
  rewrite !(bind_ok _ _ _ _ _ (value0_ok _ _ _ Ha)), !(bind_ok _ _ _ _ _ (value0_ok _ _ _ Hb)).
  apply num_fine in Hx as (Hxd & Hxv), Hy as (Hyd & Hyv). cbn iota in Hxv, Hyv. rewrite !parseInt_small by (done || unfold pow2_53; lia).
  rewrite num_le_int. destruct (_ <=? _); [|done].
  destruct (message_shows (VStr mess) 1 w) as (w1 & E & H1 & H2 & H3 & H4).
  exists w1. rewrite (bind_ok _ _ _ _ _ E). by rewrite app_nil_r.
Qed.
End gate.

Definition smtp_ok (ip q h d k : jstr) : Prop :=
  ip ≠ [] ∧ ip_list (trim (squeeze ip)) ∧ (length (splitc 59 ip) <= 10)%nat
  ∧ ∃ Q H D K, numeral q Q ∧ numeral h H ∧ numeral d D ∧ numeral k K
      ∧ 0 < Q < H ∧ H < D ≤ 999999999 ∧ 0 < K ≤ 10240.

Lemma ip_fine v : ip_problem v = None ↔ v ≠ [] ∧ ip_list (trim (squeeze v)) ∧ (length (splitc 59 v) <= 10)%nat.
Proof.
  unfold ip_problem. rewrite <-ip_re_ok. case_bool_decide; [naive_solver|].
  destruct (test ip_re _); cbn [negb]; [|naive_solver].
  destruct (Z.ltb_spec 10 (Z.of_nat (length (splitc 59 v)))); split; try done; intros; [naive_solver lia|].
  repeat split; [done|lia].
Qed.

Lemma num_problem_ok size v n : numeral v n → 0 < n ≤ (if size : bool then maxSize else 999999999) →
  num_problem size v = None.
Proof.
  intros (Hne & Hd%forallb_digits & <-) Hn. unfold num_problem. rewrite bool_decide_eq_false_2, Hd by done.
  unfold maxSize in *. rewrite (proj2 (Z.ltb_lt _ _)) by lia. cbn [andb negb].
  rewrite (proj2 (Z.ltb_ge _ _)) by (destruct size; lia). destruct size; [|done]. cbn [andb].
  by rewrite (proj2 (Z.ltb_ge _ _)) by lia.
Qed.

Lemma or_else_none {A} (o k : option A) : or_else o k = None ↔ o = None ∧ k = None.
Proof. destruct o; naive_solver. Qed.
Lemma at_control_none sel o : at_control sel o = None ↔ o = None.
Proof. by destruct o. Qed.
Lemma order_none a b m : order_problem a b m = None ↔ digits_value b < digits_value a.
Proof. unfold order_problem. destruct (Z.leb_spec (digits_value a) (digits_value b)); split; (done || lia). Qed.

Lemma smtp_fine ip q h d k : smtp_problem ip q h d k = None ↔ smtp_ok ip q h d k.
Proof.
  unfold smtp_problem, smtp_ok. rewrite !or_else_none, !at_control_none, !order_none, ip_fine. split.
  - intros ((H1 & H2 & H3) & (Q1 & Q2)%num_fine & (H4 & H5)%num_fine & (D1 & D2)%num_fine & (K1 & K2)%num_fine & Hq & Hd).
    unfold maxSize in *. split; [done|]. split; [done|]. split; [done|].
    exists (digits_value q), (digits_value h), (digits_value d), (digits_value k). unfold numeral.
    destruct Q1, H4, D1, K1. repeat split; (done || lia).
  - intros (H1 & H2 & H3 & Q & H & D & K & NQ & NH & ND & NK & B). split; [done|].
    repeat split; try (eapply num_problem_ok; [eassumption|unfold maxSize; lia]);
      destruct NQ as (_ & _ & EQ), NH as (_ & _ & EH), ND as (_ & _ & ED); lia.
Qed.

Lemma and_then_some {G} (a b : J G bool) p q (w : world G) :
  checks a p w → (p = None → checks b q w) → checks (and_then a b) (or_else p q) w.
Proof.
  unfold checks, and_then. destruct p as [[mess focus]|]; cbn [or_else].
  - intros (w' & E & H) _. exists w'. by rewrite (bind_ok _ _ _ _ _ E).
  - intros E H. specialize (H eq_refl). by rewrite (bind_ok _ _ _ _ _ E).
Qed.

Lemma addIP_checks {G} ip q h d k (w : world G) :
  val_of (js "#ip") w = VStr ip → val_of (js "#quarter") w = VStr q → val_of (js "#hour") w = VStr h →
  val_of (js "#day") w = VStr d → val_of (js "#size") w = VStr k →
  checks addIP_checked (smtp_problem ip q h d k) w.
Proof.
  intros Hi Hq Hh Hd Hk.
  apply and_then_some; [by apply testIP_checks|intros _].
  apply and_then_some; [by apply (testNum_checks (js "#quarter"))|intros Pq%at_control_none].
  apply and_then_some; [by apply (testNum_checks (js "#hour"))|intros Ph%at_control_none].
  apply and_then_some; [by apply (testNum_checks (js "#day"))|intros Pd%at_control_none].
  apply and_then_some; [by apply (testNum_checks (js "#size"))|intros _].
  apply and_then_some; [by apply in_order_checks|intros _]. by apply in_order_checks.
Qed.

(** C22 -- The machines of the form are sent exactly when the text is a list of
    addresses of at most ten pieces and the limits are numerals that grow from
    the quarter of an hour to the day, the last of at most nine digits, with a
    mail of at most 10240 KB; otherwise the first thing wrong is named, the
    control it is in gets the focus, and the form stays as it is. *)
Theorem smtp_gate {G} ip q h d k (w : world G) :
  val_of (js "#ip") w = VStr ip → val_of (js "#quarter") w = VStr q → val_of (js "#hour") w = VStr h →
  val_of (js "#day") w = VStr d → val_of (js "#size") w = VStr k →
  match smtp_problem ip q h d k with
  | None => smtp_ok ip q h d k ∧ addIP_beforeSubmit w = (Ok VUndef, w)
  | Some (mess, focus) => ¬ smtp_ok ip q h d k ∧
      ∃ w', addIP_beforeSubmit w = (Ok (VBool false), w') ∧ w_elt w' = w_elt w ∧ w_glob w' = w_glob w
        ∧ bn_text <$> u_banner (w_ui w') = Some mess
        ∧ w_ev w' = w_ev w ++ (match focus with Some s => [EvFocus s] | None => [] end)
  end.
Proof.
  intros Hi Hq Hh Hd Hk. pose proof (smtp_fine ip q h d k) as F. pose proof (addIP_checks ip q h d k w Hi Hq Hh Hd Hk) as H.
  destruct (smtp_problem ip q h d k) as [[mess focus]|]; cbn [checks] in H; unfold addIP_beforeSubmit.
  - split; [by intros ?%F|]. destruct H as (w' & E & H). exists w'. by rewrite (bind_ok _ _ _ _ _ E).
  - split; [by apply F|]. by rewrite (bind_ok _ _ _ _ _ H).
Qed.

(** The separator may be missing, and spaces alone are a list of none: the text
    below names eleven machines in one piece. *)
Definition eleven : jstr := concat (List.repeat (js "10.0.0.21") 11).
Lemma smtp_unseparated : ip_list eleven ∧ (length (splitc 59 eleven) <= 10)%nat
  ∧ ip_problem eleven = None ∧ ip_problem (js " ") = None.
Proof. split; [apply ip_re_ok; by vm_compute|]. split; [vm_compute; lia|]. by vm_compute. Qed.

Definition demo_smtp (hour : jstr) : world unit :=
  page_with [(js "#ip", with_val (js "10.0.0.1; 10.0.0.2") blank); (js "#quarter", with_val (js "15") blank);
    (js "#hour", with_val hour blank); (js "#day", with_val (js "0900") blank); (js "#size", with_val (js "10240") blank)] tt.

Lemma demo_ip h : val_of (js "#ip") (demo_smtp h) = VStr (js "10.0.0.1; 10.0.0.2").
Proof. on_page. Qed.
Lemma demo_quarter h : val_of (js "#quarter") (demo_smtp h) = VStr (js "15").
Proof. on_page. Qed.
Lemma demo_hour h : val_of (js "#hour") (demo_smtp h) = VStr h.
Proof. on_page. Qed.
Lemma demo_day h : val_of (js "#day") (demo_smtp h) = VStr (js "0900").
Proof. on_page. Qed.
Lemma demo_size h : val_of (js "#size") (demo_smtp h) = VStr (js "10240").
Proof. on_page. Qed.

Lemma smtp_gate_witness :
  (smtp_ok (js "10.0.0.1; 10.0.0.2") (js "15") (js "60") (js "0900") (js "10240")
   ∧ addIP_beforeSubmit (demo_smtp (js "60")) = (Ok VUndef, demo_smtp (js "60")))
  ∧ ∃ w', addIP_beforeSubmit (demo_smtp (js "1000")) = (Ok (VBool false), w')
      ∧ bn_text <$> u_banner (w_ui w') = Some (js "1小时频率数值需小于1天频率数值！").
Proof.
  split.
  - pose proof (smtp_gate _ _ _ _ _ (demo_smtp (js "60")) (demo_ip _) (demo_quarter _) (demo_hour _) (demo_day _) (demo_size _)) as H.
    assert (smtp_problem (js "10.0.0.1; 10.0.0.2") (js "15") (js "60") (js "0900") (js "10240") = None) as E
      by (vm_compute; reflexivity).
    by rewrite E in H.
  - pose proof (smtp_gate _ _ _ _ _ (demo_smtp (js "1000")) (demo_ip _) (demo_quarter _) (demo_hour _) (demo_day _) (demo_size _)) as H.
    assert (smtp_problem (js "10.0.0.1; 10.0.0.2") (js "15") (js "1000") (js "0900") (js "10240")
      = Some (js "1小时频率数值需小于1天频率数值！", None)) as E by (vm_compute; reflexivity).
    rewrite E in H. destruct H as (_ & w' & H1 & _ & _ & H2 & _). exact (ex_intro _ w' (conj H1 H2)).
Defined.
