(* ===== verification/SdMenu.v ===== *)
(** * The side menu of the operators' site --
    [WEB-INF/jsp/home/menu/sdmenu.js]

    A menu of submenus that open and close by timers: [expandMenu] and
    [collapseMenu] start an interval that moves the height of a submenu step by
    step, and only when it reaches its end does the submenu change its class,
    which is what the other operations look at; the classes are then written
    into a cookie, from which [init] restores them.  The intervals of several
    submenus run interleaved, in any order.

    The layout is that of [WEB-INF/jsp/home/menu/css.css]: a submenu without a
    height of its own takes the height of its content, a collapsed one that of
    its title.  [menu.jsp] builds the menu when the page is loaded. *)

From stdpp Require Import relations.
From S2P Require Import Prelude Js JsFacts Regex Page Url.
#[local] Open Scope Z_scope.

(** ** The menu *)

Record submenu := Sub {
  sm_title : Z;                (* the height of its span *)
  sm_links : list Z;           (* the heights of its links, one in the title included *)
  sm_natural : Z;              (* the height of its content *)
  sm_collapsed : bool;         (* [className=="collapsed"], empty otherwise *)
  sm_height : option Z         (* [style.height], in pixels *)
}.
(** A running interval: it moves the height of [an_menu] up or down to
    [an_limit]. *)
Record anim := Anim { an_menu : nat; an_grow : bool; an_limit : Z; an_by : Z }.
Record menu := Menu {
  mn_id : jstr;
  subs : list submenu;
  timers : list (nat * anim);  (* by the number [setInterval] answers *)
  next_timer : nat;
  oneSmOnly : bool;
  jar : list (jstr * jstr)     (* the cookies of the document *)
}.
Definition with_subs s m := Menu (mn_id m) s (timers m) (next_timer m) (oneSmOnly m) (jar m).
Definition with_timers t m := Menu (mn_id m) (subs m) t (next_timer m) (oneSmOnly m) (jar m).
Definition with_oneSmOnly b m := Menu (mn_id m) (subs m) (timers m) (next_timer m) b (jar m).
Definition with_jar j m := Menu (mn_id m) (subs m) (timers m) (next_timer m) (oneSmOnly m) j.
Definition speed : Z := 5.

Definition sum (l : list Z) : Z := List.fold_right Z.add 0 l.
Definition full_height (s : submenu) : Z := sm_title s + sum (sm_links s).
(** [submenu.offsetHeight] *)
Definition offsetHeight (s : submenu) : Z :=
  match sm_height s with
  | Some h => h
  | None => if sm_collapsed s then sm_title s else sm_natural s
  end.
Definition with_height h s := Sub (sm_title s) (sm_links s) (sm_natural s) (sm_collapsed s) h.
Definition settled c s := Sub (sm_title s) (sm_links s) (sm_natural s) c None.
Definition move_by (s : submenu) : Z := speed * Z.of_nat (length (sm_links s)).

(** [setInterval] *)
Definition start_timer (a : anim) (m : menu) : menu :=
  Menu (mn_id m) (subs m) (timers m ++ [(next_timer m, a)]) (S (next_timer m)) (oneSmOnly m) (jar m).

(** ** The operations *)

Definition is_collapsed (m : menu) (i : nat) : bool :=
  match subs m !! i with Some s => sm_collapsed s | None => true end.

Definition collapseMenu (i : nat) (m : menu) : menu :=
  match subs m !! i with
  | Some s => start_timer (Anim i false (sm_title s) (move_by s)) m
  | None => m
  end.
Definition collapseOthers (i : nat) (m : menu) : menu :=
  if oneSmOnly m
  then List.fold_left (λ m j, if negb (j =? i)%nat && negb (is_collapsed m j) then collapseMenu j m else m)
         (seq 0 (length (subs m))) m
  else m.
Definition expandMenu (i : nat) (m : menu) : menu :=
  match subs m !! i with
  | Some s => collapseOthers i (start_timer (Anim i true (full_height s) (move_by s)) m)
  | None => m
  end.
Definition toggleMenu (i : nat) (m : menu) : menu :=
  if is_collapsed m i then expandMenu i m else collapseMenu i m.
Definition expandAll (m : menu) : menu :=
  let oldOneSmOnly := oneSmOnly m in
  with_oneSmOnly oldOneSmOnly
    (List.fold_left (λ m i, if is_collapsed m i then expandMenu i m else m)
       (seq 0 (length (subs m))) (with_oneSmOnly true m)).
Definition collapseAll (m : menu) : menu :=
  List.fold_left (λ m i, if is_collapsed m i then m else collapseMenu i m) (seq 0 (length (subs m))) m.

(** [memorize()]: the cookie, which expires thirty days later; an id that
    cannot be encoded throws, in a timer whose work is done by then. *)
Definition flags (m : menu) : list bool := List.map sm_collapsed (subs m).
Definition states (l : list bool) : jstr := List.map (λ c : bool, if c then 48%N else 49%N) l.
Definition cookie_name (m : menu) : res jstr :=
  match encodeURIComponent (mn_id m) with Ok e => Ok (js "sdmenu_" ++ e) | Exn x => Exn x end.
Fixpoint set_cookie (k v : jstr) (l : list (jstr * jstr)) : list (jstr * jstr) :=
  match l with
  | [] => [(k, v)]
  | (k', v') :: l' => if bool_decide (k' = k) then (k, v) :: l' else (k', v') :: set_cookie k v l'
  end.
Definition memorize (m : menu) : menu :=
  match cookie_name m with
  | Ok k => with_jar (set_cookie k (states (flags m)) (jar m)) m
  | Exn _ => m
  end.

(** The function of an interval, run once; a cleared interval does not run. *)
Definition clear_timer (t : nat) (m : menu) : menu :=
  with_timers (List.filter (λ p, negb (fst p =? t)%nat) (timers m)) m.
Definition timer (t : nat) (m : menu) : option anim :=
  snd <$> List.find (λ p, (fst p =? t)%nat) (timers m).
Definition fire (t : nat) (m : menu) : menu :=
  match timer t m with
  | None => m
  | Some a =>
      match subs m !! an_menu a with
      | None => m
      | Some s =>
          let curHeight := offsetHeight s in
          let newHeight := if an_grow a then curHeight + an_by a else curHeight - an_by a in
          if (if an_grow a then newHeight <? an_limit a else an_limit a <? newHeight)
          then with_subs (<[an_menu a := with_height (Some newHeight) s]> (subs m)) m
          else memorize (with_subs (<[an_menu a := settled (negb (an_grow a)) s]> (subs m)) (clear_timer t m))
      end
  end.

(** *** [init()] *)

(** [document.cookie] *)
Definition cookie_text (p : jstr * jstr) : jstr := fst p ++ js "=" ++ snd p.
Definition document_cookie (l : list (jstr * jstr)) : jstr := join (js "; ") (List.map cookie_text l).
Definition is_01 (c : N) : bool := (c =? 48)%N || (c =? 49)%N.
(** [new RegExp("sdmenu_"+encodeURIComponent(id)+"=([01]+)")], for an id whose
    characters stand for themselves in an expression. *)
Definition state_re (k : jstr) : re := RSeq (RStr (k ++ js "=")) (RCap (RPlus (RSet is_01))).
(** The classes set from the digits, one after the other; a digit without a
    submenu throws, the classes before it being set. *)
Fixpoint restore (digits : jstr) (l : list submenu) : list submenu * bool :=
  match digits, l with
  | [], _ => (l, true)
  | d :: ds, s :: l' =>
      let '(l'', ok) := restore ds l' in
      (Sub (sm_title s) (sm_links s) (sm_natural s) (d =? 48)%N (sm_height s) :: l'', ok)
  | _ :: _, [] => ([], false)
  end.
(** The part of [init()] that restores the classes; [false] for an exception,
    which leaves the function that called it. *)
Definition init (m : menu) : menu * bool :=
  match cookie_name m with
  | Exn _ => (m, false)
  | Ok k =>
      match exec (state_re k) (document_cookie (jar m)) with
      | Some (_, MState _ _ (w :: _)) => let '(l, ok) := restore w (subs m) in (with_subs l m, ok)
      | _ => (m, true)
      end
  end.
(** [window.onload] of [menu.jsp] *)
Definition onload (m : menu) : menu :=
  let '(m, ok) := init m in if ok then expandMenu 0 m else m.

(** The other part of [init()]: the first link of the menu is marked as the
    current one, and a click moves the mark.  [l] are the classes of the links
    of the document, [links] the places of those of the menu among them. *)
Definition current : jstr := js "current".
Definition init_marks (links : list nat) (l : list jstr) : list jstr :=
  match links with i :: _ => <[i := current]> l | [] => l end.
Definition link_click (i : nat) (l : list jstr) : list jstr :=
  <[i := current]> (List.map (λ c, if bool_decide (c = current) then [] else c) l).

(** ** Running intervals, in any order *)

Inductive fires : relation menu :=
| fires_timer t a m : timer t m = Some a → fires m (fire t m).

(** What the user asks for, and what the menu is for the user: which submenus
    are collapsed. *)
Inductive act := Toggle (i : nat) | Expand (i : nat) | CollapseAll.
Definition perform (a : act) (m : menu) : menu :=
  match a with Toggle i => toggleMenu i m | Expand i => expandMenu i m | CollapseAll => collapseAll m end.
Definition only (i : nat) (l : list bool) : list bool := imap (λ j _, negb (j =? i)%nat) l.
Definition abs_expand (one : bool) (i : nat) (l : list bool) : list bool :=
  if one then only i l else <[i := false]> l.
Definition abs_perform (one : bool) (a : act) (l : list bool) : list bool :=
  match a with
  | Toggle i => match l !! i with Some true => abs_expand one i l | _ => <[i := true]> l end
  | Expand i => abs_expand one i l
  | CollapseAll => List.map (λ _, true) l
  end.
Definition in_menu (a : act) (m : menu) : Prop :=
  match a with Toggle i | Expand i => (i < length (subs m))%nat | CollapseAll => True end.

(** Nothing moves, and a submenu without links is as high as its title. *)
Definition fits (s : submenu) : Prop := sm_links s = [] → sm_natural s = sm_title s.
Definition quiet_menu (m : menu) : Prop :=
  timers m = [] ∧ Forall (λ s, sm_height s = None) (subs m).

(** The number of times an interval has still to run, and the sum of them. *)
Definition distance (a : anim) (s : submenu) : Z :=
  if an_grow a then an_limit a - offsetHeight s else offsetHeight s - an_limit a.
Definition runs_left (a : anim) (s : submenu) : nat :=
  Z.to_nat (Z.max 1 ((distance a s + an_by a - 1) / an_by a)).
Definition work_of (l : list submenu) (p : nat * anim) : nat :=
  match l !! an_menu (snd p) with Some s => runs_left (snd p) s | None => O end.
Definition work (m : menu) : nat := sum_list_with (work_of (subs m)) (timers m).

(** The menu on its way to the classes [T]: at most one interval moves a
    submenu, in the direction of [T], and a submenu that no interval moves is
    there. *)
Definition moved (m : menu) : list nat := List.map (λ p, an_menu (snd p)) (timers m).
Record going (T : list bool) (m : menu) : Prop := Going {
  go_length : length T = length (subs m);
  go_moved : NoDup (moved m);
  go_timers : NoDup (List.map fst (timers m));
  go_next : Forall (λ p, (fst p < next_timer m)%nat) (timers m);
  go_anim : Forall (λ p, let a := snd p in
      T !! an_menu a = Some (negb (an_grow a)) ∧ 0 ≤ an_by a ∧
      ∀ s, subs m !! an_menu a = Some s → an_by a = 0 → distance a s ≤ 0) (timers m);
  go_still : ∀ j s, subs m !! j = Some s → j ∉ moved m → sm_height s = None ∧ T !! j = Some (sm_collapsed s)
}.

(** ** The intervals *)

Lemma timer_elem t m a : timer t m = Some a → (t, a) ∈ timers m.
Proof.
  unfold timer. intros H. destruct (List.find _ (timers m)) as [[t' a']|] eqn:F; [|done].
  apply List.find_some in F as [F E]. apply Nat.eqb_eq in E. simplify_eq/=. by apply list_elem_of_In.
Qed.
Lemma filter_out (t : nat) (a : anim) l1 l2 :
  NoDup (List.map fst (l1 ++ (t, a) :: l2)) →
  List.filter (λ p, negb (fst p =? t)%nat) (l1 ++ (t, a) :: l2) = l1 ++ l2.
Proof.
  intros N. rewrite map_app in N. cbn in N. apply NoDup_app in N as (_ & N1 & N2).
  apply NoDup_cons in N2 as [N2 _].
  assert (∀ l : list (nat * anim), t ∉ List.map fst l → List.filter (λ p, negb (fst p =? t)%nat) l = l) as K.
  { induction l as [|[t' a'] l IH]; [done|]. cbn. intros H. apply not_elem_of_cons in H as [H1 H2].
    destruct (Nat.eqb_spec t' t); [done|]. cbn. by rewrite IH. }
  rewrite List.filter_app. cbn. rewrite Nat.eqb_refl. cbn. rewrite !K; [done|done|].
  intros H. apply (N1 t H). by apply list_elem_of_here.
Qed.

(** A run of an interval that does not end it is one of [runs_left]. *)
Lemma runs_left_more d by_ : 0 ≤ by_ → (by_ = 0 → d ≤ 0) → by_ < d →
  Z.to_nat (Z.max 1 ((d + by_ - 1) / by_)) = S (Z.to_nat (Z.max 1 ((d - by_ + by_ - 1) / by_))).
Proof.
  intros B Z0 L. assert (0 < by_) as P by lia.
  replace (d + by_ - 1) with (d - by_ + by_ - 1 + 1 * by_) by lia. rewrite Z.div_add by lia.
  assert (1 ≤ (d - by_ + by_ - 1) / by_) by (apply Z.div_le_lower_bound; lia). lia.
Qed.
Lemma runs_left_last d by_ : 0 ≤ by_ → (by_ = 0 → d ≤ 0) → d ≤ by_ →
  Z.to_nat (Z.max 1 ((d + by_ - 1) / by_)) = 1%nat.
Proof.
  intros B Z0 L. assert ((d + by_ - 1) / by_ < 2); [|lia].
  destruct (decide (by_ = 0)) as [->|]; [rewrite Z.div_0_r; lia|].
  apply Z.div_lt_upper_bound; lia.
Qed.

Lemma sum_with_ext {A} (f g : A → nat) l : (∀ x, x ∈ l → f x = g x) → sum_list_with f l = sum_list_with g l.
Proof. induction l; [done|]. intros H. cbn. rewrite H by set_solver. rewrite IHl by set_solver. done. Qed.
Lemma work_of_other l j s p : an_menu (snd p) ≠ j → work_of (<[j := s]> l) p = work_of l p.
Proof. intros N. unfold work_of. by rewrite list_lookup_insert_ne. Qed.

Lemma elem_movers (p : nat * anim) l : p ∈ l → an_menu (snd p) ∈ List.map (λ p, an_menu (snd p)) l.
Proof.
  intros H. apply list_elem_of_In in H. apply list_elem_of_In.
  exact (List.in_map (λ p, an_menu (snd p)) _ _ H).
Qed.
(** One interval runs: the menu stays on its way, with one run less to do. *)
Lemma fire_split t a m T : going T m → timer t m = Some a →
  ∃ l1 l2 s, timers m = l1 ++ (t, a) :: l2 ∧ subs m !! an_menu a = Some s ∧
    T !! an_menu a = Some (negb (an_grow a)) ∧ 0 ≤ an_by a ∧ (an_by a = 0 → distance a s ≤ 0) ∧
    an_menu a ∉ List.map (λ p, an_menu (snd p)) (l1 ++ l2).
Proof.
  intros G H. apply timer_elem in H as E. destruct (list_elem_of_split _ _ E) as (l1 & l2 & L).
  pose proof (proj1 (Forall_forall _ _) (go_anim _ _ G) _ E) as (TA & B & D). cbn in TA, B, D.
  destruct (lookup_lt_is_Some_2 (subs m) (an_menu a)) as [s S].
  { rewrite <-(go_length _ _ G). by eapply lookup_lt_Some. }
  exists l1, l2, s. repeat (split; [done || by eauto|]).
  pose proof (go_moved _ _ G) as N. unfold moved in N. rewrite L, map_app in N. cbn in N.
  rewrite map_app. apply NoDup_app in N as (_ & N1 & N2). apply NoDup_cons in N2 as [N2 _].
  intros [K|K]%elem_of_app; [|done]. apply (N1 _ K). by apply list_elem_of_here.
Qed.
Lemma work_split m l1 l2 t a s s' : timers m = l1 ++ (t, a) :: l2 → subs m !! an_menu a = Some s →
  an_menu a ∉ List.map (λ p, an_menu (snd p)) (l1 ++ l2) →
  work m = (runs_left a s + sum_list_with (work_of (<[an_menu a := s']> (subs m))) (l1 ++ l2))%nat.
Proof.
  intros L S N. unfold work. rewrite L.
  rewrite (sum_with_ext (work_of (<[an_menu a := s']> (subs m))) (work_of (subs m)) (l1 ++ l2)).
  - rewrite !sum_list_with_app. cbn [sum_list_with].
    replace (work_of (subs m) (t, a)) with (runs_left a s) by (unfold work_of; cbn [snd]; by rewrite S). lia.
  - intros p P. apply work_of_other. intros E. apply N. rewrite <-E. by apply elem_movers.
Qed.

(** The two ways an interval runs. *)
Definition ended (a : anim) (s : submenu) : bool := distance a s <=? an_by a.
Definition next_height (a : anim) (s : submenu) : Z :=
  if an_grow a then offsetHeight s + an_by a else offsetHeight s - an_by a.
Lemma fire_shape t a m s : timer t m = Some a → subs m !! an_menu a = Some s →
  fire t m = if ended a s
             then memorize (with_subs (<[an_menu a := settled (negb (an_grow a)) s]> (subs m)) (clear_timer t m))
             else with_subs (<[an_menu a := with_height (Some (next_height a s)) s]> (subs m)) m.
Proof.
  intros H S. unfold fire. rewrite H, S. unfold ended, next_height, distance.
  destruct (an_grow a); repeat case_match; try done; lia.
Qed.
Lemma memorize_rest m : subs (memorize m) = subs m ∧ timers (memorize m) = timers m ∧
  next_timer (memorize m) = next_timer m ∧ mn_id (memorize m) = mn_id m.
Proof. unfold memorize. by destruct (cookie_name m). Qed.
Lemma distance_next a s : distance a (with_height (Some (next_height a s)) s) = distance a s - an_by a.
Proof. unfold distance, next_height. cbn. destruct (an_grow a); lia. Qed.

Lemma elem_moved t a m : (t, a) ∈ timers m → an_menu a ∈ moved m.
Proof. apply (elem_movers (t, a)). Qed.

Lemma NoDup_mid {A} (l1 l2 : list A) x : NoDup (l1 ++ x :: l2) → NoDup (l1 ++ l2).
Proof.
  intros (A1 & A2 & [_ A3]%NoDup_cons)%(NoDup_app _ (_ :: _)). apply NoDup_app.
  split; [done|split; [|done]]. intros y Y Z. apply (A2 y Y). by apply list_elem_of_further.
Qed.
(** An interval that goes on. *)
Lemma going_more T t a m s l1 l2 : going T m → timers m = l1 ++ (t, a) :: l2 →
  subs m !! an_menu a = Some s → an_menu a ∉ List.map (λ p, an_menu (snd p)) (l1 ++ l2) →
  0 ≤ an_by a → an_by a < distance a s →
  going T (with_subs (<[an_menu a := with_height (Some (next_height a s)) s]> (subs m)) m).
Proof.
  intros G L S N B D. destruct G as [G1 G2 G3 G4 G5 G6]. split; cbn; try done.
  - by rewrite length_insert.
  - rewrite Forall_forall in G5 |- *. intros p P. specialize (G5 p P) as (T1 & B1 & D1). cbn in *.
    split; [done|split; [done|]]. intros s' S' Z0.
    destruct (decide (an_menu (snd p) = an_menu a)) as [E|E].
    + assert (p = (t, a)) as ->; [|specialize (D1 s S Z0); cbn in *; lia].
      rewrite L, elem_of_app, elem_of_cons in P.
      destruct P as [P|[P|P]]; [|exact P|]; destruct N; rewrite <-E; apply elem_movers, elem_of_app; auto.
    + rewrite list_lookup_insert_ne in S' by done. by apply D1.
  - intros j s' S' M. destruct (decide (an_menu a = j)) as [<-|E].
    + destruct M. apply (elem_moved t). rewrite L. apply elem_of_app. right. by apply list_elem_of_here.
    + rewrite list_lookup_insert_ne in S' by done. by apply G6.
Qed.
(** An interval that ends. *)
Lemma going_end T t a m s l1 l2 : going T m → timers m = l1 ++ (t, a) :: l2 →
  subs m !! an_menu a = Some s → an_menu a ∉ List.map (λ p, an_menu (snd p)) (l1 ++ l2) →
  T !! an_menu a = Some (negb (an_grow a)) →
  going T (memorize (with_subs (<[an_menu a := settled (negb (an_grow a)) s]> (subs m)) (clear_timer t m))).
Proof.
  intros G L S N TA. destruct G as [G1 G2 G3 G4 G5 G6].
  set (m' := with_subs _ _). destruct (memorize_rest m') as (M1 & M2 & M3 & _).
  assert (timers m' = l1 ++ l2) as L'.
  { cbn. rewrite L in *. by apply (filter_out t a). }
  assert (∀ p, p ∈ l1 ++ l2 → p ∈ timers m) as I.
  { intros p [P|P]%elem_of_app; rewrite L; apply elem_of_app; [by left|]. right. by apply list_elem_of_further. }
  unfold moved in G2. rewrite L, map_app in G2. cbn in G2.
  rewrite L, map_app in G3. cbn in G3.
  split; unfold moved; rewrite ?M1, ?M2, ?M3, ?L'; cbn.
  - by rewrite length_insert.
  - rewrite map_app. by eapply NoDup_mid.
  - rewrite map_app. by eapply NoDup_mid.
  - rewrite Forall_forall in G4 |- *. auto.
  - rewrite Forall_forall in G5 |- *. intros p P. destruct (G5 p (I p P)) as (T1 & B1 & D1).
    split; [done|split; [done|]]. intros s' S'. rewrite list_lookup_insert_ne in S'; [by apply D1|].
    intros E. apply N. rewrite E. by apply elem_movers.
  - intros j s' S' M. destruct (decide (an_menu a = j)) as [<-|E].
    + rewrite list_lookup_insert_eq in S' by (by eapply lookup_lt_Some). by simplify_eq/=.
    + rewrite list_lookup_insert_ne in S' by done. apply G6; [done|].
      unfold moved. rewrite map_app, elem_of_app in M. rewrite L, map_app, elem_of_app. cbn. rewrite elem_of_cons.
      intros [?|[?|?]]; [apply M; by left|by apply E|apply M; by right].
Qed.
Lemma fire_going T t a m : going T m → timer t m = Some a →
  going T (fire t m) ∧ work m = S (work (fire t m)).
Proof.
  intros G H. destruct (fire_split _ _ _ _ G H) as (l1 & l2 & s & L & S & TA & B & Z0 & N).
  rewrite (fire_shape _ _ _ _ H S). unfold ended.
  pose proof (go_timers _ _ G) as ND. rewrite L in ND.
  destruct (Z.leb_spec (distance a s) (an_by a)) as [D|D].
  - split; [by eapply going_end|].
    rewrite (work_split m l1 l2 t a s (settled (negb (an_grow a)) s) L S N).
    unfold runs_left. rewrite (runs_left_last _ _ B Z0 D). unfold work at 1.
    destruct (memorize_rest (with_subs (<[an_menu a := settled (negb (an_grow a)) s]> (subs m)) (clear_timer t m)))
      as (-> & -> & _). cbn [timers with_subs clear_timer with_timers subs].
    rewrite L, (filter_out t a) by done. done.
  - split; [by eapply going_more|].
    set (s' := with_height _ s).
    rewrite (work_split m l1 l2 t a s s' L S N).
    rewrite (work_split (with_subs _ _) l1 l2 t a s' s' L);
      [|cbn; by rewrite list_lookup_insert_eq by (by eapply lookup_lt_Some)|done].
    cbn [subs with_subs]. rewrite list_insert_insert_eq.
    unfold runs_left. unfold s'. rewrite distance_next. by rewrite (runs_left_more _ _ B Z0 D).
Qed.

(** ** The intervals an operation starts *)

(** An interval on the submenu [fst p], up or down. *)
Definition launch (m : menu) (p : nat * bool) : menu := if snd p then
    match subs m !! fst p with
    | Some s => start_timer (Anim (fst p) true (full_height s) (move_by s)) m
    | None => m
    end else collapseMenu (fst p) m.
Definition launches (l : list (nat * bool)) (m : menu) : menu := List.fold_left launch l m.
Definition aim (T : list bool) (p : nat * bool) : list bool := <[fst p := negb (snd p)]> T.

Lemma launch_subs m p : subs (launch m p) = subs m.
Proof. unfold launch, collapseMenu. by repeat case_match. Qed.
Lemma launches_subs l m : subs (launches l m) = subs m.
Proof. revert m. induction l as [|p l IH]; intros m; [done|]. cbn. unfold launches in IH. by rewrite IH, launch_subs. Qed.
Lemma launch_jar m p : mn_id (launch m p) = mn_id m ∧ jar (launch m p) = jar m.
Proof. unfold launch, collapseMenu. by repeat case_match. Qed.

Lemma launch_timers m i g s : subs m !! i = Some s →
  launch m (i, g) = start_timer (Anim i g (if g then full_height s else sm_title s) (move_by s)) m.
Proof. intros S. unfold launch, collapseMenu. cbn. rewrite S. by destruct g. Qed.

Lemma going_launch T m i g s : going T m → subs m !! i = Some s → fits s → i ∉ moved m →
  going (aim T (i, g)) (launch m (i, g)).
Proof.
  intros G S F N. destruct (go_still _ _ G i s S N) as [H0 _].
  rewrite (launch_timers _ _ _ _ S). destruct G as [G1 G2 G3 G4 G5 G6].
  assert (moved (start_timer (Anim i g (if g then full_height s else sm_title s) (move_by s)) m) = moved m ++ [i]) as M.
  { unfold moved. cbn. by rewrite map_app. }
  unfold aim. cbn [fst snd]. split.
  - cbn. by rewrite length_insert.
  - rewrite M. apply NoDup_app. split; [done|split; [|apply NoDup_singleton]].
    intros x X ->%list_elem_of_singleton. done.
  - cbn. rewrite map_app. cbn. apply NoDup_app. split; [done|split; [|apply NoDup_singleton]].
    intros x X ->%list_elem_of_singleton. rewrite Forall_forall in G4.
    apply list_elem_of_In, List.in_map_iff in X as (p & E & P%list_elem_of_In). specialize (G4 p P). cbn in *. lia.
  - cbn. apply Forall_app. split; [|repeat constructor; cbn; lia].
    eapply Forall_impl; [exact G4|]. cbn. lia.
  - cbn. apply Forall_app. split.
    + rewrite Forall_forall in G5 |- *. intros p P. destruct (G5 p P) as (T1 & B1 & D1). cbn in *.
      split; [|done]. rewrite list_lookup_insert_ne; [done|]. intros ->. apply N. by apply (elem_movers p).
    + repeat constructor; cbn.
      * rewrite list_lookup_insert_eq; [done|]. rewrite G1. by eapply lookup_lt_Some.
      * unfold move_by, speed. lia.
      * intros s' S'. rewrite S in S'. simplify_eq. unfold move_by, speed. intros Z0.
        destruct (sm_links s') as [|] eqn:L; [|cbn in Z0; lia].
        specialize (F L). unfold distance, offsetHeight, full_height. cbn. rewrite H0, L. cbn.
        destruct g, (sm_collapsed s'); lia.
  - rewrite M. intros j s' S' J. rewrite elem_of_app, list_elem_of_singleton in J.
    rewrite list_lookup_insert_ne by (intros ->; apply J; by right). apply G6; [done|]. intros K. apply J. by left.
Qed.
Lemma launch_moved m i g s : subs m !! i = Some s → moved (launch m (i, g)) = moved m ++ [i].
Proof. intros S. rewrite (launch_timers _ _ _ _ S). unfold moved. cbn. by rewrite map_app. Qed.

Lemma going_launches l : ∀ T m, going T m → Forall fits (subs m) →
  NoDup (List.map fst l) → Forall (λ p, (fst p < length (subs m))%nat ∧ fst p ∉ moved m) l →
  going (List.fold_left aim l T) (launches l m).
Proof.
  induction l as [|[i g] l IH]; intros T m G F N I; [done|]. cbn in *.
  apply NoDup_cons in N as [N1 N2]. apply Forall_cons in I as [[I1 I2] I].
  destruct (lookup_lt_is_Some_2 _ _ I1) as [s S].
  apply IH; [eapply going_launch; try done; by eapply Forall_lookup_1|by rewrite launch_subs|done|].
  rewrite launch_subs, (launch_moved _ _ _ _ S). rewrite Forall_forall in I |- *. intros p P.
  destruct (I p P) as [I3 I4]. split; [done|]. rewrite elem_of_app, list_elem_of_singleton.
  cbn. intros [K|K]; [done|]. apply N1. rewrite <-K. by apply list_elem_of_In, List.in_map, list_elem_of_In.
Qed.
Lemma going_quiet m : quiet_menu m → going (flags m) m.
Proof.
  intros [Q1 Q2]. split; unfold moved, flags; rewrite ?Q1; cbn; try constructor.
  - by rewrite length_map.
  - by eapply Forall_lookup_1 in Q2.
  - rewrite list_lookup_fmap. by rewrite H.
Qed.

(** The intervals down on the submenus of a list that are open. *)
Definition shut (b : nat → bool) (m : menu) : list (nat * bool) :=
  List.map (λ j, (j, false)) (List.filter (λ j, b j && negb (is_collapsed m j)) (seq 0 (length (subs m)))).

Lemma is_collapsed_subs m m' i : subs m = subs m' → is_collapsed m i = is_collapsed m' i.
Proof. unfold is_collapsed. by intros ->. Qed.
Lemma fold_collapse b f l m0 : (∀ m j, f m j = if b j && negb (is_collapsed m j) then collapseMenu j m else m) →
  ∀ m, subs m = subs m0 →
  List.fold_left f l m =
    launches (List.map (λ j, (j, false)) (List.filter (λ j, b j && negb (is_collapsed m0 j)) l)) m.
Proof.
  intros F. induction l as [|j l IH]; intros m S; [done|]. cbn. rewrite F, (is_collapsed_subs _ _ j S).
  destruct (b j && _); [|by apply IH]. rewrite IH; [done|].
  change (collapseMenu j m) with (launch m (j, false)). by rewrite launch_subs.
Qed.
Lemma collapseAll_launches m : collapseAll m = launches (shut (λ _, true) m) m.
Proof. apply fold_collapse; [|done]. intros m' j. by destruct (is_collapsed m' j). Qed.
Definition expand_moves (i : nat) (m : menu) : list (nat * bool) :=
  (i, true) :: if oneSmOnly m then shut (λ j, negb (j =? i)%nat) m else [].
Lemma expandMenu_launches i m : (i < length (subs m))%nat → expandMenu i m = launches (expand_moves i m) m.
Proof.
  intros I. destruct (lookup_lt_is_Some_2 _ _ I) as [s S]. unfold expandMenu, expand_moves, collapseOthers.
  rewrite S. cbn. destruct (oneSmOnly m); cbn.
  - rewrite (fold_collapse (λ j, negb (j =? i)%nat) _ _ m) by done.
    unfold launch at 1. cbn. by rewrite S.
  - unfold launch. cbn. by rewrite S.
Qed.

Definition moves_of (a : act) (m : menu) : list (nat * bool) :=
  match a with
  | Toggle i => if is_collapsed m i then expand_moves i m else [(i, false)]
  | Expand i => expand_moves i m
  | CollapseAll => shut (λ _, true) m
  end.
Lemma perform_launches a m : in_menu a m → perform a m = launches (moves_of a m) m.
Proof.
  destruct a as [i|i|]; cbn; intros I.
  - unfold toggleMenu. destruct (is_collapsed m i); [by apply expandMenu_launches|done].
  - by apply expandMenu_launches.
  - apply collapseAll_launches.
Qed.

Lemma shut_moves b m j : j ∈ List.map fst (shut b m) ↔
  (j < length (subs m))%nat ∧ b j = true ∧ is_collapsed m j = false.
Proof.
  unfold shut. rewrite List.map_map, List.map_id. rewrite list_elem_of_In, List.filter_In, List.in_seq.
  rewrite andb_true_iff, negb_true_iff. intuition lia.
Qed.
Lemma shut_nodup b m : NoDup (List.map fst (shut b m)).
Proof.
  unfold shut. rewrite List.map_map, List.map_id. rewrite NoDup_ListNoDup. apply List.NoDup_filter, List.seq_NoDup.
Qed.
Lemma moves_ok a m : in_menu a m → NoDup (List.map fst (moves_of a m)) ∧
  Forall (λ p, (fst p < length (subs m))%nat) (moves_of a m).
Proof.
  assert (∀ b, Forall (λ p, (fst p < length (subs m))%nat) (shut b m)) as S.
  { intros b. apply Forall_forall. intros p P. apply (shut_moves b m).
    by apply list_elem_of_In, List.in_map, list_elem_of_In. }
  assert (∀ i, (i < length (subs m))%nat → NoDup (List.map fst (expand_moves i m)) ∧
    Forall (λ p, (fst p < length (subs m))%nat) (expand_moves i m)) as E.
  { intros i I. unfold expand_moves. destruct (oneSmOnly m); cbn.
    - split; [|by constructor]. constructor; [|apply shut_nodup]. rewrite shut_moves.
      by rewrite Nat.eqb_refl; intros (_ & ? & _).
    - split; [apply NoDup_singleton|by repeat constructor]. }
  destruct a as [i|i|]; cbn; intros I.
  - destruct (is_collapsed m i); [by apply E|]. split; [apply NoDup_singleton|by repeat constructor].
  - by apply E.
  - split; [apply shut_nodup|apply S].
Qed.

(** Where the intervals lead. *)
Lemma aims_down l : Forall (λ p, snd p = false) l → ∀ T j, (j < length T)%nat →
  List.fold_left aim l T !! j = if decide (j ∈ List.map fst l) then Some true else T !! j.
Proof.
  induction l as [|[i g] l IH]; intros F T j J; [done|]. apply Forall_cons in F as [G F]. cbn in G. subst g.
  cbn. rewrite IH by (done || (unfold aim; by rewrite length_insert)). unfold aim. cbn.
  destruct (decide (j ∈ List.map fst l)) as [K|K].
  - rewrite decide_True; [done|]. by apply list_elem_of_further.
  - destruct (decide (j = i)) as [->|N].
    + rewrite decide_True by apply list_elem_of_here. by rewrite list_lookup_insert_eq.
    + rewrite decide_False; [by rewrite list_lookup_insert_ne|]. rewrite elem_of_cons. tauto.
Qed.
Lemma aims_length l T : length (List.fold_left aim l T) = length T.
Proof. revert T. induction l; intros T; [done|]. cbn. rewrite IHl. unfold aim. by rewrite length_insert. Qed.
Lemma shut_down b m : Forall (λ p, snd p = false) (shut b m).
Proof. unfold shut. apply Forall_map, Forall_true. done. Qed.
Lemma flags_lookup m j : (j < length (subs m))%nat → flags m !! j = Some (is_collapsed m j).
Proof.
  intros J. unfold flags, is_collapsed. rewrite list_lookup_fmap.
  destruct (lookup_lt_is_Some_2 _ _ J) as [s S]. by rewrite S.
Qed.
Lemma flags_length m : length (flags m) = length (subs m).
Proof. apply length_map. Qed.

Lemma list_eq_below {A} (l1 l2 : list A) : length l1 = length l2 →
  (∀ j, (j < length l1)%nat → l1 !! j = l2 !! j) → l1 = l2.
Proof.
  intros L H. apply list_eq. intros j. destruct (decide (j < length l1)%nat) as [|N]; [auto|].
  rewrite !lookup_ge_None_2 by lia. done.
Qed.
Lemma aims_expand i m : (i < length (subs m))%nat →
  List.fold_left aim (expand_moves i m) (flags m) = abs_expand (oneSmOnly m) i (flags m).
Proof.
  intros I. unfold expand_moves, abs_expand. destruct (oneSmOnly m); [|done].
  cbn [List.fold_left]. apply list_eq_below.
  - unfold only. rewrite aims_length, length_imap. unfold aim. by rewrite length_insert.
  - rewrite aims_length. unfold aim at 1. rewrite length_insert, flags_length. intros j J.
    rewrite aims_down; [|apply shut_down|unfold aim; by rewrite length_insert, flags_length].
    unfold only. rewrite list_lookup_imap, flags_lookup by done. cbn [fmap option_fmap option_map].
    destruct (decide _) as [K|K]; rewrite shut_moves in K.
    + destruct K as (_ & -> & _). done.
    + unfold aim. cbn. destruct (Nat.eqb_spec j i) as [->|N]; cbn.
      * rewrite list_lookup_insert_eq by (by rewrite flags_length). done.
      * rewrite list_lookup_insert_ne, flags_lookup by done. destruct (is_collapsed m j) eqn:C; [done|].
        destruct K. split; [done|split; [|done]]. by destruct (Nat.eqb_spec j i).
Qed.
Lemma aims_perform a m : in_menu a m →
  List.fold_left aim (moves_of a m) (flags m) = abs_perform (oneSmOnly m) a (flags m).
Proof.
  destruct a as [i|i|]; cbn; intros I.
  - rewrite flags_lookup by done. destruct (is_collapsed m i); [by apply aims_expand|done].
  - by apply aims_expand.
  - apply list_eq_below; rewrite aims_length, ?length_map; [done|]. rewrite flags_length. intros j J.
    rewrite aims_down by (apply shut_down || by rewrite flags_length).
    rewrite list_lookup_fmap, flags_lookup by done. cbn.
    destruct (decide _) as [K|K]; [done|]. rewrite shut_moves in K.
    destruct (is_collapsed m j) eqn:C; [done|]. by destruct K.
Qed.
Lemma going_perform a m : quiet_menu m → Forall fits (subs m) → in_menu a m →
  going (abs_perform (oneSmOnly m) a (flags m)) (perform a m).
Proof.
  intros Q F I. rewrite (perform_launches _ _ I), <-(aims_perform _ _ I).
  destruct (moves_ok a m I) as [N R]. apply going_launches; [by apply going_quiet|done|done|].
  eapply Forall_impl; [exact R|]. intros p P. split; [done|]. unfold moved. destruct Q as [-> _].
  apply not_elem_of_nil.
Qed.

(** ** The menu settles *)

Lemma going_settled T m : going T m → timers m = [] → quiet_menu m ∧ flags m = T.
Proof.
  intros G E. assert (∀ j s, subs m !! j = Some s → sm_height s = None ∧ T !! j = Some (sm_collapsed s)) as S.
  { intros j s H. apply (go_still _ _ G j s H). unfold moved. rewrite E. apply not_elem_of_nil. }
  split; [split; [done|]|].
  - apply Forall_lookup. intros j s H. by apply (S j s).
  - apply list_eq_below; [by rewrite flags_length, (go_length _ _ G)|]. rewrite flags_length. intros j J.
    destruct (lookup_lt_is_Some_2 _ _ J) as [s H]. destruct (S j s H) as [_ ->].
    unfold flags. by rewrite list_lookup_fmap, H.
Qed.
Lemma fires_going T m m' k : going T m → nsteps fires k m m' → going T m' ∧ (k + work m' = work m)%nat.
Proof.
  intros G R. revert G. induction R as [m|k m1 m2 m3 R1 R IH]; intros G; [done|].
  destruct R1 as [t a m1 H]. destruct (fire_going _ _ _ _ G H) as [G' W]. destruct (IH G') as [? ?]. split; [done|lia].
Qed.
(** The value of a cookie. *)
Definition cookie (k : jstr) (m : menu) : option jstr :=
  snd <$> List.find (λ p, bool_decide (fst p = k)) (jar m).
Lemma cookie_set k v l : snd <$> List.find (λ p, bool_decide (fst p = k)) (set_cookie k v l) = Some v.
Proof.
  induction l as [|[k' v'] l IH]; cbn; [by rewrite bool_decide_true|].
  case_bool_decide as E; cbn; [by rewrite bool_decide_true|]. by rewrite bool_decide_false.
Qed.
Lemma memorize_id m : mn_id (memorize m) = mn_id m.
Proof. by destruct (memorize_rest m) as (_ & _ & _ & ->). Qed.
Lemma fire_id t m : mn_id (fire t m) = mn_id m.
Proof. unfold fire. repeat case_match; try done; by rewrite memorize_id. Qed.
Lemma fires_cookie m m' k n : nsteps fires n m m' → (0 < n)%nat → timers m' = [] → cookie_name m = Ok k →
  cookie k m' = Some (states (flags m')).
Proof.
  induction 1 as [m|n m1 m2 m3 R1 R IH]; intros P E K; [lia|]. destruct R1 as [t a m1 H].
  destruct n as [|n].
  - inversion R; subst m3.
    assert (∃ s, subs m1 !! an_menu a = Some s) as [s S].
    { destruct (subs m1 !! an_menu a) eqn:S; [by eexists|]. unfold fire in E. rewrite H, S in E.
      apply timer_elem in H. rewrite E in H. by apply not_elem_of_nil in H. }
    rewrite (fire_shape _ _ _ _ H S) in *. destruct (ended a s).
    + unfold memorize, cookie_name in *. cbn in *. destruct (encodeURIComponent (mn_id m1)); [|done].
      simplify_eq. unfold cookie. apply cookie_set.
    + cbn in E. apply timer_elem in H. rewrite E in H. by apply not_elem_of_nil in H.
  - apply IH; [lia|done|]. unfold cookie_name in *. by rewrite fire_id.
Qed.

Lemma fires_name n m m' : nsteps fires n m m' → cookie_name m' = cookie_name m.
Proof.
  unfold cookie_name. induction 1 as [m|n m1 m2 m3 R1 R IH]; [done|]. rewrite IH.
  destruct R1. by rewrite fire_id.
Qed.
Lemma going_work T m : going T m → work m = O ↔ timers m = [].
Proof.
  intros G. split; [|unfold work; by intros ->]. destruct (timers m) as [|[t a] l] eqn:E; [done|].
  destruct (fire_going T t a m G) as [_ W]; [|lia]. unfold timer. rewrite E. cbn. by rewrite Nat.eqb_refl.
Qed.

Lemma abs_length one a l : length (abs_perform one a l) = length l.
Proof.
  destruct a as [i|i|]; cbn; unfold abs_expand, only; repeat case_match;
    by rewrite ?length_imap, ?length_insert, ?length_map.
Qed.

(** *** The cookie read back *)

(** [w] occurs nowhere in [s]. *)
Definition absent (w s : jstr) : Prop := ∀ i, starts_with w (drop i s) = false.

Lemma starts_with_sep c w s t : c ∉ w → starts_with w (s ++ c :: t) = true → starts_with w s = true.
Proof.
  revert s. induction w as [|d w IH]; intros [|e s]; cbn; try done; intros N;
    apply not_elem_of_cons in N as [N1 N2].
  - destruct (N.eqb_spec d c); done.
  - rewrite !andb_true_iff. intros [-> H]. split; [done|by apply IH].
Qed.
(** A needle that occurs in none of the cookies before the one that it begins
    is found there. *)
Lemma absent_before w l r i : 59%N ∉ w → match w with d :: _ => d ≠ 32%N | [] => False end →
  Forall (absent w) l → (i < length (List.flat_map (λ t, t ++ js "; ") l))%nat →
  starts_with w (drop i (List.flat_map (λ t, t ++ js "; ") l ++ r)) = false.
Proof.
  intros S H. revert i. induction l as [|t l IH]; intros i; [cbn; lia|]. intros [A F]%Forall_cons I.
  cbn [List.flat_map] in *. rewrite length_app in I. rewrite <-!app_assoc.
  destruct (decide (i < length t + 2)%nat) as [L|L].
  - destruct (starts_with w _) eqn:E; [|done]. exfalso.
    destruct (decide (i <= length t)%nat) as [L'|L'].
    + rewrite drop_app_le in E by done. apply (starts_with_sep _ _ _ _ S) in E. by rewrite A in E.
    + replace i with (length t + 1)%nat in E by lia. rewrite <-drop_drop, drop_app_length in E.
      destruct w as [|d w]; [done|]. change (drop 1 (js "; " ++ ?x)) with (32%N :: x) in E. cbn in E. destruct (N.eqb_spec d 32); [congruence|done].
  - replace i with (length (t ++ js "; ") + (i - length t - 2))%nat by (rewrite length_app; change (length (js "; ")) with 2%nat; lia).
    rewrite (app_assoc t), <-drop_drop, drop_app_length. apply IH; [done|].
    rewrite length_app in I. change (length (js "; ")) with 2%nat in I. lia.
Qed.
Lemma cookie_split k v l : snd <$> List.find (λ p, bool_decide (fst p = k)) l = Some v →
  ∃ l1 l2, l = l1 ++ (k, v) :: l2 ∧ Forall (λ p : jstr * jstr, fst p ≠ k) l1.
Proof.
  induction l as [|[k' v'] l IH]; cbn; [done|]. case_bool_decide as E; cbn.
  - intros [= <-]. exists [], l. by rewrite <-E.
  - intros H. destruct (IH H) as (l1 & l2 & -> & F). exists ((k', v') :: l1), l2. split; [done|by constructor].
Qed.
Lemma document_cookie_split k v l1 l2 : ∃ t,
  document_cookie (l1 ++ (k, v) :: l2) =
    List.flat_map (λ t, t ++ js "; ") (List.map cookie_text l1) ++ (k ++ js "=") ++ v ++ t ∧
  match t with c :: _ => is_01 c = false | [] => True end.
Proof.
  unfold document_cookie. induction l1 as [|p l1 (t & IH & T)].
  - destruct l2 as [|q l2]; cbn -[js]; [exists []|exists (js "; " ++ join (js "; ") (List.map cookie_text (q :: l2)))];
      unfold cookie_text; cbn -[js]; rewrite ?app_nil_r, <-?app_assoc; done.
  - exists t. split; [|done]. cbn [app List.map List.flat_map].
    rewrite <-(app_assoc (_ ++ js "; ")), <-IH, <-(app_assoc (cookie_text p)). cbn [join].
    destruct (List.map cookie_text (l1 ++ (k, v) :: l2)) eqn:E; [by destruct l1|]. done.
Qed.

Lemma restore_states l : ∀ s : list submenu, length s = length l →
  List.map sm_collapsed (fst (restore (states l) s)) = l ∧ snd (restore (states l) s) = true.
Proof.
  induction l as [|c l IH]; intros [|x s] E; try done. cbn in *.
  destruct (IH s ltac:(lia)) as [IH1 IH2]. destruct (restore (states l) s) as [l'' ok] eqn:R.
  change (List.map _ l) with (states l). rewrite R. cbn in *. split; [|done]. rewrite IH1. by destruct c.
Qed.
Lemma states_01 l : Forall (λ c, is_01 c = true) (states l).
Proof. apply Forall_map, Forall_true. by intros []. Qed.

Lemma mtch_state k n s : match_at (state_re k) s n =
  mtch (RStr (k ++ js "=")) (MState n (drop n s) [])
    (λ st, mtch (RPlus (RSet is_01)) st (λ st', Some (MState (m_pos st') (m_rest st')
       (m_caps st' ++ [take (m_pos st' - m_pos st) (m_rest st)])))).
Proof. done. Qed.
Lemma init_finds p k l : cookie_name p = Ok k → 59%N ∉ k → l ≠ [] →
  Forall (λ c, fst c ≠ k → absent (k ++ js "=") (cookie_text c)) (jar p) →
  cookie k p = Some (states l) →
  ∃ n t rest, exec (state_re k) (document_cookie (jar p)) = Some (n, MState t rest [states l]).
Proof.
  intros K S N A C. destruct (cookie_split _ _ _ C) as (l1 & l2 & E & F). rewrite E in *.
  destruct (document_cookie_split k (states l) l1 l2) as (t & -> & T).
  set (u := List.flat_map _ _). eexists _, _, _. unfold exec.
  apply Forall_app in A as [A _].
  set (s := u ++ _). rewrite <-(Nat.sub_0_r (length s)).
  apply (search_skip (state_re k) s 0 u ((k ++ js "=") ++ states l ++ t)); [done| |].
  - rewrite mtch_state, mtch_lit. unfold s. cbn [Nat.add]. rewrite drop_app_length.
    rewrite (proj2 (starts_with_spec _ _)) by by eexists. rewrite drop_app_length.
    cbn [m_caps m_pos m_rest].
    rewrite mtch_plus_set by (exact T || by apply states_01 || by destruct l || by eexists).
    cbn [m_pos m_rest m_caps app]. replace (_ - _)%nat with (length (states l)) by lia.
    by rewrite take_app_length.
  - intros i I. rewrite mtch_state, mtch_lit. unfold s. cbn [Nat.add].
    unfold u in *. rewrite absent_before; [done| | | |done].
    + rewrite not_elem_of_app. split; [done|]. change (js "=") with [61%N].
      by rewrite list_elem_of_singleton.
    + unfold cookie_name in K. destruct (encodeURIComponent _); [|done]. simplify_eq/=. done.
    + apply Forall_map. rewrite Forall_forall in A, F |- *. auto.
Qed.

(** ** Properties *)

(** C17 -- Whatever the menu's user asks for -- a click on a title, the opening
    of a submenu, the closing of all --, with the menu at rest, and in
    whatever order the intervals then run, after exactly [work] of their runs
    all of them are cleared, no submenu keeps a height, and the classes are
    those asked for: a title opens its submenu and closes the others, or
    closes it; and the cookie of the menu says so.  Until then an interval is
    there to run. *)
Theorem menu_settles a m : quiet_menu m → Forall fits (subs m) → in_menu a m →
  ∀ n m', nsteps fires n (perform a m) m' →
    (n + work m' = work (perform a m))%nat ∧
    (timers m' ≠ [] → ∃ m'', fires m' m'') ∧
    (n = work (perform a m) ↔ timers m' = []) ∧
    (timers m' = [] → quiet_menu m' ∧ flags m' = abs_perform (oneSmOnly m) a (flags m) ∧
       ∀ k, cookie_name m' = Ok k → (0 < n)%nat → cookie k m' = Some (states (flags m'))).
Proof.
  intros Q F I n m' R. pose proof (going_perform _ _ Q F I) as G.
  destruct (fires_going _ _ _ _ G R) as [G' W].
  assert (work m' = O ↔ timers m' = []) as E by (by eapply going_work).
  split; [done|split; [|split]].
  - intros N. destruct (timers m') as [|[t a'] l] eqn:T; [done|]. eexists. apply (fires_timer t a').
    unfold timer. rewrite T. cbn. by rewrite Nat.eqb_refl.
  - rewrite <-E. lia.
  - intros T. destruct (going_settled _ _ G' T) as [Q' FL]. split; [done|split; [done|]].
    intros k K P. apply (fires_cookie _ _ _ _ R P T). by rewrite <-(fires_name _ _ _ R).
Qed.
(** Two submenus, closed, in a document with a cookie of its server. *)
Definition demo_menu : menu :=
  Menu (js "my_menu") [Sub 32 [28; 28] 90 true None; Sub 32 [28; 28; 28] 119 true None] [] 0 true
    [(js "JSESSIONID", js "1F")].
Lemma demo_quiet : quiet_menu demo_menu ∧ Forall fits (subs demo_menu).
Proof. split; [split; [done|by repeat constructor]|by repeat constructor]. Qed.
Lemma menu_settles_witness :
  work (perform (Toggle 1) demo_menu) = 6%nat ∧
  ∃ m', nsteps fires 6 (perform (Toggle 1) demo_menu) m' ∧ flags m' = [true; false].
Proof.
  split; [vm_compute; reflexivity|].
  pose (fire 0 (fire 0 (fire 0 (fire 0 (fire 0 (fire 0 (perform (Toggle 1) demo_menu))))))) as m'.
  assert (nsteps fires 6 (perform (Toggle 1) demo_menu) m') as R.
  { do 6 (eapply nsteps_l; [eapply (fires_timer 0); vm_compute; reflexivity|]). constructor. }
  exists m'. split; [exact R|].
  destruct (menu_settles (Toggle 1) demo_menu (proj1 demo_quiet) (proj2 demo_quiet)
    ltac:(cbn; lia) 6 m' R) as (_ & _ & E & H).
  destruct (H (proj1 E eq_refl)) as (_ & -> & _). vm_compute. reflexivity.
Defined.

(** C18 -- The cookie that the settled menu leaves is read back by the menu of
    the next page: [init] finds it among the other cookies of the document and
    gives the submenus the classes they had. *)
Theorem menu_remembered a m n m' p k :
  quiet_menu m → Forall fits (subs m) → in_menu a m → subs m ≠ [] →
  nsteps fires n (perform a m) m' → timers m' = [] → (0 < n)%nat →
  cookie_name m' = Ok k → 59%N ∉ k →
  cookie_name p = Ok k → jar p = jar m' → length (subs p) = length (subs m') →
  Forall (λ c, fst c ≠ k → absent (k ++ js "=") (cookie_text c)) (jar m') →
  flags (fst (init p)) = abs_perform (oneSmOnly m) a (flags m) ∧ snd (init p) = true.
Proof.
  intros Q F I NE R T P K S Kp J L A.
  pose proof (going_perform _ _ Q F I) as G. destruct (fires_going _ _ _ _ G R) as [G' _].
  destruct (going_settled _ _ G' T) as [_ <-].
  pose proof (fires_cookie _ _ _ _ R P T (eq_trans (eq_sym (fires_name _ _ _ R)) K)) as C.
  unfold cookie in C. rewrite <-J in C, A.
  assert (flags m' ≠ []) as N.
  { intros E. apply (f_equal length) in E. rewrite flags_length, <-(go_length _ _ G'), abs_length, flags_length in E.
    by destruct (subs m). }
  destruct (init_finds p k (flags m') Kp S N A C) as (i & t & rest & E).
  unfold init. rewrite Kp, E.
  destruct (restore_states (flags m') (subs p)) as [R1 R2]; [by rewrite flags_length|].
  destruct (restore (states (flags m')) (subs p)) as [l ok]. done.
Qed.

(** The interval that stands first runs, [n] times. *)
Fixpoint run_first (n : nat) (m : menu) : menu :=
  match n with
  | O => m
  | S n' => match timers m with (t, _) :: _ => run_first n' (fire t m) | [] => m end
  end.
Lemma run_first_fires n : ∀ m, timers (run_first n m) = [] → ∃ n', nsteps fires n' m (run_first n m).
Proof.
  induction n as [|n IH]; intros m; cbn; [exists O; constructor|].
  destruct (timers m) as [|[t a] l] eqn:E; [exists O; constructor|]. intros H.
  destruct (IH _ H) as [n' R]. exists (S n'). eapply nsteps_l; [|exact R].
  apply (fires_timer t a). unfold timer. rewrite E. cbn. by rewrite Nat.eqb_refl.
Qed.

Lemma starts_with_head d w s i : (∀ c, c ∈ s → c ≠ d) → starts_with (d :: w) (drop i s) = false.
Proof.
  intros H. destruct (drop i s) as [|c t] eqn:E; [done|]. cbn.
  destruct (N.eqb_spec d c) as [<-|]; [|done]. exfalso. apply (H d); [|done].
  rewrite <-(take_drop i s), E. apply elem_of_app. right. apply list_elem_of_here.
Qed.
Definition demo_reload (j : list (jstr * jstr)) : menu := with_jar j demo_menu.
Lemma menu_remembered_witness :
  let m' := run_first 6 (perform (Toggle 1) demo_menu) in
  flags (fst (init (demo_reload (jar m')))) = [true; false].
Proof.
  cbv zeta. set (m' := run_first 6 _).
  assert (nsteps fires 6 (perform (Toggle 1) demo_menu) m') as R.
  { do 6 (eapply nsteps_l; [eapply (fires_timer 0); vm_compute; reflexivity|]). constructor. }
  destruct (menu_remembered (Toggle 1) demo_menu 6 m' (demo_reload (jar m')) (js "sdmenu_my_menu")
    (proj1 demo_quiet) (proj2 demo_quiet)) as [-> _];
    [cbn; lia|discriminate|exact R|vm_compute; reflexivity|lia|vm_compute; reflexivity|
     apply (bool_decide_unpack _); vm_compute; exact I|
     vm_compute; reflexivity|reflexivity|vm_compute; reflexivity| |vm_compute; reflexivity].
  change (jar m') with [(js "JSESSIONID", js "1F"); (js "sdmenu_my_menu", js "01")].
  apply Forall_cons. split; [intros _|apply Forall_cons; split; [intros []; done|done]].
  intros i. apply starts_with_head. apply Forall_forall. vm_compute. repeat constructor; discriminate.
Defined.

(** However often links are clicked, one link is marked, the last one clicked. *)
Definition marked_at (i : nat) (l : list jstr) : Prop := ∀ j, l !! j = Some current ↔ j = i.
Lemma link_click_marks i l : (i < length l)%nat → marked_at i (link_click i l).
Proof.
  intros H j. unfold link_click. destruct (decide (i = j)) as [<-|N].
  - rewrite list_lookup_insert_eq by (by rewrite length_map). done.
  - rewrite list_lookup_insert_ne, list_lookup_fmap by done. split; [|congruence].
    destruct (l !! j) as [c|]; [|done]. cbn. case_bool_decide; [done|]. congruence.
Qed.
Lemma clicks_length ks l : length (List.fold_left (λ l i, link_click i l) ks l) = length l.
Proof.
  revert l. induction ks as [|i ks IH]; intros l; [done|]. cbn. rewrite IH. unfold link_click.
  by rewrite length_insert, length_map.
Qed.
Lemma clicks_mark ks links i l : Forall (λ i, (i < length l)%nat) (i :: ks) → Forall (λ c, c ≠ current) l →
  marked_at (List.last ks i) (List.fold_left (λ l i, link_click i l) ks (init_marks (i :: links) l)).
Proof.
  intros [Hi Hks]%Forall_cons Hl. cbn [init_marks].
  assert (marked_at i (<[i := current]> l)) as M.
  { intros j. destruct (decide (i = j)) as [<-|N].
    - by rewrite list_lookup_insert_eq.
    - rewrite list_lookup_insert_ne by done. split; [|congruence]. intros E.
      by apply (Forall_lookup_1 _ _ _ _ Hl) in E. }
  induction ks as [|k ks _] using rev_ind; [done|].
  rewrite List.fold_left_app, List.last_last. cbn [List.fold_left]. apply link_click_marks.
  rewrite clicks_length, length_insert. apply Forall_app in Hks as [_ H]. by apply Forall_cons in H as [? _].
Qed.

(** *** What the operations do not do *)

(** Two titles clicked one after the other, the second while the first submenu
    still opens: [collapseOthers] looks at the classes, the first submenu has
    its old one, and both are open in the end. *)
Example overlapping_clicks :
  let m := run_first 20 (toggleMenu 1 (toggleMenu 0 demo_menu)) in
  timers m = [] ∧ flags m = [false; false].
Proof. vm_compute. done. Qed.
(** [expandAll()] with a submenu open: it sets [oneSmOnly] instead of clearing
    it, and the open one is closed. *)
Example expandAll_closes :
  let m := run_first 20 (expandAll (run_first 20 (toggleMenu 0 demo_menu))) in
  timers m = [] ∧ flags m = [true; false].
Proof. vm_compute. done. Qed.
(** The page opens the first submenu after it has restored the classes: the
    submenu that was left open is closed again, and the cookie forgets it. *)
Example onload_forgets :
  let j := jar (run_first 20 (toggleMenu 1 demo_menu)) in
  let m := run_first 20 (onload (demo_reload j)) in
  snd <$> j !! 1%nat = Some (js "01") ∧ timers m = [] ∧ flags m = [false; true] ∧
  snd <$> jar m !! 1%nat = Some (js "10").
Proof. vm_compute. done. Qed.
