(* ===== verification/Rules.v ===== *)
(** * Delivery rules ([delivery/delivery.rule.js], [delivery/delivery.ruleCustom.js])

    Each row of the table names a domain through a drop-down list that shares
    its pool with the other rows (see [Pool]), and has three limits.  The
    scripts find a row by the numbers in the ids of its elements, so every row
    keeps the ids, names and calls it was given, and a row that goes makes the
    others be numbered again. *)

From S2P Require Import Prelude Js JsFacts Pool.
#[local] Open Scope Z_scope.

(** ** Rows *)

(** A box [.add_text]: its id, its name and its value. *)
Record limit := Limit { li_id : jstr; li_name : jstr; li_val : jstr }.
(** A menu, by what its lines call: [repeat('#prop_n',key,'#prop_list_n',title)]
    for each property. *)
Abbreviation menu := (Z * list property)%type.
Record rule := Rule {
  ru_link : jstr;            (* the id of the [.a_select] *)
  ru_text : jstr;            (* its text *)
  ru_menu : option menu;     (* its [data('edit').html]; [None]: no list attached *)
  ru_hide : jstr;            (* the id of the [.i_select] *)
  ru_name : jstr;            (* its name *)
  ru_val : jstr;             (* its value *)
  ru_limits : list limit;
  ru_del : option Z          (* the [n] of [del_prop(n)]; [None]: the row with [add_prop()] *)
}.
Record rules := Rules {
  rs_props : list property;
  rs_rows : list rule;
  rs_len : Z;
  rs_total : Z;
  rs_alerts : list jstr;
  rs_select : jstr;          (* the id of [.select_div] *)
  rs_open : bool             (* whether it is shown *)
}.

Definition prop_id (n : Z) : jstr := js "prop_" ++ str_of_Z n.
Definition link_id (n : Z) : jstr := js "prop_list_" ++ str_of_Z n.
(** The text of a menu. *)
Definition menu_text (m : menu) : jstr := menu_html (js "repeat") m.1 m.2.

Definition with_menu (m : menu) (r : rule) : rule :=
  Rule (ru_link r) (ru_text r) (Some m) (ru_hide r) (ru_name r) (ru_val r) (ru_limits r) (ru_del r).
Definition with_text (t : jstr) (r : rule) : rule :=
  Rule (ru_link r) t (ru_menu r) (ru_hide r) (ru_name r) (ru_val r) (ru_limits r) (ru_del r).
Definition with_hidden (v : jstr) (r : rule) : rule :=
  Rule (ru_link r) (ru_text r) (ru_menu r) (ru_hide r) (ru_name r) v (ru_limits r) (ru_del r).
Definition with_limits (l : list limit) (r : rule) : rule :=
  Rule (ru_link r) (ru_text r) (ru_menu r) (ru_hide r) (ru_name r) (ru_val r) l (ru_del r).

(** The row that [$('#'+id)] finds, by its link or by its hidden field. *)
Definition by_link (id : jstr) (l : list rule) : option nat := fst <$> list_find (λ r, ru_link r = id) l.
Definition by_hide (id : jstr) (l : list rule) : option nat := fst <$> list_find (λ r, ru_hide r = id) l.
Definition at_row (o : option nat) (f : rule → rule) (l : list rule) : list rule :=
  match o with Some k => alter f k l | None => l end.

(** ** Menus *)

(** [$("#prop_list_"+i).UIselect({html:..})] for [i] from [i] on. *)
Fixpoint attach_lists (i : Z) (n : nat) (ps : list property) (l : list rule) : list rule :=
  match n with
  | O => l
  | S n' => attach_lists (i + 1) n' ps (at_row (by_link (link_id i) l) (with_menu (i, ps)) l)
  end.
(** [$("#prop_list_"+i).data('edit').html = ..]: throws where no list is attached. *)
Fixpoint refill_lists (i : Z) (n : nat) (ps : list property) (l : list rule) : option (list rule) :=
  match n with
  | O => Some l
  | S n' =>
      k ← by_link (link_id i) l;
      r ← l !! k;
      _ ← ru_menu r;
      refill_lists (i + 1) n' ps (alter (with_menu (i, ps)) k l)
  end.

(** ** Operations *)

Definition rules_list (s : rules) : rules :=
  let n := length (rs_rows s) in
  Rules (rs_props s) (attach_lists 0 n (rs_props s) (rs_rows s)) (Z.of_nat n)
    (Z.of_nat n + Z.of_nat (length (rs_props s))) (rs_alerts s) (rs_select s) (rs_open s).

(** The property a row names goes back to the pool; a field that is not found
    has no value and no text. *)
Definition old_arr (hide link : jstr) (l : list rule) : property :=
  (match by_hide hide l ≫= λ k, l !! k with Some r => ru_val r | None => js "undefined" end,
   match by_link link l ≫= λ k, l !! k with Some r => ru_text r | None => [] end).
Definition push_back (old : property) (ps : list property) : list property :=
  if real (snd old) then ps ++ [old] else ps.

(** [repeat('#'+id_hide,val_hide,'#'+id_click,val_click)] *)
Definition rule_repeat (id_hide val_hide id_click val_click : jstr) (s : rules) : option rules :=
  let ps := take_out val_click (push_back (old_arr id_hide id_click (rs_rows s)) (rs_props s)) in
  l ← refill_lists 0 (Z.to_nat (rs_len s)) ps (rs_rows s);
  let l1 := at_row (by_link id_click l) (with_text val_click) l in
  let l2 := at_row (by_hide id_hide l1) (with_hidden val_hide) l1 in
  Some (Rules ps l2 (rs_len s) (rs_total s) (rs_alerts s) [] false).

Definition limit_names : list jstr := [js "mins"; js "hours"; js "days"].
Definition numbered_limit (n : Z) (name : jstr) : limit :=
  Limit (name ++ js "_" ++ str_of_Z n) (name ++ js "_" ++ str_of_Z n) [].
(** The row that [add_prop()] appends. *)
Definition new_rule (n : Z) : rule :=
  Rule (link_id n) unset None (prop_id n) (prop_id n) [] (List.map (numbered_limit n) limit_names) (Some n).
Definition rule_add (s : rules) : rules :=
  if rs_total s <=? rs_len s + 1
  then Rules (rs_props s) (rs_rows s) (rs_len s) (rs_total s)
         (rs_alerts s ++ [js "设置不能多于" ++ str_of_Z (rs_total s - 1) ++ js "个"]) (rs_select s) (rs_open s)
  else let l := rs_rows s ++ [new_rule (rs_len s)] in
       Rules (rs_props s) (at_row (by_link (link_id (rs_len s)) l) (with_menu (rs_len s, rs_props s)) l)
         (rs_len s + 1) (rs_total s) (rs_alerts s) (rs_select s) (rs_open s).

(** [x.split("_")[0] + "_" + index] *)
Definition renumber_text (n : Z) (t : jstr) : jstr :=
  default [] (head (splitc 95 t)) ++ js "_" ++ str_of_Z n.
Definition renumber (k : nat) (r : rule) : rule :=
  let n := Z.of_nat k in
  Rule (link_id n) (ru_text r) (ru_menu r) (prop_id n) (prop_id n) (ru_val r)
    (List.map (λ b, Limit (renumber_text n (li_id b)) (renumber_text n (li_name b)) (li_val b)) (ru_limits r))
    (match ru_del r with Some _ => Some n | None => None end).
(** [del_prop(id)] *)
Definition rule_del (id : Z) (s : rules) : option rules :=
  let ps := push_back (old_arr (prop_id id) (link_id id) (rs_rows s)) (rs_props s) in
  let n := rs_len s - 1 in
  let l := match by_hide (prop_id id) (rs_rows s) with Some k => delete k (rs_rows s) | None => rs_rows s end in
  l' ← refill_lists 0 (Z.to_nat n) ps (imap renumber l);
  Some (Rules ps l' n (rs_total s) (rs_alerts s) (rs_select s) (rs_open s)).

(** ** What the user does *)

(** The row [i] is where the user acts; a line of its menu, and its button [-],
    call what they were given. *)
Inductive rdeed :=
| RChoose (i : nat) (c : property)
| RAdd
| RDel (i : nat)
| RType (i k : nat) (v : jstr).

Definition with_li_val (v : jstr) (b : limit) : limit := Limit (li_id b) (li_name b) v.
(** What the page does not offer is not done. *)
Definition do_rdeed (d : rdeed) (s : rules) : option rules :=
  match d with
  | RChoose i c =>
      match rs_rows s !! i ≫= ru_menu with
      | Some (n, ps) => if bool_decide (c ∈ ps) then rule_repeat (prop_id n) (fst c) (link_id n) (snd c) s else Some s
      | None => Some s
      end
  | RAdd => Some (rule_add s)
  | RDel i => match rs_rows s !! i ≫= ru_del with Some n => rule_del n s | None => Some s end
  | RType i k v =>
      Some (Rules (rs_props s) (alter (λ r, with_limits (alter (with_li_val v) k (ru_limits r)) r) i (rs_rows s))
              (rs_len s) (rs_total s) (rs_alerts s) (rs_select s) (rs_open s))
  end.
Definition do_rdeeds (ds : list rdeed) (s : rules) : option rules :=
  List.fold_left (λ o d, o ≫= do_rdeed d) ds (Some s).

(** What the form sends: the names and values of its fields, in their order. *)
Definition rule_fields (r : rule) : list (jstr * jstr) :=
  (ru_name r, ru_val r) :: List.map (λ b, (li_name b, li_val b)) (ru_limits r).
Definition rules_sent (s : rules) : list (jstr * jstr) := List.flat_map rule_fields (rs_rows s).

(** The page as it is served: one row and twelve properties, the first of them
    the text of a list that names none. *)
Definition served_props : list property :=
  [([], unset); (js "qq.com", js "qq.com"); (js "126.com", js "126.com"); (js "sina.com", js "sina.com");
   (js "hotmail.com", js "hotmail.com"); (js "yeah.net", js "yeah.net"); (js "tom.com", js "tom.com");
   (js "sohu.com", js "sohu.com"); (js "Gmail.com", js "Gmail.com"); (js "foxmail.com", js "foxmail.com");
   (js "yahoo.com", js "yahoo.com"); (js "其他", js "其他")].
Definition served_row : rule :=
  Rule (link_id 0) unset None (prop_id 0) (prop_id 0) [] (List.map (numbered_limit 0) limit_names) None.
Definition served : rules := rules_list (Rules served_props [served_row] 0 0 [] [] false).

Example served_1 :
  rules_sent <$> do_rdeeds [RChoose 0 (js "qq.com", js "qq.com"); RAdd; RType 1 2 (js "900"); RAdd;
    RChoose 2 (js "126.com", js "126.com"); RDel 1; RType 1 0 (js "5")] served
  = Some [(js "prop_0", js "qq.com"); (js "mins_0", []); (js "hours_0", []); (js "days_0", []);
          (js "prop_1", js "126.com"); (js "mins_1", js "5"); (js "hours_1", []); (js "days_1", [])].
Proof. by vm_compute. Qed.

(** * Facts *)

(** ** The abstract table *)

(** A row: the property it names and its three limits. *)
Record arule := ARule { a_prop : property; a_limits : list jstr }.
Definition a_blank : arule := ARule ([], unset) [[]; []; []].
Definition domains (l : list arule) : list property := List.filter (λ q, real (snd q)) (List.map a_prop l).
(** A property is offered unless a row names it. *)
Definition a_step (all : list property) (total : Z) (l : list arule) (d : rdeed) : list arule :=
  match d with
  | RChoose i c =>
      if bool_decide (c ∈ all) && negb (bool_decide (c ∈ domains l))
      then alter (λ a, ARule c (a_limits a)) i l else l
  | RAdd => if Z.of_nat (length l) + 1 <? total then l ++ [a_blank] else l
  | RDel i => if (0 <? i)%nat then delete i l else l
  | RType i k v => alter (λ a, ARule (a_prop a) (alter (λ _, v) k (a_limits a))) i l
  end.

(** The row [i] of the page. *)
Definition conc (ps : list property) (i : nat) (a : arule) : rule :=
  let n := Z.of_nat i in
  Rule (link_id n) (snd (a_prop a)) (Some (n, ps)) (prop_id n) (prop_id n) (fst (a_prop a))
    (zip_with (λ name v, Limit (name ++ js "_" ++ str_of_Z n) (name ++ js "_" ++ str_of_Z n) v) limit_names (a_limits a))
    (match i with O => None | S _ => Some n end).
Record refines (all : list property) (s : rules) (l : list arule) : Prop := {
  rf_rows : rs_rows s = imap (conc (rs_props s)) l;
  rf_len : rs_len s = Z.of_nat (length l);
  rf_first : l ≠ [];
  rf_limits : Forall (λ a, length (a_limits a) = 3%nat) l;
  rf_all : rs_props s ++ domains l ≡ₚ all
}.

(** ** Finding a row *)

(** The ids are the numbers of the rows. *)
Definition in_place (l : list rule) : Prop :=
  ∀ k r, l !! k = Some r → ru_link r = link_id (Z.of_nat k) ∧ ru_hide r = prop_id (Z.of_nat k).

Lemma link_id_inj a b : link_id (Z.of_nat a) = link_id (Z.of_nat b) → a = b.
Proof. unfold link_id. intros H%app_inv_head%str_of_Z_inj; lia. Qed.
Lemma prop_id_inj a b : prop_id (Z.of_nat a) = prop_id (Z.of_nat b) → a = b.
Proof. unfold prop_id. intros H%app_inv_head%str_of_Z_inj; lia. Qed.

Lemma by_link_ok l k : in_place l → (k < length l)%nat → by_link (link_id (Z.of_nat k)) l = Some k.
Proof.
  intros Hp [r Hr]%lookup_lt_is_Some_2. unfold by_link.
  rewrite (proj2 (list_find_Some _ l k r)); [done|]. split; [done|]. split; [by apply Hp|].
  intros j y Hj Hlt E. destruct (Hp j y Hj) as [Hy _]. rewrite Hy in E. apply link_id_inj in E. lia.
Qed.
Lemma by_hide_ok l k : in_place l → (k < length l)%nat → by_hide (prop_id (Z.of_nat k)) l = Some k.
Proof.
  intros Hp [r Hr]%lookup_lt_is_Some_2. unfold by_hide.
  rewrite (proj2 (list_find_Some _ l k r)); [done|]. split; [done|]. split; [by apply Hp|].
  intros j y Hj Hlt E. destruct (Hp j y Hj) as [_ Hy]. rewrite Hy in E. apply prop_id_inj in E. lia.
Qed.

Lemma in_place_alter f k l : (∀ r, ru_link (f r) = ru_link r ∧ ru_hide (f r) = ru_hide r) →
  in_place l → in_place (alter f k l).
Proof.
  intros Hf Hp j r. rewrite list_lookup_alter. case_decide; [subst j|apply Hp].
  destruct (l !! k) as [r0|] eqn:E; [|done]. intros [= <-]. destruct (Hf r0) as [-> ->]. by apply Hp.
Qed.

Lemma in_place_conc ps l : in_place (imap (conc ps) l).
Proof. intros k r. rewrite list_lookup_imap. destruct (l !! k); [|done]. by intros [= <-]. Qed.

Lemma alter_middle {A} (f : A → A) pre r suf : alter f (length pre) (pre ++ r :: suf) = pre ++ f r :: suf.
Proof. rewrite <-(Nat.add_0_r (length pre)). by rewrite alter_app_r. Qed.

Lemma refill_ok ps suf pre : in_place (pre ++ suf) → Forall (λ r, is_Some (ru_menu r)) suf →
  refill_lists (Z.of_nat (length pre)) (length suf) ps (pre ++ suf)
  = Some (pre ++ imap (λ k, with_menu (Z.of_nat (length pre + k), ps)) suf).
Proof.
  revert pre. induction suf as [|r suf IH]; intros pre Hp Hm; [done|].
  inversion Hm as [|? ? [m Er] Hm']; subst. cbn [refill_lists length].
  rewrite by_link_ok by (done || (rewrite length_app; simpl; lia)). cbn [mbind option_bind].
  rewrite list_lookup_middle by done. cbn [mbind option_bind]. rewrite Er. cbn [mbind option_bind].
  rewrite alter_middle. replace (Z.of_nat (length pre) + 1) with (Z.of_nat (length (pre ++ [with_menu (Z.of_nat (length pre), ps) r])))
    by (rewrite length_app; simpl; lia).
  change (?x ++ ?y :: suf) with (x ++ [y] ++ suf). rewrite app_assoc, IH.
  - rewrite <-app_assoc. cbn [app imap]. rewrite Nat.add_0_r. do 3 f_equal. apply imap_ext. intros k x _. cbn.
    rewrite length_app. simpl. do 3 f_equal. lia.
  - rewrite <-app_assoc. cbn [app]. rewrite <-alter_middle. by apply in_place_alter.
  - done.
Qed.

(** ** The pool *)

Definition to_row (a : arule) : row := Row (fst (a_prop a)) (snd (a_prop a)) [] None.
Lemma domains_named l : domains l = named (List.map to_row l).
Proof.
  unfold domains, named. rewrite List.map_map. f_equal. apply List.map_ext. intros a. cbn. by destruct (a_prop a).
Qed.
Lemma push_back_row a ps : push_back (a_prop a) ps = ps ++ back (to_row a).
Proof. unfold push_back, back, to_row. cbn. destruct (real _); [by destruct (a_prop a)|by rewrite app_nil_r]. Qed.
Lemma map_delete {A B} (f : A → B) i l : List.map f (delete i l) = delete i (List.map f l).
Proof. revert i. induction l as [|x l IH]; intros [|i]; try done. cbn. f_equal. apply IH. Qed.
Lemma map_alter {A B} (f : A → B) g h i l : (∀ x, f (g x) = h (f x)) → List.map f (alter g i l) = alter h i (List.map f l).
Proof.
  intros Hf. revert i. induction l as [|x l IH]; intros [|i]; try done; cbn; [by rewrite Hf|]. f_equal. apply IH.
Qed.

Section rules_facts.
Context (all : list property).
Hypothesis titles_once : NoDup (List.map snd all).
Hypothesis titles_full : Forall (λ q, snd q ≠ []) all.
Implicit Types (ps : list property) (l : list arule) (s : rules).

Lemma choose_perm ps l i a c : ps ++ domains l ≡ₚ all → l !! i = Some a → c ∈ ps →
  take_out (snd c) (push_back (a_prop a) ps) ++ domains (alter (λ a, ARule c (a_limits a)) i l) ≡ₚ all.
Proof.
  rewrite !domains_named, push_back_row. intros Hp Hi Hc.
  assert (List.map to_row l !! i = Some (to_row a)) as Hr by (by rewrite list_lookup_fmap, Hi).
  rewrite (map_alter to_row _ (λ r, Row (fst c) (snd c) (r_param r) (r_menu r))) by done.
  rewrite (named_alter _ _ _ _ _ Hr). by apply choice_perm.
Qed.

Lemma delete_perm ps l i a : ps ++ domains l ≡ₚ all → l !! i = Some a →
  push_back (a_prop a) ps ++ domains (delete i l) ≡ₚ all.
Proof.
  rewrite !domains_named, push_back_row. intros Hp Hi. rewrite map_delete, <-app_assoc.
  rewrite <-(named_middle _ i (to_row a)); [done|]. by rewrite list_lookup_fmap, Hi.
Qed.

(** What is in the pool is what no row names. *)
Lemma offered_iff ps l c : ps ++ domains l ≡ₚ all → c ∈ ps ↔ c ∈ all ∧ c ∉ domains l.
Proof.
  intros Hp. assert (NoDup (ps ++ domains l)) as Hn.
  { rewrite Hp. apply NoDup_fmap_1 with (f := snd). exact titles_once. }
  apply NoDup_app in Hn as (_ & Hn & _). rewrite <-Hp, elem_of_app. split; [|tauto].
  intros Hc. split; [by left|by apply Hn].
Qed.

(** ** Every deed *)

Lemma rows_at ps l i a : l !! i = Some a → imap (conc ps) l !! i = Some (conc ps i a).
Proof. intros E. by rewrite list_lookup_imap, E. Qed.

Lemma old_arr_ok ps l i a : l !! i = Some a →
  old_arr (prop_id (Z.of_nat i)) (link_id (Z.of_nat i)) (imap (conc ps) l) = a_prop a.
Proof.
  intros E. pose proof (lookup_lt_Some _ _ _ E). unfold old_arr.
  rewrite by_hide_ok, by_link_ok by (apply in_place_conc || by rewrite length_imap).
  cbn [mbind option_bind]. rewrite (rows_at _ _ _ _ E). cbn. by destruct (a_prop a).
Qed.

Lemma refill_all ps rows : in_place rows → Forall (λ r, is_Some (ru_menu r)) rows →
  refill_lists 0 (length rows) ps rows = Some (imap (λ k, with_menu (Z.of_nat k, ps)) rows).
Proof. intros Hp Hm. exact (refill_ok ps rows [] Hp Hm). Qed.

Lemma refill_conc ps ps' l : refill_lists 0 (length l) ps' (imap (conc ps) l) = Some (imap (conc ps') l).
Proof.
  rewrite <-(length_imap (conc ps) l) at 1. rewrite refill_all.
  - f_equal. apply list_eq. intros k. rewrite !list_lookup_imap. by destruct (l !! k).
  - apply in_place_conc.
  - apply Forall_lookup. intros k r. rewrite list_lookup_imap. destruct (l !! k); [|done]. intros [= <-]. by eexists.
Qed.

Lemma choose_ok s l i a c : refines all s l → l !! i = Some a → c ∈ rs_props s →
  ∃ s', rule_repeat (prop_id (Z.of_nat i)) (fst c) (link_id (Z.of_nat i)) (snd c) s = Some s'
    ∧ refines all s' (alter (λ a, ARule c (a_limits a)) i l) ∧ rs_total s' = rs_total s.
Proof.
  intros [H1 H2 H3 H4 H5] Hi Hc. pose proof (lookup_lt_Some _ _ _ Hi) as Hlt. unfold rule_repeat.
  rewrite H1, (old_arr_ok _ _ _ _ Hi), H2, Nat2Z.id, refill_conc. cbn [mbind option_bind].
  set (ps := take_out (snd c) (push_back (a_prop a) (rs_props s))).
  rewrite by_link_ok by (apply in_place_conc || by rewrite length_imap). cbn [at_row].
  rewrite by_hide_ok by ((apply in_place_alter; [done|apply in_place_conc]) || by rewrite length_alter, length_imap).
  cbn [at_row]. eexists. split; [reflexivity|]. split; [|done]. constructor; cbn [rs_rows rs_props rs_len].
  - apply list_eq. intros k. rewrite !list_lookup_imap, !list_lookup_alter, !list_lookup_imap.
    repeat case_decide; subst; try done. by rewrite Hi.
  - by rewrite length_alter.
  - intros E. apply (f_equal length) in E. rewrite length_alter in E. simpl in E. lia.
  - apply Forall_alter; [done|]. by intros x _ Hx.
  - by apply choose_perm.
Qed.

Lemma add_rule_ok s l : refines all s l →
  refines all (rule_add s) (a_step all (rs_total s) l RAdd) ∧ rs_total (rule_add s) = rs_total s.
Proof.
  intros [H1 H2 H3 H4 H5]. unfold rule_add, a_step. rewrite H2.
  destruct (Z.leb_spec (rs_total s) (Z.of_nat (length l) + 1)) as [Ht|Ht].
  - rewrite (proj2 (Z.ltb_ge _ _)) by done. by split; [constructor|].
  - rewrite (proj2 (Z.ltb_lt _ _)) by done. split; [|done].
    assert (in_place (imap (conc (rs_props s)) l ++ [new_rule (Z.of_nat (length l))])) as Hp.
    { intros k r [Hk|[Hk Hr]]%lookup_app_Some; [by eapply in_place_conc|]. rewrite length_imap in *.
      apply list_lookup_singleton_Some in Hr as [? <-]. replace k with (length l) by lia. done. }
    constructor; cbn [rs_rows rs_props rs_len].
    + rewrite H1, by_link_ok by (done || (rewrite length_app, length_imap; simpl; lia)). cbn [at_row].
      pose proof (alter_middle (with_menu (Z.of_nat (length l), rs_props s)) (imap (conc (rs_props s)) l)
        (new_rule (Z.of_nat (length l))) []) as E. rewrite length_imap in E. rewrite E, imap_app. f_equal. cbn [imap]. f_equal. unfold conc, new_rule, with_menu. cbn.
      rewrite Nat.add_0_r. f_equal. by destruct l.
    + rewrite length_app. simpl. lia.
    + by destruct l.
    + apply Forall_app. split; [done|]. by repeat constructor.
    + unfold domains. rewrite List.map_app, List.filter_app. cbn. by rewrite app_nil_r.
Qed.

Lemma renumber_name n name k : 95%N ∉ name → renumber_text n (name ++ js "_" ++ k) = name ++ js "_" ++ str_of_Z n.
Proof.
  intros Hn. unfold renumber_text. change (js "_" ++ k) with ([95%N] ++ k). cbn [app].
  by rewrite splitc_app.
Qed.

Lemma renumber_limits m n vals :
  List.map (λ b, Limit (renumber_text n (li_id b)) (renumber_text n (li_name b)) (li_val b))
    (zip_with (λ name v, Limit (name ++ js "_" ++ m) (name ++ js "_" ++ m) v) limit_names vals)
  = zip_with (λ name v, Limit (name ++ js "_" ++ str_of_Z n) (name ++ js "_" ++ str_of_Z n) v) limit_names vals.
Proof.
  assert (Forall (λ name, 95%N ∉ name) limit_names) as H by (repeat constructor; not_in).
  revert vals. induction H as [|name names Hn _ IH]; intros [|v vals]; try done. cbn [zip_with List.map].
  rewrite IH. cbn [li_id li_name li_val]. by rewrite !renumber_name.
Qed.

Lemma del_rule_ok s l i a : refines all s l → l !! i = Some a → (0 < i)%nat →
  ∃ s', rule_del (Z.of_nat i) s = Some s' ∧ refines all s' (delete i l) ∧ rs_total s' = rs_total s.
Proof.
  intros [H1 H2 H3 H4 H5] Hi Hpos. pose proof (lookup_lt_Some _ _ _ Hi) as Hlt. unfold rule_del.
  rewrite H1, (old_arr_ok _ _ _ _ Hi), by_hide_ok by (apply in_place_conc || by rewrite length_imap).
  set (ps := push_back (a_prop a) (rs_props s)).
  assert (imap renumber (delete i (imap (conc (rs_props s)) l))
    = imap (λ k x, match ru_menu (conc (rs_props s) (if decide (k < i)%nat then k else S k) x) with
                   | Some m => with_menu m (conc ps k x) | None => conc ps k x end) (delete i l)) as ->.
  { apply list_eq. intros k. rewrite !list_lookup_imap, !list_lookup_delete, list_lookup_imap.
    set (j := if decide (k < i)%nat then k else S k).
    destruct (l !! j) as [x|]; [|done]. cbn [fmap option_fmap option_map]. f_equal.
    unfold renumber, conc, with_menu. cbn [ru_link ru_text ru_menu ru_hide ru_name ru_val ru_limits ru_del].
    rewrite renumber_limits. subst j. case_decide; [by destruct k|]. by destruct k; [lia|]. }
  pose proof (length_delete l i ltac:(by eexists)) as Hd.
  replace (Z.to_nat (rs_len s - 1)) with (length (delete i l)) by lia.
  match goal with |- context [imap ?f (delete i l)] => set (g := f) end.
  pose proof (refill_all ps (imap g (delete i l))) as Hr. rewrite length_imap in Hr. rewrite Hr.
  - cbn [mbind option_bind]. eexists. split; [reflexivity|]. split; [|done].
    constructor; cbn [rs_rows rs_props rs_len].
    + apply list_eq. intros k. rewrite !list_lookup_imap. by destruct (delete i l !! k).
    + lia.
    + intros E. rewrite E in Hd. simpl in Hd. lia.
    + by apply Forall_delete.
    + by apply delete_perm.
  - intros k r. rewrite list_lookup_imap. destruct (delete i l !! k); [|done]. by intros [= <-].
  - apply Forall_lookup. intros k r. rewrite list_lookup_imap. destruct (delete i l !! k); [|done].
    intros [= <-]. by eexists.
Qed.

Lemma type_ok s l i k v : refines all s l →
  ∃ s', do_rdeed (RType i k v) s = Some s' ∧ refines all s' (a_step all (rs_total s) l (RType i k v))
    ∧ rs_total s' = rs_total s.
Proof.
  intros [H1 H2 H3 H4 H5]. eexists. split; [reflexivity|]. split; [|done].
  constructor; cbn [rs_rows rs_props rs_len a_step].
  - rewrite H1. apply list_eq. intros j. rewrite !list_lookup_imap, !list_lookup_alter, !list_lookup_imap.
    case_decide; [subst j|done]. destruct (l !! i) as [x|] eqn:Hx; [|done]. cbn. f_equal.
    rewrite Forall_lookup in H4. specialize (H4 _ _ Hx). unfold conc, with_limits. cbn. f_equal.
    destruct (a_limits x) as [|x1 [|x2 [|x3 [|? ?]]]]; try done. by destruct k as [|[|[|k]]].
  - by rewrite length_alter.
  - intros E. apply (f_equal length) in E. rewrite length_alter in E. by destruct l.
  - apply Forall_alter; [done|]. intros x _ Hx. cbn. by rewrite length_alter.
  - unfold domains in *. by rewrite (map_alter a_prop _ (λ p, p)), list_alter_id.
Qed.

Lemma rdeed_ok d s l : refines all s l →
  ∃ s', do_rdeed d s = Some s' ∧ refines all s' (a_step all (rs_total s) l d) ∧ rs_total s' = rs_total s.
Proof.
  intros Hs. destruct d as [i c| |i|i k v]; [| | |by apply type_ok].
  - cbn [do_rdeed a_step]. rewrite (rf_rows _ _ _ Hs), list_lookup_imap.
    destruct (l !! i) as [a|] eqn:Hi; cbn [fmap option_fmap option_map mbind option_bind].
    + cbn [ru_menu conc]. pose proof (offered_iff _ _ c (rf_all _ _ _ Hs)) as Ho.
      destruct (decide (c ∈ rs_props s)) as [Hc|Hc].
      * rewrite bool_decide_eq_true_2 by done. apply Ho in Hc as Hc'. destruct Hc' as [Ha Hd].
        rewrite bool_decide_eq_true_2, bool_decide_eq_false_2 by done. by apply (choose_ok s l i a).
      * rewrite bool_decide_eq_false_2 by done. exists s. split; [done|]. split; [|done].
        destruct (decide (c ∈ all)); [|by rewrite bool_decide_eq_false_2 by done].
        destruct (decide (c ∈ domains l)) as [Hd|Hd]; [|by destruct Hc; apply Ho].
        by rewrite (bool_decide_eq_true_2 (c ∈ domains l)), andb_false_r by done.
    + exists s. split; [done|]. split; [|done]. case_match; [|done].
      assert (alter (λ a, ARule c (a_limits a)) i l = l) as ->; [|done].
      apply list_eq. intros j. rewrite list_lookup_alter. destruct (decide (i = j)) as [<-|]; [by rewrite Hi|done].
  - eexists. split; [reflexivity|]. by apply add_rule_ok.
  - cbn [do_rdeed a_step]. rewrite (rf_rows _ _ _ Hs), list_lookup_imap.
    destruct (l !! i) as [a|] eqn:Hi; cbn [fmap option_fmap option_map mbind option_bind].
    + destruct i as [|i]; cbn [ru_del conc]; [by exists s|]. by apply (del_rule_ok s l (S i) a); [| |lia].
    + exists s. split; [done|]. split; [|done]. destruct (0 <? i)%nat; [|done].
      assert (delete i l = l) as ->; [|done].
      rewrite delete_take_drop, take_ge, drop_ge, app_nil_r by (apply lookup_ge_None in Hi; lia). done.
Qed.

Definition a_run (total : Z) (ds : list rdeed) l : list arule := List.fold_left (a_step all total) ds l.

Lemma rdeeds_ok ds s l : refines all s l →
  ∃ s', do_rdeeds ds s = Some s' ∧ refines all s' (a_run (rs_total s) ds l) ∧ rs_total s' = rs_total s.
Proof.
  unfold do_rdeeds, a_run. revert s l. induction ds as [|d ds IH]; intros s l Hs; [by exists s|].
  cbn [List.fold_left mbind option_bind]. destruct (rdeed_ok d s l Hs) as (s1 & -> & H1 & T1).
  destruct (IH s1 _ H1) as (s2 & E & H2 & T2). rewrite T1 in H2. exists s2. split; [exact E|]. split; [exact H2|congruence].
Qed.

Lemma a_run_bound total ds l : Z.of_nat (length (a_run total ds l)) ≤ Z.max (Z.of_nat (length l)) (total - 1).
Proof.
  unfold a_run. revert l. induction ds as [|d ds IH]; intros l; cbn [List.fold_left]; [lia|].
  specialize (IH (a_step all total l d)). etrans; [exact IH|].
  assert (Z.of_nat (length (a_step all total l d)) ≤ Z.max (Z.of_nat (length l)) (total - 1)); [|lia].
  destruct d as [i c| |i|i k v]; cbn [a_step].
  - case_match; rewrite ?length_alter; lia.
  - destruct (Z.ltb_spec (Z.of_nat (length l) + 1) total); [rewrite length_app; simpl|]; lia.
  - destruct (0 <? i)%nat; [|lia]. pose proof (sublist_length _ _ (sublist_delete l i)). lia.
  - rewrite length_alter. lia.
Qed.
End rules_facts.

(** What a row of the abstract table sends. *)
Definition sent_rule (i : nat) (a : arule) : list (jstr * jstr) :=
  (prop_id (Z.of_nat i), fst (a_prop a))
  :: zip_with (λ name v, (name ++ js "_" ++ str_of_Z (Z.of_nat i), v)) limit_names (a_limits a).

Lemma sent_conc ps l : List.flat_map rule_fields (imap (conc ps) l) = concat (imap sent_rule l).
Proof.
  assert (∀ (f : nat → arule → rule) (g : nat → arule → list (jstr * jstr)) k,
    (∀ i a, rule_fields (f i a) = g i a) → List.flat_map rule_fields (imap f k) = concat (imap g k)) as H.
  { intros f g k. revert f g. induction k as [|a k IH]; intros f g Hfg; [done|].
    cbn [imap List.flat_map List.concat]. rewrite Hfg. f_equal. apply IH. intros i x. apply Hfg. }
  apply H. intros i a. unfold rule_fields, conc, sent_rule. cbn [ru_name ru_val ru_limits]. f_equal.
  generalize (a_limits a) limit_names. intros vals names. revert vals.
  induction names as [|n names IH]; intros [|v vals]; try done. cbn. by rewrite IH.
Qed.

(** C21 -- Any session on the table of rules implements the abstract table, where a
    row is a domain and its limits: no step throws, what the form sends are the
    rows in their order, each under the number of its place with its own
    domain and limits, no domain is ruled twice, and there are never more rows
    than the page allows. *)
Theorem rules_session all ds s l :
  NoDup (List.map snd all) → Forall (λ q, snd q ≠ []) all → refines all s l →
  ∃ s', do_rdeeds ds s = Some s' ∧ let l' := a_run all (rs_total s) ds l in
    rules_sent s' = concat (imap sent_rule l')
    ∧ NoDup (List.map snd (domains l'))
    ∧ Z.of_nat (length l') ≤ Z.max (Z.of_nat (length l)) (rs_total s - 1)
    ∧ refines all s' l'.
Proof.
  intros Hn Hf Hs. destruct (rdeeds_ok all Hn Hf ds s l Hs) as (s' & E & H & _).
  exists s'. split; [done|]. cbv zeta. split; [|split; [|split; [apply a_run_bound|done]]].
  - unfold rules_sent. rewrite (rf_rows _ _ _ H). apply sent_conc.
  - pose proof (perm_titles _ _ (rf_all _ _ _ H) Hn) as Hp. rewrite map_app in Hp. by apply NoDup_app in Hp as (_ & _ & ?).
Qed.

Lemma served_refines : refines served_props served [a_blank].
Proof. constructor; [by vm_compute|done|done|by repeat constructor|]. vm_compute. reflexivity. Qed.

Lemma rules_session_witness :
  ∃ s', do_rdeeds [RChoose 0 (js "qq.com", js "qq.com"); RAdd; RChoose 1 (js "qq.com", js "qq.com");
      RChoose 1 (js "126.com", js "126.com"); RType 1 0 (js "5"); RAdd; RDel 2; RDel 0] served = Some s'
    ∧ rules_sent s' = [(js "prop_0", js "qq.com"); (js "mins_0", []); (js "hours_0", []); (js "days_0", []);
        (js "prop_1", js "126.com"); (js "mins_1", js "5"); (js "hours_1", []); (js "days_1", [])].
Proof.
  destruct (rules_session served_props [RChoose 0 (js "qq.com", js "qq.com"); RAdd; RChoose 1 (js "qq.com", js "qq.com");
      RChoose 1 (js "126.com", js "126.com"); RType 1 0 (js "5"); RAdd; RDel 2; RDel 0] served [a_blank]) as (s' & E & H & _).
  - vm_compute. repeat constructor; not_in.
  - vm_compute. by repeat constructor.
  - exact served_refines.
  - exists s'. split; [exact E|]. rewrite H. vm_compute. reflexivity.
Defined.
