(* ===== verification/Desk.v ===== *)
(** * The operators' forms that post and wait

    [task/auditPage.js], [cos/custom.js], [account/accountEdit.js],
    [account/accountReadonlyEdit.js], [account/accountDetail.js],
    [property/labelEdit.js], [property/labelImport.js], [system/passwordEdit.js],
    [system/subUserAdd.js], [system/subUserEdit.js],
    [system/customEnterpriseAdd.js] and the lists that export, print and compare
    what is ticked ([report/taskReportList.js]).  A form that is sent disables
    its buttons until the server refuses. *)

From S2P Require Import Prelude Js JsFacts Page TagList Base Account Operator Lists.
#[local] Open Scope Z_scope.

Section desk.
Context {G : Type}.

Definition DetailForm : jstr := js "#DetailForm".
Definition waiting : jstr := js "#prompt".
Definition box_error (mess : jstr) (ms : Z) : J G unit := emit (EvBox mess 0 ms).
(** [$.post(form.attr("action"),params,..)]; [params] is what the browser
    serialises of the form. *)
Definition post_params (params : list (jstr * jstr)) : J G unit :=
  action ← attr DetailForm (js "action");
  emit (EvPost (str_of_val action) params).
(** The buttons are disabled, the notice is shown and the form is posted. *)
Definition post_form (buttons : list jstr) (params : list (jstr * jstr)) : J G unit :=
  for_each buttons (λ b, set_disabled b true) ;;
  show waiting ;;
  post_params params.

(** The answer [data]: [result] and [message]; [None] when it is empty. *)
Definition refusal (mess : jval) : jstr :=
  match mess with VUndef => js "无法获取响应，有可能账号已在别处登录" | m => str_of_val m end.
Definition post_answer (buttons : list jstr) (ms : Z) (done : J G unit) (data : option (jval * jval)) : J G unit :=
  match data with
  | None => skip
  | Some (result, mess) =>
      if is_str result "success" then done ;; emit (EvBox (str_of_val mess) 1 2000) ;; emit (EvTimeout 2000)
      else hide waiting ;;
           for_each buttons (λ b, set_disabled b false) ;;
           box_error (refusal mess) ms
  end.

(** ** The audit of a task *)

Definition suggestion : jstr := js "#suggestion".
Definition audit_buttons : list jstr := [js "#btn_yes"; js "#btn_no"].
Definition audit_refuse (mess : jstr) : J G unit := box_error mess 2000 ;; emit (EvFocus suggestion).
(** [audit(flag)]; [confirmed]: what the user answers. *)
Definition audit (flag : jstr) (confirmed : bool) (params : list (jstr * jstr)) : J G unit :=
  set_val (js "#flag") flag ;;
  s ← value0 suggestion;
  if bool_decide (flag = js "no") && bool_decide (strip_spaces s = [])
  then audit_refuse (js "请填写审核意见")
  else if 60 <? Z.of_nat (length s) then audit_refuse (js "不能超过60个字符")
  else when confirmed
    (show waiting ;;
     for_each audit_buttons (λ b, set_disabled b true) ;;
     post_params params).
Definition audit_answer : option (jval * jval) → J G unit := post_answer audit_buttons 3000 skip.

(** ** Packages ([saveCos], the method [sendCount]) *)

Definition sendCount (value : jstr) : bool :=
  let aint := parseInt value in
  num_le (JInt (-1)) aint && bool_decide (str_of_num aint = value).
(** [flag]: what the validation plugin answers. *)
Definition saveCos (flag : bool) (params : list (jstr * jstr)) : J G unit :=
  when flag
    (type ← val (js "#type");
     start ← val (js "#startTime");
     stop ← val (js "#endTime");
     userCount ← val (js "#userCount");
     when (is_num type 0 && (is_str start "" || is_str stop "")) (emit (EvAlert (js "试用时间不能为空"))) ;;
     if is_num type 0 && gt_num userCount 1
     then emit (EvAlert (js "试用套餐子账号个数不能大于1")) ;; emit (EvFocus (js "#userCount"))
     else if is_num type 1 && gt_num userCount 50
     then emit (EvAlert (js "正式套餐子账号个数不能大于50")) ;; emit (EvFocus (js "#userCount"))
     else post_form [js "#btn_save"] params).
Definition saveCos_answer (data : option (jval * jval)) : J G unit :=
  match data with
  | None => skip
  | Some (result, mess) =>
      if is_str result "success" then emit (EvBox (js "自定义套餐成功") 1 2000) ;; emit (EvTimeout 2000)
      else set_disabled (js "#btn_save") false ;; hide waiting ;; box_error (refusal mess) 3000
  end.
(** The dates of a trial are shown for a trial. *)
Definition type_change (typeStr : jstr) : J G unit :=
  set_css (js "#test") (js "display") (Kw (if bool_decide (typeStr = js "0") then js "block" else js "none")).

(** ** Accounts *)

Definition blank_error (mess field : jstr) : J G bool :=
  box_error mess 3000 ;; emit (EvFocus field) ;; mret false.
(** [pass()] of [accountEdit.js] *)
Definition account_pass : J G bool :=
  p ← val (js "#password");
  v ← val (js "input[name='isNeedApi']:checked");
  triggerType ← val (js "#triggerType");
  match p with
  | VStr (_ :: _ as s) =>
      if bool_decide (strip_spaces s = []) then blank_error (js "密码不能为空格") (js "#password") else mret true
  | _ =>
      if is_str v "yes" && is_str triggerType "其他"
      then other ← value0 (js "#otherTriggerType");
           if bool_decide (strip_spaces other = [])
           then blank_error (js "请输入触发类型") (js "#otherTriggerType") else mret true
      else mret true
  end.
Definition account_submit (params : list (jstr * jstr)) : J G unit :=
  ok ← account_pass;
  when ok (post_form [js "#btn_submit"] params).
Definition account_answer : option (jval * jval) → J G unit := post_answer [js "#btn_submit"] 3000 skip.
(** [success()] and [back()]: the addresses are under the context of the site. *)
Definition account_success : J G unit :=
  ctx ← val (js "#ctx"); url ← val (js "#successUrl"); emit (EvAssign (str_of_val ctx ++ str_of_val url)).
Definition account_back : J G unit :=
  ctx ← val (js "#ctx"); emit (EvAssign (str_of_val ctx ++ js "/account/accountList")).

(** [getCosInfo(obj)] and its answer: the five limits of a package. *)
Definition cos_boxes : list jstr :=
  List.map js ["#subUserCount"; "#daySendCount"; "#weekSendCount"; "#monthSendCount"; "#totalSendCount"]%string.
Definition getCosInfo (value : jstr) : J G unit :=
  if bool_decide (value = []) then for_each cos_boxes (λ b, set_html b [])
  else cosUrl ← val (js "#cosUrl"); emit (EvAjax (str_of_val cosUrl) [(js "cosId", value)]).
Definition cosInfo_answer (data : option (list jval)) : J G unit :=
  match data with
  | None => skip
  | Some l => for_each (combine cos_boxes l) (λ p, set_html (fst p) (str_of_val (snd p)))
  end.

(** [activate(url,userId)] of [accountDetail.js]: the form takes the address
    before it is posted. *)
Definition activate (url : jstr) (confirmed : bool) (params : list (jstr * jstr)) : J G unit :=
  when confirmed
    (set_disabled (js "#btn_submit") true ;;
     show waiting ;;
     set_attr DetailForm (js "action") url ;;
     post_params params).

(** ** Labels *)

Definition saveLabel (params : list (jstr * jstr)) : J G unit :=
  labelName ← value0 (js "#labelName");
  if isEmpty labelName
  then emit (EvFocus (js "#labelName")) ;; box_error (js "请输入标签名称！") 3000
  else post_form [js "#btn_save"] params.
Definition saveLabel_answer (lcId : jval) : option (jval * jval) → J G unit :=
  post_answer [js "#btn_save"] 3000 (set_val (js "#lcId") (str_of_val lcId)).
Definition labelList : J G unit :=
  id ← val (js "#lcId"); url ← val (js "#successUrl");
  emit (EvAssign (str_of_val url ++ js "?categoryId=" ++ str_of_val id)).

(** [importPropLib()]; [propVal] are the properties picked. *)
Definition wrong_task : jstr := js "请输入正确的任务ID！".
Definition importPropLib (propVal : list item) (params : list (jstr * jstr)) : J G unit :=
  taskId ← value0 (js "#task");
  if isEmpty taskId then emit (EvFocus (js "#task")) ;; box_error wrong_task 2000
  else
    let array := splitc 46 taskId in
    if negb (length array =? 3)%nat then box_error wrong_task 2000 ;; emit (EvFocus (js "#task"))
    else if existsb (λ s, isNaN (VStr s)) array then box_error wrong_task 2000 ;; emit (EvFocus (js "#task"))
    else
      n ← size_of (js "#assProp");
      if negb (n =? 0) && (findArrItem propVal 2 (VStr (js "行业兴趣")) =? -1)
      then box_error (js "请至少设置一项行业兴趣关联属性！") 2000
      else post_form [js "#btn_save"] params.

(** ** Passwords, sub-accounts, logos *)

Definition resetPassword : J G unit :=
  for_each (List.map js ["#oldPassword"; "#newPassword"; "#confirmNewPassword"]%string) (λ b, set_val b []).
Definition password_answer (data : option (jval * jval)) : J G unit :=
  match data with
  | None => skip
  | Some (result, mess) =>
      let free := hide waiting ;; set_disabled (js "#btn_submit") false in
      if is_str result "success" then resetPassword ;; free ;; emit (EvBox (str_of_val mess) 1 2000)
      else free ;; box_error (refusal mess) 3000
  end.
(** The choice of a logo: a new one, or one there is. *)
Definition logo_click (id : jstr) : J G unit :=
  let new := bool_decide (id = js "newLogo") in
  set_css (js "#showLogo") (js "display") (Kw (if new then js "none" else js "block")) ;;
  set_disabled (js ".button") (negb new).
Definition subimtBtn : J G unit :=
  list ← val (js "input:radio[name=type]:checked");
  if is_str list "2" then show waiting ;; emit (EvSubmit (js "#customForm")) else emit (EvEval (js "closeWin()")).
Definition logo_answer (error : jval) : J G unit :=
  if is_str error "0"
  then emit (EvBox (js "新建企业logo成功,如使用请激活。") 1 2000) ;; emit (EvTimeout 2000)
  else hide waiting ;; box_error (js "新建企业logo失败") 3000.

(** ** What is ticked in a list *)

Definition checkedIds : J G (list jstr) :=
  l ← elts_of (js "input[name=checkedIds]"); mret (ticked_values l).
(** [checkedIds += value + ","] *)
Definition with_commas (l : list jstr) : jstr := List.flat_map (λ s, s ++ [c_comma]) l.
Definition exportTaskStat (url : jstr) (confirmed : bool) : J G unit :=
  ids ← checkedIds;
  if bool_decide (with_commas ids = []) then when confirmed (emit (EvAssign url))
  else emit (EvAssign (url ++ js "&checkedIds=" ++ with_commas ids)).
Definition printTaskStat (url : jstr) : J G unit :=
  ids ← checkedIds;
  if bool_decide (with_commas ids = []) then emit (EvAlert (js "请选择需要打印的记录"))
  else emit (EvOpen (url ++ js "?checkedIds=" ++ with_commas ids)).
Definition compare (url : jstr) : J G unit :=
  ids ← checkedIds;
  let len := Z.of_nat (length ids) in
  if len =? 0 then emit (EvAlert (js "请选择需要对比的任务"))
  else if 4 <? len then emit (EvAlert (js "对比任务不能超过4个"))
  else emit (EvOpen (url ++ js "?checkedIds=" ++ with_commas ids)).
Definition compareTask (url : jstr) : J G unit :=
  ids ← checkedIds;
  let len := Z.of_nat (length ids) in
  if len =? 0 then emit (EvAlert (js "请选择要对比的任务"))
  else if len <? 2 then emit (EvAlert (js "对比任务不能少于2个"))
  else if 5 <? len then emit (EvAlert (js "对比任务不能超过5个"))
  else set_attr (js "#ListForm") (js "action") url ;; emit (EvSubmit (js "#ListForm")).
End desk.

(** * Facts *)

Definition is_post (e : event) : bool := match e with EvPost _ _ => true | _ => false end.
Definition posts {G} (w : world G) : nat := length (List.filter is_post (w_ev w)).

Section facts.
Context {G : Type}.
Implicit Types w : world G.

(** The elements stay where they are. *)
Abbreviation stays w w' := (frame_step (λ _ : elt, tt) w w').

Lemma upd_dis_in b l w i : i ∈ l → is_Some (w_elt w !! i) → e_disabled (nth_elt (upd (with_disabled b) l w) i) = b.
Proof.
  unfold nth_elt, upd. cbn [w_elt set_elt]. generalize (w_elt w) as m.
  assert (∀ l (m : gmap eid elt), is_Some (m !! i) → e_disabled (default blank (m !! i)) = b →
    e_disabled (default blank (List.fold_left (λ m j, alter (with_disabled b) j m) l m !! i)) = b) as Hk.
  { clear. induction l as [|j l IH]; intros m Hm Hb; [done|]. cbn [List.fold_left]. apply IH.
    - destruct (decide (j = i)) as [->|Hj]; [rewrite lookup_alter_eq; destruct Hm as [e ->]; by eexists|by rewrite lookup_alter_ne].
    - destruct (decide (j = i)) as [->|Hj]; [rewrite lookup_alter_eq; by destruct Hm as [e ->]|by rewrite lookup_alter_ne]. }
  induction l as [|j l IH]; intros m Hi Hm; [by apply elem_of_nil in Hi|]. cbn [List.fold_left].
  apply elem_of_cons in Hi as [->|Hi].
  - apply Hk; rewrite lookup_alter_eq; destruct Hm as [e ->]; [by eexists|done].
  - apply IH; [done|]. destruct (decide (j = i)) as [->|Hj];
      [rewrite lookup_alter_eq; destruct Hm as [e ->]; by eexists|by rewrite lookup_alter_ne].
Qed.
Lemma upd_dis_out b l w i : i ∉ l → e_disabled (nth_elt (upd (with_disabled b) l w) i) = e_disabled (nth_elt w i).
Proof.
  unfold nth_elt, upd. cbn [w_elt set_elt]. generalize (w_elt w) as m.
  induction l as [|j l IH]; intros m Hi; [done|]. apply not_elem_of_cons in Hi as [Hj Hi]. cbn [List.fold_left].
  by rewrite IH, lookup_alter_ne.
Qed.

(** Setting a state never undoes the same state elsewhere. *)
Lemma set_disabled_dis s t b w : single s w →
  let w' := (set_disabled t b w).2 in
  (s = t → dis_of s w' = Some b) ∧ (dis_of s w = Some b → dis_of s w' = Some b).
Proof.
  intros (i & e & Hf & He). cbv zeta. unfold set_disabled, on, modify. cbn [snd]. unfold dis_of, first.
  change (found s (upd ?f ?l w)) with (found s w). rewrite Hf. cbn [fmap option_fmap option_map].
  destruct (decide (i ∈ found t w)) as [Hi|Hi].
  - rewrite upd_dis_in by (done || by eexists). done.
  - rewrite upd_dis_out by done. split; [intros <-|done]. destruct Hi. rewrite Hf. by left.
Qed.

Lemma set_all_ok buttons b w : Forall (λ s, single s w) buttons → ∃ w',
  for_each buttons (λ s, set_disabled s b) w = (Ok tt, w') ∧ stays w w' ∧ w_ev w' = w_ev w
  ∧ Forall (λ s, dis_of s w' = Some b) buttons ∧ (∀ s, single s w → dis_of s w = Some b → dis_of s w' = Some b).
Proof.
  induction buttons as [|t l IH] in w |- *; intros Hs.
  - exists w. split; [done|]. split; [by constructor|]. split; [done|]. by split.
  - inversion Hs as [|? ? Ht Hl]; subst. set (w1 := (set_disabled t b w).2).
    assert (stays w w1) as F by (apply frames_on; done).
    destruct (IH w1) as (w' & E & F' & Ev & H1 & H2).
    { eapply Forall_impl; [exact Hl|]. intros s. by apply (frame_single (λ _, tt)). }
    exists w'. cbn [for_each]. rewrite (bind_ok (set_disabled t b) _ w tt w1) by done.
    split; [exact E|]. split; [by eapply (frame_trans (λ _, tt))|]. split; [by rewrite Ev|].
    split; [constructor; [|exact H1]|].
    + apply H2; [by eapply (frame_single (λ _, tt))|]. exact (proj1 (set_disabled_dis t t b w Ht) eq_refl).
    + intros s Hsg Hd. apply H2; [by eapply (frame_single (λ _, tt))|]. exact (proj2 (set_disabled_dis s t b w Hsg) Hd).
Qed.

Lemma quiet_all buttons b : quiet (G := G) (for_each buttons (λ s, set_disabled s b)).
Proof.
  induction buttons as [|t l IH]; [apply quiet_ret|]. cbn [for_each]. apply quiet_bind; [by apply quiet_on|done].
Qed.

(** ** The audit *)

Definition audit_events (flag s : jstr) (confirmed : bool) (post : event) : list event :=
  if bool_decide (flag = js "no") && bool_decide (strip_spaces s = [])
  then [EvBox (js "请填写审核意见") 0 2000; EvFocus suggestion]
  else if 60 <? Z.of_nat (length s) then [EvBox (js "不能超过60个字符") 0 2000; EvFocus suggestion]
  else if confirmed then [post] else [].
Record audit_page w : Prop := {
  ap_flag : single (js "#flag") w;
  ap_suggestion : single suggestion w;
  ap_apart : apart suggestion (js "#flag") w;
  ap_buttons : Forall (λ s, single s w) audit_buttons
}.
(** Both buttons are in the state [b]. *)
Definition buttons_are (b : bool) w : Prop := Forall (λ s, dis_of s w = Some b) audit_buttons.

Lemma audit_page_stays w w' : stays w w' → audit_page w → audit_page w'.
Proof.
  intros F [H1 H2 H3 H4]. constructor; [by eapply frame_single|by eapply frame_single|by eapply frame_apart|].
  eapply Forall_impl; [exact H4|]. intros s. by apply (frame_single (λ _, tt)).
Qed.

Definition action_of w : option jstr := first DetailForm w ≫= λ e, e_attr e !! js "action".
Definition post_event w (params : list (jstr * jstr)) : event :=
  EvPost (str_of_val (match action_of w with Some v => VStr v | None => VUndef end)) params.
Lemma action_frame w w' : frame_step e_attr w w' → action_of w' = action_of w.
Proof.
  intros F. unfold action_of. pose proof (frame_first e_attr DetailForm _ _ F) as H.
  destruct (first DetailForm w'), (first DetailForm w); simpl in H; try done. injection H as H. simpl. by rewrite H.
Qed.
Lemma post_params_ok params w :
  post_params params w = (Ok tt, set_ev (w_ev w ++ [post_event w params]) w).
Proof. done. Qed.

Lemma buttons_frame b w w' : frame_step e_disabled w w' → buttons_are b w → buttons_are b w'.
Proof.
  intros F. unfold buttons_are, dis_of. intros H. eapply Forall_impl; [exact H|]. intros s Hs. cbn beta.
  by rewrite (frame_first e_disabled _ _ _ F).
Qed.

Lemma audit_ok flag confirmed params s b w : audit_page w → val_of suggestion w = VStr s → buttons_are b w →
  let l := audit_events flag s confirmed (post_event w params) in
  ∃ w', audit flag confirmed params w = (Ok tt, w') ∧ stays w w'
    ∧ val_of suggestion w' = VStr s ∧ action_of w' = action_of w
    ∧ w_ev w' = w_ev w ++ l ∧ buttons_are (b || existsb is_post l) w'.
Proof.
  intros [H1 H2 H3 H4] Hv Hb. cbv zeta. unfold audit.
  set (w1 := (set_val (js "#flag") flag w).2).
  assert (stays w w1) as F1 by (by apply frames_on).
  assert (frame_step e_attr w w1) as A1 by (by apply frames_on).
  assert (frame_step e_disabled w w1) as D1 by (by apply frames_on).
  assert (val_of suggestion w1 = VStr s) as V1.
  { destruct (set_val_field (js "#flag") flag w H1) as (w0 & E & _ & _ & _ & _ & V).
    unfold w1. rewrite E. cbn [snd]. by rewrite V. }
  assert (w_ev w1 = w_ev w) as Ev1 by done.
  rewrite (bind_ok (set_val _ _) _ w tt w1) by done. rewrite (bind_ok _ _ _ _ _ (value0_ok _ _ _ V1)).
  clearbody w1. unfold audit_events.
  assert (∀ m : jstr, ∃ w', audit_refuse m w1 = (Ok tt, w') ∧ stays w w' ∧ val_of suggestion w' = VStr s
    ∧ action_of w' = action_of w ∧ w_ev w' = w_ev w ++ [EvBox m 0 2000; EvFocus suggestion]
    ∧ buttons_are (b || false) w') as Hr.
  { intros m. eexists. split; [reflexivity|]. split; [by constructor; [apply F1|apply F1|]|]. split; [exact V1|].
    split; [exact (action_frame _ _ A1)|]. cbn [w_ev set_ev]. rewrite Ev1, <-app_assoc, orb_false_r.
    split; [done|]. exact (buttons_frame _ _ _ D1 Hb). }
  destruct (bool_decide (flag = js "no") && _); [apply Hr|]. destruct (60 <? _); [apply Hr|].
  destruct confirmed; cbn [when existsb is_post orb].
  2: { exists w1. rewrite app_nil_r, orb_false_r. split; [done|]. split; [done|]. split; [done|].
       split; [exact (action_frame _ _ A1)|]. split; [done|]. exact (buttons_frame _ _ _ D1 Hb). }
  set (w2 := upd (with_shown true) (found waiting w1) w1).
  assert (stays w1 w2) as F2 by (by apply (frames_on (λ _, tt) waiting)).
  assert (style_only w1 w2) as S2 by (by apply upd_style).
  destruct (set_all_ok audit_buttons true w2) as (w3 & E3 & F3 & Ev3 & B3 & _).
  { eapply Forall_impl; [exact H4|]. intros t Ht. apply (frame_single (λ _, tt) t w1 w2 F2).
    by apply (frame_single (λ _, tt) t w w1 F1). }
  assert (frame_step e_attr w1 w3) as A3.
  { apply (frame_trans e_attr _ w2); [by apply (frames_on e_attr waiting)|].
    eapply (frame_of e_attr); [|exact E3]. frames. }
  assert (style_only w2 w3) as S3.
  { destruct (quiet_all audit_buttons true w2) as ([] & w3' & E' & St). rewrite E3 in E'. by injection E' as <-. }
  rewrite (bind_ok (show waiting) _ w1 tt w2), (bind_ok _ _ _ _ _ E3), post_params_ok by done.
  assert (action_of w3 = action_of w) as Ha by (rewrite (action_frame _ _ A3); exact (action_frame _ _ A1)).
  eexists. split; [reflexivity|]. split.
  { apply (frame_trans (λ _, tt) _ w1); [done|]. apply (frame_trans (λ _, tt) _ w2); [done|]. by destruct F3. }
  split; [by rewrite <-V1, <-(style_val _ _ _ S2), <-(style_val _ _ _ S3)|]. split; [exact Ha|].
  unfold post_event. rewrite Ha, orb_true_r. cbn [w_ev set_ev]. rewrite Ev3. split; [by rewrite <-Ev1|exact B3].
Qed.

Definition refused (data : option (jval * jval)) : bool :=
  match data with Some (result, _) => negb (is_str result "success") | None => false end.

Lemma answer_ok data b w : audit_page w → buttons_are b w →
  ∃ w', audit_answer data w = (Ok tt, w') ∧ stays w w' ∧ val_of suggestion w' = val_of suggestion w
    ∧ posts w' = posts w ∧ buttons_are (if refused data then false else b) w'.
Proof.
  intros [_ _ _ H4] Hb. unfold audit_answer, post_answer, posts.
  destruct data as [[result mess]|]; cbn [refused]; [|exists w; by split; [|split; [by constructor|]]].
  destruct (is_str result "success"); cbn [negb].
  - eexists. split; [reflexivity|]. split; [by constructor|]. split; [done|]. split; [|exact Hb].
    cbn. by rewrite !List.filter_app, !app_nil_r.
  - set (w1 := upd (with_shown false) (found waiting w) w).
    assert (stays w w1) as F1 by (by apply (frames_on (λ _, tt) waiting)).
    destruct (set_all_ok audit_buttons false w1) as (w2 & E2 & F2 & Ev2 & B2 & _).
    { eapply Forall_impl; [exact H4|]. intros t. by apply (frame_single (λ _, tt)). }
    destruct (quiet_all audit_buttons false w1) as ([] & w2' & E2' & S2).
    rewrite E2 in E2'. injection E2' as <-.
    rewrite (bind_ok (hide waiting) _ w tt w1), (bind_ok _ _ _ _ _ E2) by done. eexists. split; [reflexivity|].
    split. { apply (frame_trans (λ _, tt) _ w1); [done|]. by destruct F2. }
    split. { change (val_of suggestion w2 = val_of suggestion w). rewrite (style_val _ _ _ S2). by apply style_val, upd_style. }
    split; [|exact B2]. cbn. by rewrite Ev2, List.filter_app, app_nil_r.
Qed.

(** *** Sessions *)

Inductive audit_act := AType (s : jstr) | APress (yes confirmed : bool) (params : list (jstr * jstr))
  | AReply (data : option (jval * jval)).
Definition audit_button (yes : bool) : jstr := if yes then js "#btn_yes" else js "#btn_no".
Definition audit_flag (yes : bool) : jstr := if yes then js "yes" else js "no".
(** The page and the number of requests without an answer; a disabled button
    does nothing. *)
Definition audit_step (st : nat * world G) (a : audit_act) : nat * world G :=
  let '(n, w) := st in
  match a with
  | AType s => (n, (set_val suggestion s w).2)
  | APress yes confirmed params =>
      if bool_decide (dis_of (audit_button yes) w = Some true) then st
      else let w' := (audit (audit_flag yes) confirmed params w).2 in ((n + (posts w' - posts w))%nat, w')
  | AReply data => match n with O => st | S n' => (n', (audit_answer data w).2) end
  end.

(** The abstract form: its text, whether a request waits for its answer, whether
    the form is locked, and how many requests were sent. *)
Record audit_form := AuditForm { af_text : jstr; af_pending : bool; af_locked : bool; af_sent : nat }.
Definition audit_fit (yes : bool) (text : jstr) : bool :=
  (yes || negb (bool_decide (strip_spaces text = []))) && (Z.of_nat (length text) <=? 60).
Definition form_step (f : audit_form) (a : audit_act) : audit_form :=
  match a with
  | AType s => AuditForm s (af_pending f) (af_locked f) (af_sent f)
  | APress yes confirmed _ =>
      if negb (af_locked f) && confirmed && audit_fit yes (af_text f)
      then AuditForm (af_text f) true true (S (af_sent f)) else f
  | AReply data =>
      if af_pending f then AuditForm (af_text f) false (if refused data then false else af_locked f) (af_sent f) else f
  end.
Record audit_shows (sent0 : nat) (f : audit_form) (st : nat * world G) : Prop := {
  as_page : audit_page st.2;
  as_text : val_of suggestion st.2 = VStr (af_text f);
  as_pending : st.1 = if af_pending f then 1%nat else 0%nat;
  as_locked : buttons_are (af_locked f) st.2;
  as_sent : posts st.2 = (sent0 + af_sent f)%nat;
  as_one : af_pending f = true → af_locked f = true
}.

Lemma audit_events_posts yes text confirmed w params :
  let l := audit_events (audit_flag yes) text confirmed (post_event w params) in
  let fit := confirmed && audit_fit yes text in
  existsb is_post l = fit ∧ length (List.filter is_post l) = if fit then 1%nat else 0%nat.
Proof.
  cbv zeta. unfold audit_events, audit_fit.
  assert (bool_decide (audit_flag yes = js "no") = negb yes) as -> by (by destruct yes; vm_compute).
  replace (60 <? Z.of_nat (length text)) with (negb (Z.of_nat (length text) <=? 60))
    by (destruct (Z.leb_spec (Z.of_nat (length text)) 60), (Z.ltb_spec 60 (Z.of_nat (length text))); (done || lia)).
  by destruct yes, (bool_decide (strip_spaces text = [])), (Z.of_nat (length text) <=? 60), confirmed.
Qed.

Lemma audit_simulates k f st a : audit_shows k f st → audit_shows k (form_step f a) (audit_step st a).
Proof.
  intros [H1 H2 H3 H4 H5 H6]. destruct st as [n w], a as [s|yes confirmed params|data]; cbn [fst snd] in *; subst n.
  - destruct (set_val_field suggestion s w (ap_suggestion _ H1)) as (w' & E & _ & _ & _ & V & _).
    assert (stays w (set_val suggestion s w).2) as F by (by apply frames_on).
    assert (frame_step e_disabled w (set_val suggestion s w).2) as D by (by apply frames_on).
    constructor; cbn [audit_step fst snd form_step af_text af_pending af_locked af_sent]; try done.
    + by eapply audit_page_stays.
    + by rewrite E.
    + by eapply buttons_frame.
  - cbn [audit_step form_step].
    assert (dis_of (audit_button yes) w = Some (af_locked f)) as ->.
    { unfold buttons_are, audit_buttons in H4. rewrite Forall_forall in H4. apply H4.
      destruct yes; [by left|right; by left]. }
    destruct (af_locked f) eqn:El; cbn [negb andb].
    { rewrite bool_decide_eq_true_2 by done. constructor; cbn [fst snd]; try done. by rewrite El. }
    rewrite bool_decide_eq_false_2 by done.
    destruct (audit_ok (audit_flag yes) confirmed params (af_text f) false w H1 H2 H4) as (w' & E & F & V & _ & Ev & B).
    rewrite E. cbn [snd fst]. destruct (audit_events_posts yes (af_text f) confirmed w params) as [P1 P2].
    assert (posts w' = (posts w + if confirmed && audit_fit yes (af_text f) then 1 else 0)%nat) as Hp.
    { unfold posts at 1. by rewrite Ev, List.filter_app, length_app, P2. }
    cbn [orb] in B. rewrite P1 in B. destruct (af_pending f) eqn:Ep; [by specialize (H6 eq_refl)|].
    destruct (confirmed && audit_fit yes (af_text f)); constructor; cbn [fst snd af_text af_pending af_locked af_sent];
      rewrite ?Ep, ?El; try done; try (by eapply audit_page_stays); lia.
  - cbn [audit_step form_step]. destruct (af_pending f) eqn:Ep; [|by constructor; cbn [fst snd]; rewrite ?Ep].
    destruct (answer_ok data (af_locked f) w H1 H4) as (w' & E & F & V & P & B). rewrite E.
    constructor; cbn [fst snd af_text af_pending af_locked af_sent]; try done; [by eapply audit_page_stays|congruence|lia].
Qed.
End facts.

(** ** Packages and imports *)

Lemma post_form_posts {G} buttons params (w : world G) : posts (post_form buttons params w).2 = S (posts w).
Proof.
  unfold post_form. destruct (quiet_all (G := G) buttons true w) as ([] & w1 & E & _). rewrite (bind_ok _ _ _ _ _ E).
  assert (w_ev w1 = w_ev w) as Ev.
  { revert w w1 E. induction buttons as [|b l IH]; intros w w1; cbn [for_each]; [by intros [= <-]|].
    rewrite (bind_ok (set_disabled b true) _ w tt (set_disabled b true w).2) by done. by intros ->%IH. }
  rewrite (bind_ok (show waiting) _ w1 tt (show waiting w1).2), post_params_ok by done.
  unfold posts. cbn. by rewrite Ev, List.filter_app, length_app, Nat.add_comm.
Qed.

(** A trial without its dates is warned about, and sent all the same. *)
Lemma trial_sent {G} params (w : world G) u :
  val_of (js "#type") w = VStr (js "0") → val_of (js "#startTime") w = VStr [] →
  val_of (js "#userCount") w = VStr u → gt_num (VStr u) 1 = false →
  posts (saveCos true params w).2 = S (posts w).
Proof.
  intros Ht Hs Hu Hn. unfold saveCos, when.
  rewrite (bind_ok _ _ w _ w (val_field _ w)), Ht, (bind_ok _ _ w _ w (val_field _ w)), Hs,
    (bind_ok _ _ w _ w (val_field _ w)), (bind_ok _ _ w _ w (val_field _ w)), Hu.
  assert (is_num (VStr (js "0")) 0 = true) as -> by (by vm_compute).
  assert (is_num (VStr (js "0")) 1 = false) as -> by (by vm_compute).
  assert (is_str (VStr []) "" = true) as -> by (by vm_compute). cbn [andb orb]. rewrite Hn.
  rewrite (bind_ok (emit _) _ w tt (set_ev (w_ev w ++ [EvAlert (js "试用时间不能为空")]) w)) by done.
  rewrite post_form_posts. unfold posts. cbn. by rewrite List.filter_app, app_nil_r.
Qed.

(** An import is sent exactly when the task is three numbers with dots between
    them and, where the page asks for properties, one is of the industries. *)
Definition import_fits (asks : bool) (propVal : list item) (taskId : jstr) : bool :=
  negb (isEmpty taskId)
  && match splitc 46 taskId with [a; b; c] => negb (isNaN (VStr a) || isNaN (VStr b) || isNaN (VStr c)) | _ => false end
  && negb (asks && (findArrItem propVal 2 (VStr (js "行业兴趣")) =? -1)).
Lemma importPropLib_posts {G} propVal params taskId (w : world G) : val_of (js "#task") w = VStr taskId →
  posts (importPropLib propVal params w).2
  = (posts w + if import_fits (negb (Z.of_nat (length (found (js "#assProp") w)) =? 0)%Z) propVal taskId then 1 else 0)%nat.
Proof.
  intros Hv. unfold importPropLib, import_fits. rewrite (bind_ok _ _ _ _ _ (value0_ok _ _ _ Hv)).
  assert (∀ l, List.filter is_post l = [] → posts (set_ev (w_ev w ++ l) w) = (posts w + 0)%nat) as Hq.
  { intros l Hl. unfold posts. cbn. by rewrite List.filter_app, Hl, app_nil_r, Nat.add_0_r. }
  assert (∀ m : jstr, posts ((box_error m 2000 ;; emit (EvFocus (js "#task"))) w).2 = (posts w + 0)%nat) as Hb.
  { intros m. rewrite <-(Hq [EvBox m 0 2000; EvFocus (js "#task")]) by done. unfold posts. cbn [w_ev set_ev].
    do 2 f_equal. exact (eq_sym (app_assoc _ _ _)). }
  destruct (isEmpty taskId); cbn [negb andb].
  { rewrite <-(Hq [EvFocus (js "#task"); EvBox wrong_task 0 2000]) by done. unfold posts. cbn [w_ev set_ev].
    do 2 f_equal. exact (eq_sym (app_assoc _ _ _)). }
  destruct (splitc 46 taskId) as [|a [|b [|c [|? ?]]]]; cbn [length Nat.eqb negb andb]; try apply Hb.
  cbn [existsb]. rewrite orb_false_r, !orb_assoc.
  destruct (isNaN (VStr a) || isNaN (VStr b) || isNaN (VStr c)); cbn [negb andb]; [apply Hb|].
  rewrite (bind_ok (size_of _) _ w (Z.of_nat (length (found (js "#assProp") w))) w) by done.
  destruct (negb _ && _); cbn [negb]; [by rewrite <-(Hq [EvBox (js "请至少设置一项行业兴趣关联属性！") 0 2000])|].
  rewrite post_form_posts. lia.
Qed.

(** C27 -- Any session on the audit of a task -- typing, pressing a button, answers of
    the server -- implements the abstract form: a request is sent exactly when
    the form is not locked, the user confirms and the text fits (not blank for
    a refusal, at most sixty characters); it locks both buttons until the
    server refuses, so that never two requests wait at a time. *)
Theorem audit_session {G} acts (w : world G) s : audit_page w → val_of suggestion w = VStr s → buttons_are false w →
  let f := List.fold_left form_step acts (AuditForm s false false 0) in
  let '(n, w') := List.fold_left audit_step acts (0%nat, w) in
  (n <= 1)%nat ∧ n = (if af_pending f then 1%nat else 0%nat) ∧ (af_pending f = true → af_locked f = true)
  ∧ buttons_are (af_locked f) w' ∧ val_of suggestion w' = VStr (af_text f)
  ∧ posts w' = (posts w + af_sent f)%nat.
Proof.
  intros H1 H2 H3. cbv zeta.
  assert (∀ acts f (st : nat * world G), audit_shows (posts w) f st →
    audit_shows (posts w) (List.fold_left form_step acts f) (List.fold_left audit_step acts st)) as H.
  { clear H1 H2 H3 acts. induction acts as [|a acts IH]; intros f st Hs; [done|]. cbn [List.fold_left]. by apply IH, audit_simulates. }
  specialize (H acts (AuditForm s false false 0) (0%nat, w)).
  destruct (List.fold_left audit_step acts (0%nat, w)) as [n w'].
  destruct H as [P T N B S O]; [constructor; cbn [fst snd af_text af_pending af_locked af_sent]; (done || lia)|]. cbn [fst snd] in *.
  split; [rewrite N; case_match; lia|]. repeat split; done.
Qed.

Definition demo_audit : world unit :=
  page_with [(js "#flag", blank); (suggestion, blank); (js "#btn_yes", blank); (js "#btn_no", blank);
    (waiting, with_shown false blank); (DetailForm, with_attr (js "action") (js "/task/audit") blank)] tt.
Lemma audit_session_witness :
  let acts := [APress false true []; AType (js "bad subject"); APress false true [(js "flag", js "no")];
    APress true true []; AReply (Some (VStr (js "fail"), VUndef)); APress true true []] in
  let '(n, w') := List.fold_left audit_step acts (0%nat, demo_audit) in
  n = 1%nat ∧ posts w' = 2%nat ∧ buttons_are true w'.
Proof.
  intros acts. pose proof (audit_session acts demo_audit []) as H.
  destruct (List.fold_left audit_step acts (0%nat, demo_audit)) as [n w'].
  destruct H as (_ & Hn & _ & Hb & _ & Hp).
  - constructor; [on_page|on_page|on_page|repeat (constructor; [on_page|]); constructor].
  - on_page.
  - repeat (constructor; [on_page|]); constructor.
  - split; [exact Hn|]. split; [exact Hp|exact Hb].
Defined.
