(* ===== verification/Listing.v ===== *)
(** * The lists of the operators' site

    [delivery/delivery.log.js], [report/taskApiReportList.js],
    [report/api/api.groups.list.js], [campaign/campaignDelivery.js],
    [report/customerTaskStatList.js], [report/historyReportList.js],
    [report/report.stat.compare.js], [account/accountList.js],
    [account/hadBeenActivatedList.js], [res/resUserList.js],
    [task/task.priority.js], [property/export.js].  A list is a form,
    [#ListForm], that the server answers with the page of the list; an export
    borrows that form, whose address is put back for what comes after it:
    searching, turning pages, the enter key. *)

From S2P Require Import Prelude Js JsFacts Regex Page TagList Url Base Account Operator Lists Smtp Desk.
#[local] Open Scope Z_scope.

Section listing.
Context {G : Type}.

Definition action : jstr := js "action".
Definition list_url : jstr := js "#listUrl".
(** [$(form).attr("action",$("#listUrl").val())]; without a value it is only
    asked for. *)
Definition to_list (form : jstr) : J G unit :=
  u ← val list_url;
  match u with VStr s => set_attr form action s | _ => skip end.

(** ** Searching, exporting *)

Definition search : J G unit :=
  set_val cur_page (js "1") ;;
  to_list list_form ;;
  submit list_form.
(** [exportLog(url)], [exportTaskStatNew(url)] *)
Definition export_list (url : jstr) : J G unit :=
  set_attr list_form action url ;;
  submit list_form ;;
  to_list list_form.
(** [exportCsv(url)] of [campaignDelivery.js]; an undefined order is printed so. *)
Definition exportCsv (url : jstr) : J G unit :=
  o ← val (js "#order");
  export_list (url ++ js "&orderBy=" ++ str_of_val o).
Definition order : J G unit :=
  u ← val list_url;
  o ← val (js "#order");
  emit (EvAssign (str_of_val u ++ js "&orderBy=" ++ str_of_val o)).
(** [resetParam()]: the fields of the search. *)
Definition resetParam (fields : list jstr) : J G unit := for_each fields (λ f, set_val f []).
Definition task_fields : list jstr :=
  [js "#search_triggerName"; js "#search_taskName"; js "#d5311"; js "#d5312"; js "#search_cycle"].

(** [checkIp(ip)] *)
Definition log_octet : re :=
  RCap (RAlt (RAlt (RCap (RSeq (ROpt (RSet (between 48 49))) (RSeq (RSet is_digit) (ROpt (RSet is_digit)))))
                   (RCap (RSeq (RStr [50%N]) (RSeq (RSet (between 48 52)) (RSet is_digit)))))
             (RCap (RSeq (RStr [50%N; 53%N]) (RSet (between 48 53))))).
Definition log_body : re :=
  let more := RCap (RSeq (RStr [46%N]) log_octet) in
  RSeq log_octet (RSeq more (RSeq more more)).
Definition checkIp (ip : jstr) : bool := test (RSeq RBol (RSeq log_body REol)) ip.

(** [search()] of [delivery.log.js] *)
Definition search_ip : jstr := js "#search_ip".
Definition log_search : J G unit :=
  v ← val search_ip;
  if negb (is_str v "")
  then if checkIp (str_of_val v) then search
       else emit (EvBox (js "ip格式不正确") 0 2000) ;; emit (EvFocus search_ip)
  else search.

(** ** What is ticked *)

(** [exportTaskStat(url,corpId)], [compareTask(url)] of
    [customerTaskStatList.js]; a periodic task is not compared. *)
Definition exportCorpStat (url corpId : jstr) (confirmed : bool) : J G unit :=
  ids ← checkedIds;
  let to := url ++ js "?corpId=" ++ corpId in
  if bool_decide (with_commas ids = []) then when confirmed (emit (EvAssign to))
  else emit (EvAssign (to ++ js "&checkedIds=" ++ with_commas ids)).
Definition is_plan (e : elt) : bool :=
  e_checked e && bool_decide (e_attr e !! js "data-value" = Some (js "planTask")).
Definition compareTasks (url : jstr) : J G unit :=
  l ← elts_of (js "input[name=checkedIds]");
  let len := Z.of_nat (length (ticked_values l)) in
  if existsb is_plan l then emit (EvAlert (js "对比任务不能包括周期任务"))
  else if len =? 0 then emit (EvAlert (js "请选择要对比的任务"))
  else if len <? 2 then emit (EvAlert (js "对比任务不能少于2个"))
  else if 5 <? len then emit (EvAlert (js "对比任务不能超过5个"))
  else set_attr list_form action url ;; submit list_form.

(** [freeze], [del], [activate], [unfreeze], [switchPriority]: the list form
    posts to the address, when the user confirms. *)
Definition confirm_post (url : jstr) (confirmed : bool) : J G unit :=
  when confirmed
    (set_attr list_form (js "method") (js "POST") ;;
     set_attr list_form action url ;;
     submit list_form).
Definition changeRes (url : jstr) (confirmed : bool) : J G unit :=
  v ← val (js "#resId");
  if is_str v "" then emit (EvAlert (js "请选择通道！")) ;; emit (EvFocus (js "#resId"))
  else
    ids ← checkedIds;
    if Z.of_nat (length ids) =? 0 then emit (EvAlert (js "请选择要更改通道的账号！"))
    else when confirmed
      (set_attr list_form (js "method") (js "get") ;;
       set_attr list_form action url ;;
       submit list_form).

(** The answer of [showSubUser(url,userId)]: the users of the account are the
    title of its element. *)
Definition showSubUser_success (userId : jstr) (data : jval * list jstr) : J G unit :=
  when (is_str (fst data) "success")
    (let title := List.flat_map (λ u, u ++ js " ") (snd data) in
     when (negb (bool_decide (title = []))) (set_attr (js "#" ++ userId) (js "title") title)).

(** [prompt()]: a message the server left; [kind] is the one of the page. *)
Definition prompt (kind : Z) : J G unit :=
  msg ← val (js "#msg");
  match msg with
  | VStr ((_ :: _) as s) => emit (EvBox s kind 2000)
  | _ => skip
  end.

(** [goBack()]: the list the report was opened from. *)
Definition goBack : J G unit :=
  from ← val (js "#fromFlag");
  u ← val (if is_str from "apiGroupsByUser" then js "#apiGroupsByUserUrl"
           else if is_str from "apiGroupsByAll" then js "#apiGroupsByAllUrl"
           else if is_str from "customer" then js "#customerUrl" else js "#taskUrl");
  match u with VStr s => set_attr (js "#ListForm1") action s | _ => skip end ;;
  submit (js "#ListForm1").

(** ** The export of recipients ([property/export.js]) *)

(** [openPop(url,obj,boxEle)] and [popTips(boxId,title,tips,opShow)] of
    [common.js]: this cover has no layer of its own; what an address answers is
    placed as [Base.openPop_loaded] does. *)
Definition openPop (url : jval) (obj boxEle : option jstr) : J G unit :=
  let boxId := default (js ".popBox") boxEle in
  Operator.openCover ;;
  match obj with
  | Some o => mod_ui (with_inputObj (o ++ js ".parents('tr').find('.add_text')"))
  | None => skip
  end ;;
  w ← win;
  if truthy url
  then u ← with_rnd (str_of_val url);
       enc ← lift (Url.getEncode u);
       emit (EvLoad boxId enc)
  else centre_pop boxId w.
Definition popTips (boxId title tips : jstr) (opShow : bool) : J G unit :=
  set_html (boxId ++ js " .pop_title") title ;;
  set_html (boxId ++ js " .al_center") tips ;;
  (if opShow then show (boxId ++ js " .al_submit") else hide (boxId ++ js " .al_submit")) ;;
  openPop (num 0) None (Some boxId).

Definition export_form : jstr := js "#export".
Definition export_btn : jstr := js "#export_btn".
Definition remind : jstr := js "#remindCustom".
Definition counter_field : jstr := js "#counter".
Definition export_title : jstr := js "导出数据".
Definition statNum (params : list (jstr * jstr)) : J G unit :=
  ids ← val (js "#enTagId");
  if is_str ids "" then box_error (js "请至少选择一个包含标签！") 3000
  else
    emails ← html (js "#personSum");
    if num_eq (parseInt (str_of_val emails)) (JInt 0) then box_error (js "收件人总数为0") 3000
    else
      popTips remind export_title (js "正在筛选 <img src='/resources/img/loading.gif'/>") false ;;
      set_disabled export_btn true ;;
      a ← attr export_form action;
      emit (EvPost (str_of_val a) params).
(** The answer: [data.result], [data.message], [data.lcId], [data.counter] and
    [data.fileName]; [None] when it is empty. *)
Record stat_data := StatData { sd_result : jval; sd_message : jval; sd_lcId : jval; sd_counter : jval; sd_file : jval }.
Definition counted_text (n : jval) : jstr :=
  js "<p><strong>处理成功！</strong></p><p>筛选成功：当前共筛选<span class='red'>" ++ str_of_val n
  ++ js "</span>个收件人</p>".
(** [$(sel).val(v)] of a value of the answer; [undefined] only
    reads, [null] empties the field. *)
Definition put_val (sel : jstr) (v : jval) : J G unit :=
  match v with VUndef => skip | VNull => set_val sel [] | _ => set_val sel (str_of_val v) end.
Definition statNum_answer (data : option stat_data) : J G unit :=
  set_disabled export_btn false ;;
  match data with
  | None => skip
  | Some d =>
      if is_str (sd_result d) "success"
      then put_val (js "#lcId") (sd_lcId d) ;;
           put_val (js "#exportPath") (sd_file d) ;;
           put_val counter_field (sd_counter d) ;;
           popTips remind export_title (counted_text (sd_counter d)) true
      else Operator.closeDialog ;;
           hide waiting ;;
           box_error (refusal (sd_message d)) 3000
  end.
Definition downloadFile : J G unit :=
  counter ← val counter_field;
  Operator.closeDialog ;;
  if loose_eq counter (num 0) then box_error (js "筛选结果为0，无数据可导出！") 3000
  else emit (EvSubmit (js "#addPath")).
End listing.

(** * Facts *)

(** ** Addresses of machines *)

(** The reference: four numbers up to 255 in at most three digits, with dots. *)
Definition dotted_octet (w : jstr) : bool :=
  (1 <=? length w)%nat && (length w <=? 3)%nat && forallb is_digit w && (digits_value w <=? 255).
Definition dotted (s : jstr) : bool :=
  match splitc 46 s with
  | [a; b; c; d] => forallb dotted_octet [a; b; c; d]
  | _ => false
  end.

Example dotted_1 : List.map (λ s, (checkIp s, dotted s))
  [js "1.2.3.4"; js "010.0.00.255"; js "1.2.3.256"; js "1.2.3"; js "1.2.3.4."; js " 1.2.3.4"; js ""; js "1.2.3.0004"]
  = [(true, true); (true, true)] ++ repeat (false, false) 6.
Proof. vm_compute. reflexivity. Qed.

Lemma dotted_octet_ok w : dotted_octet w = true ↔ octet w.
Proof.
  unfold dotted_octet, octet. rewrite !andb_true_iff, !Nat.leb_le, Z.leb_le, forallb_digits. tauto.
Qed.
Lemma octet_no_dot w : octet w → sep_free 46 w.
Proof.
  intros (_ & Hd & _). unfold all_digits in Hd. intros Hc.
  apply (proj1 (Forall_forall _ _) Hd), digit_range in Hc. lia.
Qed.
Lemma dotted_ok s : dotted s = true ↔ address s.
Proof.
  unfold dotted, address. split.
  - destruct (splitc 46 s) as [|a [|b [|c [|d [|? ?]]]]] eqn:E; try done.
    cbn [forallb]. rewrite !andb_true_iff. intros (Ha & Hb & Hc & Hd & _).
    exists a, b, c, d. rewrite <-!dotted_octet_ok. split; [|done].
    rewrite <-(join_splitc 46 s), E. done.
  - intros (a & b & c & d & -> & Ha & Hb & Hc & Hd).
    rewrite !splitc_app by by apply octet_no_dot. rewrite splitc_word by by apply octet_no_dot.
    cbn [forallb]. by rewrite !(proj2 (dotted_octet_ok _)).
Qed.

Lemma lang_log_octet s t : lang log_octet s t ↔ ∃ w, s = w ++ t ∧ octet w.
Proof.
  rewrite <-lang_octet. unfold log_octet, octet_re. cbn [lang]. tauto.
Qed.
Lemma lang_more s t : lang (RCap (RSeq (RStr [46%N]) log_octet)) s t ↔ ∃ w, s = 46%N :: w ++ t ∧ octet w.
Proof.
  change (lang (RCap (RSeq (RStr [46%N]) log_octet)) s t)
    with (∃ u, lang (RStr [46%N]) s u ∧ lang log_octet u t). split.
  - intros (u & ->%lang_char & (w & -> & Hw)%lang_log_octet). by exists w.
  - intros (w & -> & Hw). exists (w ++ t). split; [by apply lang_char|]. apply lang_log_octet. by exists w.
Qed.
Lemma lang_log s : lang log_body s [] ↔ address s.
Proof.
  unfold log_body, address. cbv zeta.
  change (lang (RSeq log_octet ?r) s []) with (∃ u, lang log_octet s u ∧ lang r u []). split.
  - intros (u1 & (a & -> & Ha)%lang_log_octet & u2 & (b & -> & Hb)%lang_more & u3 & (c & -> & Hc)%lang_more
      & (d & -> & Hd)%lang_more). exists a, b, c, d. by rewrite app_nil_r.
  - intros (a & b & c & d & -> & Ha & Hb & Hc & Hd).
    exists (46%N :: b ++ 46%N :: c ++ 46%N :: d). split; [apply lang_log_octet; by exists a|].
    exists (46%N :: c ++ 46%N :: d). split; [apply lang_more; by exists b|].
    exists (46%N :: d). split; [apply lang_more; by exists c|].
    apply lang_more. exists d. by rewrite app_nil_r.
Qed.
Lemma checkIp_dotted s : checkIp s = dotted s.
Proof.
  apply Bool.eq_iff_eq_true. unfold checkIp. rewrite test_lang by done. by rewrite lang_log, dotted_ok.
Qed.

(** ** A page of a list *)

Section pages.
Context {G : Type}.
Implicit Types w : world G.

(** The page of the list at [url] the server answered: page [cur] of [total];
    [fields] are those of the search. *)
Record list_page (url : jstr) (cur total : Z) (fields : list jstr) w : Prop := {
  lp_form : single list_form w;
  lp_cur : single cur_page w;
  lp_url : val_of list_url w = VStr url;
  lp_action : attr_of list_form action w = VStr url;
  lp_page : val_of cur_page w = VStr (str_of_Z cur);
  lp_total : val_of page_count w = VStr (str_of_Z total);
  lp_cur_url : apart list_url cur_page w;
  lp_fields : Forall (λ f, Forall (λ s, apart s f w)
    [list_url; cur_page; page_count; js "#order"; js "input[name=checkedIds]"]) fields
}.

(** What leaves the page where it is, and what asks for another one. *)
Inductive download :=
| Export (url : jstr) | Csv (url : jstr) | Ticked (url : jstr) (confirmed : bool) | Reset.
Inductive leave := Search | Enter | Turn (t : turn).
Definition fetch (fields : list jstr) (d : download) : J G unit :=
  match d with
  | Export url => export_list url
  | Csv url => exportCsv url
  | Ticked url confirmed => exportTaskStat url confirmed
  | Reset => resetParam fields
  end.
Definition go (l : leave) : J G unit :=
  match l with Search => search | Enter => enter_key 13 | Turn t => paginationQuery (flag_of t) end.

(** What is asked of the server: [order] is the order chosen and [ids] what is
    ticked. *)
Definition fetched (order : jval) (ids : list jstr) (d : download) : list event :=
  match d with
  | Export url => [EvSubmitTo list_form (VStr url)]
  | Csv url => [EvSubmitTo list_form (VStr (url ++ js "&orderBy=" ++ str_of_val order))]
  | Ticked url confirmed =>
      match ids with
      | [] => if confirmed then [EvAssign url] else []
      | _ => [EvAssign (url ++ js "&checkedIds=" ++ with_commas ids)]
      end
  | Reset => []
  end.
Definition asked_page (l : leave) (cur total : Z) : Z :=
  match l with Search | Enter => 1 | Turn t => goal_page t cur total end.
Definition can_go (l : leave) (cur total : Z) w : Prop :=
  match l with
  | Turn t => offered t cur total ∧ ∀ j, t = Go j → val_of jump_page w = VStr (str_of_Z j)
  | _ => True
  end.
Definition ticks_of w : list jstr :=
  ticked_values (List.map (nth_elt w) (found (js "input[name=checkedIds]") w)).

Lemma ticks_frame w w' : frame_step (λ e, (e_val e, e_checked e)) w w' → ticks_of w' = ticks_of w.
Proof.
  intros [S _ P]. unfold ticks_of, ticked_values, found. rewrite S.
  induction (default [] _) as [|i l IH]; [done|]. cbn [List.map List.filter].
  pose proof (P i) as [= E1 E2]. rewrite E2. destruct (e_checked (nth_elt w i)); cbn [List.map]; by rewrite ?E1, IH.
Qed.
Lemma frame_val sel w w' : frame_step e_val w w' → val_of sel w' = val_of sel w.
Proof.
  intros F. pose proof (frame_first e_val sel _ _ F) as H. unfold val_of.
  destruct (first sel w), (first sel w'); simplify_eq/=; congruence.
Qed.
Lemma set_attr_sets sel k v w : single sel w → attr_of sel k (upd (with_attr k v) (found sel w) w) = VStr v.
Proof.
  intros H. unfold attr_of. rewrite on_first by done. destruct (single_first _ _ H) as [e ->].
  cbn. by rewrite lookup_insert_eq.
Qed.

(** Scripts that change neither values nor ticks. *)
Abbreviation shown e := (e_val e, e_checked e).
Lemma shown_val w w' : frame_step (λ e, shown e) w w' → frame_step e_val w w'.
Proof. intros [S D P]. constructor; [done|done|]. intros i. by pose proof (P i) as [= E _]. Qed.

Lemma to_list_frames : frames (G := G) (λ e, shown e) (to_list list_form).
Proof. apply frames_bind; [apply frames_gets|]. intros []; try apply frames_ret. by apply frames_on. Qed.
Lemma submit_frames {B} (pi : elt → B) form : frames (G := G) pi (submit form).
Proof. apply frames_bind; [apply frames_gets|intros a; apply frames_emit]. Qed.
Lemma export_frames u : frames (G := G) (λ e, shown e) (export_list u).
Proof.
  apply frames_bind; [by apply frames_on|intros []].
  apply frames_bind; [apply submit_frames|intros []]. apply to_list_frames.
Qed.

Lemma to_list_ok url w : single list_form w → val_of list_url w = VStr url →
  to_list list_form w = (Ok tt, upd (with_attr action url) (found list_form w) w).
Proof. intros H V. unfold to_list. by rewrite (bind_ok _ _ w _ w (val_field list_url w)), V. Qed.
Lemma export_ok u url w : single list_form w → val_of list_url w = VStr url →
  ∃ w', export_list u w = (Ok tt, w') ∧ frame_step (λ e, shown e) w w'
    ∧ attr_of list_form action w' = VStr url ∧ w_ev w' = w_ev w ++ [EvSubmitTo list_form (VStr u)].
Proof.
  intros H V. set (w1 := upd (with_attr action u) (found list_form w) w).
  set (w2 := set_ev (w_ev w1 ++ [EvSubmitTo list_form (VStr u)]) w1).
  assert (set_attr list_form action u w = (Ok tt, w1)) as E1 by done.
  assert (submit list_form w1 = (Ok tt, w2)) as E2.
  { unfold submit. rewrite (bind_ok (attr list_form (js "action")) _ w1 (VStr u) w1); [done|].
    unfold attr, gets. change (js "action") with action. unfold w1. by rewrite set_attr_sets. }
  assert (single list_form w2) as H2 by by apply upd_single.
  assert (val_of list_url w2 = VStr url) as V2.
  { rewrite <-V. apply (frame_val list_url w w2).
    eapply frame_trans; [eapply frame_of; [|exact E1]; by apply frames_on|].
    eapply frame_of; [|exact E2]. apply submit_frames. }
  set (w3 := upd (with_attr action url) (found list_form w2) w2).
  exists w3. assert (export_list u w = (Ok tt, w3)) as E.
  { unfold export_list. rewrite (bind_ok _ _ _ _ _ E1), (bind_ok _ _ _ _ _ E2). by apply to_list_ok. }
  split; [exact E|]. split; [eapply frame_of; [apply export_frames|exact E]|].
  split; [by apply set_attr_sets|done].
Qed.

Lemma page_stays url cur total fields w w' : frame_step (λ e, shown e) w w' →
  attr_of list_form action w' = VStr url →
  list_page url cur total fields w → list_page url cur total fields w'.
Proof.
  intros F A [H1 H2 H3 H4 H5 H6 H7 H8]. pose proof (shown_val _ _ F) as Fv. constructor.
  - by eapply frame_single.
  - by eapply frame_single.
  - by rewrite (frame_val _ _ _ Fv).
  - done.
  - by rewrite (frame_val _ _ _ Fv).
  - by rewrite (frame_val _ _ _ Fv).
  - by eapply frame_apart.
  - eapply Forall_impl; [exact H8|]. intros f K. eapply Forall_impl; [exact K|]. intros s. by eapply frame_apart.
Qed.

(** Emptying the fields of the search. *)
Lemma reset_ok fields w :
  ∃ w', resetParam fields w = (Ok tt, w') ∧ frame_step (λ e, (e_attr e, e_checked e)) w w'
    ∧ w_ev w' = w_ev w ∧ ∀ s, Forall (λ f, apart s f w) fields →
        List.map (nth_elt w') (found s w') = List.map (nth_elt w) (found s w).
Proof.
  unfold resetParam. revert w. induction fields as [|f fields IH]; intros w.
  - exists w. split; [done|]. split; [by constructor|]. done.
  - set (w1 := upd (with_val []) (found f w) w).
    destruct (IH w1) as (w' & E & F & Ev & V). exists w'. cbn [for_each].
    rewrite (bind_ok (set_val f []) _ w tt w1) by done. split; [exact E|].
    assert (frame_step (λ e, (e_attr e, e_checked e)) w w1) as F1 by (apply (frames_on _ f (with_val [])); done).
    split; [by eapply frame_trans|]. split; [by rewrite Ev|].
    intros s [Hs Hr]%Forall_cons. rewrite V by (eapply Forall_impl; [exact Hr|]; intros g; by eapply frame_apart).
    apply List.map_ext_in. intros i Hi. unfold nth_elt, w1, upd. cbn [w_elt set_elt]. rewrite fold_alter_ne; [done|].
    apply Hs. by apply list_elem_of_In.
Qed.

Lemma first_map s w : first s w = head (List.map (nth_elt w) (found s w)).
Proof. unfold first. by destruct (found s w). Qed.

Section session.
Context (url : jstr) (cur total : Z) (fields : list jstr) (order : jval) (ids : list jstr).

(** The page with what the user chose on it. *)
Record browsing w : Prop := {
  br_page : list_page url cur total fields w;
  br_order : val_of (js "#order") w = order;
  br_ticked : ticks_of w = ids
}.

Lemma browsing_shown w w' : frame_step (λ e, shown e) w w' → attr_of list_form action w' = VStr url →
  browsing w → browsing w'.
Proof.
  intros F A [P O I]. constructor; [by eapply page_stays| |].
  - by rewrite (frame_val _ _ _ (shown_val _ _ F)).
  - by rewrite (ticks_frame _ _ F).
Qed.
Lemma browsing_emit e w : browsing w → browsing (set_ev (w_ev w ++ [e]) w).
Proof.
  intros H. apply (browsing_shown w); [by constructor|exact (lp_action _ _ _ _ _ (br_page _ H))|done].
Qed.

Lemma export_keeps u w : browsing w → ∃ w', export_list u w = (Ok tt, w') ∧ browsing w'
  ∧ w_ev w' = w_ev w ++ [EvSubmitTo list_form (VStr u)].
Proof.
  intros H. pose proof (br_page _ H) as P.
  destruct (export_ok u url w (lp_form _ _ _ _ _ P) (lp_url _ _ _ _ _ P)) as (w' & E & F & A & Ev).
  exists w'. split; [exact E|]. split; [by eapply browsing_shown|done].
Qed.
Lemma ticked_keeps u b w : browsing w → ∃ w', exportTaskStat u b w = (Ok tt, w') ∧ browsing w'
  ∧ w_ev w' = w_ev w ++ fetched order ids (Ticked u b).
Proof.
  intros H. unfold exportTaskStat. rewrite (bind_ok checkedIds _ w ids w).
  2: { unfold checkedIds. rewrite (bind_ok (elts_of _) _ w _ w) by done. by rewrite <-(br_ticked _ H). }
  cbn [fetched]. destruct ids as [|i l].
  - change (with_commas []) with (@nil N). rewrite bool_decide_true by done. destruct b; cbn [when].
    + eexists. split; [reflexivity|]. split; [by apply browsing_emit|done].
    + exists w. rewrite app_nil_r. done.
  - rewrite bool_decide_false by (unfold with_commas; cbn; by destruct i).
    eexists. split; [reflexivity|]. split; [by apply browsing_emit|done].
Qed.

Lemma reset_keeps w : browsing w → ∃ w', resetParam fields w = (Ok tt, w') ∧ browsing w' ∧ w_ev w' = w_ev w.
Proof.
  intros [[H1 H2 H3 H4 H5 H6 H7 H8] O I]. destruct (reset_ok fields w) as (w' & E & F & Ev & V).
  assert (∀ s, s ∈ [list_url; cur_page; page_count; js "#order"; js "input[name=checkedIds]"] →
    List.map (nth_elt w') (found s w') = List.map (nth_elt w) (found s w)) as K.
  { intros s Hs. apply V. eapply Forall_impl; [exact H8|]. intros f Hf. by apply (proj1 (Forall_forall _ _) Hf). }
  assert (∀ s, s ∈ [list_url; cur_page; page_count; js "#order"; js "input[name=checkedIds]"] →
    val_of s w' = val_of s w) as K' by (intros s Hs; unfold val_of; by rewrite !first_map, K).
  exists w'. split; [exact E|]. split; [|exact Ev]. constructor; [constructor| |].
  - by eapply frame_single.
  - by eapply frame_single.
  - rewrite K'; [done|]. repeat constructor.
  - rewrite <-H4. apply attr_frame. destruct F as [S D P]. constructor; [done|done|].
    intros i. by pose proof (P i) as [= A _].
  - rewrite K'; [done|]. repeat constructor.
  - rewrite K'; [done|]. repeat constructor.
  - by eapply frame_apart.
  - eapply Forall_impl; [exact H8|]. intros f L. eapply Forall_impl; [exact L|]. intros s. by eapply frame_apart.
  - rewrite K'; [done|]. repeat constructor.
  - rewrite <-I. unfold ticks_of. rewrite K; [done|]. repeat constructor.
Qed.

Lemma fetch_keeps d w : browsing w → ∃ w', fetch fields d w = (Ok tt, w') ∧ browsing w'
  ∧ w_ev w' = w_ev w ++ fetched order ids d.
Proof.
  intros H. destruct d as [u|u|u b|]; cbn [fetch].
  - by apply export_keeps.
  - unfold exportCsv. rewrite (bind_ok _ _ w _ w (val_field _ w)), (br_order _ H). by apply export_keeps.
  - by apply ticked_keeps.
  - destruct (reset_keeps w H) as (w' & E & H' & Ev). exists w'. split; [exact E|]. split; [done|].
    by rewrite Ev, app_nil_r.
Qed.
Lemma fetches_keep ds : ∀ w, browsing w → ∃ w', for_each ds (fetch fields) w = (Ok tt, w') ∧ browsing w'
  ∧ w_ev w' = w_ev w ++ List.flat_map (fetched order ids) ds.
Proof.
  induction ds as [|d ds IH]; intros w H; [exists w; by rewrite app_nil_r|].
  destruct (fetch_keeps d w H) as (w1 & E1 & H1 & Ev1). destruct (IH w1 H1) as (w' & E & H' & Ev).
  exists w'. cbn [for_each]. rewrite (bind_ok _ _ _ _ _ E1). split; [exact E|]. split; [done|].
  cbn [List.flat_map]. by rewrite Ev, Ev1, app_assoc.
Qed.
End session.

(** Asking for a page. *)
Lemma submit_ok form w : submit form w = (Ok tt, set_ev (w_ev w ++ [EvSubmitTo form (attr_of form action w)]) w).
Proof. unfold submit, attr. rewrite (bind_ok (gets _) _ w _ w) by done. done. Qed.
Lemma to_first url cur total fields w : list_page url cur total fields w → ∃ w1,
  set_val cur_page (js "1") w = (Ok tt, w1) ∧ single list_form w1 ∧ val_of list_url w1 = VStr url
  ∧ attr_of list_form action w1 = VStr url ∧ val_of cur_page w1 = VStr (js "1") ∧ w_ev w1 = w_ev w.
Proof.
  intros P. destruct (set_val_field cur_page (js "1") w (lp_cur _ _ _ _ _ P)) as (w1 & E & _ & _ & S & V & O).
  exists w1. split; [exact E|]. split; [by eapply S, lp_form|].
  split; [rewrite O by (by eapply lp_cur_url); by eapply lp_url|].
  split; [|split; [done|by injection E as <-]].
  rewrite (attr_frame list_form action w w1); [by eapply lp_action|].
  apply (frame_of e_attr (set_val cur_page (js "1")) _ (Ok tt)); [by apply frames_on|exact E].
Qed.
Lemma search_ok url cur total fields w : list_page url cur total fields w → ∃ w', search w = (Ok tt, w')
  ∧ w_ev w' = w_ev w ++ [EvSubmitTo list_form (VStr url)] ∧ val_of cur_page w' = VStr (js "1").
Proof.
  intros P. destruct (to_first _ _ _ _ _ P) as (w1 & E1 & S & V & _ & Vc & Ev).
  set (w2 := upd (with_attr action url) (found list_form w1) w1).
  unfold search. rewrite (bind_ok _ _ _ _ _ E1), (bind_ok _ _ _ _ _ (to_list_ok _ _ S V)), submit_ok.
  eexists. split; [reflexivity|]. cbn [w_ev set_ev]. rewrite set_attr_sets by done. split; [by rewrite <-Ev|].
  rewrite <-Vc. apply (frame_val cur_page w1 w2). by apply (frames_on e_val list_form (with_attr action url)).
Qed.
Lemma enter_ok url cur total fields w : list_page url cur total fields w → ∃ w', enter_key 13 w = (Ok tt, w')
  ∧ w_ev w' = w_ev w ++ [EvSubmitTo list_form (VStr url)] ∧ val_of cur_page w' = VStr (js "1").
Proof.
  intros P. destruct (to_first _ _ _ _ _ P) as (w1 & E1 & S & _ & A & Vc & Ev).
  destruct (lp_form _ _ _ _ _ P) as (i & e & Hf & _).
  unfold enter_key. rewrite (bind_ok (size_of _) _ w 1 w) by (unfold size_of, gets; fold list_form; by rewrite Hf).
  change (when (negb (1 =? 0) && (13 =? 13)) ?m) with m. rewrite (bind_ok (set_val (js "#currentPage") (js "1")) _ _ _ _ E1).
  change (js "#ListForm") with list_form. rewrite submit_ok, A. eexists. split; [reflexivity|]. split; [cbn; by rewrite Ev|done].
Qed.
Lemma go_ok l url cur total fields w : list_page url cur total fields w → 1 ≤ cur ≤ total → total ≤ pow2_53 →
  can_go l cur total w → ∃ w', go l w = (Ok tt, w')
    ∧ w_ev w' = w_ev w ++ [EvSubmitTo list_form (VStr url)]
    ∧ val_of cur_page w' = VStr (str_of_Z (asked_page l cur total)) ∧ 1 ≤ asked_page l cur total ≤ total.
Proof.
  intros P Hc Ht H. destruct l as [| |t]; cbn [go asked_page].
  - destruct (search_ok _ _ _ _ _ P) as (w' & E & Ev & V). exists w'. split; [done|]. split; [done|]. split; [done|lia].
  - destruct (enter_ok _ _ _ _ _ P) as (w' & E & Ev & V). exists w'. split; [done|]. split; [done|]. split; [done|lia].
  - destruct H as [Ho Hj].
    destruct (turn_page t cur total w (lp_cur _ _ _ _ _ P) (lp_page _ _ _ _ _ P) (lp_total _ _ _ _ _ P) Hc Ht Ho Hj)
      as (w' & E & V & B & Ev & _).
    exists w'. split; [done|]. split; [|done]. rewrite Ev. unfold form_goes.
    change (js "action") with action. by rewrite (lp_action _ _ _ _ _ P).
Qed.
End pages.

(** ** Properties *)

(** C25 -- On a page of a list, whatever is exported, exported of what is ticked
    or emptied in the search, each export goes to its own address, and the page
    stays as the server sent it: the search, the enter key and every way to
    turn pages then ask the list's own address for a page there is. *)
Theorem list_session {G} url cur total fields order ids ds (w : world G) :
  browsing url cur total fields order ids w → 1 ≤ cur ≤ total → total ≤ pow2_53 →
  ∃ w1, for_each ds (fetch fields) w = (Ok tt, w1)
    ∧ browsing url cur total fields order ids w1
    ∧ w_ev w1 = w_ev w ++ List.flat_map (fetched order ids) ds
    ∧ ∀ l, can_go l cur total w1 → ∃ w2, go l w1 = (Ok tt, w2)
        ∧ w_ev w2 = w_ev w1 ++ [EvSubmitTo list_form (VStr url)]
        ∧ val_of cur_page w2 = VStr (str_of_Z (asked_page l cur total))
        ∧ 1 ≤ asked_page l cur total ≤ total.
Proof.
  intros H Hc Ht. destruct (fetches_keep _ _ _ _ _ _ ds w H) as (w1 & E & H1 & Ev).
  exists w1. split; [exact E|]. split; [exact H1|]. split; [exact Ev|].
  intros l. exact (go_ok l url cur total fields w1 (br_page _ _ _ _ _ _ _ H1) Hc Ht).
Qed.

(** C26 -- The log of deliveries is searched exactly when the field of the address
    is empty or holds four numbers of at most three digits, none above 255, with
    dots between them; otherwise a message names the field and nothing is
    asked. *)
Theorem log_search_gate {G} url cur total fields s (w : world G) :
  list_page url cur total fields w → val_of search_ip w = VStr s →
  ∃ w', log_search w = (Ok tt, w')
    ∧ if bool_decide (s = []) || dotted s
      then w_ev w' = w_ev w ++ [EvSubmitTo list_form (VStr url)] ∧ val_of cur_page w' = VStr (js "1")
      else w_ev w' = w_ev w ++ [EvBox (js "ip格式不正确") 0 2000; EvFocus search_ip]
             ∧ list_page url cur total fields w'.
Proof.
  intros P V. destruct (search_ok _ _ _ _ _ P) as (w1 & E & Ev & Vc).
  unfold log_search. rewrite (bind_ok _ _ w _ w (val_field search_ip w)), V.
  change (is_str (VStr s) "") with (loose_eq (VStr s) (VStr [])). cbn [str_of_val loose_eq].
  rewrite checkIp_dotted. destruct (decide (s = [])) as [->|N]; [rewrite !bool_decide_true by done|rewrite !bool_decide_false by done];
    cbn [negb orb]; [exists w1; exact (conj E (conj Ev Vc))|].
  destruct (dotted s); [exists w1; exact (conj E (conj Ev Vc))|].
  eexists. split; [reflexivity|]. cbn [w_ev set_ev]. rewrite <-app_assoc. split; [done|].
  destruct P. by constructor.
Qed.

(** *** A page to try them on *)

Definition demo_box (ticked : bool) (id : string) : elt := with_checked ticked (with_val (js id) blank).
Definition demo_log (ip : jstr) : world unit :=
  page_with [(list_form, with_attr action (js "/delivery/ipDeliveryLog") blank);
             (cur_page, with_value (js "3")); (page_count, with_value (js "7"));
             (list_url, with_value (js "/delivery/ipDeliveryLog")); (jump_page, with_value (js "9"));
             (search_ip, with_value ip); (js "#order", with_value (js "sentCount"));
             (js "input[name=checkedIds]", demo_box true "42")] tt.
Lemma demo_page ip : list_page (js "/delivery/ipDeliveryLog") 3 7 [search_ip] (demo_log ip).
Proof.
  constructor; [on_page..|].
  apply Forall_cons. split; [|done]. on_page.
Qed.
Lemma demo_browsing ip :
  browsing (js "/delivery/ipDeliveryLog") 3 7 [search_ip] (VStr (js "sentCount")) [js "42"] (demo_log ip).
Proof. constructor; [apply demo_page|on_page|]. vm_compute. reflexivity. Qed.

Definition demo_exports : list download :=
  [Export (js "/delivery/exportLog"); Csv (js "/campaign/export?id=1"); Reset; Ticked (js "/report/export?f=1") true].
Lemma list_session_witness :
  ∃ w1 w2, for_each demo_exports (fetch [search_ip]) (demo_log (js "10.0.0.1")) = (Ok tt, w1)
    ∧ w_ev w1 = [EvSubmitTo list_form (VStr (js "/delivery/exportLog"));
                 EvSubmitTo list_form (VStr (js "/campaign/export?id=1&orderBy=sentCount"));
                 EvAssign (js "/report/export?f=1&checkedIds=42,")]
    ∧ go (Turn Last) w1 = (Ok tt, w2)
    ∧ w_ev w2 = w_ev w1 ++ [EvSubmitTo list_form (VStr (js "/delivery/ipDeliveryLog"))]
    ∧ val_of cur_page w2 = VStr (js "7").
Proof.
  destruct (list_session _ 3 7 _ _ _ demo_exports _ (demo_browsing (js "10.0.0.1")) ltac:(lia) ltac:(done))
    as (w1 & E1 & _ & Ev1 & H).
  destruct (H (Turn Last)) as (w2 & E2 & Ev2 & V & _); [split; [done|]; intros j [=]|].
  exists w1, w2. split; [exact E1|]. split; [exact Ev1|]. split; [exact E2|]. split; [exact Ev2|exact V].
Defined.
Lemma log_search_gate_witness :
  ∃ w', log_search (demo_log (js "10.0.0.256")) = (Ok tt, w')
    ∧ w_ev w' = [EvBox (js "ip格式不正确") 0 2000; EvFocus search_ip].
Proof.
  destruct (log_search_gate _ 3 7 _ (js "10.0.0.256") _ (demo_page (js "10.0.0.256")) ltac:(on_page)) as (w' & E & H).
  exists w'. split; [exact E|].
  change (bool_decide (js "10.0.0.256" = []) || dotted (js "10.0.0.256")) with false in H. exact (proj1 H).
Defined.
