(* ===== verification/Labels.v ===== *)
(** * The operators' choice of recipients by property

    [property/labelExport.js], [property/labelImport.js] and the functions of
    [common/common.js] they share: [addAssProp], [removeProp],
    [addPropSelect], [callReloadSum].  The labels of the site are offered in
    one box, [#slideSearchProp], which every field opens for itself; a click on
    a label puts it into the array of the field or takes it out, and the label
    is marked in the box.  The page of the export has two fields, for the labels
    whose recipients are taken and for those whose recipients are left out,
    and counts the recipients; the page of the import has one.

    The session below refines all of it to lists of labels, and is then put in
    front of the two buttons of these pages, [statNum] and [importPropLib]. *)

From S2P Require Import Prelude Js JsFacts Page Layout TagList Url Base Controls Account Operator Task Desk Listing.
#[local] Open Scope Z_scope.

(** ** The variables of the pages *)

(** A label as the server prints it into [ass_prop]. *)
Record label := Label { lb_id : jval; lb_title : jstr; lb_info : jstr; lb_count : jval }.
Record label_page := LabelPage {
  lp_sub : gmap jstr (list item);          (* [enTagVal], [outTagVal], [propVal], by the field they belong to *)
  ass_prop : list (jstr * list label)
}.
Definition lp_get (k : jstr) (g : label_page) : option (list item) := lp_sub g !! k.
Definition lp_set (k : jstr) (l : list item) (g : label_page) : label_page :=
  LabelPage (<[k := l]> (lp_sub g)) (ass_prop g).
Lemma lp_get_set k l g : is_Some (lp_get k g) → lp_get k (lp_set k l g) = Some l.
Proof. intros _. apply lookup_insert_eq. Qed.
#[export] Instance label_sub : SubArr label_page := {
  sub_get := lp_get; sub_set := lp_set; sub_get_set := lp_get_set
}.

Abbreviation L := (J label_page).

Definition tag_of (b : label) : tag := Tag (lb_id b) (lb_title b) (lb_count b).
Definition tags_of (json : list (jstr * list label)) : list (jstr * list tag) :=
  List.map (λ c, (fst c, List.map tag_of (snd c))) json.

Section scripts.

(** [$("a[data-id="+id+"]").attr("data-info")] *)
Definition info_of (id : jval) (w : world label_page) : jval :=
  attr_of (js "a[data-id=" ++ str_of_val id ++ js "]") (js "data-info") w.

Definition chosen_cls : jstr := js "selected".
Definition box_rows : jstr := js "#slideSearchProp ul li".
(** The row of the label [id] in the box. *)
Definition row_of (id : jstr) : jstr := js "#slideSearchProp ul li a[data-id='" ++ id ++ js "'].parents('li')".

(** [addPropSelect(inputId)] *)
Definition addPropSelect (inputId : jstr) : L unit :=
  removeClass box_rows chosen_cls ;;
  ids ← val (hidden inputId);
  match ids with
  | VStr [] => skip
  | VStr s => for_each (splitc c_comma s) (λ id, addClass (row_of id) chosen_cls)
  | _ => throw (js "TypeError")
  end.

(** [addAssProp(obj,inputId,itemArr,fn)]: [itemArr] is the array of the field;
    the [li] above the label clicked is the row of its id. *)
Definition addAssProp (o : node) (cate_info : jval) (inputId : jstr) (fn : L unit) : L unit :=
  let tagLimit := 10 in
  selected ← hasClass (row_of (n_attr o)) chosen_cls;
  itemArr ← subArr inputId;
  if negb selected && (tagLimit <=? Z.of_nat (length itemArr))
  then message (VStr (js "选择标签数不能大于" ++ str_of_Z tagLimit ++ js "个！")) 1
  else
    info ← gets (λ w id, info_of id w);
    let l := if selected then removeArrItem itemArr (VStr (n_text o))
             else pick_prop info itemArr (VStr (n_attr o)) (VStr (n_text o)) cate_info in
    set_subArr inputId l ;;
    addItemInput l inputId ;;
    addPropSelect inputId ;;
    fn.

(** [removeProp(itemArr,item,inputId,fn)] *)
Definition removeProp (it : jstr) (inputId : jstr) (fn : L unit) : L unit :=
  itemArr ← subArr inputId;
  let l := removeArrItem itemArr (VStr it) in
  set_subArr inputId l ;;
  addItemInput l inputId ;;
  addPropSelect inputId ;;
  fn.

(** The [keydown] of a field; every key is kept from the browser. *)
Definition label_keydown (inputId : jstr) (keyCode caret : Z) (fn : L unit) : L bool :=
  (if keyCode =? 8
   then v ← val inputId; removeProp (getDeleteItem (field v) caret) inputId fn
   else skip) ;;
  mret true.

Definition enTag : jstr := js "#enTag".
Definition outTag : jstr := js "#outTag".
Definition propTag : jstr := js "#assProp".
Definition personSum : jstr := js "#personSum".

(** [callReloadSum()] of the export *)
Definition callReloadSum : L unit :=
  g ← get_glob;
  en ← subArr enTag;
  out ← subArr outTag;
  set_html personSum (str_of_num (reloadPersonSum (tags_of (ass_prop g)) en out)).
End scripts.

(** * Facts *)

#[export] Instance label_eq_dec : EqDecision label.
Proof. solve_decision. Defined.

Lemma keep_keep {A} (P Q : A → bool) l : keep P (keep Q l) = keep (λ x, Q x || P x) l.
Proof.
  unfold keep. induction l as [|x l IH]; [done|]. simpl.
  destruct (Q x); simpl; [done|]. destruct (P x); simpl; by rewrite IH.
Qed.
Lemma elem_of_keep {A} (P : A → bool) l x : x ∈ keep P l ↔ x ∈ l ∧ P x = false.
Proof. rewrite !list_elem_of_In. apply keep_In. Qed.
Lemma keep_sublist {A} (P : A → bool) l : sublist (keep P l) l.
Proof. apply filter_keeps_sublist. Qed.
Lemma sole_unique {A} (Q : A → bool) l :
  NoDup l → (∀ x y, x ∈ l → y ∈ l → Q x = true → Q y = true → x = y) → sole Q l.
Proof.
  intros Hn Hu. unfold sole. assert (NoDup (List.filter Q l)) as Hf by (by apply NoDup_filter_list).
  assert (∀ x, x ∈ List.filter Q l → x ∈ l ∧ Q x = true) as Hm.
  { intros x. rewrite !list_elem_of_In. apply filter_In. }
  destruct (List.filter Q l) as [|x [|y k]]; [simpl; lia..|]. exfalso.
  assert (x ∈ x :: y :: k ∧ y ∈ x :: y :: k) as [[Hx Qx]%Hm [Hy Qy]%Hm] by (split; repeat constructor).
  apply NoDup_cons in Hf as [Hxy _]. apply Hxy. rewrite (Hu x y) by done. constructor.
Qed.

Lemma fold_left_ext_in {A B} (f g : A → B → A) (k : list B) (c : A) : (∀ x, x ∈ k → ∀ c, f c x = g c x) → List.fold_left f k c = List.fold_left g k c.
Proof.
  revert c. induction k as [|x k IH]; intros c H; [done|]. cbn [List.fold_left].
  rewrite (H x) by constructor. apply IH. intros y Hy. apply H. by constructor.
Qed.
Lemma fold_left_same {A B} (f : A → B → A) (k : list B) (c : A) : (∀ x, x ∈ k → ∀ c, f c x = c) → List.fold_left f k c = c.
Proof.
  revert c. induction k as [|x k IH]; intros c H; [done|]. cbn [List.fold_left].
  rewrite H by constructor. apply IH. intros y Hy. apply H. by constructor.
Qed.

(** ** The labels of the server *)

Section labels.
Context (json : list (jstr * list label)).
Implicit Types (b x y : label) (l k : list label) (it : item) (a : list item).

Definition labels : list label := List.flat_map snd json.
(** The id of a label as text: the [data-id] of its row. *)
Definition key b : jstr := str_of_val (lb_id b).
Definition row_node b : node := Node (key b) (lb_id b) (lb_title b).

(** The ids are numbers, and neither an id nor a title is given twice. *)
Record labels_ok : Prop := {
  lo_id : ∀ b, b ∈ labels → ∃ z, lb_id b = VNum (JInt z) ∧ 0 ≤ z ≤ pow2_53;
  lo_ids : ∀ x y, x ∈ labels → y ∈ labels → lb_id x = lb_id y → x = y;
  lo_titles : ∀ x y, x ∈ labels → y ∈ labels → lb_title x = lb_title y → x = y
}.

(** A field holds labels of the server, none twice, at most ten, and at most one
    of a category that is not the industry interests. *)
Record chosen_ok l : Prop := {
  co_nodup : NoDup l;
  co_known : ∀ b, b ∈ l → b ∈ labels;
  co_ten : (length l ≤ 10)%nat;
  co_cate : ∀ c, c ≠ industry → sole (λ x, bool_decide (lb_info x = c)) l
}.

(** Adding a label: the label itself goes to the end, and what is of its
    category is taken out, unless the category is the industry interests. *)
Definition clash b x : bool :=
  bool_decide (x = b) || negb (bool_decide (lb_info b = industry)) && bool_decide (lb_info x = lb_info b).
Definition add b l : list label := keep (clash b) l ++ [b].

Lemma keep_ok P l : chosen_ok l → chosen_ok (keep P l).
Proof.
  intros [Hn Hk Ht Hc]. constructor.
  - by eapply sublist_NoDup; [|apply keep_sublist].
  - intros b [Hb _]%elem_of_keep. by apply Hk.
  - etrans; [|exact Ht]. apply sublist_length, keep_sublist.
  - intros c Hi. by apply sole_keep, Hc.
Qed.

Lemma add_label_ok b l : chosen_ok l → b ∈ labels → (length l < 10)%nat → chosen_ok (add b l).
Proof.
  intros H Hb Hl. destruct (keep_ok (clash b) l H) as [Hn Hk Ht Hc]. unfold add. constructor.
  - apply NoDup_app. split; [done|]. split; [|apply NoDup_singleton].
    intros x [_ Hx]%elem_of_keep ->%list_elem_of_singleton. unfold clash in Hx.
    by rewrite (bool_decide_eq_true_2 (b = b) eq_refl) in Hx.
  - intros x [Hx|Hx]%elem_of_app; [by apply Hk|]. apply list_elem_of_singleton in Hx as ->. done.
  - rewrite length_app. pose proof (sublist_length _ _ (keep_sublist (clash b) l)). simpl. lia.
  - intros c Hi. unfold sole. rewrite List.filter_app, length_app. cbn [List.filter].
    case_bool_decide as Hbc; cbn [length]; [|rewrite Nat.add_0_r; by apply Hc].
    destruct (List.filter (λ x, bool_decide (lb_info x = c)) (keep (clash b) l)) as [|x r] eqn:E; [simpl; lia|].
    exfalso. assert (In x (x :: r)) as Hx by (by left). rewrite <-E in Hx. apply filter_In in Hx as [Hx Ex].
    apply keep_In in Hx as [_ Hx]. unfold clash in Hx. subst c. apply orb_false_iff in Hx as [_ Hx].
    rewrite (bool_decide_eq_false_2 (lb_info b = industry)), Ex in Hx by done. done.
Qed.

(** ** The arrays of a field *)

(** An item of the array stands for a label; an id that the field had when the
    page was loaded is a number, one that was picked is a text. *)
Record stands it b : Prop := {
  st_id : item_id it = lb_id b ∨ item_id it = VStr (key b);
  st_title : item_title it = VStr (lb_title b);
  st_info : loose_eq (at_ 2 it) (VStr industry) = bool_decide (lb_info b = industry)
}.
Abbreviation holds := (Forall2 stands).

Context (Hj : labels_ok).

Lemma key_of b : b ∈ labels → ∃ z, lb_id b = VNum (JInt z) ∧ 0 ≤ z ≤ pow2_53 ∧ key b = str_of_Z z.
Proof. intros Hb. destruct (lo_id Hj b Hb) as (z & E & Hz). exists z. split; [done|]. split; [done|]. unfold key. rewrite E. by apply str_of_int. Qed.

Lemma id_eq (v u : jval) x b :
  x ∈ labels → b ∈ labels → v = lb_id x ∨ v = VStr (key x) → u = lb_id b ∨ u = VStr (key b) →
  loose_eq v u = bool_decide (x = b).
Proof.
  intros Hx Hb Hv Hu. destruct (key_of x Hx) as (z & Ez & Hz & Kz), (key_of b Hb) as (c & Ec & Hc & Kc).
  assert (bool_decide (x = b) = bool_decide (z = c)) as ->.
  { apply bool_decide_ext. split; [intros ->; congruence|]. intros ->. apply (lo_ids Hj); congruence. }
  rewrite Kz in Hv. rewrite Kc in Hu. rewrite Ez in Hv. rewrite Ec in Hu.
  assert (num_eq (JInt z) (JInt c) = bool_decide (z = c)) as Hn.
  { cbn. apply bool_decide_ext. split; congruence. }
  destruct Hv as [->| ->], Hu as [->| ->]; cbn [loose_eq]; rewrite ?to_number_str_of_Z by done; [done..| |].
  - rewrite <-Hn. cbn. apply bool_decide_ext. split; congruence.
  - apply bool_decide_ext. split; [|by intros ->]. intros E. apply str_of_Z_inj in E; lia.
Qed.

Lemma key_inj x b : x ∈ labels → b ∈ labels → key x = key b → x = b.
Proof.
  intros Hx Hb E. pose proof (id_eq (VStr (key x)) (VStr (key b)) x b Hx Hb (or_intror eq_refl) (or_intror eq_refl)) as H.
  cbn [loose_eq] in H. rewrite bool_decide_eq_true_2 in H by done. symmetry in H. by apply bool_decide_eq_true in H.
Qed.

Lemma holds_known a l (P : item → bool) (Q : label → bool) :
  holds a l → (∀ b, b ∈ l → b ∈ labels) → (∀ it b, b ∈ labels → stands it b → P it = Q b) →
  Forall2 (λ it b, stands it b ∧ P it = Q b) a l.
Proof.
  intros H. induction H as [|it b a l Hb _ IH]; intros Hk Ha; [constructor|]. constructor.
  - split; [done|]. apply Ha; [apply Hk; constructor|done].
  - apply IH; [|done]. intros x Hx. apply Hk. by constructor.
Qed.

(** Taking out of the array what stands for certain labels. *)
Lemma holds_keep a l (P : item → bool) (Q : label → bool) :
  holds a l → (∀ b, b ∈ l → b ∈ labels) → (∀ it b, b ∈ labels → stands it b → P it = Q b) → sole Q l →
  holds (keep P a) (keep Q l) ∧ sole P a.
Proof.
  intros H Hk Ha Hs. pose proof (holds_known a l P Q H Hk Ha) as H'. split.
  - eapply Forall2_impl; [eapply (Forall2_keep _ P Q); [|exact H']|]; by intros ? ? [].
  - eapply (Forall2_sole _ P Q); [|exact H'|done]. by intros ? ? [].
Qed.

Lemma remove_holds a l t :
  holds a l → chosen_ok l →
  holds (removeArrItem a (VStr t)) (keep (λ x, bool_decide (lb_title x = t)) l).
Proof.
  intros H Hl. destruct (holds_keep a l (λ it, loose_eq (item_title it) (VStr t)) (λ x, bool_decide (lb_title x = t)))
    as [Hk Hs]; [done|apply (co_known _ Hl)| | |].
  - intros it b _ Hb. rewrite (st_title _ _ Hb). cbn [loose_eq]. apply bool_decide_ext. split; congruence.
  - apply sole_unique; [apply (co_nodup _ Hl)|]. intros x y Hx Hy Ex Ey. apply bool_decide_eq_true in Ex, Ey.
    apply (lo_titles Hj); [by apply (co_known _ Hl)..|congruence].
  - unfold removeArrItem. by rewrite sole_splice_scan.
Qed.

(** The categories the page finds for the ids. *)
Context (info : jval → jval)
  (Hinfo : ∀ b v, b ∈ labels → v = lb_id b ∨ v = VStr (key b) → info v = VStr (lb_info b)).

Lemma pick_holds a l b :
  holds a l → chosen_ok l → b ∈ labels →
  holds (pick_prop info a (VStr (key b)) (VStr (lb_title b)) (VStr (lb_info b))) (add b l).
Proof.
  intros H Hl Hb. unfold pick_prop, add.
  set (same := λ it, loose_eq (item_id it) (VStr (key b))).
  assert (∀ it x, x ∈ labels → stands it x → same it = bool_decide (x = b)) as Hsame.
  { intros it x Hx Hs. apply id_eq; [done..|apply Hs|by right]. }
  assert (∀ k, chosen_ok k → sole (λ x, bool_decide (x = b)) k) as Hsole.
  { intros k Hk. apply sole_unique; [apply Hk|]. intros x y _ _ Ex Ey. apply bool_decide_eq_true in Ex, Ey. congruence. }
  replace (loose_eq (VStr (lb_info b)) (VStr industry)) with (bool_decide (lb_info b = industry))
    by (cbn [loose_eq]; apply bool_decide_ext; split; congruence).
  case_bool_decide as Hi.
  - rewrite filterArr_spec. change (item_id [_; _; _]) with (VStr (key b)). fold same.
    destruct (holds_keep a l same (λ x, bool_decide (x = b)) H (co_known _ Hl) Hsame (Hsole l Hl)) as [Hk Hs].
    rewrite sole_remove_first by done. apply Forall2_app.
    + replace (keep (clash b) l) with (keep (λ x, bool_decide (x = b)) l); [done|].
      apply filter_ext. intros x. unfold clash. by rewrite (bool_decide_eq_true_2 _ Hi), orb_false_r.
    + constructor; [|done]. constructor; [by right|done|]. cbn [at_ nth loose_eq]. apply bool_decide_ext. by split.
  - set (cate := λ it, loose_eq (info (item_id it)) (VStr (lb_info b))).
    destruct (holds_keep a l cate (λ x, bool_decide (lb_info x = lb_info b)) H (co_known _ Hl)) as [Hk Hs].
    { intros it x Hx Hs. unfold cate. rewrite (Hinfo x) by (done || apply Hs). cbn [loose_eq].
      apply bool_decide_ext. split; congruence. }
    { by apply (co_cate _ Hl). }
    rewrite sole_splice_scan by done. rewrite filterArr_spec. change (item_id [_; _]) with (VStr (key b)). fold same.
    pose proof (keep_ok (λ x, bool_decide (lb_info x = lb_info b)) l Hl) as Hl'.
    destruct (holds_keep _ _ same (λ x, bool_decide (x = b)) Hk (co_known _ Hl') Hsame (Hsole _ Hl')) as [Hk2 Hs2].
    rewrite sole_remove_first by done. apply Forall2_app.
    + rewrite (keep_keep _ _ l) in Hk2. replace (keep (clash b) l) with
        (keep (λ x, bool_decide (lb_info x = lb_info b) || bool_decide (x = b)) l); [done|].
      apply filter_ext. intros x. unfold clash. rewrite (bool_decide_eq_false_2 (lb_info b = industry)) by done.
      f_equal. apply orb_comm.
    + constructor; [|done]. constructor; [by right|done|]. by rewrite bool_decide_eq_false_2.
Qed.

(** The texts of the field and of the hidden field. *)
Definition text l : jstr := join (js ", ") (List.map lb_title l).
Definition id_line l : jstr := join [c_comma] (List.map key l).

Lemma holds_texts a l : holds a l → (∀ b, b ∈ l → b ∈ labels) → title_text a = text l ∧ id_text a = id_line l.
Proof.
  intros H Hk. unfold title_text, text, id_text, id_line.
  cut (List.map (λ it, str_of_elem (item_title it)) a = List.map lb_title l
       ∧ List.map (λ it, str_of_elem (item_id it)) a = List.map key l); [by intros [-> ->]|].
  induction H as [|it b a l Hb _ IH]; [done|]. cbn [List.map]. rewrite (st_title _ _ Hb).
  destruct IH as [-> ->]; [intros x Hx; apply Hk; by constructor|]. split; [done|]. f_equal.
  destruct (st_id _ _ Hb) as [-> | ->]; [|done].
  destruct (key_of b) as (z & E & _); [apply Hk; constructor|]. unfold key. by rewrite E.
Qed.

Lemma digits_sep_free z : 0 ≤ z → sep_free c_comma (str_of_Z z) ∧ str_of_Z z ≠ [].
Proof.
  intros Hz. unfold str_of_Z. rewrite (proj2 (Z.ltb_ge _ _)) by lia.
  destruct (str_of_N_spec (Z.to_N z)) as (Hd & _ & Hne). split; [|done].
  intros Hc. unfold all_digits in Hd. by apply (proj1 (Forall_forall _ _) Hd) in Hc.
Qed.

(** The ids of the hidden field, taken apart again. *)
Lemma id_line_split l : (∀ b, b ∈ l → b ∈ labels) → l ≠ [] → id_line l ≠ [] ∧ splitc c_comma (id_line l) = List.map key l.
Proof.
  intros Hk Hne. unfold id_line. assert (splitc c_comma (join [c_comma] (List.map key l)) = List.map key l) as E.
  { apply splitc_join; [by destruct l|]. apply List.Forall_map, Forall_forall. intros b Hb%Hk.
    destruct (key_of b Hb) as (z & _ & Hz & ->). apply digits_sep_free. lia. }
  split; [|done]. intros H. rewrite H in E. destruct l as [|b l]; [done|].
  destruct (key_of b) as (z & _ & Hz & Kz); [apply Hk; constructor|].
  change (splitc c_comma []) with [@nil N] in E. injection E as E _. rewrite Kz in E. symmetry in E. revert E.
  apply digits_sep_free. lia.
Qed.

(** ** The recipients of a choice *)

Definition count_of b : Z := match tag_count (tag_of b) with JInt n => n | _ => 0 end.
(** A label counts when it is taken and not left out. *)
Definition recipients (en out : list label) : Z :=
  List.fold_right (λ b n, (if bool_decide (b ∈ en) && negb (bool_decide (b ∈ out)) then count_of b else 0) + n)
    0 labels.
(** The counts of the server are numbers whose sum is exact. *)
Record counts_ok : Prop := {
  ct_nat : ∀ b, b ∈ labels → tag_count (tag_of b) = JInt (count_of b) ∧ 0 ≤ count_of b;
  ct_sum : List.fold_right (λ b n, count_of b + n) 0 labels ≤ pow2_53
}.

Lemma in_array a l b (v : jval) : holds a l → chosen_ok l → b ∈ labels → v = lb_id b ∨ v = VStr (key b) →
  let P it := loose_eq (item_id it) v in
  sole P a ∧ existsb P a = bool_decide (b ∈ l).
Proof.
  intros H Hl Hb Hv P. destruct (holds_keep a l P (λ x, bool_decide (x = b)) H (co_known _ Hl)) as [_ Hs].
  { intros it x Hx Hs. apply id_eq; [done..|apply Hs|done]. }
  { apply sole_unique; [apply Hl|]. intros x y _ _ Ex Ey. apply bool_decide_eq_true in Ex, Ey. congruence. }
  split; [done|].
  pose proof (holds_known a l P (λ x, bool_decide (x = b)) H (co_known _ Hl)) as H'.
  rewrite (Forall2_existsb (λ it x, stands it x ∧ P it = bool_decide (x = b)) P (λ x, bool_decide (x = b))
    (λ _ _ h, proj2 h) a l).
  2: { apply H'. intros it x Hx Hs'. apply id_eq; [done..|apply Hs'|done]. }
  apply eq_true_iff_eq. rewrite existsb_exists, bool_decide_eq_true, list_elem_of_In. split.
  - intros (x & Hx & E). apply bool_decide_eq_true in E as ->. done.
  - intros Hin. exists b. split; [done|]. by apply bool_decide_eq_true.
Qed.

Lemma holds_in a l it : holds a l → it ∈ a → ∃ b, b ∈ l ∧ stands it b.
Proof.
  induction 1 as [|x b a l Hb _ IH]; [by intros ?%elem_of_nil|]. intros [->|Hit]%elem_of_cons.
  - exists b. split; [constructor|done].
  - destruct IH as (c & Hc & Hs); [done|]. exists c. split; [by constructor|done].
Qed.

Lemma sum_tag_label en out E O b n :
  holds en E → holds out O → chosen_ok E → chosen_ok O → counts_ok → b ∈ labels → 0 ≤ n → n + count_of b ≤ pow2_53 →
  sum_tag en out (JInt n) (tag_of b)
  = JInt (n + if bool_decide (b ∈ E) && negb (bool_decide (b ∈ O)) then count_of b else 0).
Proof.
  intros He Ho HE HO [Hc _] Hb Hn Hs. destruct (Hc b Hb) as [Ec Hc0]. unfold sum_tag. rewrite Ec.
  change (t_id (tag_of b)) with (lb_id b).
  destruct (in_array en E b (lb_id b)) as [Se Xe]; [done..|by left|].
  destruct (in_array out O b (lb_id b)) as [So Xo]; [done..|by left|].
  set (f := λ c, num_add c (JInt (count_of b))). set (g := λ c, num_sub c (JInt (count_of b))).
  assert (List.fold_left (λ c e, if loose_eq (item_id e) (lb_id b) then num_add c (JInt (count_of b)) else c) en (JInt n)
    = JInt (n + if bool_decide (b ∈ E) then count_of b else 0)) as ->.
  { etrans; [exact (fold_sole _ f en (JInt n) Se)|]. rewrite Xe. destruct (bool_decide (b ∈ E)).
    - unfold f. apply num_add_exact. lia.
    - f_equal. lia. }
  rewrite (fold_left_ext_in _ (λ c o, if loose_eq (item_id o) (lb_id b)
    then if bool_decide (b ∈ E) then g c else c else c)).
  - etrans; [exact (fold_sole _ (λ c, if bool_decide (b ∈ E) then g c else c) out _ So)|]. rewrite Xo.
    destruct (bool_decide (b ∈ O)), (bool_decide (b ∈ E)); cbn [andb negb]; try (f_equal; lia).
    unfold g, num_sub, num_neg. rewrite num_add_exact by lia. f_equal. lia.
  - intros o Hin c. destruct (holds_in _ _ _ Ho Hin) as (y & Hy & Hoy). apply (co_known _ HO) in Hy.
    rewrite (id_eq (item_id o) (lb_id b) y b) by (done || apply Hoy || by left).
    destruct (decide (y = b)) as [-> | Hne];
      [rewrite (bool_decide_eq_true_2 (b = b)) by done|rewrite (bool_decide_eq_false_2 (y = b)) by done].
    + destruct (in_array en E b (item_id o)) as [Se' Xe']; [done..|apply Hoy|].
      rewrite (fold_left_ext_in _ (λ c e, if loose_eq (item_id e) (item_id o) then g c else c)).
      * etrans; [exact (fold_sole _ g en c Se')|]. by rewrite Xe'.
      * intros e He' c'. destruct (holds_in _ _ _ He He') as (x & Hx & Hex). apply (co_known _ HE) in Hx.
        rewrite (id_eq (item_id o) (item_id e) b x), (id_eq (item_id e) (item_id o) x b) by (done || apply Hex || apply Hoy).
        rewrite andb_true_r. replace (bool_decide (b = x)) with (bool_decide (x = b)); [done|].
        apply bool_decide_ext. by split.
    + apply fold_left_same. intros e _ c'. by rewrite andb_false_r.
Qed.

(** The sum of the script over the categories is the number of the recipients. *)
Lemma sum_labels en out E O (bs : list label) n :
  holds en E → holds out O → chosen_ok E → chosen_ok O → counts_ok → (∀ b, b ∈ bs → b ∈ labels) →
  0 ≤ n → n + List.fold_right (λ b n, count_of b + n) 0 bs ≤ pow2_53 →
  List.fold_left (sum_tag en out) (List.map tag_of bs) (JInt n)
  = JInt (n + List.fold_right (λ b n, (if bool_decide (b ∈ E) && negb (bool_decide (b ∈ O)) then count_of b else 0) + n) 0 bs).
Proof.
  intros He Ho HE HO Hc. revert n. induction bs as [|b bs IH]; intros n Hk Hn Hs.
  - cbn. by rewrite Z.add_0_r.
  - cbn [List.map List.fold_left List.fold_right] in *.
    assert (b ∈ labels) as Hb by (apply Hk; constructor). destruct (ct_nat Hc b Hb) as [_ Hc0].
    assert (0 ≤ List.fold_right (λ b n, count_of b + n) 0 bs) as Hr.
    { assert (∀ x, x ∈ bs → x ∈ labels) as Hk' by (intros; apply Hk; by constructor). clear -Hk' Hc.
      induction bs as [|x bs IH]; [done|]. cbn. destruct (ct_nat Hc x) as [_ ?]; [apply Hk'; constructor|].
      assert (0 ≤ List.fold_right (λ b n, count_of b + n) 0 bs) by (apply IH; intros; apply Hk'; by constructor). lia. }
    rewrite (sum_tag_label en out E O) by (done || lia).
    rewrite IH; [f_equal; lia|intros; apply Hk; by constructor|destruct (_ && _); lia..].
Qed.

Lemma recipients_counted en out E O :
  holds en E → holds out O → chosen_ok E → chosen_ok O → counts_ok →
  reloadPersonSum (tags_of json) en out = JInt (recipients E O).
Proof.
  intros He Ho HE HO Hc. unfold reloadPersonSum, recipients.
  rewrite <-(Z.add_0_l (List.fold_right _ 0 labels)).
  rewrite <-(sum_labels en out E O labels 0) by (done || apply Hc).
  unfold labels, tags_of. generalize (JInt 0) as n. induction json as [|[c bs] rest IH]; intros n; [done|].
  cbn [List.map List.flat_map fst snd List.fold_left]. rewrite IH, List.map_app, List.fold_left_app. done.
Qed.
End labels.

(** ** The box of the labels *)

(** What a click or a key may change of an element besides its value. *)
Definition seen (e : elt) : look * gmap jstr jstr * jstr := (look_of e, e_attr e, e_html e).
Definition seen_all (e : elt) : look * gmap jstr jstr * list jstr := (look_of e, e_attr e, e_cls e).

Lemma frame_map {G B C} (pi : elt → B) (rho : elt → C) (w w' : world G) :
  (∀ e d, pi e = pi d → rho e = rho d) → frame_step pi w w' → frame_step rho w w'.
Proof. intros H [S D P]. constructor; [done..|]. intros i. by apply H. Qed.

Ltac part :=
  let E := fresh in intros ? ? E;
  first [exact (f_equal fst E) | exact (f_equal snd E) | exact (f_equal (fst ∘ fst) E) | exact (f_equal (snd ∘ fst) E)].

(** Whether the row of an id is marked. *)
Definition marked_row (id : jstr) (w : world label_page) : bool :=
  match first (row_of id) w with Some e => has_class chosen_cls e | None => false end.

Section box.
Context (json : list (jstr * list label)) (Hj : labels_ok json).
Abbreviation labels := (labels json).
Implicit Types (w : world label_page) (b x y : label) (l : list label).

(** The box has one row for every label, and every row is its own. *)
Record rows_ok w : Prop := {
  ro_once : NoDup (found box_rows w);
  ro_row : ∀ b, b ∈ labels → single (row_of (key b)) w ∧ ∀ i, i ∈ found (row_of (key b)) w → i ∈ found box_rows w;
  ro_apart : ∀ x y, x ∈ labels → y ∈ labels → x ≠ y → apart (row_of (key x)) (row_of (key y)) w
}.

Lemma rows_frame {B} (pi : elt → B) w w' : frame_step pi w w' → rows_ok w → rows_ok w'.
Proof.
  intros F [Hn Hr Ha]. assert (∀ s, found s w' = found s w) as Hf by (intros s; unfold found; by rewrite (fs_sel _ _ _ F)).
  constructor.
  - by rewrite Hf.
  - intros b Hb. destruct (Hr b Hb) as [Hs Hi]. rewrite !Hf. split; [by eapply frame_single|done].
  - intros x y Hx Hy Hxy. eapply frame_apart; [exact F|by apply Ha].
Qed.

Lemma marked_frame w w' id : frame_step e_cls w w' → marked_row id w' = marked_row id w.
Proof.
  intros F. pose proof (frame_first e_cls (row_of id) _ _ F) as H. unfold marked_row.
  destruct (first (row_of id) w'), (first (row_of id) w); try done. injection H as H.
  unfold has_class. by rewrite H.
Qed.

Lemma unmark_all w b : rows_ok w → b ∈ labels → marked_row (key b) (removeClass box_rows chosen_cls w).2 = false.
Proof.
  intros [Hn Hr _] Hb. destruct (Hr b Hb) as [(i & e & Hf & He) Hi]. unfold marked_row, first.
  change (found (row_of (key b)) (removeClass box_rows chosen_cls w).2) with (found (row_of (key b)) w).
  rewrite Hf. unfold nth_elt. cbn [removeClass on modify snd upd w_elt set_elt].
  rewrite fold_alter_in; [|done|apply Hi; rewrite Hf; constructor]. rewrite He. apply has_class_removed.
Qed.

Lemma mark_row w x b : rows_ok w → x ∈ labels → b ∈ labels →
  marked_row (key b) (addClass (row_of (key x)) chosen_cls w).2 = bool_decide (b = x) || marked_row (key b) w.
Proof.
  intros [_ Hr Ha] Hx Hb. unfold marked_row. cbn [addClass on modify snd]. destruct (decide (b = x)) as [-> | Hne].
  - rewrite on_first by apply Hr, Hx. destruct (single_first _ _ (proj1 (Hr x Hx))) as [e ->].
    cbn. rewrite has_class_add. by rewrite !bool_decide_eq_true_2 by done.
  - rewrite bool_decide_eq_false_2 by done. by rewrite first_upd_ne by (by apply Ha).
Qed.

Lemma mark_rows l w : rows_ok w → (∀ b, b ∈ l → b ∈ labels) →
  ∃ w', for_each (List.map key l) (λ id, addClass (row_of id) chosen_cls) w = (Ok tt, w')
    ∧ frame_step seen w w' ∧ w_glob w' = w_glob w
    ∧ ∀ b, b ∈ labels → marked_row (key b) w' = bool_decide (b ∈ l) || marked_row (key b) w.
Proof.
  revert w. induction l as [|x l IH]; intros w Hr Hk.
  - exists w. split; [done|]. split; [done|]. split; [done|]. intros b _.
    by rewrite bool_decide_eq_false_2 by apply not_elem_of_nil.
  - assert (x ∈ labels) as Hx by (apply Hk; constructor).
    set (w1 := (addClass (row_of (key x)) chosen_cls w).2).
    assert (frame_step seen w w1) as F1.
    { apply frames_on. intros e. unfold add_class. by destruct (has_class chosen_cls e). }
    destruct (IH w1) as (w' & E & F & G & M); [by eapply rows_frame|intros; apply Hk; by constructor|].
    exists w'. split; [cbn [List.map for_each]; by rewrite (bind_ok (addClass _ _) _ w tt w1 eq_refl)|].
    split; [by eapply frame_trans|]. split; [by rewrite G|]. intros b Hb. rewrite M by done. unfold w1.
    rewrite mark_row by done. rewrite orb_assoc. f_equal. rewrite <-bool_decide_or. apply bool_decide_ext.
    rewrite elem_of_cons. tauto.
Qed.

(** [addPropSelect] marks exactly the labels whose ids the hidden field holds. *)
Lemma addPropSelect_runs input l w :
  rows_ok w → (∀ b, b ∈ l → b ∈ labels) → val_of (hidden input) w = VStr (id_line l) →
  ∃ w', addPropSelect input w = (Ok tt, w') ∧ frame_step seen w w' ∧ w_glob w' = w_glob w
    ∧ ∀ b, b ∈ labels → marked_row (key b) w' = bool_decide (b ∈ l).
Proof.
  intros Hr Hk Hv. unfold addPropSelect. set (w1 := (removeClass box_rows chosen_cls w).2).
  assert (frame_step seen w w1) as F1 by (by apply frames_on).
  rewrite (bind_ok (removeClass _ _) _ w tt w1 eq_refl).
  assert (val_of (hidden input) w1 = VStr (id_line l)) as Hv1.
  { rewrite <-Hv. unfold val_of. pose proof (frame_first seen (hidden input) _ _ F1) as H.
    destruct (first (hidden input) w1), (first (hidden input) w); try done. cbn in H. by injection H as -> _ _ _ _. }
  rewrite (bind_ok (val (hidden input)) _ w1 (VStr (id_line l)) w1) by (by rewrite <-Hv1).
  destruct (mark_rows l w1) as (w' & E & F & G & M); [by eapply rows_frame|done|].
  assert (match id_line l with [] => skip | _ :: _ => for_each (splitc c_comma (id_line l))
            (λ id, addClass (row_of id) chosen_cls) end w1 = (Ok tt, w')) as E'.
  { destruct (decide (l = [])) as [-> | Hne]; [exact E|].
    destruct (id_line_split json Hj l Hk Hne) as [Hn ->]. destruct (id_line l); [done|exact E]. }
  exists w'. split; [etrans; [|exact E']; by destruct (id_line l)|]. split; [by eapply frame_trans|].
  split; [by rewrite G|]. intros b Hb. rewrite M by done. unfold w1. by rewrite unmark_all, orb_false_r.
Qed.
End box.

(** ** Sessions *)

(** What the user does: opens the box for a field, clicks a label in it, presses
    a key in a field. *)
Inductive act (side : Type) := Open (s : side) | Click (s : side) (b : label) | Key (s : side) (code caret : Z).
Arguments Open {side} s.
Arguments Click {side} s b.
Arguments Key {side} s code caret.

(** The labels of each field, and the field whose labels the box marks. *)
Record picked (side : Type) := Picked { of_side : side → list label; marked : option side }.
Arguments Picked {side} of_side marked.
Arguments of_side {side} p s.
Arguments marked {side} p.

Section session.
Context {side : Type} `{EqDecision side} (input_of : side → jstr) `{!Inj (=) (=) input_of}.
Context (json : list (jstr * list label)) (Hj : labels_ok json).
Abbreviation labels := (labels json).
Implicit Types (w : world label_page) (st : picked side) (s q : side) (b : label) (l : list label).

Definition put s l st : picked side := Picked (λ q, if decide (q = s) then l else of_side st q) (Some s).
Definition is_marked st b : bool :=
  match marked st with Some s => bool_decide (b ∈ of_side st s) | None => false end.
Definition is_full l : bool := (10 <=? length l)%nat.

(** A marked label is taken out, another is added unless there are ten; a key
    of a deletion takes out the label the caret stands in. *)
Definition abs_act st (a : act side) : picked side :=
  match a with
  | Open s => Picked (of_side st) (Some s)
  | Click s b =>
      if is_marked st b then put s (keep (λ x, bool_decide (lb_title x = lb_title b)) (of_side st s)) st
      else if is_full (of_side st s) then st
      else put s (add b (of_side st s)) st
  | Key s code caret =>
      if code =? 8
      then put s (keep (λ x, bool_decide (lb_title x = getDeleteItem (text (of_side st s)) caret)) (of_side st s)) st
      else st
  end.
Definition abs_acts st (l : list (act side)) : picked side := List.fold_left abs_act l st.

(** The handlers as a page binds them, with its own last step [fn].  Opening the
    box for a field is the click handler of the search plugin, which builds the
    rows anew, none of them marked, and calls [showSelectFn], here
    [addPropSelect], with the field. *)
Definition handle (fn : L unit) (a : act side) : L unit :=
  match a with
  | Open s => addPropSelect (input_of s)
  | Click s b => addAssProp (row_node b) (VStr (lb_info b)) (input_of s) fn
  | Key s code caret => _ ← label_keydown (input_of s) code caret fn; skip
  end.
Definition offered (a : act side) : Prop := match a with Click _ b => b ∈ labels | _ => True end.

Definition sel_of (c : side * bool) : jstr := if snd c then hidden (input_of (fst c)) else input_of (fst c).

(** The page shows what is picked. *)
Record shows st w : Prop := {
  sh_looks : ∃ v, reads sel_of v w
    ∧ ∀ s, l_val (v (s, false)) = text (of_side st s) ∧ l_val (v (s, true)) = id_line (of_side st s);
  sh_arrays : ∀ s, ∃ a, sub_get (input_of s) (w_glob w) = Some a ∧ Forall2 stands a (of_side st s);
  sh_ok : ∀ s, chosen_ok json (of_side st s);
  sh_json : ass_prop (w_glob w) = json;
  sh_rows : rows_ok json w;
  sh_info : ∀ b, b ∈ labels → info_of (VStr (key b)) w = VStr (lb_info b);
  sh_marks : ∀ b, b ∈ labels → marked_row (key b) w = is_marked st b
}.

(** What a page's last step promises: it counts the arrays into an element of
    the page and changes nothing else. *)
Class Recount (fn : L unit) (place : jstr) (shown : (side → list label) → world label_page → Prop) : Prop := {
  recount_runs : ∀ t w, single place w → ass_prop (w_glob w) = json → (∀ s, chosen_ok json (t s)) →
    (∀ s, ∃ a, sub_get (input_of s) (w_glob w) = Some a ∧ Forall2 stands a (t s)) →
    ∃ w', fn w = (Ok tt, w') ∧ frame_step seen_all w w' ∧ w_glob w' = w_glob w ∧ shown t w';
  recount_keeps : ∀ t w w', (∀ sel, e_html <$> first sel w' = e_html <$> first sel w) → shown t w → shown t w'
}.

Lemma info_frame w w' v : frame_step e_attr w w' → info_of v w' = info_of v w.
Proof.
  intros F. unfold info_of, attr_of. pose proof (frame_first e_attr (js "a[data-id=" ++ str_of_val v ++ js "]") _ _ F) as H.
  destruct (first _ w'), (first _ w); try done. cbn in H |- *. by injection H as ->.
Qed.

Lemma info_shown st w b v : shows st w → b ∈ labels → v = lb_id b ∨ v = VStr (key b) → info_of v w = VStr (lb_info b).
Proof. intros H Hb Hv. rewrite <-(sh_info _ _ H b Hb). by destruct Hv as [-> | ->]. Qed.

Lemma is_marked_put s l st b : is_marked (put s l st) b = bool_decide (b ∈ l).
Proof. unfold is_marked, put. cbn. by rewrite decide_True. Qed.

(** Showing a field in the box. *)
Lemma mark_side st w s :
  (∃ v, reads sel_of v w
    ∧ ∀ s, l_val (v (s, false)) = text (of_side st s) ∧ l_val (v (s, true)) = id_line (of_side st s)) →
  rows_ok json w → (∀ b, b ∈ of_side st s → b ∈ labels) →
  ∃ w', addPropSelect (input_of s) w = (Ok tt, w') ∧ frame_step seen w w' ∧ w_glob w' = w_glob w
    ∧ ∀ b, b ∈ labels → marked_row (key b) w' = bool_decide (b ∈ of_side st s).
Proof.
  intros (v & R & Hv) Hr Hk. apply (addPropSelect_runs json Hj); [done..|].
  pose proof (reads_val _ _ _ (s, true) R) as E. cbn [sel_of fst snd] in E. rewrite E. by rewrite (proj2 (Hv s)).
Qed.

Lemma refill_frames a input : frames (G := label_page) (λ e, (e_attr e, e_cls e)) (set_subArr input a ;; addItemInput a input).
Proof. unfold set_subArr, addItemInput, posfix, apply_place. frames. Qed.

Context (fn : L unit) (place : jstr) (shown : (side → list label) → world label_page → Prop) `{!Recount fn place shown}.

(** The array of a field changed, shown, marked and counted. *)
Lemma side_refilled st w s a l :
  shows st w → single place w → Forall2 stands a l → chosen_ok json l →
  ∃ w', (set_subArr (input_of s) a ;; addItemInput a (input_of s) ;; addPropSelect (input_of s) ;; fn) w = (Ok tt, w')
    ∧ shows (put s l st) w' ∧ single place w' ∧ shown (of_side (put s l st)) w'.
Proof.
  intros H Hp Ha Hl. destruct (sh_looks _ _ H) as (v & R & Hv). destruct (sh_arrays _ _ H s) as (a0 & Hs & _).
  destruct (refill_reads sel_of (s, false) (s, true) a0 a v w eq_refl) as (w1 & E1 & R1 & G1 & _); [done..|].
  change (sel_of (s, false)) with (input_of s) in E1, G1.
  pose proof (frame_of _ _ _ _ _ (refill_frames a (input_of s)) E1) as F1.
  destruct (holds_texts json Hj a l Ha (co_known _ _ Hl)) as [Et Ei].
  set (st' := put s l st).
  assert (∀ q, l_val (at_ctl (s, true) (Controls.put_val (id_text a)) (at_ctl (s, false) (Controls.put_val (title_text a)) v) (q, false)) = text (of_side st' q)
             ∧ l_val (at_ctl (s, true) (Controls.put_val (id_text a)) (at_ctl (s, false) (Controls.put_val (title_text a)) v) (q, true)) = id_line (of_side st' q)) as Hv1.
  { intros q. unfold st', put. cbn [of_side]. destruct (decide (q = s)) as [-> | Hq].
    - rewrite at_ctl_eq, at_ctl_ne, at_ctl_eq by done. by cbn.
    - rewrite !at_ctl_ne by congruence. apply Hv. }
  assert (∀ q, chosen_ok json (of_side st' q)) as Hok.
  { intros q. unfold st', put. cbn [of_side]. destruct (decide (q = s)); [done|apply (sh_ok _ _ H)]. }
  assert (∀ q, ∃ a, sub_get (input_of q) (w_glob w1) = Some a ∧ Forall2 stands a (of_side st' q)) as Har.
  { intros q. rewrite G1. unfold st', put. cbn [of_side]. destruct (decide (q = s)) as [-> | Hq].
    - exists a. split; [by apply lookup_insert_eq|done].
    - destruct (sh_arrays _ _ H q) as (aq & Eq & Hq'). exists aq. split; [|done]. etrans; [|exact Eq].
      apply lookup_insert_ne. intros E. apply Hq. by apply (inj input_of). }
  destruct (mark_side st' w1 s) as (w2 & E2 & F2 & G2 & M2); [by eexists|by eapply rows_frame, (sh_rows _ _ H)|apply (co_known _ _ (Hok s))|].
  destruct (recount_runs (of_side st') w2) as (w3 & E3 & F3 & G3 & D3).
  { eapply frame_single; [exact F2|]. by eapply frame_single. }
  { rewrite G2, G1. apply (sh_json _ _ H). }
  { done. }
  { rewrite G2. exact Har. }
  exists w3. split.
  { rewrite <-bind_assoc, (bind_ok _ _ _ _ _ E1). by rewrite (bind_ok _ _ _ _ _ E2). }
  split; [|split; [eapply frame_single; [exact F3|]; eapply frame_single; [exact F2|]; by eapply frame_single|done]].
  constructor; [|by rewrite G3, G2|done| | | |].
  - eexists. split; [|exact Hv1]. eapply frame_reads; [eapply frame_map; [|exact F3]|].
    { part. }
    eapply frame_reads; [eapply frame_map; [|exact F2]|exact R1]. part.
  - rewrite G3, G2, G1. apply (sh_json _ _ H).
  - eapply rows_frame; [exact F3|]. eapply rows_frame; [exact F2|]. by eapply rows_frame, (sh_rows _ _ H).
  - intros b Hb. rewrite <-(sh_info _ _ H b Hb). rewrite (info_frame w2 w3), (info_frame w1 w2); [apply info_frame| |].
    + eapply frame_map; [|exact F1]. part.
    + eapply frame_map; [|exact F2]. part.
    + eapply frame_map; [|exact F3]. part.
  - intros b Hb. rewrite (marked_frame w2 w3); [|eapply frame_map; [|exact F3]; part].
    rewrite M2 by done. unfold st'. rewrite is_marked_put. unfold put. cbn. by rewrite decide_True.
Qed.

(** A page whose elements only changed their looks in ways the session does not
    read. *)
Lemma shows_frame st w w' : shows st w → frame_step seen_all w w' → w_glob w' = w_glob w → shows st w'.
Proof.
  intros [(v & R & Hv) Ha Ho Hg Hr Hi Hm] F G. constructor; rewrite ?G; try done.
  - exists v. split; [|done]. eapply frame_reads; [eapply frame_map; [|exact F]; part|done].
  - by eapply rows_frame.
  - intros b Hb. rewrite (info_frame w w'); [by apply Hi|]. eapply frame_map; [|exact F]. part.
  - intros b Hb. rewrite (marked_frame w w'); [by apply Hm|]. eapply frame_map; [|exact F]. part.
Qed.

Lemma message_same m n w : ∃ w', message (G := label_page) m n w = (Ok tt, w')
  ∧ w_elt w' = w_elt w ∧ w_sel w' = w_sel w ∧ w_glob w' = w_glob w.
Proof.
  unfold message, error_message, measure, win. jrun.
  destruct (is_num (num n) 10), (gt_num VUndef 0); eexists; (split; [reflexivity|done]).
Qed.

Lemma open_simulates st w s :
  shows st w → single place w → shown (of_side st) w →
  ∃ w', addPropSelect (input_of s) w = (Ok tt, w') ∧ shows (Picked (of_side st) (Some s)) w' ∧ single place w'
    ∧ shown (of_side st) w'.
Proof.
  intros H Hp Hs. destruct (mark_side st w s (sh_looks _ _ H) (sh_rows _ _ H) (co_known _ _ (sh_ok _ _ H s)))
    as (w' & E & F & G & M).
  exists w'. split; [done|]. split; [|split; [by eapply frame_single|]].
  - destruct H as [(v & R & Hv) Ha Ho Hg Hr Hi _]. constructor; rewrite ?G; try done.
    + exists v. split; [|done]. eapply frame_reads; [eapply frame_map; [|exact F]; part|done].
    + by eapply rows_frame.
    + intros b Hb. rewrite (info_frame w w'); [by apply Hi|]. eapply frame_map; [|exact F]. part.
  - eapply recount_keeps; [|exact Hs]. intros sel. apply (frame_first e_html). eapply frame_map; [|exact F]. part.
Qed.

Lemma click_simulates st w s b :
  shows st w → single place w → shown (of_side st) w → b ∈ labels →
  let st' := abs_act st (Click s b) in
  ∃ w', addAssProp (row_node b) (VStr (lb_info b)) (input_of s) fn w = (Ok tt, w')
    ∧ shows st' w' ∧ single place w' ∧ shown (of_side st') w'.
Proof.
  intros H Hp Hs Hb st'. destruct (sh_arrays _ _ H s) as (a & Ea & Ha). pose proof (sh_ok _ _ H s) as Hok.
  unfold addAssProp. change (n_attr (row_node b)) with (key b).
  rewrite (bind_ok (hasClass _ _) _ w (is_marked st b) w) by (rewrite <-(sh_marks _ _ H b Hb); done).
  rewrite (bind_ok _ _ _ _ _ (subArr_ok _ _ _ Ea)).
  assert ((10 <=? Z.of_nat (length a)) = is_full (of_side st s)) as ->.
  { rewrite (Forall2_length _ _ _ Ha). unfold is_full. apply eq_true_iff_eq. rewrite Z.leb_le, Nat.leb_le. lia. }
  unfold st', abs_act. destruct (is_marked st b) eqn:Em; cbn [negb andb]; cbv zeta iota.
  - rewrite (bind_ok (gets _) _ w (λ id, info_of id w) w eq_refl). apply side_refilled; [done..| |by apply keep_ok].
    by apply (remove_holds json).
  - destruct (is_full (of_side st s)) eqn:Ef.
    + destruct (message_same (VStr (js "选择标签数不能大于" ++ str_of_Z 10 ++ js "个！")) 1 w) as (w' & E & He & Hse & Hg).
      exists w'. split; [exact E|]. split; [|split].
      * apply (shows_frame st w w'); [done| |done]. constructor; [done|..]; intros i; unfold nth_elt; by rewrite He.
      * destruct Hp as (i & e & Hf & Hi). exists i, e. unfold found. by rewrite Hse, He.
      * eapply recount_keeps; [|exact Hs]. intros sel. unfold first, found, nth_elt. by rewrite Hse, He.
    + rewrite (bind_ok (gets _) _ w (λ id, info_of id w) w eq_refl). apply side_refilled; [done..| |].
      * apply (pick_holds json); [done| |done..]. intros x v Hx Hv. by eapply info_shown.
      * apply add_label_ok; [done..|]. by apply Nat.leb_gt in Ef.
Qed.

Lemma label_key_simulates st w s code caret :
  shows st w → single place w → shown (of_side st) w →
  let st' := abs_act st (Key s code caret) in
  ∃ w', label_keydown (input_of s) code caret fn w = (Ok true, w')
    ∧ shows st' w' ∧ single place w' ∧ shown (of_side st') w'.
Proof.
  intros H Hp Hs st'. unfold st', abs_act, label_keydown. destruct (code =? 8).
  - destruct (sh_arrays _ _ H s) as (a & Ea & Ha). pose proof (sh_ok _ _ H s) as Hok.
    destruct (sh_looks _ _ H) as (v & R & Hv).
    pose proof (val_reads _ _ _ (s, false) R) as Ev. change (sel_of (s, false)) with (input_of s) in Ev.
    rewrite (proj1 (Hv s)) in Ev.
    destruct (side_refilled st w s _ _ H Hp (remove_holds json Hj a (of_side st s)
      (getDeleteItem (text (of_side st s)) caret) Ha Hok) (keep_ok json _ _ Hok)) as (w' & E & R').
    exists w'. split; [|done]. rewrite (bind_ok _ _ w tt w'); [done|]. rewrite (bind_ok _ _ _ _ _ Ev).
    unfold removeProp. rewrite (bind_ok _ _ _ _ _ (subArr_ok _ _ _ Ea)). exact E.
  - exists w. by split.
Qed.

Lemma label_act_simulates st w a :
  shows st w → single place w → shown (of_side st) w → offered a →
  ∃ w', handle fn a w = (Ok tt, w') ∧ shows (abs_act st a) w' ∧ single place w' ∧ shown (of_side (abs_act st a)) w'.
Proof.
  intros H Hp Hs Ho. destruct a as [s|s b|s code caret]; cbn [handle].
  - exact (open_simulates st w s H Hp Hs).
  - exact (click_simulates st w s b H Hp Hs Ho).
  - destruct (label_key_simulates st w s code caret H Hp Hs) as (w' & E & R). exists w'. split; [|done].
    by rewrite (bind_ok _ _ _ _ _ E).
Qed.

Lemma session_simulates st w es :
  shows st w → single place w → shown (of_side st) w → Forall offered es →
  ∃ w', for_each es (handle fn) w = (Ok tt, w') ∧ shows (abs_acts st es) w' ∧ shown (of_side (abs_acts st es)) w'.
Proof.
  revert st w. induction es as [|e es IH]; intros st w H Hp Hs Ho; [by exists w|].
  apply Forall_cons in Ho as [He Ho]. destruct (label_act_simulates st w e H Hp Hs He) as (w1 & E1 & H1 & P1 & S1).
  destruct (IH _ w1 H1 P1 S1 Ho) as (w' & E & R). exists w'. split; [|exact R].
  cbn [for_each]. by rewrite (bind_ok _ _ _ _ _ E1).
Qed.

(** The page counts when it is loaded, and whenever what is picked changes. *)
Lemma loaded_simulates st w es :
  shows st w → single place w → Forall offered es →
  ∃ w', (fn ;; for_each es (handle fn)) w = (Ok tt, w') ∧ shows (abs_acts st es) w' ∧ shown (of_side (abs_acts st es)) w'.
Proof.
  intros H Hp Ho. destruct (recount_runs (of_side st) w Hp (sh_json _ _ H) (sh_ok _ _ H) (sh_arrays _ _ H))
    as (w1 & E1 & F1 & G1 & S1).
  destruct (session_simulates st w1 es) as (w' & E & R); [by eapply shows_frame|by eapply frame_single|done..|].
  exists w'. split; [|exact R]. by rewrite (bind_ok _ _ _ _ _ E1).
Qed.
End session.

(** ** The page of the export *)

Inductive tag_side := Taken | LeftOut.
#[export] Instance tag_side_eq_dec : EqDecision tag_side.
Proof. solve_decision. Defined.
Definition export_field (s : tag_side) : jstr := match s with Taken => enTag | LeftOut => outTag end.
#[export] Instance export_field_inj : Inj (=) (=) export_field.
Proof. intros [] []; [done| | |done]; intros E; exfalso; revert E; vm_compute; discriminate. Qed.

Definition sum_shown (json : list (jstr * list label)) (t : tag_side → list label) (w : world label_page) : Prop :=
  e_html <$> first personSum w = Some (str_of_Z (recipients json (t Taken) (t LeftOut))).

Lemma recipients_range json E O : counts_ok json → 0 ≤ recipients json E O ≤ pow2_53.
Proof.
  intros [Hc Hs]. unfold recipients. cut (∀ bs, (∀ b, b ∈ bs → b ∈ labels json) →
    0 ≤ List.fold_right (λ b n, (if bool_decide (b ∈ E) && negb (bool_decide (b ∈ O)) then count_of b else 0) + n) 0 bs
      ≤ List.fold_right (λ b n, count_of b + n) 0 bs).
  { intros H. specialize (H (labels json) (λ b h, h)). lia. }
  induction bs as [|b bs IH]; intros H; [done|]. cbn [List.fold_right].
  assert (0 ≤ count_of b) by (apply Hc, H; constructor).
  assert (∀ b, b ∈ bs → b ∈ labels json) as H' by (intros; apply H; by constructor). specialize (IH H').
  destruct (_ && _); lia.
Qed.

Lemma export_recount json : labels_ok json → counts_ok json →
  Recount export_field json callReloadSum personSum (sum_shown json).
Proof.
  intros Hj Hc. constructor.
  - intros t w Hp Hg Hok Ha. destruct (Ha Taken) as (en & Een & Hen), (Ha LeftOut) as (out & Eout & Hout).
    unfold callReloadSum. rewrite (bind_ok get_glob _ w (w_glob w) w eq_refl).
    rewrite (bind_ok _ _ _ _ _ (subArr_ok enTag _ _ Een)), (bind_ok _ _ _ _ _ (subArr_ok outTag _ _ Eout)).
    rewrite Hg, (recipients_counted json Hj en out (t Taken) (t LeftOut)) by done.
    rewrite str_of_int by (by apply recipients_range).
    eexists. split; [reflexivity|]. split; [by apply frames_on|]. split; [done|].
    unfold sum_shown. rewrite on_first by done. by destruct (single_first _ _ Hp) as [e ->].
  - intros t w w' H E. unfold sum_shown. by rewrite H.
Qed.

(** What a session leaves of the table of the elements: all of it. *)
Lemma session_frames {side} (input_of : side → jstr) fn es :
  frames (λ _, tt) fn → frames (λ _, tt) (for_each es (handle input_of fn)).
Proof.
  intros Hf. apply frames_for_each. intros [s|s b|s code caret]; cbn [handle];
    unfold addAssProp, label_keydown, removeProp, addPropSelect, subArr, set_subArr, addItemInput, posfix, apply_place,
      message, error_message; frames; done.
Qed.
Lemma callReloadSum_frames : frames (λ _, tt) callReloadSum.
Proof. unfold callReloadSum, subArr. frames. Qed.

(** *** The button of the export *)

(** A script that runs to the end and sends nothing. *)
Definition silent {G A} (m : J G A) : Prop := ∀ w, ∃ a w', m w = (Ok a, w') ∧ w_ev w' = w_ev w.
Lemma silent_bind {G A B} (m : J G A) (f : A → J G B) : silent m → (∀ a, silent (f a)) → silent (m ≫= f).
Proof.
  intros Hm Hf w. destruct (Hm w) as (a & w1 & E1 & V1), (Hf a w1) as (b & w2 & E2 & V2).
  exists b, w2. rewrite (bind_ok _ _ _ _ _ E1). split; [done|congruence].
Qed.
Lemma silent_gets {G A} (f : world G → A) : silent (gets f).
Proof. intros w. by eexists _, w. Qed.
Lemma silent_on {G} sel f : silent (G := G) (on sel f).
Proof. intros w. by eexists tt, _. Qed.
Lemma silent_ui {G} f : silent (G := G) (mod_ui f).
Proof. intros w. by eexists tt, _. Qed.
Lemma popTips_silent {G} box title tips b : silent (popTips (G := G) box title tips b).
Proof.
  unfold popTips. apply silent_bind; [apply silent_on|intros _]. apply silent_bind; [apply silent_on|intros _].
  apply silent_bind; [destruct b; apply silent_on|intros _].
  unfold openPop, Operator.openCover, centre_pop, win. cbn [truthy].
  repeat first [apply silent_on | apply silent_gets | apply silent_ui | (apply silent_bind; [|intros ?]) ].
Qed.

Lemma statNum_posts {G} params (w : world G) ids h :
  val_of (js "#enTagId") w = VStr ids → e_html <$> first (js "#personSum") w = Some h →
  posts (statNum params w).2
  = (posts w + if negb (bool_decide (ids = [])) && negb (num_eq (parseInt h) (JInt 0)) then 1 else 0)%nat.
Proof.
  intros Hv Hh. unfold statNum.
  rewrite (bind_ok (val _) _ w (VStr ids) w) by (by rewrite <-Hv).
  assert (is_str (VStr ids) "" = bool_decide (ids = [])) as -> by (unfold is_str; cbn [loose_eq]; by apply bool_decide_ext).
  assert (∀ e, is_post e = false → posts (set_ev (w_ev w ++ [e]) w) = (posts w + 0)%nat) as Hq.
  { intros e He. unfold posts. cbn [w_ev set_ev]. rewrite List.filter_app. cbn. rewrite He, app_nil_r. lia. }
  case_bool_decide as Hi; cbn [negb andb]; [by apply Hq|].
  rewrite (bind_ok (html _) _ w (VStr h) w).
  2: { unfold html, gets. destruct (first _ w); [|done]. by injection Hh as ->. }
  cbn [str_of_val]. destruct (num_eq (parseInt h) (JInt 0)); cbn [negb]; [by apply Hq|].
  destruct (popTips_silent remind export_title (js "正在筛选 <img src='/resources/img/loading.gif'/>") false w)
    as (u & w1 & E1 & V1). rewrite (bind_ok _ _ _ _ _ E1).
  rewrite (bind_ok (set_disabled _ _) _ w1 tt (upd (with_disabled true) (found export_btn w1) w1) eq_refl).
  set (w2 := upd _ _ _). rewrite (bind_ok (attr _ _) _ w2 (attr_of export_form action w2) w2 eq_refl).
  unfold posts. cbn [emit modify snd w_ev set_ev]. change (w_ev w2) with (w_ev w1). rewrite V1, List.filter_app, length_app. done.
Qed.

(** ** The page of the import *)

Definition import_field (_ : unit) : jstr := propTag.
#[export] Instance import_field_inj : Inj (=) (=) import_field.
Proof. by intros [] []. Qed.
Lemma import_recount json : Recount import_field json skip propTag (λ _ _, True).
Proof. constructor; [|done]. intros t w _ _ _ _. by exists w. Qed.

Definition of_industry (b : label) : bool := bool_decide (lb_info b = industry).

(** The search of the script for an industry interest among what is picked. *)
Lemma industry_found a l : Forall2 stands a l →
  negb (findArrItem a 2 (VStr industry) =? -1) = existsb of_industry l.
Proof.
  intros Ha. assert (0 ≤ findArrItem a 2 (VStr industry) ∨ findArrItem a 2 (VStr industry) = -1) as Hr.
  { clear. induction a as [|it a IH]; [by right|]. cbn [findArrItem]. destruct (loose_eq _ _); [left; lia|].
    destruct (findArrItem a 2 (VStr industry) =? -1) eqn:E; [by right|]. left. lia. }
  assert (negb (findArrItem a 2 (VStr industry) =? -1) = (-1 <? findArrItem a 2 (VStr industry))) as -> by lia.
  rewrite findArrItem_found. apply (Forall2_existsb stands); [|done]. intros it b Hb. apply (st_info _ _ Hb).
Qed.

(** ** Properties *)

(** C11 -- On the page of the export, from the count of the loaded page on, any
    sequence of opening the box, clicking labels and pressing keys leaves the
    fields, the arrays and the marks of the box as the abstract choice has
    them: a marked label is taken out, another is added unless the field holds
    ten, the one of its category giving way to it, and a deletion takes out the
    label at the caret; no field ever holds two labels of a category that is not
    the industry interests; and the number shown is that of the recipients of
    the labels taken and not left out. *)
Theorem label_session json st es (w : world label_page) :
  labels_ok json → counts_ok json → shows export_field json st w → single personSum w → Forall (offered json) es →
  ∃ w', (callReloadSum ;; for_each es (handle export_field callReloadSum)) w = (Ok tt, w')
    ∧ shows export_field json (abs_acts st es) w' ∧ sum_shown json (of_side (abs_acts st es)) w'.
Proof.
  intros Hj Hc H Hp Ho. pose proof (export_recount json Hj Hc).
  by apply (loaded_simulates export_field json Hj callReloadSum personSum (sum_shown json)).
Qed.

(** C23 -- After any session on the page of the export, its button posts exactly when
    a label is taken and the labels make at least one recipient. *)
Theorem export_gate json st es params (w : world label_page) :
  labels_ok json → counts_ok json → shows export_field json st w → single personSum w → Forall (offered json) es →
  found (js "#enTagId") w = found (hidden enTag) w →
  let t := of_side (abs_acts st es) in
  ∃ w', (callReloadSum ;; for_each es (handle export_field callReloadSum)) w = (Ok tt, w')
    ∧ posts (statNum params w').2
      = (posts w' + if negb (bool_decide (t Taken = [])) && negb (recipients json (t Taken) (t LeftOut) =? 0)%Z then 1 else 0)%nat.
Proof.
  intros Hj Hc H Hp Ho Hl t. pose proof (export_recount json Hj Hc).
  destruct (loaded_simulates export_field json Hj callReloadSum personSum (sum_shown json) st w es H Hp Ho) as (w' & E & H' & S').
  exists w'. split; [exact E|]. fold t in S'.
  assert (frame_step (λ _, tt) w w') as F.
  { eapply frame_of; [|exact E]. apply frames_bind; [apply callReloadSum_frames|intros _]. apply session_frames, callReloadSum_frames. }
  destruct (sh_looks _ _ _ _ H') as (v & R & Hv). pose proof (reads_val _ _ _ (Taken, true) R) as Hids.
  rewrite (proj2 (Hv Taken)) in Hids. fold t in Hids.
  rewrite (statNum_posts params w' (id_line (t Taken)) (str_of_Z (recipients json (t Taken) (t LeftOut)))).
  - rewrite parseInt_str_of_Z, round53_exact by (pose proof (recipients_range json (t Taken) (t LeftOut) Hc); lia).
    f_equal. assert (bool_decide (id_line (t Taken) = []) = bool_decide (t Taken = [])) as ->.
    { apply bool_decide_ext. split; [|by intros ->]. intros Hi. destruct (decide (t Taken = [])) as [|Hne]; [done|].
      destruct (id_line_split json Hj (t Taken) (co_known _ _ (sh_ok _ _ _ _ H' Taken)) Hne) as [? _]. done. }
    assert (num_eq (JInt (recipients json (t Taken) (t LeftOut))) (JInt 0) = (recipients json (t Taken) (t LeftOut) =? 0)) as ->; [|done].
    cbn [num_eq]. destruct (Z.eqb_spec (recipients json (t Taken) (t LeftOut)) 0) as [Hz|Hz];
      [rewrite Hz; by apply bool_decide_eq_true|apply bool_decide_eq_false; congruence].
  - etrans; [|exact Hids]. unfold val_of, first. cbn [sel_of fst snd export_field]. unfold found in *. by rewrite (fs_sel _ _ _ F), Hl.
  - exact S'.
Qed.

(** C24 -- After any session on the page of the import, its button posts exactly when
    the id of the task has the form asked for and one of the properties of the
    field is an industry interest. *)
Theorem import_gate json st es (w : world label_page) :
  labels_ok json → shows import_field json st w → Forall (offered json) es →
  ∃ w' propVal, for_each es (handle import_field skip) w = (Ok tt, w')
    ∧ shows import_field json (abs_acts st es) w' ∧ sub_get propTag (w_glob w') = Some propVal
    ∧ ∀ params taskId, val_of (js "#task") w' = VStr taskId →
      posts (importPropLib propVal params w').2
      = (posts w' + if import_fits false [] taskId && existsb of_industry (of_side (abs_acts st es) tt) then 1 else 0)%nat.
Proof.
  intros Hj H Ho. pose proof (import_recount json). destruct (sh_looks _ _ _ _ H) as (v & R & _).
  pose proof (po_single _ _ (rd_page _ _ _ R) (tt, false)) as Hp.
  destruct (session_simulates import_field json Hj skip propTag (λ _ _, True) st w es H Hp I Ho) as (w' & E & H' & _).
  destruct (sh_arrays _ _ _ _ H' tt) as (a & Ea & Ha). exists w', a. split; [done|]. split; [done|]. split; [done|].
  intros params taskId Hv. rewrite (importPropLib_posts a params taskId w' Hv). f_equal.
  destruct (sh_looks _ _ _ _ H') as (v' & R' & _). pose proof (po_single _ _ (rd_page _ _ _ R') (tt, false)) as (i & e & Hf & _).
  change (sel_of import_field (tt, false)) with (js "#assProp") in Hf. rewrite Hf.
  rewrite <-(industry_found a _ Ha).
  unfold import_fits. cbn [length Z.of_nat Z.eqb negb andb]. by rewrite andb_true_r.
Qed.

(** With ten labels nothing is added, not even a label that would take the place
    of another. *)
Lemma full_refuses_exchange {side} `{EqDecision side} (st : picked side) s x b :
  is_marked st b = false → length (of_side st s) = 10%nat → x ∈ of_side st s → clash b x = true →
  abs_act st (Click s b) = st ∧ (length (add b (of_side st s)) <= 10)%nat.
Proof.
  intros Hm Hl Hx Hc. cbn [abs_act]. rewrite Hm. unfold is_full. rewrite Hl. split; [done|].
  unfold add, keep. rewrite length_app. cbn [length]. apply list_elem_of_split in Hx as (u & v & E). rewrite E in Hl |- *.
  rewrite List.filter_app, length_app. cbn [List.filter]. rewrite Hc. cbn [negb]. rewrite length_app in Hl. cbn [length] in Hl.
  pose proof (List.filter_length_le (λ y, negb (clash b y)) u). pose proof (List.filter_length_le (λ y, negb (clash b y)) v).
  lia.
Qed.

(** *** Pages to try them on *)

Definition demo_label (id : Z) (t : string) (info : jstr) (n : Z) : label :=
  Label (VNum (JInt id)) (js t) info (VNum (JInt n)).
Definition demo_game : label := demo_label 1 "G" industry 100.
Definition demo_young : label := demo_label 22 "Y" (js "A") 20.
Definition demo_old : label := demo_label 23 "O" (js "A") 3.
Definition demo_json : list (jstr * list label) := [(industry, [demo_game]); (js "A", [demo_young; demo_old])].

(** The fields of [inputs] with their hidden fields, the rows of the box and
    whatever else the page has. *)
Definition demo_row (i : eid) (b : label) : list (jstr * list eid) :=
  [(row_of (key b), [i]); (js "a[data-id=" ++ str_of_val (VStr (key b)) ++ js "]", [(i + 3)%nat])].
Definition demo_link (i : eid) (b : label) : list (eid * elt) :=
  [(i, blank); ((i + 3)%nat, with_attr (js "data-info") (lb_info b) blank)].
Definition demo_page (fields : list (jstr * list eid)) (arrays : list jstr) : world label_page :=
  page (fields ++ [(box_rows, [10; 11; 12]%nat)]
        ++ demo_row 10 demo_game ++ demo_row 11 demo_young ++ demo_row 12 demo_old)
       ([(0%nat, blank); (1%nat, blank); (2%nat, blank); (3%nat, blank); (4%nat, with_val (js "1.2.3") blank)]
        ++ demo_link 10 demo_game ++ demo_link 11 demo_young ++ demo_link 12 demo_old)
       (LabelPage (list_to_map (List.map (λ i, (i, [])) arrays)) demo_json).
Definition demo_export_page : world label_page :=
  demo_page [(enTag, [0]); (hidden enTag, [1]); (js "#enTagId", [1]); (outTag, [2]); (hidden outTag, [3]); (personSum, [4])]%nat
    [enTag; outTag].
Definition demo_import_page : world label_page :=
  demo_page [(propTag, [0]); (hidden propTag, [1]); (js "#task", [4])]%nat [propTag].
Definition nothing_picked {side} : picked side := Picked (λ _, []) None.

Ltac each_label H := unfold labels in H; cbn in H; repeat (apply elem_of_cons in H as [-> | H]); [..|by apply not_elem_of_nil in H].

Lemma demo_labels_ok : labels_ok demo_json.
Proof.
  constructor.
  - intros b Hb. each_label Hb; eexists; (split; [reflexivity|]); by vm_compute.
  - intros x y Hx Hy. each_label Hx; each_label Hy; done.
  - intros x y Hx Hy. each_label Hx; each_label Hy; done.
Qed.
Lemma demo_counts_ok : counts_ok demo_json.
Proof. constructor; [|by vm_compute]. intros b Hb. each_label Hb; by vm_compute. Qed.

Ltac demo_rows :=
  constructor;
  [ refine (proj1 (bool_decide_eq_true _) _); vm_compute; reflexivity
  | let b := fresh "b" in let Hb := fresh "Hb" in
    intros b Hb; each_label Hb; (split; [on_page|]); refine (proj1 (Forall_forall _ _) _);
    refine (proj1 (bool_decide_eq_true _) _); vm_compute; reflexivity
  | let x := fresh "x" in let y := fresh "y" in let Hx := fresh "Hx" in let Hy := fresh "Hy" in
    intros x y Hx Hy; each_label Hx; each_label Hy; intros ?; try done; on_page ].
Lemma nothing_ok json : chosen_ok json [].
Proof. constructor; [constructor|by intros ? ?%elem_of_nil|cbn; lia|]. intros c _. unfold sole. cbn. lia. Qed.

Lemma demo_export_shows : shows export_field demo_json nothing_picked demo_export_page.
Proof.
  constructor; [|intros []; exists []; (split; [on_page|by change (Forall2 stands [] [])])|intros s; apply nothing_ok|reflexivity|demo_rows| |].
  - exists (λ _, Look [] false false). split; [|by intros []]. constructor; [constructor|].
    + intros [[] []]; on_page.
    + intros [[] []] [[] []] Hne; try done; on_page.
    + intros [[] []]; vm_compute; reflexivity.
  - intros b Hb. each_label Hb; on_page.
  - intros b Hb. each_label Hb; on_page.
Qed.
Lemma demo_import_shows : shows import_field demo_json nothing_picked demo_import_page.
Proof.
  constructor; [|intros []; exists []; (split; [on_page|by change (Forall2 stands [] [])])|intros s; apply nothing_ok|reflexivity|demo_rows| |].
  - exists (λ _, Look [] false false). split; [|by intros []]. constructor; [constructor|].
    + intros [[] []]; on_page.
    + intros [[] []] [[] []] Hne; try done; on_page.
    + intros [[] []]; vm_compute; reflexivity.
  - intros b Hb. each_label Hb; on_page.
  - intros b Hb. each_label Hb; on_page.
Qed.

Ltac all_offered :=
  lazymatch goal with
  | |- Forall _ [] => apply Forall_nil_2
  | |- Forall _ _ => apply Forall_cons_2; [all_offered|all_offered]
  | |- _ => cbn [offered]; first [exact I | refine (proj1 (bool_decide_eq_true _) _); vm_compute; reflexivity]
  end.

(** The box is opened, a label taken and taken out again, a label taken that
    another of its category replaces, and a label left out. *)
Definition demo_clicks : list (act tag_side) :=
  [Open Taken; Click Taken demo_game; Click Taken demo_game; Click Taken demo_young; Click Taken demo_old;
   Click Taken demo_game; Open LeftOut; Click LeftOut demo_game].
Lemma demo_clicks_offered : Forall (offered demo_json) demo_clicks.
Proof. unfold demo_clicks. all_offered. Qed.

Lemma label_session_witness :
  ∃ w', (callReloadSum ;; for_each demo_clicks (handle export_field callReloadSum)) demo_export_page = (Ok tt, w')
    ∧ (e_html <$> first personSum w') = Some (js "3") ∧ val_of (hidden enTag) w' = VStr (js "23,1").
Proof.
  destruct (label_session demo_json nothing_picked demo_clicks demo_export_page) as (w' & E & H & S).
  - exact demo_labels_ok.
  - exact demo_counts_ok.
  - exact demo_export_shows.
  - on_page.
  - exact demo_clicks_offered.
  - exists w'. split; [exact E|]. split.
    + etrans; [exact S|]. vm_compute. reflexivity.
    + destruct (sh_looks _ _ _ _ H) as (v & R & Hv). pose proof (reads_val _ _ _ (Taken, true) R) as Hi.
      rewrite (proj2 (Hv Taken)) in Hi. etrans; [exact Hi|]. vm_compute. reflexivity.
Defined.

Lemma export_gate_witness :
  ∃ w', (callReloadSum ;; for_each demo_clicks (handle export_field callReloadSum)) demo_export_page = (Ok tt, w')
    ∧ posts (statNum [] w').2 = (posts w' + 1)%nat.
Proof.
  destruct (export_gate demo_json nothing_picked demo_clicks [] demo_export_page) as (w' & E & P).
  - exact demo_labels_ok.
  - exact demo_counts_ok.
  - exact demo_export_shows.
  - on_page.
  - exact demo_clicks_offered.
  - vm_compute. reflexivity.
  - exists w'. split; [exact E|]. rewrite P. f_equal.
Defined.

Lemma import_gate_witness :
  ∃ w' propVal, for_each [Open tt; Click tt demo_young; Click tt demo_game] (handle import_field skip) demo_import_page = (Ok tt, w')
    ∧ sub_get propTag (w_glob w') = Some propVal
    ∧ (val_of (js "#task") w' = VStr (js "1.2.3") → posts (importPropLib propVal [] w').2 = (posts w' + 1)%nat).
Proof.
  destruct (import_gate demo_json nothing_picked [Open tt; Click tt demo_young; Click tt demo_game] demo_import_page)
    as (w' & a & E & _ & Ea & P).
  - exact demo_labels_ok.
  - exact demo_import_shows.
  - all_offered.
  - exists w', a. split; [exact E|]. split; [exact Ea|]. intros Hv. rewrite (P [] _ Hv). f_equal.
Defined.
