(* ===== verification/Periods.v ===== *)
(** * Comparing periods on the operators' site -- [campaign/campaign.stat.compare.js]

    An older copy of [report.detail.compare.js] ([Compare]): the addresses are
    made from the one the page keeps in [#listUrl], the export borrows the
    form of the page, and a period chosen twice is not refused. *)

From S2P Require Import Prelude Js JsFacts Page TagList Url Base Account Operator Lists Desk Compare Listing.
#[local] Open Scope Z_scope.

Section scripts.
Context {G : Type}.

(** [postParam()] *)
Definition op_postParam : J G unit :=
  text ← Compare.period;
  num ← val (js "#" ++ text ++ js "Box input[type=hidden]");
  if is_str num "otherMonth" then Listing.openPop (Js.num 0) None (Some (js "#monthPad"))
  else if is_str num "otherSeason" then Listing.openPop (Js.num 0) None (Some (js "#seasonPad"))
  else
    u ← val list_url;
    emit (EvAssign (str_of_val u ++ js "&m=" ++ text ++ js "&recents=" ++ str_of_val num)).
(** [swicthBox()] *)
Definition op_swicthBox : J G unit :=
  text ← Compare.period;
  hide (js ".prd_box") ;;
  show (js "#" ++ text ++ js "Box") ;;
  op_postParam.

(** The buttons of the two pads. *)
Definition op_compare_click (fst_ snd_ err inputs : jstr) : J G unit :=
  a ← val fst_;
  b ← val snd_;
  if bool_decide (a = VStr []) || bool_decide (b = VStr [])
  then set_html err (js "请选择必填项")
  else
    arr ← Compare.chosen inputs;
    text ← Compare.period;
    u ← val list_url;
    emit (EvAssign (str_of_val u ++ js "&extra=other&m=" ++ text ++ js "&checkeds=" ++ join [c_comma] arr)) ;;
    Operator.closeDialog.
Definition op_smt_click : J G unit :=
  op_compare_click (js "#m_0") (js "#m_1") (js "#monthPad .err") (js "input[name=mth]").
Definition op_seasonBtn_click : J G unit :=
  op_compare_click (js "#s_0") (js "#s_1") (js "#seasonPad .err") (js "input[name=sth]").

(** [exportCsv(url)] *)
Definition op_exportCsv (url : jstr) : J G unit :=
  checkeds ← val (js "#checkeds");
  text ← Compare.period;
  num ← val (js "#" ++ text ++ js "Box input[type=hidden]");
  let extra := if negb (is_str checkeds "") then js "other" else js "normal" in
  set_attr list_form action (url ++ js "&extra=" ++ extra ++ js "&m=" ++ text ++ js "&recents=" ++ str_of_val num
                             ++ js "&checkeds=" ++ str_of_val checkeds) ;;
  submit list_form.
End scripts.

(** ** Facts *)

Section facts.
Context {G : Type}.
Implicit Types w : world G.

(** The periods chosen, the empty ones apart. *)
Definition picked_periods (inputs : jstr) w : list jstr :=
  List.filter (λ v, negb (bool_decide (v = []))) (List.map e_val (List.map (nth_elt w) (found inputs w))).

(** The pad compares exactly when the two first periods are chosen, whether or
    not one is chosen twice, and otherwise says what is missing. *)
Theorem op_compare_click_spec fst_ snd_ err inputs w :
  ∃ w', op_compare_click fst_ snd_ err inputs w = (Ok tt, w')
    ∧ w_ev w' = w_ev w ++
        (if decide (val_of fst_ w ≠ VStr [] ∧ val_of snd_ w ≠ VStr [])
         then [EvAssign (str_of_val (val_of list_url w) ++ js "&extra=other&m=" ++ str_of_val (val_of (js "#periodId") w)
                         ++ js "&checkeds=" ++ join [c_comma] (picked_periods inputs w))]
         else []).
Proof.
  unfold op_compare_click.
  rewrite (bind_ok (val fst_) _ w (val_of fst_ w) w eq_refl), (bind_ok (val snd_) _ w (val_of snd_ w) w eq_refl).
  destruct (bool_decide (val_of fst_ w = VStr []) || bool_decide (val_of snd_ w = VStr [])) eqn:E.
  - eexists. split; [reflexivity|]. rewrite decide_False; [by rewrite app_nil_r|].
    intros [H1 H2]. by rewrite !bool_decide_eq_false_2 in E.
  - bool_simp. rewrite decide_True by done.
    rewrite (bind_ok (Compare.chosen inputs) _ w (picked_periods inputs w) w eq_refl).
    rewrite (bind_ok (Compare.period (G := G)) _ w (str_of_val (val_of (js "#periodId") w)) w eq_refl).
    rewrite (bind_ok (val list_url) _ w (val_of list_url w) w eq_refl).
    eexists. split; [reflexivity|]. done.
Qed.

(** The two copies ask for the same requests, but for a period chosen twice. *)
Theorem copies_agree cid fst_ snd_ err inputs w :
  (∀ x, x ∈ picked_periods inputs w → x ∉ proto_names) →
  let ev_count m := length (w_ev (snd (m w : res unit * world G))) in
  ev_count (compare_click cid fst_ snd_ err inputs)
  = (ev_count (op_compare_click fst_ snd_ err inputs)
     - if bool_decide (val_of fst_ w ≠ VStr [] ∧ val_of snd_ w ≠ VStr [] ∧ ¬ NoDup (picked_periods inputs w)) then 1 else 0)%nat.
Proof.
  intros Hp ev_count. destruct (compare_click_spec cid fst_ snd_ err inputs w Hp) as (w1 & E1 & V1).
  destruct (op_compare_click_spec fst_ snd_ err inputs w) as (w2 & E2 & V2).
  unfold ev_count. rewrite E1, E2. cbn [snd]. rewrite V1, V2, !length_app. fold (picked_periods inputs w).
  repeat case_decide; case_bool_decide; cbn [length]; try lia; tauto.
Qed.
End facts.

(** The same month twice is compared here and refused on the other site. *)
Definition demo_periods : world unit :=
  page_with [(js "#m_0", with_val (js "201405") blank); (js "#m_1", with_val (js "201405") blank);
             (list_url, with_val (js "/c") blank)] tt.
Definition demo_twice : world unit :=
  World (<[js "input[name=mth]" := [0; 1]%nat]> (w_sel demo_periods)) (w_elt demo_periods) (w_box demo_periods)
    (w_win demo_periods) (w_ui demo_periods) [] 0 tt.
Example repeated_month :
  w_ev (op_smt_click demo_twice).2 = [EvAssign (js "/c&extra=other&m=undefined&checkeds=201405,201405")]
  ∧ w_ev (smt_click (js "9") demo_twice).2 = [].
Proof. split; vm_compute; reflexivity. Qed.
